(* ===== verification/_CoqProject ===== *)
-Q . S2P
Prelude.v
GoStrings.v
Domain.v
Base64.v
Mime.v
GoTime.v
Decimal.v
Duration.v
Flag.v
Mux.v
Telemetry.v
Rfc3339.v
Json.v
Config.v
Mtls.v
Database.v
Outbox.v
Kafka.v
DeadLetter.v
Consumer.v
Redrive.v
RedriveCli.v
Publisher.v
Fixtures.v
JsonExamples.v
WalletRepo.v
LedgerRepo.v
LedgerPages.v
LedgerConsumer.v
WalletService.v
Accounts.v
Delivery.v
Verification.v
Grpc.v
WalletServer.v
LedgerServer.v
VerificationServer.v
LedgerReads.v
SagaTypes.v
SagaStore.v
Orchestrator.v
FraudReview.v
SagaSafety.v
SagaRuns.v
SagaConsumer.v
Processor.v
Rail.v
ProcessorConsumer.v
RateLimiter.v
SagaServer.v
Gateway.v
GatewayWallet.v
WalletApi.v
ApiAgreement.v
GatewayRouter.v
DevToken.v
SagaFlow.v
Workers.v
SagaKeeping.v
Settlement.v
FraudEvents.v
SagaAudit.v
Platform.v
Smoke.v
Notification.v
Subscriptions.v
Process.v
Commands.v
Startup.v
Migrations.v
KafkaExamples.v
SagaExamples.v
ProcessorExamples.v
SettlementExamples.v
GatewayExamples.v
GatewayWalletExamples.v
SmokeExamples.v
NotificationExamples.v
VerificationMemory.v
Loadgen.v
