(* ===== verification/Prelude.v ===== *)
(** * Prelude: the vocabulary shared by every component, and the guide to the library.

    ** The program

    The library models the Go services under [src/services]: a wallet service, a
    ledger, an identity verification service, a saga orchestrator that carries a
    payment through them, a payment processor in front of an external rail, and the
    transactional outbox, the Kafka consumers and the dead letters between them; in front
    of them an HTTP gateway, and behind them a service that notifies the users.
    A payment is a saga: verification is checked, the sender's wallet is debited, a
    ledger reservation is made, a [payment.execute] command goes through the outbox to
    the processor, and the result ([payment.completed], [payment.failed]) confirms the
    reservation or cancels it and refunds the debit.  A fraud worker may flag a
    payment, which then waits for an operator.

    ** How code is modelled

    Code that talks to a database or to another service is a program ([prog] below)
    over a state: every statement and every call is a round trip, and a schedule says
    which round trips are lost before or after the other side acted.  Transactions
    work on a copy that [commit] publishes.  So "under any faults" in a theorem means
    for every schedule, and a theorem that a handler succeeds assumes the schedule is
    empty of faults.  A handler runs to its end before the next one starts: the row
    locks of the source are not needed in the model and what two handlers would do to
    each other inside one another's transactions is not modelled.  Machine integers are
    [Z] with the wrap-around of their width; times are nanoseconds since the year 1 in
    UTC; [timestamptz] columns keep microseconds.  JSON is kept as documents; where the
    bytes matter the class [JsonText] gives each document its text, and its law is
    assumed only of the documents [json_ok] accepts.  Identifiers from the database
    ([Postgres]), the text of UUIDs ([Uuid]), clocks, the broker, the trace library and
    the payment rail are classes; their laws state what the services rely on, and the
    example files give instances that satisfy them.

    ** The files, and what they model

    - [Prelude]: integers, fallible results, programs, faults; [wp], [refines] (an
      operation against a pure specification), [triple] (any faults), [yields] and
      [lands] (no faults).
    - [GoStrings], [Base64], [Mime], [GoTime], [Decimal], [Duration], [Flag], [Rfc3339],
      [Mux], [Json]: what the code uses of Go's [strings], [encoding/base64], [mime],
      [time], [strconv], [flag], [net/http] and [encoding/json].
    - [Config]: [internal/config].  [Mtls]: [internal/mtls].  [Telemetry]: the labels and
      attributes of [internal/telemetry].
    - [Domain]: [internal/domain].  [Database]: the tables of [db/migrations] and the
      statements of [internal/repo/queries].  [Outbox], [Publisher]: [internal/outbox].
    - [Kafka], [DeadLetter], [Consumer], [Redrive], [RedriveCli]: the broker's log and
      the trace headers of [internal/telemetry], [internal/deadletter], the loop the
      consumers share, with their [Run] over what the broker's polls return,
      [cmd/dlq-redrive] and its command line.  [Subscriptions]: the consumer each service
      builds, its topics and its handler.
    - [WalletRepo], [LedgerRepo], [LedgerPages]: [internal/repo/wallets.go].
      [WalletService]: [internal/wallet].  [LedgerConsumer]: [internal/ledgerconsumer].
      [Accounts]: every request to wallets and ledger, in any order.  [Delivery]: the
      wallet's events from its outbox to the broker.  [LedgerReads]: the fraud history,
      the velocity metrics, the ledger's read handlers with the texts of their cursors,
      and the gateway's ledger client.
    - [Verification]: [internal/verification] over its Postgres store;
      [VerificationMemory]: its store for tests.
    - [Grpc], [WalletServer], [LedgerServer], [VerificationServer]: the gRPC servers.
    - [SagaTypes], [SagaStore], [Orchestrator], [FraudReview]: [internal/saga] and
      [internal/event/fraud.go].  [SagaConsumer]: [internal/sagaconsumer].
      [SagaServer]: [internal/sagagrpc] and the gateway's client of it.
    - [RateLimiter], [Gateway], [GatewayWallet]: the gateway's limiter, its
      authentication with the payment and review routes, and the wallet, transfer,
      ledger and verification routes with their clients.  [GatewayRouter]: the routes
      that [cmd/gateway] puts together.  [DevToken]: [devtools/devtoken], against the
      gateway's authentication.
    - [WalletApi]: [internal/handler] and [internal/service], the wallet API without the
      gateway.  [ApiAgreement]: the comparison of the two.
    - [Notification]: [internal/notification].  [Loadgen]: [internal/loadgen].
    - [Platform]: the orchestrator's gRPC clients connected to the modelled servers.
    - [Processor], [Rail], [ProcessorConsumer]: [internal/paymentprocessor].
    - [SagaSafety], [SagaRuns], [SagaFlow], [SagaAudit], [SagaKeeping]: the proofs about
      the saga.  [Workers]: the goroutines of the orchestrator that reap overdue reviews
      and sweep the audit trail, over the ticks of their tickers.  [FraudEvents]: the
      fraud events the orchestrator publishes against their schemas.  [Settlement]: the
      orchestrator and the processor with their outboxes between them.
    - [Process], [Commands], [Startup]: the entry points under [cmd], each a sequence of
      steps that acquire, start, wait and release, and what they guarantee together.
      [Migrations]: the migrations of [internal/repo] with the advisory lock, for several
      services starting at once.
    - [Smoke]: gateway, orchestrator, processor and rail as one stack that can be run, the
      tools under [devtools] that test such a stack, and the accounts [cmd/loadgen] seeds
      in one.
    - [Fixtures], [JsonExamples], [KafkaExamples], [SagaExamples], [ProcessorExamples],
      [SettlementExamples], [GatewayExamples], [GatewayWalletExamples],
      [NotificationExamples], [SmokeExamples]: concrete
      instances, the theorems applied to them, and runs in which the code does otherwise
      than its comments say.

    ** What the theorems show

    - Wallets and ledger: each operation refines its specification under every fault
      schedule ([transfer_atomic], [debit_atomic], [compensate_atomic],
      [confirm_atomic], [append_atomic]), so it happens entirely or not at all;
      repeating a debit debits once; over any requests money is conserved, no balance
      leaves its range, the ledger keeps double entry, a reservation settles once;
      following the cursors reads every entry once and ends.
    - Verification: a decision is final and announced once, the manual mode
      verifies nobody without an approval, and the store of the tests answers as the
      store of the service does.
    - Saga: over all runs, with the other services' clients acting in between, a
      payment is never both refunded and settled, at most one command per payment is
      issued, ended sagas stay ended, every saga moves along the transitions; the
      handlers do what they are for when nothing is lost; the audit trail has no
      duplicates and the sweeper removes exactly what has expired; a review that is
      overdue is rejected at the next tick, and every fraud event that is published is
      one its schema accepts.  The saga is proved
      against the classes [RemoteContract] and [ConfirmsAsked], which [Platform]
      discharges for the modelled services; invariants of the handlers go through the
      class [Upkeep], with an instance for each of them.
    - Events: what the outbox marks as published is on the broker, enough batches
      drain it, an acknowledged record has its effect or its dead letter, a dead-letter
      topic is redriven as it was with at most one record repeated, the redrive command
      does no more than its line says, a transfer ends up in the ledger, and consuming any topic
      contents is a run of the orchestrator.
    - Processor: one result per payment, which is the rail's, bounded retries, every
      valid command answered; and the whole way of a payment from the saga to the rail
      and back.  The two services together, under any loss, reordering and repetition:
      the ledger confirms only payments for which the rail completed a charge of what
      their sagas ordered, and the rail is asked for nothing else.
    - Gateway and wallet API: a request can only do what its token allows, over all the
      routes of each server; a wallet is shown to its owner alone, a statement read page
      by page through the gateway is complete, the two servers answer alike, and the
      rate limiter lets through what its rate says.
    - Start-up and transport: the settings a service starts with are usable, every
      command acquires before it serves and releases in the reverse order whatever fails,
      migrations are applied by one service at a time and once, and with mutual TLS on no
      handshake goes without it while the certificates rotate.
    - Notification: what was acknowledged was sent or is a dead letter, and amounts
      are printed so that they read back.  Load generator: its counters add up in every
      order of its goroutines.
    - Tools: the smoke test of phase 3 and the drill probe pass on the modelled stack,
      evaluated from the request to the rail and back, and the smoke test of phase 2
      cannot pass on any.

    ** Bounds and fuel

    [FraudReview.Sweep], whose source loops until a batch comes back short, takes fuel:
    [sweep_removes_exactly_expired] shows that as many batches as there are rows, plus
    one, are enough.  So do [LedgerPages.read_pages] and [GatewayWallet.read_statement],
    clients that follow cursors: [pages_read_everything] and [statement_is_complete] show
    that one request more than there are entries is enough.  The loop of the processor is recursive on its backoffs, the parsers
    on their texts, and the polls of [Smoke] on the ticks that fit before their deadline.

    ** What is not modelled

    Telemetry spans, samplers and exporters, the command of the load generator, and what
    [devtools/phase4_smoke] asks Prometheus, Jaeger and Grafana are input and output around
    the modelled code, as are the lines [cmd/dlq-redrive] prints; the code under [gen] is generated;
    the SQL of the migrations is not interpreted, the tables are taken as the migrations
    leave them.  [json.Marshal] and the database are
    taken to accept every value the services write: texts with NUL bytes or broken UTF-8
    and years beyond 9999 are outside the model, and so are request paths with percent
    escapes.  The Python agents and the web client under [src/app] and [src/web] are
    other programs. *)

From stdpp Require Export base tactics list gmap strings option numbers.
From Stdlib Require Export ZArith Lia.

#[global] Open Scope Z_scope.
#[export] Set Default Goal Selector "!".
#[export] Set Warnings "-clear-no-such-hyp".

(** ** Machine integers

    Go's [int64] and [int32] are kept as [Z] and every arithmetic operation that
    the source performs at a width wraps the way the language says. *)

Definition wrap64 (z : Z) : Z := (z + 2 ^ 63) mod 2 ^ 64 - 2 ^ 63.
Definition wrap32 (z : Z) : Z := (z + 2 ^ 31) mod 2 ^ 32 - 2 ^ 31.
Definition int64 (z : Z) : Prop := - 2 ^ 63 <= z < 2 ^ 63.
Definition int32 (z : Z) : Prop := - 2 ^ 31 <= z < 2 ^ 31.

#[export] Instance int64_dec z : Decision (int64 z).
Proof. unfold int64. apply _. Defined.

Lemma wrap64_id z : int64 z -> wrap64 z = z.
Proof. unfold int64, wrap64. intros. rewrite Z.mod_small; lia. Qed.

Lemma wrap64_range z : int64 (wrap64 z).
Proof. unfold int64, wrap64. pose proof (Z.mod_pos_bound (z + 2 ^ 63) (2 ^ 64)). lia. Qed.

Lemma wrap32_id z : int32 z -> wrap32 z = z.
Proof. unfold int32, wrap32. intros. rewrite Z.mod_small; lia. Qed.

(** Adding two non-negative [int64] values either fits or wraps to a negative
    number: the sign alone tells the two cases apart. *)
Lemma wrap64_add_nonneg a b :
  0 <= a < 2 ^ 63 -> 0 <= b < 2 ^ 63 -> 0 <= wrap64 (a + b) -> wrap64 (a + b) = a + b.
Proof.
  unfold wrap64. intros Ha Hb Hn.
  destruct (decide (a + b < 2 ^ 63)) as [Hlt | Hge].
  - rewrite Z.mod_small; lia.
  - exfalso. revert Hn.
    replace (a + b + 2 ^ 63) with (a + b - 2 ^ 63 + 1 * 2 ^ 64) by lia.
    rewrite Z.mod_add by lia. rewrite Z.mod_small by lia. lia.
Qed.

Lemma wrap64_add_overflow a b :
  0 <= a < 2 ^ 63 -> 0 <= b < 2 ^ 63 -> 2 ^ 63 <= a + b -> wrap64 (a + b) < 0.
Proof.
  intros. destruct (decide (0 <= wrap64 (a + b))) as [Hn|]; [| lia].
  apply wrap64_add_nonneg in Hn; [| done..].
  pose proof (wrap64_range (a + b)). unfold int64 in *. lia.
Qed.

(** ** Record update

    [derive_setter eta] builds, for a goal [F -> R -> R], the function that
    replaces the field [proj] of a record, from the eta-expansion [eta] of the
    record type. *)

Ltac derive_setter eta proj :=
  intros v r;
  let e := eval unfold eta in (eta r) in
  let p := eval pattern (proj r) in e in
  lazymatch p with
  | ?f _ => let t := eval cbv beta in (f v) in exact t
  end.

(** ** Fallible results *)

Inductive res (E A : Type) : Type :=
| Ok (a : A)
| Err (e : E).
Arguments Ok {E A} a.
Arguments Err {E A} e.

#[export] Instance res_eq_dec {E A} `{EqDecision E, EqDecision A} : EqDecision (res E A).
Proof. solve_decision. Defined.

Definition res_bind {E A B} (r : res E A) (k : A -> res E B) : res E B :=
  match r with Ok a => k a | Err e => Err e end.

Definition is_Ok {E A} (r : res E A) : bool :=
  match r with Ok _ => true | Err _ => false end.

(** ** Connections, round trips and the fault schedule

    A component talks to the outside (a database, a remote service) by round
    trips.  Each one consumes an entry of the schedule: it may succeed, be lost
    before the other side acts, or be lost after it acted (the effect is there
    and the caller only sees an error).  An exhausted schedule means no more
    faults. *)

Inductive fault := NoFault | FailBefore | FailAfter.

#[export] Instance fault_eq_dec : EqDecision fault.
Proof. solve_decision. Defined.

(** The error a driver reports when a round trip is lost. *)
Class Infra (E : Type) := unavailable : E.

Record conn (T : Type) := Conn {
  committed : T;          (* what every other session sees *)
  working : option T;     (* the open transaction's view, if one is open *)
  schedule : list fault
}.
Arguments Conn {T} _ _ _.
Arguments committed {T} _.
Arguments working {T} _.
Arguments schedule {T} _.

(** A schedule without faults. *)
Definition quiet (s : list fault) : Prop := Forall (eq NoFault) s.

#[export] Instance quiet_dec s : Decision (quiet s).
Proof. unfold quiet. apply _. Defined.

Definition next_fault (s : list fault) : fault * list fault :=
  match s with [] => (NoFault, []) | f :: s' => (f, s') end.

(** The state an operation reads: the open transaction's, else the committed one. *)
Definition current {T} (c : conn T) : T := default (committed c) (working c).

(** A write goes to the open transaction; without one it is committed at once. *)
Definition put {T} (t : T) (c : conn T) : conn T :=
  match working c with
  | Some _ => Conn (committed c) (Some t) (schedule c)
  | None => Conn t None (schedule c)
  end.

Definition with_schedule {T} (s : list fault) (c : conn T) : conn T :=
  Conn (committed c) (working c) s.

Definition prog (T E A : Type) : Type := conn T -> res E A * conn T.

Section Programs.
Context {T E : Type}.

Definition ret {A} (a : A) : prog T E A := fun c => (Ok a, c).
Definition throw {A} (e : E) : prog T E A := fun c => (Err e, c).

Definition bind {A B} (p : prog T E A) (k : A -> prog T E B) : prog T E B := fun c =>
  match p c with
  | (Ok a, c') => k a c'
  | (Err e, c') => (Err e, c')
  end.

(** The error as a value, for code that inspects [err] instead of returning it. *)
Definition attempt {A} (p : prog T E A) : prog T E (res E A) := fun c =>
  match p c with (r, c') => (Ok r, c') end.

Definition lift {A} (r : res E A) : prog T E A := fun c => (r, c).

(** [if cond { return err }] *)
Definition guard (cond : bool) (e : E) : prog T E unit :=
  if cond then throw e else ret tt.

Context `{Infra E}.

(** One statement, inside the open transaction or on its own. *)
Definition exec {A} (stmt : T -> res E (A * T)) : prog T E A := fun c =>
  let '(f, s) := next_fault (schedule c) in
  let c := with_schedule s c in
  match f with
  | FailBefore => (Err unavailable, c)
  | NoFault =>
      match stmt (current c) with
      | Ok (a, t) => (Ok a, put t c)
      | Err e => (Err e, c)
      end
  | FailAfter =>
      match stmt (current c) with
      | Ok (_, t) => (Err unavailable, put t c)
      | Err _ => (Err unavailable, c)
      end
  end.

Definition query {A} (q : T -> res E A) : prog T E A :=
  exec (fun t => match q t with Ok a => Ok (a, t) | Err e => Err e end).

Definition begin : prog T E unit := fun c =>
  let '(f, s) := next_fault (schedule c) in
  match f with
  | NoFault => (Ok tt, Conn (committed c) (Some (committed c)) s)
  | _ => (Err unavailable, Conn (committed c) None s)
  end.

Definition commit : prog T E unit := fun c =>
  let '(f, s) := next_fault (schedule c) in
  match f with
  | NoFault => (Ok tt, Conn (current c) None s)
  | FailBefore => (Err unavailable, Conn (committed c) None s)
  | FailAfter => (Err unavailable, Conn (current c) None s)
  end.

(** [_ = tx.Rollback(ctx)]: the error is dropped, and a connection that cannot
    roll back is closed, which rolls back too. *)
Definition rollback : prog T E unit := fun c =>
  (Ok tt, Conn (committed c) None (schedule c)).

(** [defer func() { _ = tx.Rollback(ctx) }()] around the rest of a function. *)
Definition deferred_rollback {A} (p : prog T E A) : prog T E A := fun c =>
  match p c with (r, c') => (r, Conn (committed c') None (schedule c')) end.
End Programs.

Declare Scope prog_scope.
Delimit Scope prog_scope with prog.
Notation "'let!' x := p 'in' q" := (bind p (fun x => q))
  (at level 10, x name, p at level 100, q at level 200) : prog_scope.
Notation "p ;! q" := (bind p (fun _ => q))
  (at level 100, q at level 200, right associativity) : prog_scope.
#[global] Open Scope prog_scope.

(** ** Reasoning about programs

    [wp p Q c]: running [p] from [c] ends in a result and a connection that
    satisfy [Q].  Programs are total, so this is total correctness. *)

Definition wp {T E A} (p : prog T E A) (Q : res E A -> conn T -> Prop) (c : conn T) : Prop :=
  match p c with (r, c') => Q r c' end.

Lemma wp_elim {T E A} (p : prog T E A) (Q : res E A -> conn T -> Prop) c :
  wp p Q c -> Q (fst (p c)) (snd (p c)).
Proof. unfold wp. by destruct (p c). Qed.

(** A round trip was lost: the only source of [unavailable] in the rules below. *)
Definition faulty {T} (c : conn T) : Prop := ~ quiet (schedule c).

Lemma quiet_next s f s' : next_fault s = (f, s') -> quiet s -> f = NoFault /\ quiet s'.
Proof. destruct s; simpl; intros [= <- <-] Hq; inversion Hq; subst; done. Qed.

Section WpRules.
Context {T E : Type} `{Infra E}.
Implicit Types c : conn T.

Lemma wp_ret {A} (a : A) (Q : res E A -> conn T -> Prop) c : Q (Ok a) c -> wp (ret a) Q c.
Proof. done. Qed.

Lemma wp_throw {A} e (Q : res E A -> conn T -> Prop) c : Q (Err e) c -> wp (throw e) Q c.
Proof. done. Qed.

Lemma wp_lift {A} r (Q : res E A -> conn T -> Prop) c : Q r c -> wp (lift r) Q c.
Proof. done. Qed.

Lemma wp_bind {A B} (p : prog T E A) (k : A -> prog T E B) Q c :
  wp p (fun r c' => match r with Ok a => wp (k a) Q c' | Err e => Q (Err e) c' end) c ->
  wp (bind p k) Q c.
Proof. unfold wp, bind. by destruct (p c) as [[a | e] c']. Qed.

Lemma wp_attempt {A} (p : prog T E A) (Q : res E (res E A) -> conn T -> Prop) c :
  wp p (fun r c' => Q (Ok r) c') c -> wp (attempt p) Q c.
Proof. unfold wp, attempt. by destruct (p c). Qed.

Lemma wp_guard b e (Q : res E unit -> conn T -> Prop) c :
  (b = true -> Q (Err e) c) -> (b = false -> Q (Ok tt) c) -> wp (guard b e) Q c.
Proof. unfold wp, guard. destruct b; naive_solver. Qed.

Lemma wp_mono {A} (p : prog T E A) (Q Q' : res E A -> conn T -> Prop) c :
  wp p Q c -> (forall r c', Q r c' -> Q' r c') -> wp p Q' c.
Proof. unfold wp. destruct (p c). auto. Qed.

Lemma wp_deferred_rollback {A} (p : prog T E A) Q c :
  wp p (fun r c' => Q r (Conn (committed c') None (schedule c'))) c ->
  wp (deferred_rollback p) Q c.
Proof. unfold wp, deferred_rollback. by destruct (p c). Qed.

Lemma wp_rollback (Q : res E unit -> conn T -> Prop) c :
  Q (Ok tt) (Conn (committed c) None (schedule c)) -> wp rollback Q c.
Proof. done. Qed.

(** In the rules for round trips, the schedule after the step is only known to
    stay quiet when it was; a lost round trip comes with the proof that it was
    not. *)
Lemma wp_exec_tx {A} (stmt : T -> res E (A * T)) (Q : res E A -> conn T -> Prop) cm t s :
  (forall s', (quiet s -> quiet s') -> ~ quiet s -> forall t', Q (Err unavailable) (Conn cm (Some t') s')) ->
  (forall s', (quiet s -> quiet s') ->
     match stmt t with
     | Ok (a, t') => Q (Ok a) (Conn cm (Some t') s')
     | Err e => Q (Err e) (Conn cm (Some t) s')
     end) ->
  wp (exec stmt) Q (Conn cm (Some t) s).
Proof.
  unfold wp, exec. simpl. intros Hf Hn.
  destruct (next_fault s) as [f s'] eqn:Hs. unfold current, put; simpl.
  destruct f; simpl.
  - specialize (Hn s' (fun q => proj2 (quiet_next _ _ _ Hs q))).
    by destruct (stmt t) as [[a t'] | e].
  - apply Hf; intros q; by destruct (quiet_next _ _ _ Hs q).
  - destruct (stmt t) as [[a t'] | e]; simpl;
      apply Hf; intros q; by destruct (quiet_next _ _ _ Hs q).
Qed.

Lemma wp_exec_auto {A} (stmt : T -> res E (A * T)) (Q : res E A -> conn T -> Prop) t s :
  (forall s', (quiet s -> quiet s') -> ~ quiet s -> Q (Err unavailable) (Conn t None s')) ->
  (forall s', (quiet s -> quiet s') ->
     match stmt t with
     | Ok (a, t') => Q (Ok a) (Conn t' None s') /\
                     (~ quiet s -> Q (Err unavailable) (Conn t' None s'))
     | Err e => Q (Err e) (Conn t None s')
     end) ->
  wp (exec stmt) Q (Conn t None s).
Proof.
  unfold wp, exec. simpl. intros Hf Hn.
  destruct (next_fault s) as [f s'] eqn:Hs. unfold current, put; simpl.
  destruct f; simpl.
  - specialize (Hn s' (fun q => proj2 (quiet_next _ _ _ Hs q))).
    by destruct (stmt t) as [[a t'] | e]; [destruct Hn |].
  - apply Hf; intros q; by destruct (quiet_next _ _ _ Hs q).
  - assert (~ quiet s) as Hq by (intros q; by destruct (quiet_next _ _ _ Hs q)).
    specialize (Hn s' (fun q => match Hq q with end)).
    destruct (stmt t) as [[a t'] | e]; [by apply (proj2 Hn) | by apply Hf].
Qed.

Lemma wp_query_tx {A} (q : T -> res E A) (Q : res E A -> conn T -> Prop) cm t s :
  (forall s', (quiet s -> quiet s') -> ~ quiet s -> Q (Err unavailable) (Conn cm (Some t) s')) ->
  (forall s', (quiet s -> quiet s') -> Q (q t) (Conn cm (Some t) s')) ->
  wp (query q) Q (Conn cm (Some t) s).
Proof.
  unfold wp, query, exec. simpl. intros Hf Hn.
  destruct (next_fault s) as [f s'] eqn:Hs. unfold current, put; simpl.
  assert (quiet s -> quiet s') as Hq by (intros q'; by destruct (quiet_next _ _ _ Hs q')).
  assert (f <> NoFault -> ~ quiet s) as Hl by (intros ? q'; by destruct (quiet_next _ _ _ Hs q')).
  specialize (Hn s' Hq). specialize (Hf s' Hq).
  destruct f, (q t); simpl; naive_solver.
Qed.

Lemma wp_query_auto {A} (q : T -> res E A) (Q : res E A -> conn T -> Prop) t s :
  (forall s', (quiet s -> quiet s') -> ~ quiet s -> Q (Err unavailable) (Conn t None s')) ->
  (forall s', (quiet s -> quiet s') -> Q (q t) (Conn t None s')) ->
  wp (query q) Q (Conn t None s).
Proof.
  intros Hf Hn. unfold query. apply wp_exec_auto; [done |]. intros s' Hq.
  specialize (Hn s' Hq). destruct (q t); auto.
Qed.

Lemma wp_begin (Q : res E unit -> conn T -> Prop) t s :
  (forall s', (quiet s -> quiet s') -> ~ quiet s -> Q (Err unavailable) (Conn t None s')) ->
  (forall s', (quiet s -> quiet s') -> Q (Ok tt) (Conn t (Some t) s')) ->
  wp begin Q (Conn t None s).
Proof.
  unfold wp, begin. simpl. intros Hf Hn.
  destruct (next_fault s) as [f s'] eqn:Hs.
  destruct f; simpl;
    [apply Hn | apply Hf | apply Hf]; intros q; by destruct (quiet_next _ _ _ Hs q).
Qed.

Lemma wp_commit (Q : res E unit -> conn T -> Prop) cm t s :
  (forall s', (quiet s -> quiet s') -> ~ quiet s ->
     Q (Err unavailable) (Conn cm None s') /\ Q (Err unavailable) (Conn t None s')) ->
  (forall s', (quiet s -> quiet s') -> Q (Ok tt) (Conn t None s')) ->
  wp commit Q (Conn cm (Some t) s).
Proof.
  unfold wp, commit, current. simpl. intros Hf Hn.
  destruct (next_fault s) as [f s'] eqn:Hs.
  destruct f; simpl;
    [apply Hn | apply Hf | apply Hf]; intros q; by destruct (quiet_next _ _ _ Hs q).
Qed.
End WpRules.

(** [wp_step] runs one program construct; [wp_run] runs until a round trip's
    result has to be inspected. *)
Ltac wp_beta := cbv beta iota.

Ltac wp_step :=
  lazymatch goal with
  | |- wp (bind _ _) _ _ => apply wp_bind
  | |- wp (ret _) _ _ => apply wp_ret; wp_beta
  | |- wp (throw _) _ _ => apply wp_throw; wp_beta
  | |- wp (lift _) _ _ => apply wp_lift; wp_beta
  | |- wp (guard _ _) _ _ => apply wp_guard; intros ?; wp_beta
  | |- wp (attempt _) _ _ => apply wp_attempt; wp_beta
  | |- wp (deferred_rollback _) _ _ => apply wp_deferred_rollback; wp_beta
  | |- wp rollback _ _ => apply wp_rollback; wp_beta; cbn [committed schedule working]
  | |- wp begin _ (Conn _ None _) => apply wp_begin; intros ??; [intros ? |]; wp_beta
  | |- wp commit _ (Conn _ (Some _) _) => apply wp_commit; intros ??; [intros ?; split |]; wp_beta
  | |- wp (query _) _ (Conn _ (Some _) _) => apply wp_query_tx; intros ??; [intros ? |]; wp_beta
  | |- wp (query _) _ (Conn _ None _) => apply wp_query_auto; intros ??; [intros ? |]; wp_beta
  | |- wp (exec _) _ (Conn _ (Some _) _) => apply wp_exec_tx; intros ??; [intros ?? |]; wp_beta
  | |- wp (exec _) _ (Conn _ None _) => apply wp_exec_auto; intros ??; [intros ? |]; wp_beta
  end.

Ltac wp_run := repeat wp_step.

(** ** Atomic refinement

    The contract of a transactional operation: a pure function [spec] of the
    committed tables.  Whatever the fault schedule, the operation ends outside
    any transaction and either behaves as [spec] says, or reports [unavailable]
    having applied all of [spec] or nothing of it; it does the latter two only
    when a round trip was lost. *)

Inductive outcome {T E A} `{Infra E} (spec : res E (A * T)) (lost : Prop) (t : T) : res E A -> T -> Prop :=
| outcome_done a t' : spec = Ok (a, t') -> outcome spec lost t (Ok a) t'
| outcome_refused e : spec = Err e -> outcome spec lost t (Err e) t
| outcome_lost_before : lost -> outcome spec lost t (Err unavailable) t
| outcome_lost_after a t' : lost -> spec = Ok (a, t') -> outcome spec lost t (Err unavailable) t'.

Definition refines {T E A} `{Infra E} (Inv : T -> Prop) (p : prog T E A)
    (spec : T -> res E (A * T)) : Prop :=
  forall t s, Inv t -> wp p (fun r c' => working c' = None /\ outcome (spec t) (~ quiet s) t r (committed c'))
                 (Conn t None s).

(** The invariant of an operation that needs none. *)
Definition anywhere {T} : T -> Prop := fun _ => True.

(** Running the operation again after it took effect changes nothing and gives
    the same answer. *)
Definition idempotent {T E A} (spec : T -> res E (A * T)) : Prop :=
  forall t a t', spec t = Ok (a, t') -> spec t' = Ok (a, t').

(** The caller's loop: call again as long as the answer is [unavailable]. *)
Fixpoint retries {T E A} `{Infra E, EqDecision E} (n : nat) (p : prog T E A) : prog T E A :=
  match n with
  | O => p
  | S n => let! r := attempt p in
           match r with
           | Ok a => ret a
           | Err e => if decide (e = unavailable) then retries n p else throw e
           end
  end.

Section Refinement.
Context {T E A : Type} `{Infra E}.
Implicit Types (p : prog T E A) (spec : T -> res E (A * T)).

Lemma outcome_preserves (Inv : T -> Prop) (sp : res E (A * T)) lost t r t' :
  outcome sp lost t r t' -> Inv t -> (forall a t'', sp = Ok (a, t'') -> Inv t'') -> Inv t'.
Proof. intros [] ??; eauto. Qed.

Lemma outcome_weaken (sp : res E (A * T)) (lost lost' : Prop) t r t' :
  outcome sp lost t r t' -> (lost -> lost') -> outcome sp lost' t r t'.
Proof.
  intros [] ?; [eapply outcome_done | eapply outcome_refused | eapply outcome_lost_before
               | eapply outcome_lost_after]; eauto.
Qed.

Lemma refines_preserves p spec (Inv Good : T -> Prop) :
  refines Inv p spec ->
  (forall t a t', Inv t -> Good t -> spec t = Ok (a, t') -> Good t') ->
  forall t s, Inv t -> Good t -> wp p (fun _ c' => Good (committed c')) (Conn t None s).
Proof.
  intros Hr Hp t s Hi Ht. eapply wp_mono; [by apply Hr |].
  intros r c' [_ Ho]. eapply outcome_preserves; eauto.
Qed.

Lemma refines_total p spec (Inv : T -> Prop) t s :
  refines Inv p spec -> Inv t -> quiet s ->
  wp p (fun r c' => match spec t with
                    | Ok (a, t') => r = Ok a /\ committed c' = t'
                    | Err e => r = Err e /\ committed c' = t
                    end) (Conn t None s).
Proof.
  intros Hr Hi Hq. eapply wp_mono; [by apply Hr |]. intros r c' [_ Ho].
  destruct Ho as [? ? -> | ? -> | ? | ]; done.
Qed.

(** Retrying an idempotent operation applies it at most once, however the
    round trips are lost, and an answer is the answer of the single run. *)
Lemma retries_at_most_once `{!EqDecision E} p spec (Inv : T -> Prop) t a t' :
  refines Inv p spec -> idempotent spec -> Inv t -> Inv t' -> spec t = Ok (a, t') ->
  forall n s, wp (retries n p) (fun r c' =>
    (r = Ok a /\ committed c' = t') \/
    (r = Err unavailable /\ (committed c' = t \/ committed c' = t'))) (Conn t None s).
Proof.
  intros Hr Hi Hit Hit' Ht n.
  assert (forall u, u = t \/ u = t' -> spec u = Ok (a, t') /\ Inv u) as Hs
    by (intros u [-> | ->]; eauto).
  enough (forall u s, u = t \/ u = t' -> wp (retries n p) (fun r c' =>
    (r = Ok a /\ committed c' = t') \/
    (r = Err unavailable /\ (committed c' = t \/ committed c' = t'))) (Conn u None s)) by auto.
  induction n as [|n IH]; intros u s Hu; destruct (Hs u Hu) as [Hsu Hiu]; simpl.
  - eapply wp_mono; [by apply Hr |]. intros r c' [_ Ho]. rewrite Hsu in Ho.
    inversion Ho; subst; simplify_eq; auto.
  - wp_step. wp_step. eapply wp_mono; [by apply Hr |].
    intros r [cm wk s'] [Hw Ho]; simpl in *; subst wk. rewrite Hsu in Ho.
    inversion Ho; subst; simplify_eq; [by left | |]; rewrite decide_True by done; auto.
Qed.
End Refinement.

(** A lost round trip anywhere in the run: the schedule was not quiet. *)
Ltac not_quiet :=
  let Hq := fresh in
  intros Hq; match goal with Hl : ~ quiet _ |- _ => apply Hl; auto 12 end.

(** Close a goal [working c = None /\ outcome ...] at the end of a run. *)
Ltac finish_outcome :=
  split; [reflexivity |];
  cbn [committed];
  first
    [ apply outcome_lost_before; not_quiet
    | eapply outcome_lost_after; [not_quiet |]
    | apply outcome_refused
    | apply outcome_done ].

Lemma commit_ret_outcome {T E A} `{Infra E} (sp : res E (A * T)) (o : A) t t' s s' :
  (quiet s -> quiet s') -> sp = Ok (o, t') ->
  wp (commit ;! ret o)
     (fun r c' => working (Conn (committed c') None (schedule c')) = None /\
        outcome sp (~ quiet s) t r (committed (Conn (committed c') None (schedule c'))))
     (Conn t (Some t') s').
Proof.
  intros Hq ->. wp_step. wp_step.
  - finish_outcome.
  - split; [done |]. eapply outcome_lost_after; [not_quiet | done].
  - wp_step. split; [done |]. by apply outcome_done.
Qed.

(** ** Triples

    [triple P p Q X]: from a state that satisfies [P], outside a transaction and
    under any fault schedule, [p] ends outside a transaction, with [Q] of its
    answer or with [X] when it returns an error. *)

Definition triple {T E A} (P : T -> Prop) (p : prog T E A) (Q : A -> T -> Prop) (X : T -> Prop) : Prop :=
  forall t s, P t -> wp p (fun r c' => working c' = None /\
    match r with Ok a => Q a (committed c') | Err _ => X (committed c') end) (Conn t None s).

Section Triples.
Context {T E : Type} `{Infra E}.
Implicit Types (P X : T -> Prop).

Lemma triple_ret {A} (a : A) P (Q : A -> T -> Prop) X :
  (forall t, P t -> Q a t) -> triple (E := E) P (ret a) Q X.
Proof. intros HQ t s Ht. wp_step. split; [done | by apply HQ]. Qed.

Lemma triple_throw {A} (e : E) P (Q : A -> T -> Prop) X :
  (forall t, P t -> X t) -> triple P (throw e) Q X.
Proof. intros HX t s Ht. wp_step. split; [done | by apply HX]. Qed.

Lemma triple_lift {A} (r : res E A) P (Q : A -> T -> Prop) X :
  (forall t, P t -> X t /\ forall a, r = Ok a -> Q a t) -> triple P (lift r) Q X.
Proof. intros HX t s Ht. wp_step. split; [done |]. destruct r; by apply HX. Qed.

Lemma triple_bind {A B} (p : prog T E A) (k : A -> prog T E B) P (Q : A -> T -> Prop) (R : B -> T -> Prop) X :
  triple P p Q X -> (forall a, triple (Q a) (k a) R X) -> triple P (bind p k) R X.
Proof.
  intros Hp Hk t s Ht. wp_step. eapply wp_mono; [by apply Hp |].
  intros [a | e] [cm wk s'] [Hw Hr]; simpl in *; subst wk; [by apply Hk | done].
Qed.

Lemma triple_guard b (e : E) P (Q : unit -> T -> Prop) X :
  (forall t, P t -> X t /\ (b = false -> Q tt t)) -> triple P (guard b e) Q X.
Proof. intros HP t s Ht. wp_step; split; try done; by apply HP. Qed.

Lemma triple_attempt {A} (p : prog T E A) P (Q : A -> T -> Prop) X X' :
  triple P p Q X -> triple P (attempt p) (fun r t => match r with Ok a => Q a t | Err _ => X t end) X'.
Proof.
  intros Hp t s Ht. wp_step. eapply wp_mono; [by apply Hp |]. by intros [a | e] c' [? ?].
Qed.

Lemma triple_conseq {A} (p : prog T E A) P P' (Q Q' : A -> T -> Prop) X X' :
  triple P p Q X -> (forall t, P' t -> P t) -> (forall a t, Q a t -> Q' a t) ->
  (forall t, X t -> X' t) -> triple P' p Q' X'.
Proof.
  intros Hp HP HQ HX t s Ht. eapply wp_mono; [by apply Hp, HP |].
  intros [a | e] c' [? ?]; split; auto.
Qed.

Lemma triple_error {A} (p : prog T E A) P (Q : A -> T -> Prop) X X' :
  triple P p Q X -> (forall t, X t -> X' t) -> triple P p Q X'.
Proof. intros Hp HX. by eapply triple_conseq. Qed.

(** A fact that does not depend on the state. *)
Lemma triple_pure {A} (F : Prop) (p : prog T E A) P (Q : A -> T -> Prop) X :
  (forall t, P t -> F) -> (F -> triple P p Q X) -> triple P p Q X.
Proof. intros HF Hp t s Ht. by apply Hp; [apply (HF t) |]. Qed.

(** An atomic operation: its contract tells the states it can leave behind. *)
Lemma triple_refines {A} (p : prog T E A) (spec : T -> res E (A * T)) (Inv : T -> Prop) P (Q : A -> T -> Prop) X :
  refines Inv p spec ->
  (forall t, P t -> Inv t /\ X t /\ forall a t', spec t = Ok (a, t') -> Q a t' /\ X t') ->
  triple P p Q X.
Proof.
  intros Hr HP t s Ht. destruct (HP t Ht) as (Hi & HX & Hok).
  eapply wp_mono; [by apply Hr |]. intros r c' [Hw Ho]. split; [done |].
  inversion Ho as [a t' Hs | e Hs | Hl | a t' Hl Hs]; subst; [| done | congruence |]; by apply (Hok _ _ Hs).
Qed.

Lemma refines_exec {A} (stmt : T -> res E (A * T)) (Inv : T -> Prop) : refines Inv (exec stmt) stmt.
Proof.
  intros t s _. wp_step; [finish_outcome |].
  destruct (stmt t) as [[a t'] | e] eqn:Hs; [| by finish_outcome].
  split; [split; [done |] | intros; split; [done |]].
  - by apply outcome_done.
  - by eapply outcome_lost_after.
Qed.

Lemma refines_query {A} (q : T -> res E A) (Inv : T -> Prop) :
  refines Inv (query q) (fun t => match q t with Ok a => Ok (a, t) | Err e => Err e end).
Proof. apply refines_exec. Qed.

(** Mapping the answer, or the error, of an atomic operation. *)
Lemma refines_map {A B} (p : prog T E A) (spec : T -> res E (A * T)) (f : A -> B) (g : E -> E) (Inv : T -> Prop) :
  g unavailable = unavailable -> refines Inv p spec ->
  refines Inv (let! r := attempt p in match r with Ok a => ret (f a) | Err e => throw (g e) end)
    (fun t => match spec t with Ok (a, t') => Ok (f a, t') | Err e => Err (g e) end).
Proof.
  intros Hg Hr t s Hi. wp_step. wp_step. eapply wp_mono; [by apply Hr |]. intros r c' [Hw Ho].
  inversion Ho as [a t' Hs | e Hs | Hl | a t' Hl Hs]; subst; wp_step; (split; [done |]); rewrite ?Hs, ?Hg.
  - by apply outcome_done.
  - by apply outcome_refused.
  - by apply outcome_lost_before.
  - by eapply outcome_lost_after.
Qed.
End Triples.

(** ** Runs without faults *)

(** [yields p w r w']: with no round trip lost, [p] answers [r] and leaves [w']. *)
Definition yields {T E A} (p : prog T E A) (w : T) (r : res E A) (w' : T) : Prop :=
  p (Conn w None []) = (r, Conn w' None []).

Lemma yields_bind {T E A B} (p : prog T E A) (k : A -> prog T E B) w a w1 r w2 :
  yields p w (Ok a) w1 -> yields (k a) w1 r w2 -> yields (bind p k) w r w2.
Proof. unfold yields, bind. by intros -> ->. Qed.

Lemma yields_bind2 {T E A B C} (p : prog T E A) (q : A -> prog T E B) (k : B -> prog T E C) w b w1 r w2 :
  yields (let! a := p in q a) w (Ok b) w1 -> yields (k b) w1 r w2 -> yields (let! a := p in let! b := q a in k b) w r w2.
Proof. unfold yields, bind. destruct (p _) as [[a | e] c]; [| done]. by intros -> ->. Qed.

Lemma yields_attempt {T E A} (p : prog T E A) w r w' : yields p w r w' -> yields (attempt p) w (Ok r) w'.
Proof. unfold yields, attempt. by intros ->. Qed.

Lemma yields_ret {T E A} (a : A) (w : T) : yields (E := E) (ret a) w (Ok a) w.
Proof. done. Qed.

Lemma yields_exec {T E A} `{Infra E} (stmt : T -> res E (A * T)) w a w' :
  stmt w = Ok (a, w') -> yields (exec stmt) w (Ok a) w'.
Proof. unfold yields, exec, current, put, with_schedule. simpl. by intros ->. Qed.

Lemma yields_ok {T E A} (p : prog T E A) w r w' : yields p w r w' -> fst (p (Conn w None [])) = r.
Proof. unfold yields. by intros ->. Qed.

(** [lands P p Q]: from every state in [P], and with no round trip lost, [p] returns
    an answer in [Q]. *)
Definition lands {T E A} (P : T -> Prop) (p : prog T E A) (Q : A -> T -> Prop) : Prop :=
  forall w, P w -> exists a w', yields p w (Ok a) w' /\ Q a w'.

Lemma lands_ret {T E A} (a : A) (P : T -> Prop) (Q : A -> T -> Prop) :
  (forall w, P w -> Q a w) -> lands (E := E) P (ret a) Q.
Proof. intros HQ w Hw. exists a, w. split; [done | by apply HQ]. Qed.

Lemma lands_bind {T E A B} (p : prog T E A) (k : A -> prog T E B) (P : T -> Prop) (Q : A -> T -> Prop) Q' :
  lands P p Q -> (forall a, lands (Q a) (k a) Q') -> lands P (bind p k) Q'.
Proof.
  intros Hp Hk w Hw. destruct (Hp w Hw) as (a & w1 & Hy & HQ). destruct (Hk a w1 HQ) as (b & w2 & Hy2 & HQ2).
  exists b, w2. split; [by eapply yields_bind | done].
Qed.

Lemma lands_exec {T E A} `{Infra E} (stmt : T -> res E (A * T)) (P : T -> Prop) (Q : A -> T -> Prop) :
  (forall w, P w -> exists a w', stmt w = Ok (a, w') /\ Q a w') -> lands P (exec stmt) Q.
Proof.
  intros Hs w Hw. destruct (Hs w Hw) as (a & w' & Hst & HQ). exists a, w'. split; [by apply yields_exec | done].
Qed.

Lemma lands_pure {T E A} (F : Prop) (p : prog T E A) (P : T -> Prop) (Q : A -> T -> Prop) :
  (forall w, P w -> F) -> (F -> lands P p Q) -> lands P p Q.
Proof. intros HF Hp w Hw. by apply (Hp (HF w Hw)). Qed.

Lemma lands_conseq {T E A} (p : prog T E A) (P P' : T -> Prop) (Q Q' : A -> T -> Prop) :
  lands P p Q -> (forall w, P' w -> P w) -> (forall a w, Q a w -> Q' a w) -> lands P' p Q'.
Proof. intros Hp HP HQ w Hw. destruct (Hp w (HP w Hw)) as (a & w' & Hy & Ha). exists a, w'. auto. Qed.

Ltac run_conn := unfold query, exec, current, put, with_schedule; simpl.

(** ** Sums *)

Definition sumZ {A} (f : A -> Z) (l : list A) : Z := foldr (fun x acc => f x + acc) 0 l.

Lemma sumZ_app {A} (f : A -> Z) l1 l2 : sumZ f (l1 ++ l2) = sumZ f l1 + sumZ f l2.
Proof. induction l1; simpl; lia. Qed.

Lemma sumZ_snoc {A} (f : A -> Z) l x : sumZ f (l ++ [x]) = sumZ f l + f x.
Proof. rewrite sumZ_app. simpl. lia. Qed.

Lemma sumZ_perm {A} (f : A -> Z) l1 l2 : l1 ≡ₚ l2 -> sumZ f l1 = sumZ f l2.
Proof. induction 1; simpl; lia. Qed.

Lemma sumZ_ext {A} (f g : A -> Z) l : (forall x, x ∈ l -> f x = g x) -> sumZ f l = sumZ g l.
Proof. induction l as [|x l IH]; simpl; intros Hfg; [done |]. rewrite (Hfg x), IH; set_solver. Qed.

Lemma sumZ_nonneg {A} (f : A -> Z) l : (forall x, x ∈ l -> 0 <= f x) -> 0 <= sumZ f l.
Proof.
  induction l as [|x l IH]; simpl; intros Hf; [done |].
  assert (0 <= f x) by (apply Hf; set_solver).
  assert (0 <= sumZ f l) by (apply IH; intros; apply Hf; set_solver). lia.
Qed.

(** The sum of a measure over a finite map. *)
Definition map_sum {K V} `{Countable K} (f : V -> Z) (m : gmap K V) : Z :=
  sumZ (fun kv => f kv.2) (map_to_list m).

Lemma map_sum_insert_fresh {K V} `{Countable K} (f : V -> Z) (m : gmap K V) k v :
  m !! k = None -> map_sum f (<[k := v]> m) = f v + map_sum f m.
Proof.
  intros Hk. unfold map_sum.
  rewrite (sumZ_perm _ _ _ (map_to_list_insert m k v Hk)). done.
Qed.

Lemma map_sum_delete {K V} `{Countable K} (f : V -> Z) (m : gmap K V) k v :
  m !! k = Some v -> map_sum f m = f v + map_sum f (delete k m).
Proof.
  intros Hk. rewrite <- (insert_delete_id m k v) at 1 by done.
  apply map_sum_insert_fresh, lookup_delete_eq.
Qed.

Lemma map_sum_insert {K V} `{Countable K} (f : V -> Z) (m : gmap K V) k v v' :
  m !! k = Some v -> map_sum f (<[k := v']> m) = map_sum f m - f v + f v'.
Proof.
  intros Hk. rewrite (map_sum_delete f m k v) by done.
  rewrite <- insert_delete_eq, map_sum_insert_fresh by apply lookup_delete_eq. lia.
Qed.

(** ** Selections *)

Lemma filter_none {A} (P : A -> Prop) `{!forall x, Decision (P x)} (l : list A) :
  (forall x, x ∈ l -> ~ P x) -> filter P l = [].
Proof.
  induction l as [|x l IH]; [done |]. intros Hl.
  rewrite filter_cons_False by (apply Hl; set_solver). apply IH. set_solver.
Qed.

Lemma filter_all {A} (P : A -> Prop) `{!forall x, Decision (P x)} (l : list A) :
  (forall x, x ∈ l -> P x) -> filter P l = l.
Proof.
  induction l as [|x l IH]; [done |]. intros Hl.
  rewrite filter_cons_True by (apply Hl; set_solver). f_equal. apply IH. set_solver.
Qed.

Lemma filter_fmap {A B} (P : B -> Prop) `{!forall x, Decision (P x)} (f : A -> B) (l : list A) :
  filter P (f <$> l) = f <$> filter (fun x => P (f x)) l.
Proof.
  induction l as [|x l IH]; [done |]. rewrite fmap_cons, !filter_cons. case_decide; [| done].
  by rewrite fmap_cons, IH.
Qed.
