(* ===== verification/GoStrings.v ===== *)
(** * GoStrings: the functions of Go's [strings] package the services use.

    A Go string is a byte sequence; it is kept as [string], whose characters are
    bytes.  [TrimSpace] strips every Unicode white-space rune by its UTF-8
    encoding.  [ToUpper] and [ToLower] map ASCII letters and the four non-ASCII
    runes whose case mapping is an ASCII letter (U+017F, U+0131, U+0130,
    U+212A).  Every other non-ASCII rune maps to a non-ASCII rune, so leaving its
    bytes alone changes neither which ASCII strings a result equals nor its
    emptiness, which is all the services ask of a result. *)

From Stdlib Require Import Ascii.
From S2P Require Import Prelude.

#[local] Open Scope string_scope.

Definition bytes_of (s : string) : list N := map Ascii.N_of_ascii (String.list_ascii_of_string s).
Definition of_bytes (l : list N) : string := String.string_of_list_ascii (map Ascii.ascii_of_N l).

Definition ascii_space (b : N) : bool :=
  ((9 <=? b) && (b <=? 13) || (b =? 32))%N.

(** U+0085 and U+00A0. *)
Definition space2 (b1 b2 : N) : bool :=
  ((b1 =? 194) && ((b2 =? 133) || (b2 =? 160)))%N.

(** U+1680, U+2000 to U+200A, U+2028, U+2029, U+202F, U+205F and U+3000. *)
Definition space3 (b1 b2 b3 : N) : bool :=
  ((b1 =? 225) && (b2 =? 154) && (b3 =? 128)
   || (b1 =? 226) && (b2 =? 128)
      && ((128 <=? b3) && (b3 <=? 138) || (b3 =? 168) || (b3 =? 169) || (b3 =? 175))
   || (b1 =? 226) && (b2 =? 129) && (b3 =? 159)
   || (b1 =? 227) && (b2 =? 128) && (b3 =? 128))%N.

Section Trim.
Variable two : N -> N -> bool.
Variable three : N -> N -> N -> bool.

(** Drop white-space runes from the front of a byte sequence. *)
Fixpoint trim_front (l : list N) : list N :=
  match l with
  | [] => []
  | b1 :: l1 =>
      if ascii_space b1 then trim_front l1 else
      match l1 with
      | [] => l
      | b2 :: l2 =>
          if two b1 b2 then trim_front l2 else
          match l2 with
          | [] => l
          | b3 :: l3 => if three b1 b2 b3 then trim_front l3 else l
          end
      end
  end.
End Trim.

Definition trim_left : list N -> list N := trim_front space2 space3.
Definition trim_right (l : list N) : list N :=
  rev (trim_front (fun b1 b2 => space2 b2 b1) (fun b1 b2 b3 => space3 b3 b2 b1) (rev l)).

Definition TrimSpace (s : string) : string := of_bytes (trim_right (trim_left (bytes_of s))).

Fixpoint upper_bytes (l : list N) : list N :=
  match l with
  | [] => []
  | b1 :: l1 =>
      if ((97 <=? b1) && (b1 <=? 122))%N then (b1 - 32)%N :: upper_bytes l1 else
      match l1 with
      | b2 :: l2 =>
          if ((b1 =? 197) && (b2 =? 191))%N then 83%N :: upper_bytes l2
          else if ((b1 =? 196) && (b2 =? 177))%N then 73%N :: upper_bytes l2
          else b1 :: upper_bytes l1
      | [] => [b1]
      end
  end.

Definition ToUpper (s : string) : string := of_bytes (upper_bytes (bytes_of s)).

Fixpoint lower_bytes (l : list N) : list N :=
  match l with
  | [] => []
  | b1 :: l1 =>
      if ((65 <=? b1) && (b1 <=? 90))%N then (b1 + 32)%N :: lower_bytes l1 else
      match l1 with
      | b2 :: l2 =>
          if ((b1 =? 196) && (b2 =? 176))%N then 105%N :: lower_bytes l2 else
          match l2 with
          | b3 :: l3 =>
              if ((b1 =? 226) && (b2 =? 132) && (b3 =? 170))%N then 107%N :: lower_bytes l3
              else b1 :: lower_bytes l1
          | [] => b1 :: lower_bytes l1
          end
      | [] => [b1]
      end
  end.

Definition ToLower (s : string) : string := of_bytes (lower_bytes (bytes_of s)).

(** Case folding: ASCII letters, U+017F (folds with s) and U+212A (folds with k). *)
Fixpoint fold_bytes (l : list N) : list N :=
  match l with
  | [] => []
  | b1 :: l1 =>
      if ((65 <=? b1) && (b1 <=? 90))%N then (b1 + 32)%N :: fold_bytes l1 else
      match l1 with
      | b2 :: l2 =>
          if ((b1 =? 197) && (b2 =? 191))%N then 115%N :: fold_bytes l2 else
          match l2 with
          | b3 :: l3 =>
              if ((b1 =? 226) && (b2 =? 132) && (b3 =? 170))%N then 107%N :: fold_bytes l3
              else b1 :: fold_bytes l1
          | [] => b1 :: fold_bytes l1
          end
      | [] => [b1]
      end
  end.

(** [strings.EqualFold] against an ASCII string. *)
Definition EqualFold (s t : string) : bool :=
  bool_decide (fold_bytes (bytes_of s) = fold_bytes (bytes_of t)).

Definition HasPrefix (s p : string) : bool := String.prefix p s.

Definition Contains (s substr : string) : bool :=
  match String.index 0 substr s with Some _ => true | None => false end.

Definition skip (n : nat) (s : string) : string := String.substring n (String.length s - n) s.

(** The text after a prefix, if it is one. *)
Definition CutPrefix (s p : string) : option string :=
  if HasPrefix s p then Some (skip (String.length p) s) else None.

Definition TrimPrefix (s p : string) : string := default s (CutPrefix s p).

(** The texts before and after the first [sep]. *)
Definition Cut (s sep : string) : option (string * string) :=
  match String.index 0 sep s with
  | Some i => Some (String.substring 0 i s, skip (i + String.length sep) s)
  | None => None
  end.

(** [s == t] in Go. *)
Notation "s =s t" := (String.eqb s t) (at level 70) : string_scope.

Lemma str_eqb_true s t : (s =s t) = true <-> s = t.
Proof. apply String.eqb_eq. Qed.

Lemma str_eqb_false s t : (s =s t) = false <-> s <> t.
Proof. apply String.eqb_neq. Qed.

(** [strings.Split(s, ",")] *)
Fixpoint split_commas (s : string) : list string :=
  match s with
  | EmptyString => [""]
  | String c s' =>
      if Ascii.eqb c ","%char then "" :: split_commas s'
      else match split_commas s' with
           | part :: parts => String c part :: parts
           | [] => [String c ""]
           end
  end.

Definition HasSuffix (s suffix : string) : bool :=
  (String.length suffix <=? String.length s)%nat
  && (skip (String.length s - String.length suffix) s =s suffix).

(** [p + s] starts with [p]. *)
Lemma HasPrefix_app p s : HasPrefix (p ++ s) p = true.
Proof.
  unfold HasPrefix. induction p as [|a p IH]; simpl; [by destruct s |].
  by destruct (Ascii.ascii_dec a a).
Qed.

Example trim_space_runs : TrimSpace "  usd 	" = "usd".
Proof. reflexivity. Qed.

Example to_upper_long_s : ToUpper (of_bytes [117; 197; 191; 100]%N) = "USD".
Proof. reflexivity. Qed.
