(* ===== verification/Domain.v ===== *)
(** * Domain: the data and the pure rules of [internal/domain].

    Structs keep the field names of the source, one [Module] per struct.  A
    [uuid.UUID] is its 128-bit value with [uuid.Nil] as 0, an [int64] amount is a
    [Z] whose arithmetic wraps, and a [time.Time] is a [Z] counting nanoseconds
    with the zero time as 0.  [error] lists the sentinel errors of
    [domain/errors.go] and what the driver reports. *)

From S2P Require Import Prelude GoStrings.

#[local] Open Scope string_scope.
#[local] Open Scope Z_scope.

Definition uuid : Type := N.
Definition uuid_Nil : uuid := 0%N.
Definition time : Type := Z.
Definition zero_time : time := 0.
Definition IsZero (t : time) : bool := t =? zero_time.

#[export] Instance uuid_eq_dec : EqDecision uuid := N.eq_dec.
#[export] Instance uuid_countable : Countable uuid := N_countable.

(** [github.com/google/uuid]: the text form of a UUID and its parser. *)
Class Uuid := {
  uuid_String : uuid -> string;
  uuid_Parse : string -> option uuid
}.

(** What its documentation promises: parsing the text form gives the UUID back. *)
Class UuidOk `{Uuid} : Prop := {
  uuid_Parse_String : forall u, uuid_Parse (uuid_String u) = Some u
}.

Inductive error :=
| ErrCurrencyMismatch
| ErrDebitNotFound
| ErrInsufficientFunds
| ErrInvalidAmount
| ErrInvalidCursor
| ErrInvalidTransfer
| ErrNotFound
| ErrUnsupportedCurrency
| ErrUnauthenticated
| ErrAlreadyExists
| ErrFailedPrecondition
(* reported by the database driver *)
| PgNoRows
| PgUniqueViolation
| PgCheckViolation
| PgForeignKeyViolation
| PgInvalidLimit
| PgOutOfRange
| PgUnavailable.

#[export] Instance error_eq_dec : EqDecision error.
Proof. solve_decision. Defined.
#[export] Instance error_infra : Infra error := PgUnavailable.

Definition DefaultCurrency : string := "USD".

Module Wallet.
Record t := mk {
  ID : uuid;
  UserID : uuid;
  Balance : Z;
  Currency : string;
  CreatedAt : time;
  UpdatedAt : time
}.
Definition eta (w : t) : t :=
  mk (ID w) (UserID w) (Balance w) (Currency w) (CreatedAt w) (UpdatedAt w).
Definition with_Balance : Z -> t -> t := ltac:(derive_setter eta Balance).
Definition with_UpdatedAt : time -> t -> t := ltac:(derive_setter eta UpdatedAt).
(** The zero value [domain.Wallet{}]. *)
Definition zero : t := mk uuid_Nil uuid_Nil 0 "" zero_time zero_time.
End Wallet.

Module Transfer.
Record t := mk {
  ID : uuid;
  FromWalletID : uuid;
  ToWalletID : uuid;
  Amount : Z;
  Status : string;
  CreatedAt : time;
  FromBalance : Z;
  ToBalance : Z
}.
Definition eta (x : t) : t :=
  mk (ID x) (FromWalletID x) (ToWalletID x) (Amount x) (Status x) (CreatedAt x)
     (FromBalance x) (ToBalance x).
Definition with_FromBalance : Z -> t -> t := ltac:(derive_setter eta FromBalance).
Definition with_ToBalance : Z -> t -> t := ltac:(derive_setter eta ToBalance).
End Transfer.

Module LedgerEntry.
Record t := mk {
  ID : uuid;
  WalletID : uuid;
  TransferID : uuid;
  Direction : string;
  Amount : Z;
  BalanceAfter : Z;
  CreatedAt : time
}.
End LedgerEntry.

Definition LedgerReservationReserved : string := "RESERVED".
Definition LedgerReservationConfirmed : string := "CONFIRMED".
Definition LedgerReservationCanceled : string := "CANCELED".

Module LedgerReserveCommand.
Record t := mk {
  PaymentID : uuid;
  IdempotencyKey : string;
  TraceID : string;
  FromWalletID : uuid;
  ToWalletID : uuid;
  AmountCents : Z;
  Currency : string
}.
Definition eta (x : t) : t :=
  mk (PaymentID x) (IdempotencyKey x) (TraceID x) (FromWalletID x) (ToWalletID x)
     (AmountCents x) (Currency x).
Definition with_Currency : string -> t -> t := ltac:(derive_setter eta Currency).
End LedgerReserveCommand.

Module LedgerConfirmCommand.
Record t := mk {
  PaymentID : uuid;
  IdempotencyKey : string;
  TraceID : string;
  LedgerReservationID : uuid;
  WalletDebitID : uuid
}.
End LedgerConfirmCommand.

Module LedgerCancelCommand.
Record t := mk {
  PaymentID : uuid;
  IdempotencyKey : string;
  TraceID : string;
  LedgerReservationID : uuid;
  Reason : string
}.
End LedgerCancelCommand.

Module LedgerReservation.
Record t := mk {
  ID : uuid;
  PaymentID : uuid;
  IdempotencyKey : string;
  TraceID : string;
  FromWalletID : uuid;
  ToWalletID : uuid;
  AmountCents : Z;
  Currency : string;
  Status : string;
  TransferID : uuid;
  WalletDebitID : uuid;
  CompletedAt : time;
  CanceledAt : time;
  CancelReason : string;
  CreatedAt : time;
  UpdatedAt : time
}.
End LedgerReservation.

Module LedgerConfirmation.
Record t := mk {
  PaymentID : uuid;
  TransferID : uuid;
  Status : string;
  CompletedAt : time
}.
End LedgerConfirmation.

Definition SagaWalletOperationDebit : string := "debit".
Definition SagaWalletOperationCompensation : string := "compensation".
Definition SagaWalletOperationCompleted : string := "completed".

Module SagaDebitCommand.
Record t := mk {
  PaymentID : uuid;
  FromWalletID : uuid;
  AmountCents : Z;
  Currency : string;
  IdempotencyKey : string
}.
Definition eta (x : t) : t :=
  mk (PaymentID x) (FromWalletID x) (AmountCents x) (Currency x) (IdempotencyKey x).
Definition with_Currency : string -> t -> t := ltac:(derive_setter eta Currency).
End SagaDebitCommand.

Module SagaCompensationCommand.
Record t := mk {
  PaymentID : uuid;
  FromWalletID : uuid;
  WalletDebitID : uuid;
  AmountCents : Z;
  Currency : string;
  IdempotencyKey : string;
  Reason : string
}.
Definition eta (x : t) : t :=
  mk (PaymentID x) (FromWalletID x) (WalletDebitID x) (AmountCents x) (Currency x)
     (IdempotencyKey x) (Reason x).
Definition with_Currency : string -> t -> t := ltac:(derive_setter eta Currency).
End SagaCompensationCommand.

Module SagaWalletOperation.
Record t := mk {
  ID : uuid;
  PaymentID : uuid;
  Operation : string;
  IdempotencyKey : string;
  WalletID : uuid;
  AmountCents : Z;
  Currency : string;
  Status : string;
  BalanceAfterCents : Z;
  CreatedAt : time;
  UpdatedAt : time
}.
End SagaWalletOperation.

(** ** Operations *)

Definition NormalizeCurrency (currency : string) : res error string :=
  let normalized := ToUpper (TrimSpace currency) in
  let normalized := if normalized =s "" then DefaultCurrency else normalized in
  if negb (normalized =s DefaultCurrency) then Err ErrUnsupportedCurrency
  else Ok normalized.

Definition CanDebit (wallet : Wallet.t) (amount : Z) : bool :=
  (0 <? amount) && (amount <=? wallet.(Wallet.Balance)).

Definition Debit (wallet : Wallet.t) (amount : Z) : res error Wallet.t :=
  if amount <=? 0 then Err ErrInvalidAmount
  else if wallet.(Wallet.Balance) <? amount then Err ErrInsufficientFunds
  else Ok (Wallet.with_Balance (wrap64 (wallet.(Wallet.Balance) - amount)) wallet).

Definition Credit (wallet : Wallet.t) (amount : Z) : res error Wallet.t :=
  if amount <=? 0 then Err ErrInvalidAmount
  else Ok (Wallet.with_Balance (wrap64 (wallet.(Wallet.Balance) + amount)) wallet).

(** ** Lemmas *)

Lemma NormalizeCurrency_inv s c : NormalizeCurrency s = Ok c -> c = DefaultCurrency.
Proof.
  unfold NormalizeCurrency. destruct (String.eqb_spec (ToUpper (TrimSpace s)) ""); [simpl; by intros [= <-] |].
  destruct (String.eqb_spec (ToUpper (TrimSpace s)) DefaultCurrency); simpl; congruence.
Qed.

Lemma Debit_spec w amount :
  Debit w amount =
    if amount <=? 0 then Err ErrInvalidAmount
    else if CanDebit w amount then Ok (Wallet.with_Balance (wrap64 (w.(Wallet.Balance) - amount)) w)
    else Err ErrInsufficientFunds.
Proof.
  unfold Debit, CanDebit. destruct (amount <=? 0) eqn:?; [done |].
  replace (0 <? amount) with true by lia. simpl.
  destruct (Z.ltb_spec (Wallet.Balance w) amount), (Z.leb_spec amount (Wallet.Balance w)); lia || done.
Qed.

(** A successful debit is exact: [int64] subtraction cannot wrap there. *)
Lemma Debit_ok w amount w' :
  int64 w.(Wallet.Balance) -> Debit w amount = Ok w' ->
  0 < amount <= w.(Wallet.Balance) /\ w' = Wallet.with_Balance (w.(Wallet.Balance) - amount) w.
Proof.
  unfold Debit, int64. intros Hb. repeat case_match; intros [= <-].
  rewrite Z.leb_nle, Z.ltb_nlt in *. rewrite wrap64_id by (unfold int64; lia). auto with lia.
Qed.

(** A credit that keeps the balance non-negative is exact: an overflowing one
    turns it negative. *)
Lemma Credit_ok w amount w' :
  0 <= w.(Wallet.Balance) -> int64 w.(Wallet.Balance) -> int64 amount ->
  Credit w amount = Ok w' -> 0 <= w'.(Wallet.Balance) ->
  0 < amount /\ w' = Wallet.with_Balance (w.(Wallet.Balance) + amount) w.
Proof.
  unfold Credit, int64. intros ??? Hc. revert Hc. case_match; intros [= <-]. simpl. intros.
  rewrite Z.leb_nle in *. rewrite (wrap64_add_nonneg _ amount) by lia. auto with lia.
Qed.
