(* ===== verification/Base64.v ===== *)
(** * Base64: package [encoding/base64] as the services use it.

    [StdEncoding], which [encoding/json] uses for a [[]byte] field, and
    [RawURLEncoding], which page cursors use.  As in the package, carriage returns
    and line feeds are skipped when decoding, and the unused bits of the last
    symbol are not checked. *)

From S2P Require Import Prelude GoStrings.

#[local] Open Scope string_scope.
#[local] Open Scope N_scope.

Definition std_alphabet : list N :=
  bytes_of "ABCDEFGHIJKLMNOPQRSTUVWXYZabcdefghijklmnopqrstuvwxyz0123456789+/".
Definition url_alphabet : list N :=
  bytes_of "ABCDEFGHIJKLMNOPQRSTUVWXYZabcdefghijklmnopqrstuvwxyz0123456789-_".

(** '=' *)
Definition padding : N := 61.

Definition symbol (alphabet : list N) (v : N) : N := nth (N.to_nat v) alphabet 0.

Definition value (alphabet : list N) (c : N) : option N :=
  N.of_nat ∘ fst <$> list_find (eq c) alphabet.

Definition newline (c : N) : bool := (c =? 10) || (c =? 13).

Section Codec.
Variable alphabet : list N.
Variable padded : bool.

Fixpoint encode_bytes (l : list N) : list N :=
  match l with
  | [] => []
  | [a] =>
      [symbol alphabet (a / 4); symbol alphabet (a mod 4 * 16)] ++
      (if padded then [padding; padding] else [])
  | [a; b] =>
      [symbol alphabet (a / 4); symbol alphabet (a mod 4 * 16 + b / 16); symbol alphabet (b mod 16 * 4)] ++
      (if padded then [padding] else [])
  | a :: b :: c :: rest =>
      [symbol alphabet (a / 4); symbol alphabet (a mod 4 * 16 + b / 16);
       symbol alphabet (b mod 16 * 4 + c / 64); symbol alphabet (c mod 64)] ++ encode_bytes rest
  end%list.

(** The bytes of the two or three symbols of a last group. *)
Definition decode_two (c0 c1 : N) : option (list N) :=
  match value alphabet c0, value alphabet c1 with
  | Some v0, Some v1 => Some [v0 * 4 + v1 / 16]
  | _, _ => None
  end.

Definition decode_three (c0 c1 c2 : N) : option (list N) :=
  match value alphabet c0, value alphabet c1, value alphabet c2 with
  | Some v0, Some v1, Some v2 => Some [v0 * 4 + v1 / 16; v1 mod 16 * 16 + v2 / 4]
  | _, _, _ => None
  end.

Fixpoint decode_bytes (l : list N) : option (list N) :=
  match l with
  | [] => Some []
  | [c0; c1] => if padded then None else decode_two c0 c1
  | [c0; c1; c2] => if padded then None else decode_three c0 c1 c2
  | [c0; c1; c2; c3] =>
      if padded && (c3 =? padding) then
        if c2 =? padding then decode_two c0 c1 else decode_three c0 c1 c2
      else
        match decode_three c0 c1 c2, value alphabet c2, value alphabet c3 with
        | Some bs, Some v2, Some v3 => Some (bs ++ [v2 mod 4 * 64 + v3])%list
        | _, _, _ => None
        end
  | c0 :: c1 :: c2 :: c3 :: rest =>
      match decode_three c0 c1 c2, value alphabet c2, value alphabet c3, decode_bytes rest with
      | Some bs, Some v2, Some v3, Some tail => Some (bs ++ (v2 mod 4 * 64 + v3) :: tail)%list
      | _, _, _, _ => None
      end
  | _ => None
  end.
End Codec.

Definition StdEncoding_EncodeToString (s : string) : string := of_bytes (encode_bytes std_alphabet true (bytes_of s)).
Definition StdEncoding_DecodeString (s : string) : option string :=
  of_bytes <$> decode_bytes std_alphabet true (List.filter (negb ∘ newline) (bytes_of s)).
Definition RawURLEncoding_EncodeToString (s : string) : string := of_bytes (encode_bytes url_alphabet false (bytes_of s)).
Definition RawURLEncoding_DecodeString (s : string) : option string :=
  of_bytes <$> decode_bytes url_alphabet false (List.filter (negb ∘ newline) (bytes_of s)).

Example encode_hello :
  (StdEncoding_EncodeToString "hello", StdEncoding_EncodeToString "hi", RawURLEncoding_EncodeToString "hi>?")
  = ("aGVsbG8=", "aGk=", "aGk-Pw").
Proof. vm_compute. reflexivity. Qed.

(** ** Round trip *)

Definition byte (b : N) : Prop := b < 256.

Lemma bytes_of_byte s : Forall byte (bytes_of s).
Proof.
  unfold bytes_of. rewrite list.Forall_forall. intros b (c & <- & _)%list_elem_of_In%in_map_iff.
  apply Ascii.N_ascii_bounded.
Qed.

Lemma bytes_of_bytes l : Forall byte l -> bytes_of (of_bytes l) = l.
Proof.
  unfold bytes_of, of_bytes. rewrite String.list_ascii_of_string_of_list_ascii, map_map. intros Hl.
  induction Hl as [|b l Hb Hl IH]; [done |]. simpl. rewrite Ascii.N_ascii_embedding by exact Hb. by rewrite IH.
Qed.

Lemma of_bytes_of s : of_bytes (bytes_of s) = s.
Proof.
  unfold bytes_of, of_bytes. rewrite map_map, (map_ext _ id), map_id by apply Ascii.ascii_N_embedding.
  apply String.string_of_list_ascii_of_string.
Qed.

Class Alphabet (alphabet : list N) : Prop := {
  alphabet_value v : v < 64 -> value alphabet (symbol alphabet v) = Some v;
  alphabet_plain v : v < 64 -> symbol alphabet v <> padding /\ newline (symbol alphabet v) = false /\
                     symbol alphabet v < 256
}.

(** A check over the 64 values. *)
Lemma below_64 (f : N -> bool) : forallb f (N.of_nat <$> seq 0 64) = true -> forall v, v < 64 -> f v = true.
Proof.
  intros Hf v Hv. rewrite forallb_forall in Hf. apply Hf, list_elem_of_In, list_elem_of_fmap.
  exists (N.to_nat v). split; [lia |]. apply elem_of_seq. lia.
Qed.

Lemma alphabet_check a :
  forallb (fun v => bool_decide (value a (symbol a v) = Some v)) (N.of_nat <$> seq 0 64) = true ->
  forallb (fun v => bool_decide (symbol a v <> padding /\ newline (symbol a v) = false /\ symbol a v < 256))
    (N.of_nat <$> seq 0 64) = true -> Alphabet a.
Proof.
  intros H1 H2. split; intros v Hv; eapply bool_decide_eq_true_1; [by apply (below_64 _ H1) | by apply (below_64 _ H2)].
Qed.

#[export] Instance std_alphabet_ok : Alphabet std_alphabet.
Proof. apply alphabet_check; vm_compute; reflexivity. Qed.
#[export] Instance url_alphabet_ok : Alphabet url_alphabet.
Proof. apply alphabet_check; vm_compute; reflexivity. Qed.

(** Lists by groups of three. *)
Lemma triples_ind {A} (P : list A -> Prop) :
  P [] -> (forall a, P [a]) -> (forall a b, P [a; b]) ->
  (forall a b c l, P l -> P (a :: b :: c :: l)) -> forall l, P l.
Proof.
  intros H0 H1 H2 H3. fix IH 1. intros [|a [|b [|c l]]]; [done | done | done |]. apply H3, IH.
Qed.

#[local] Ltac Zify.zify_post_hook ::= Z.to_euclidean_division_equations.

Section RoundTrip.
Context (alphabet : list N) `{!Alphabet alphabet} (padded : bool).

Lemma decode_two_ok a :
  byte a -> decode_two alphabet (symbol alphabet (a / 4)) (symbol alphabet (a mod 4 * 16)) = Some [a].
Proof.
  intros Ha. unfold byte in Ha. unfold decode_two. rewrite !alphabet_value by lia. do 2 f_equal. lia.
Qed.

Lemma decode_three_ok a b x :
  byte a -> byte b -> x < 4 ->
  decode_three alphabet (symbol alphabet (a / 4)) (symbol alphabet (a mod 4 * 16 + b / 16))
    (symbol alphabet (b mod 16 * 4 + x)) = Some [a; b].
Proof.
  intros Ha Hb Hx. unfold byte in *. unfold decode_three. rewrite !alphabet_value by lia. repeat f_equal; lia.
Qed.

Lemma decode_encode_bytes l :
  Forall byte l -> decode_bytes alphabet padded (encode_bytes alphabet padded l) = Some l.
Proof.
  induction l as [| a | a b | a b c l IH] using triples_ind; intros Hl; [done | | |].
  - apply list.Forall_cons in Hl as [Ha _]. cbn [encode_bytes app]. destruct padded; simpl.
    + by apply decode_two_ok.
    + by apply decode_two_ok.
  - rewrite !list.Forall_cons in Hl. destruct Hl as (Ha & Hb & _). cbn [encode_bytes app].
    pose proof (decode_three_ok a b 0 Ha Hb ltac:(lia)) as H3. rewrite N.add_0_r in H3.
    assert (symbol alphabet (b mod 16 * 4) <> padding) as Hp by (apply alphabet_plain; unfold byte in *; lia).
    destruct padded; simpl; [| done]. by rewrite (proj2 (N.eqb_neq _ _) Hp).
  - rewrite !list.Forall_cons in Hl. destruct Hl as (Ha & Hb & Hc & Hl). specialize (IH Hl).
    pose proof (decode_three_ok a b (c / 64) Ha Hb ltac:(unfold byte in *; lia)) as H3.
    assert (value alphabet (symbol alphabet (b mod 16 * 4 + c / 64)) = Some (b mod 16 * 4 + c / 64)) as Hv2
      by (apply alphabet_value; unfold byte in *; lia).
    assert (value alphabet (symbol alphabet (c mod 64)) = Some (c mod 64)) as Hv3 by (apply alphabet_value; lia).
    assert (symbol alphabet (c mod 64) <> padding) as Hp by (apply alphabet_plain; lia).
    assert ((b mod 16 * 4 + c / 64) mod 4 * 64 + c mod 64 = c) as Hcc by (unfold byte in *; lia).
    cbn [encode_bytes app]. destruct (encode_bytes alphabet padded l) as [|d rest] eqn:He.
    + injection IH as <-. cbn [decode_bytes]. rewrite (proj2 (N.eqb_neq _ _) Hp), andb_false_r, H3, Hv2, Hv3, Hcc. done.
    + cbn [decode_bytes]. cbn [decode_bytes] in IH. rewrite H3, Hv2, Hv3, IH, Hcc. done.
Qed.
End RoundTrip.

(** Encoded text is made of symbols and padding. *)
Lemma encode_bytes_plain alphabet `{!Alphabet alphabet} padded l :
  Forall byte l -> Forall (fun c => c < 256 /\ newline c = false) (encode_bytes alphabet padded l).
Proof.
  assert (forall v, v < 64 -> symbol alphabet v < 256 /\ newline (symbol alphabet v) = false) as Hs.
  { intros v Hv. by destruct (alphabet_plain v Hv) as (_ & ? & ?). }
  assert (padding < 256 /\ newline padding = false) as Hp by done.
  induction l as [| a | a b | a b c l IH] using triples_ind; intros Hl; [done | | |];
    rewrite ?list.Forall_cons in Hl; unfold byte in *; cbn [encode_bytes app].
  - destruct padded; repeat (apply list.Forall_cons; split; [first [exact Hp | apply Hs; lia] |]); by apply list.Forall_nil.
  - destruct padded; repeat (apply list.Forall_cons; split; [first [exact Hp | apply Hs; lia] |]); by apply list.Forall_nil.
  - repeat (apply list.Forall_cons; split; [apply Hs; lia |]). apply IH. apply Hl.
Qed.

Lemma decode_text alphabet `{!Alphabet alphabet} padded s :
  of_bytes <$> decode_bytes alphabet padded
    (List.filter (negb ∘ newline) (bytes_of (of_bytes (encode_bytes alphabet padded (bytes_of s))))) = Some s.
Proof.
  pose proof (encode_bytes_plain alphabet padded (bytes_of s) (bytes_of_byte s)) as Hp.
  rewrite list.Forall_forall in Hp.
  rewrite bytes_of_bytes by (rewrite list.Forall_forall; naive_solver).
  rewrite (List.forallb_filter_id (negb ∘ newline)).
  - rewrite decode_encode_bytes by (try done; apply bytes_of_byte). simpl. by rewrite of_bytes_of.
  - apply forallb_forall. intros c Hc%list_elem_of_In. simpl. by rewrite (proj2 (Hp c Hc)).
Qed.

Lemma std_round_trip s : StdEncoding_DecodeString (StdEncoding_EncodeToString s) = Some s.
Proof. apply (decode_text std_alphabet true). Qed.

Lemma raw_url_round_trip s : RawURLEncoding_DecodeString (RawURLEncoding_EncodeToString s) = Some s.
Proof. apply (decode_text url_alphabet false). Qed.
