(* ===== verification/Mime.v ===== *)
(** * Mime: [mime.ParseMediaType], as far as the handlers look at its result.

    The media type in front of the first semicolon, and the parameters behind it, each
    of which must be well formed and not contradict an earlier one. *)

From S2P Require Import Prelude GoStrings.

#[local] Open Scope string_scope.

Definition tspecial (b : N) : bool := bool_decide (b ∈ (bytes_of "()<>@,;:/[]?=" ++ [92; 34]%N)%list).
Definition token_char (b : N) : bool := ((32 <? b) && (b <? 127))%N && negb (tspecial b).

Fixpoint consumeToken (l : list N) : list N * list N :=
  match l with
  | b :: rest => if token_char b then let '(t, r) := consumeToken rest in (b :: t, r) else ([], l)
  | [] => ([], [])
  end.

(** Inside the quotes: a backslash before a special character stands for it. *)
Fixpoint consumeQuoted (acc l : list N) : option (list N * list N) :=
  match l with
  | [] => None
  | b :: rest =>
      if (b =? 34)%N then Some (acc, rest)
      else if ((b =? 13) || (b =? 10))%N then None
      else match rest with
           | b2 :: rest2 =>
               if (b =? 92)%N && tspecial b2 then consumeQuoted (acc ++ [b2])%list rest2
               else consumeQuoted (acc ++ [b])%list rest
           | [] => None
           end
  end.

(** A token or a quoted text; [None] when there is neither. *)
Definition consumeValue (l : list N) : option (list N * list N) :=
  match l with
  | 34%N :: rest => consumeQuoted [] rest
  | _ => match consumeToken l with ([], _) => None | (t, r) => Some (t, r) end
  end.

Definition after_byte (b : N) (l : list N) : option (list N) :=
  match trim_left l with x :: rest => if (x =? b)%N then Some (trim_left rest) else None | [] => None end.

(** One parameter: a semicolon, a name, an equals sign and a value. *)
Definition consumeMediaParam (l : list N) : option (list N * list N * list N) :=
  rest ← after_byte 59 l;
  match consumeToken rest with
  | ([], _) => None
  | (name, rest) =>
      rest ← after_byte 61 rest;
      '(value, rest) ← consumeValue rest;
      Some (lower_bytes name, value, rest)
  end.

Fixpoint media_params (fuel : nat) (seen : list (list N * list N)) (l : list N) : bool :=
  match fuel with
  | O => false
  | S fuel =>
      match trim_left l with
      | [] => true
      | l =>
          match consumeMediaParam l with
          | None => bool_decide (trim_right (trim_left l) = [59%N])
          | Some (name, value, rest) =>
              match List.find (fun kv => bool_decide (kv.1 = name)) seen with
              | Some kv => bool_decide (kv.2 = value) && media_params fuel seen rest
              | None => media_params fuel ((name, value) :: seen) rest
              end
          end
      end
  end.

(** [mediaType, _, err := mime.ParseMediaType(v); err == nil && mediaType == "application/json"] *)
Definition is_json_media (v : string) : bool :=
  let base := match Cut v ";" with Some (b, _) => b | None => v end in
  (TrimSpace (ToLower base) =s "application/json")
  && media_params (S (String.length v)) [] (bytes_of (skip (String.length base) v)).

Example media_types :
  is_json_media <$> ["application/json"; "Application/JSON; charset=utf-8"; "application/json;"; "text/plain";
                     "application/json; charset"; "application/json; a=1; a=2"; ""]
  = [true; true; true; false; false; false; false].
Proof. vm_compute. reflexivity. Qed.
