(* ===== verification/GoTime.v ===== *)
(** * GoTime: the parts of package [time] the services print.

    A [time.Time] is its count of nanoseconds since the zero time (UTC), so that
    [0001-01-01T00:00:00Z] is 0; a [time.Duration] is its [int64] count of
    nanoseconds. *)

From stdpp Require Import pretty.
From S2P Require Import Prelude GoStrings Domain.

#[local] Open Scope string_scope.
#[local] Open Scope Z_scope.

Definition Second : Z := 1000000000.
Definition Minute : Z := 60 * Second.
Definition Hour : Z := 60 * Minute.

(** [n] in decimal, at least [w] digits wide. *)
Definition pad (w : nat) (n : Z) : string :=
  let s := pretty (Z.to_N n) in
  String.append (String.concat "" (repeat "0" (w - String.length s))) s.

(** The digits of a fraction [n / 10^w] with a leading dot and without trailing
    zeros; nothing when it is zero. *)
Fixpoint trim_zeros (w : nat) (n : Z) : nat * Z :=
  match w with
  | O => (O, n)
  | S w' => if n mod 10 =? 0 then trim_zeros w' (n / 10) else (w, n)
  end.

Definition fraction (w : nat) (n : Z) : string :=
  match trim_zeros w n with
  | (O, _) => ""
  | (w', n') => "." ++ pad w' n'
  end.

(** The civil date of a day counted from 1 January of year 1. *)
Definition civil (days : Z) : Z * Z * Z :=
  let z := days + 306 in
  let era := z / 146097 in
  let doe := z mod 146097 in
  let yoe := (doe - doe / 1460 + doe / 36524 - doe / 146096) / 365 in
  let doy := doe - (365 * yoe + yoe / 4 - yoe / 100) in
  let mp := (5 * doy + 2) / 153 in
  let d := doy - (153 * mp + 2) / 5 + 1 in
  let m := if mp <? 10 then mp + 3 else mp - 9 in
  (yoe + era * 400 + (if m <=? 2 then 1 else 0), m, d).

(** [t.UTC().Format(time.RFC3339Nano)] *)
Definition FormatRFC3339Nano (t : time) : string :=
  let '(y, m, d) := civil (t / (24 * Hour)) in
  let r := t mod (24 * Hour) in
  pad 4 y ++ "-" ++ pad 2 m ++ "-" ++ pad 2 d ++ "T" ++
  pad 2 (r / Hour) ++ ":" ++ pad 2 (r / Minute mod 60) ++ ":" ++ pad 2 (r / Second mod 60) ++
  fraction 9 (r mod Second) ++ "Z".

(** [fmt.Sprint(d)] of a [time.Duration]. *)
Definition Duration_String (d : Z) : string :=
  let u := Z.abs d in
  let digits n := pretty (Z.to_N n) in
  let body :=
    if u =? 0 then "0s"
    else if u <? 1000 then digits u ++ "ns"
    else if u <? 1000000 then digits (u / 1000) ++ fraction 3 (u mod 1000) ++ "µs"
    else if u <? Second then digits (u / 1000000) ++ fraction 6 (u mod 1000000) ++ "ms"
    else
      let seconds := digits (u / Second mod 60) ++ fraction 9 (u mod Second) ++ "s" in
      if u <? Minute then seconds
      else
        let minutes := digits (u / Minute mod 60) ++ "m" ++ seconds in
        if u <? Hour then minutes else digits (u / Hour) ++ "h" ++ minutes in
  if d <? 0 then "-" ++ body else body.

Example format_zero_time : FormatRFC3339Nano zero_time = "0001-01-01T00:00:00Z".
Proof. vm_compute. reflexivity. Qed.

(** 29 February 2024, 12:34:56.789 *)
Example format_leap_day :
  FormatRFC3339Nano ((738944 * 24 + 12) * Hour + 34 * Minute + 56 * Second + 789000000)
  = "2024-02-29T12:34:56.789Z".
Proof. vm_compute. reflexivity. Qed.

Example format_durations :
  Duration_String <$> [72 * Hour; 90 * Second; 1500000; - 250000000; 1500] =
  ["72h0m0s"; "1m30s"; "1.5ms"; "-250ms"; "1.5µs"].
Proof. vm_compute. reflexivity. Qed.
