(* ===== verification/Decimal.v ===== *)
(** * Decimal: numbers as the services print them, and how they read back.

    [pretty] is the digits that the verb [%d] prints; [text] writes a list of digits
    and [span_digits] reads the digits a text starts with. *)

From stdpp Require Import pretty.
From S2P Require Import Prelude GoStrings Domain GoTime.

#[local] Open Scope string_scope.

Definition digit_of (c : Ascii.ascii) : option N :=
  let n := Ascii.N_of_ascii c in
  if ((48 <=? n) && (n <=? 57))%N then Some (n - 48)%N else None.

(** The digits a text starts with, and what follows them. *)
Fixpoint span_digits (s : string) : list N * string :=
  match s with
  | EmptyString => ([], "")
  | String c s' =>
      match digit_of c with
      | Some d => let '(ds, rest) := span_digits s' in (d :: ds, rest)
      | None => ([], s)
      end
  end.

Definition value (ds : list N) : N := fold_left (fun v d => v * 10 + d)%N ds 0%N.

Fixpoint text (ds : list N) : string :=
  match ds with
  | [] => ""
  | d :: ds => String (pretty_N_char d) (text ds)
  end.

Definition digits (ds : list N) : Prop := Forall (fun d => d < 10)%N ds.

(** [rest] does not go on with a digit. *)
Definition stops (rest : string) : Prop :=
  match rest with EmptyString => True | String c _ => digit_of c = None end.

Lemma append_cons c s t : String c s ++ t = String c (s ++ t).
Proof. reflexivity. Qed.

Lemma append_nil t : "" ++ t = t.
Proof. reflexivity. Qed.

Lemma digit_of_char d : (d < 10)%N -> digit_of (pretty_N_char d) = Some d.
Proof.
  intros Hd. assert (d ∈ [0; 1; 2; 3; 4; 5; 6; 7; 8; 9]%N) as Hin by (rewrite !elem_of_cons; lia).
  clear Hd. revert d Hin. apply list.Forall_forall. repeat constructor.
Qed.

Lemma app_text ds1 ds2 rest : text (ds1 ++ ds2)%list ++ rest = text ds1 ++ (text ds2 ++ rest).
Proof. induction ds1 as [|d ds1 IH]; [done |]. exact (f_equal (String _) IH). Qed.

Lemma text_app ds1 ds2 : text (ds1 ++ ds2)%list = text ds1 ++ text ds2.
Proof. induction ds1 as [|d ds1 IH]; [done |]. exact (f_equal (String _) IH). Qed.

Lemma span_text ds rest : digits ds -> stops rest -> span_digits (text ds ++ rest) = (ds, rest).
Proof.
  intros Hds Hrest. induction Hds as [|d ds Hd _ IH]; simpl.
  - destruct rest as [|c rest]; [done |]. simpl in *. by rewrite Hrest.
  - by rewrite digit_of_char, IH.
Qed.

Lemma fold_value ds v : (fold_left (fun v d => v * 10 + d) ds v = v * 10 ^ N.of_nat (length ds) + value ds)%N.
Proof.
  unfold value. revert v. induction ds as [|d ds IH]; intros v; [simpl; lia |].
  cbn [fold_left length]. rewrite (IH (v * 10 + d)%N), (IH (0 * 10 + d)%N), Nat2N.inj_succ, N.pow_succ_r'. lia.
Qed.

Lemma value_snoc ds d : value (ds ++ [d])%list = (value ds * 10 + d)%N.
Proof. unfold value. by rewrite fold_left_app. Qed.

Lemma value_zeros n ds : value (repeat 0%N n ++ ds)%list = value ds.
Proof. unfold value. induction n as [|n IH]; [done |]. exact IH. Qed.

(** The digits of a positive number, none more than it needs. *)
Lemma go_digits n s : exists ds,
  pretty_N_go n s = text ds ++ s /\ digits ds /\ value ds = n /\
  (forall w, (n < 10 ^ N.of_nat w)%N -> (length ds <= w)%nat) /\ ((0 < n)%N -> ds <> []).
Proof.
  revert s. induction n as [n IH] using (well_founded_induction N.lt_wf_0). intros s.
  destruct (decide (n = 0%N)) as [-> | Hn].
  { exists []. split; [apply pretty_N_go_0 |]. repeat split; [by constructor | simpl; lia | lia]. }
  rewrite pretty_N_go_step by lia.
  destruct (IH (n `div` 10)%N ltac:(apply N.div_lt; lia) (String (pretty_N_char (n `mod` 10)) s))
    as (ds & Heq & Hds & Hv & Hlen & _).
  exists (ds ++ [n `mod` 10]%N)%list. split; [by rewrite Heq, app_text |].
  split; [apply list.Forall_app; split; [done | by repeat constructor; apply N.mod_lt] |].
  split; [rewrite value_snoc, Hv, N.mul_comm; symmetry; by apply N.div_mod |].
  split; [| by destruct ds].
  intros [|w] Hw; [simpl in Hw; lia |]. rewrite length_app. simpl.
  assert (n `div` 10 < 10 ^ N.of_nat w)%N as Hq
    by (apply N.Div0.div_lt_upper_bound; rewrite Nat2N.inj_succ, N.pow_succ_r' in Hw; lia).
  specialize (Hlen w Hq). lia.
Qed.

Lemma pretty_digits (n : N) : exists ds,
  pretty n = text ds /\ digits ds /\ value ds = n /\ ds <> [] /\
  (forall w, (0 < w)%nat -> (n < 10 ^ N.of_nat w)%N -> (length ds <= w)%nat).
Proof.
  unfold pretty, pretty_N. case_decide as Hn.
  - exists [0%N]. subst n. repeat split; [by repeat constructor | done | simpl; lia].
  - destruct (go_digits n "") as (ds & Heq & Hds & Hv & Hlen & Hne). exists ds.
    split; [rewrite Heq; clear; induction ds as [|d ds IH]; [done | exact (f_equal (String _) IH)] |].
    split; [done |]. split; [done |]. split; [apply Hne; lia |]. auto.
Qed.

Lemma text_length ds : String.length (text ds) = length ds.
Proof. induction ds as [|d ds IH]; simpl; [done | by rewrite IH]. Qed.

Lemma zeros_text k : String.concat "" (repeat "0" k) = text (repeat 0%N k).
Proof. induction k as [|[|k] IH]; [done | done |]. exact (f_equal (String _) IH). Qed.

(** [pad w n] is digits of value [n], [w] of them when [n] has no more. *)
Lemma pad_digits w n : (0 < w)%nat -> (0 <= n < 10 ^ Z.of_nat w)%Z -> exists ds,
  pad w n = text ds /\ digits ds /\ Z.of_N (value ds) = n /\ length ds = w.
Proof.
  intros Hw Hn. unfold pad. destruct (pretty_digits (Z.to_N n)) as (ds & -> & Hds & Hv & _ & Hlen).
  rewrite text_length, zeros_text. exists (repeat 0%N (w - length ds) ++ ds)%list.
  split; [by rewrite text_app |].
  split; [apply list.Forall_app; split; [| done]; apply List.Forall_forall; by intros d ->%repeat_spec |].
  split; [rewrite value_zeros, Hv; lia |].
  rewrite length_app, repeat_length. specialize (Hlen w Hw). apply Nat.sub_add, Hlen.
  apply N2Z.inj_lt. rewrite N2Z.inj_pow, Z2N.id, nat_N_Z by lia. lia.
Qed.
