(* ===== verification/Duration.v ===== *)
(** * Duration: [time.ParseDuration], [strconv.ParseBool] and [strconv.Atoi].

    A duration is a sequence of decimal numbers with units.  The digits before the
    point are exact; the fraction goes through [float64], which [Floats.SpecFloat]
    computes with its 53 bits of mantissa. *)

From Stdlib Require Import Ascii SpecFloat.
From S2P Require Import Prelude GoStrings Domain GoTime Decimal.

#[local] Open Scope string_scope.
#[local] Open Scope Z_scope.

(** ** Booleans and integers *)

Definition ParseBool (s : string) : option bool :=
  if existsb (String.eqb s) ["1"; "t"; "T"; "true"; "TRUE"; "True"] then Some true
  else if existsb (String.eqb s) ["0"; "f"; "F"; "false"; "FALSE"; "False"] then Some false
  else None.

(** [strconv.Atoi]: an optional sign and digits, within [int64]. *)
Definition Atoi (s : string) : option Z :=
  let '(sign, digits) := match s with
                         | String c s' => if Ascii.eqb c "-" then (-1, s')
                                          else if Ascii.eqb c "+" then (1, s') else (1, s)
                         | EmptyString => (1, s)
                         end in
  match span_digits digits with
  | ([], _) => None
  | (ds, rest) =>
      let z := sign * Z.of_N (value ds) in
      if (rest =s "") && (- 2 ^ 63 <=? z) && (z <? 2 ^ 63) then Some z else None
  end.

(** ** [float64] *)

Definition float64_of (z : Z) : spec_float := binary_normalize 53 1024 z 0 false.

(** [uint64(x)] of a finite [x] that is not negative. *)
Definition trunc (x : spec_float) : Z :=
  match x with
  | S754_finite false m e => Z.shiftl (Zpos m) e
  | _ => 0
  end.

(** ** Durations *)

(** The nanoseconds of a unit; the two micro signs are U+00B5 and U+03BC. *)
Definition micro_sign : string := String (ascii_of_N 194) (String (ascii_of_N 181) "s").
Definition mu_sign : string := String (ascii_of_N 206) (String (ascii_of_N 188) "s").

Definition unitMap (u : string) : option Z :=
  if u =s "ns" then Some 1
  else if (u =s "us") || (u =s micro_sign) || (u =s mu_sign) then Some 1000
  else if u =s "ms" then Some 1000000
  else if u =s "s" then Some Second
  else if u =s "m" then Some Minute
  else if u =s "h" then Some Hour
  else None.

Definition numeric (c : ascii) : bool :=
  Ascii.eqb c "." || match digit_of c with Some _ => true | None => false end.

(** A text as runs of digits and points, each followed by what is neither. *)
Fixpoint runs (s : string) : list (string * string) :=
  match s with
  | EmptyString => []
  | String c s' =>
      match numeric c, runs s' with
      | true, (n, u) :: rest => (String c n, u) :: rest
      | true, [] => [(String c "", "")]
      | false, (EmptyString, u) :: rest => ("", String c u) :: rest
      | false, rest => ("", String c "") :: rest
      end
  end.

(** [leadingFraction]: the digits that fit, and the power of ten they are divided by. *)
Definition fraction_step (acc : Z * spec_float * bool) (d : N) : Z * spec_float * bool :=
  let '(x, scale, overflow) := acc in
  if overflow then acc
  else if (2 ^ 63 - 1) / 10 <? x then (x, scale, true)
  else let y := x * 10 + Z.of_N d in
       if 2 ^ 63 <? y then (x, scale, true)
       else (y, SFmul 53 1024 scale (float64_of 10), false).

Definition leadingFraction (ds : list N) : Z * spec_float :=
  let '(x, scale, _) := fold_left fraction_step ds (0, float64_of 1, false) in (x, scale).

(** [uint64(float64(f) * (float64(unit) / scale))] *)
Definition fraction_of (unit : Z) (ds : list N) : Z :=
  let '(f, scale) := leadingFraction ds in
  if f =? 0 then 0
  else trunc (SFmul 53 1024 (float64_of f) (SFdiv 53 1024 (float64_of unit) scale)).

(** A number before a unit: digits, with or without a point and digits after it. *)
Definition number (n : string) : option (list N * list N) :=
  let '(before, rest) := span_digits n in
  match rest with
  | EmptyString => Some (before, [])
  | String c rest =>
      let '(after, rest) := span_digits rest in
      if Ascii.eqb c "." && (rest =s "") then
        match before, after with [], [] => None | _, _ => Some (before, after) end
      else None
  end.

Definition run_value (run : string * string) : option Z :=
  let '(n, u) := run in
  if (n =s "") || (u =s "") then None
  else
    '(before, after) ← number n;
    let v := Z.of_N (value before) in
    if 2 ^ 63 <? v then None
    else
      unit ← unitMap u;
      if 2 ^ 63 / unit <? v then None
      else
        let v := v * unit + fraction_of unit after in
        if 2 ^ 63 <? v then None else Some v.

(** The sum, kept in [uint64] and refused above 2^63. *)
Fixpoint sum_runs (d : Z) (l : list (string * string)) : option Z :=
  match l with
  | [] => Some d
  | run :: l =>
      v ← run_value run;
      let d := (d + v) mod 2 ^ 64 in
      if 2 ^ 63 <? d then None else sum_runs d l
  end.

Definition ParseDuration (s : string) : option Z :=
  let '(neg, s) := match s with
                   | String c s' => if Ascii.eqb c "-" then (true, s') else if Ascii.eqb c "+" then (false, s') else (false, s)
                   | EmptyString => (false, s)
                   end in
  if s =s "0" then Some 0
  else if s =s "" then None
  else
    d ← sum_runs 0 (runs s);
    if neg then Some (- d)
    else if 2 ^ 63 - 1 <? d then None else Some d.

Example durations :
  ParseDuration "100ms" = Some 100000000 /\ ParseDuration "1h30m" = Some (90 * Minute) /\
  ParseDuration "1.5s" = Some 1500000000 /\ ParseDuration "-2m" = Some (-120 * Second) /\
  ParseDuration ".5h" = Some (30 * Minute) /\ ParseDuration "0" = Some 0 /\ ParseDuration "10" = None /\
  ParseDuration "1.2.3s" = None /\ ParseDuration "s" = None /\ ParseDuration "2562047h47m16.854775807s" = Some (2 ^ 63 - 1) /\
  ParseDuration "9223372036854775808ns" = None /\ ParseDuration "0.1h" = Some (6 * Minute).
Proof. repeat split; vm_compute; reflexivity. Qed.

(** ** Ranges *)

Lemma sum_runs_range l d d' : 0 <= d <= 2 ^ 63 -> sum_runs d l = Some d' -> 0 <= d' <= 2 ^ 63.
Proof.
  revert d. induction l as [|run l IH]; intros d Hd; simpl; [by intros [= <-] |].
  destruct (run_value run) as [v |]; [| done]. cbn -[Z.pow Z.modulo]. case_match eqn:Hb; [done |]. intros Hs.
  eapply IH; [| exact Hs]. apply Z.ltb_ge in Hb. split; [by apply Z.mod_pos_bound | done].
Qed.

Lemma Atoi_range s z : Atoi s = Some z -> int64 z.
Proof.
  unfold Atoi. destruct (match s with EmptyString => _ | _ => _ end) as [sign ds]. destruct (span_digits ds) as [[|d l] rest]; [done |].
  set (v := sign * _). clearbody v. case_match eqn:Hb; [| done]. intros [= <-]. unfold int64. lia.
Qed.

(** A duration fits an [int64]. *)
Lemma ParseDuration_range s d : ParseDuration s = Some d -> int64 d.
Proof.
  unfold ParseDuration. destruct (match s with EmptyString => _ | _ => _ end) as [neg s']. case_match; [intros [= <-]; done |].
  case_match; [done |]. destruct (sum_runs 0 (runs s')) as [d' |] eqn:Hs; [| done]. apply sum_runs_range in Hs; [| lia].
  cbn -[Z.pow]. unfold int64. destruct neg; [intros [= <-]; lia |]. case_match eqn:Hb; [done |]. intros [= <-]. apply Z.ltb_ge in Hb. lia.
Qed.
