(* ===== verification/Flag.v ===== *)
(** * Flag: the [flag] package of the standard library.

    [FlagSet.Parse] over a set of flags that all take a value: the syntax of an argument,
    the flags the set knows and the errors.  What a flag does with its value is the
    function a command gives. *)

From Stdlib Require Import Ascii.
From S2P Require Import Prelude GoStrings.

#[local] Open Scope string_scope.

Inductive flag_error :=
| BadFlagSyntax (arg : string)
| HelpRequested
| FlagNotDefined (name : string)
| FlagNeedsArgument (name : string)
| InvalidValue (value name : string).

(** The name and, after [=], the value of a flag; the first character is not a separator. *)
Definition split_flag (name : string) : string * option string :=
  match name with
  | EmptyString => (name, None)
  | String c rest =>
      match Cut rest "=" with
      | Some (before, value) => (String c before, Some value)
      | None => (name, None)
      end
  end.

(** The text of an argument that is a flag. *)
Inductive flag_arg := Positional | Terminator | Malformed | Named (name : string).

Definition flag_of (s : string) : flag_arg :=
  match s with
  | String "-" EmptyString => Positional
  | String "-" (String c rest) =>
      if Ascii.eqb c "-" && (rest =s "") then Terminator
      else
        let name := if Ascii.eqb c "-" then rest else String c rest in
        match name with
        | String c' _ => if Ascii.eqb c' "-" || Ascii.eqb c' "=" then Malformed else Named name
        | EmptyString => Malformed
        end
  | _ => Positional
  end.

Section Parse.
Context {F : Type}.

(** [flag.Value.Set] of the flag of that name, if there is one. *)
Variable set_flag : string -> string -> F -> option (option F).

(** [FlagSet.Parse]: what is after the first argument that is not a flag is left alone. *)
Fixpoint parse_flags (args : list string) (flags : F) : res flag_error F :=
  match args with
  | [] => Ok flags
  | arg :: rest =>
      match flag_of arg with
      | Positional | Terminator => Ok flags
      | Malformed => Err (BadFlagSyntax arg)
      | Named text =>
          let '(name, inline) := split_flag text in
          match set_flag name "" flags with
          | None => Err (if (name =s "help") || (name =s "h") then HelpRequested else FlagNotDefined name)
          | Some _ =>
              match inline, rest with
              | Some value, rest =>
                  match set_flag name value flags with
                  | Some (Some flags) => parse_flags rest flags
                  | _ => Err (InvalidValue value name)
                  end
              | None, value :: rest =>
                  match set_flag name value flags with
                  | Some (Some flags) => parse_flags rest flags
                  | _ => Err (InvalidValue value name)
                  end
              | None, [] => Err (FlagNeedsArgument name)
              end
          end
      end
  end.

(** What every [Set] keeps holds of the parsed values; by the number of arguments, since
    a flag takes one or two of them. *)
Lemma parse_flags_keeps (P : F -> Prop) args flags flags' :
  (forall name value f f', P f -> set_flag name value f = Some (Some f') -> P f') ->
  P flags -> parse_flags args flags = Ok flags' -> P flags'.
Proof.
  intros Hset. remember (length args) as n eqn:Hn. assert (length args <= n)%nat as Hlen by lia. clear Hn. revert args flags Hlen.
  induction n as [|n IH]; intros [|arg rest] flags Hlen HP; simpl in *; try lia; try (by intros [= <-]).
  destruct (flag_of arg) as [| | | text]; try done; try (by intros [= <-]).
  destruct (split_flag text) as [name inline]. destruct (set_flag name "" flags); [| done].
  destruct inline as [value |]; [| destruct rest as [|value rest]; [done |]];
    (destruct (set_flag name value flags) as [[flags1 |] |] eqn:Hs; [| done | done]);
    apply IH; eauto; simpl in *; lia.
Qed.
End Parse.
