(* ===== verification/Mux.v ===== *)
(** * Mux: the routes of [net/http].

    What the services use of [http.ServeMux]: patterns without methods, hosts and
    wildcards, on paths without percent escapes.  A pattern that ends in a slash stands
    for all paths below it; the longest pattern wins; a path that is not clean, or that
    lacks only the slash of a pattern, is redirected. *)

From Stdlib Require Import Ascii.
From S2P Require Import Prelude GoStrings Decimal.

#[local] Open Scope string_scope.

(** ** Clean paths *)

(** The parts of a text between slashes: at least one. *)
Fixpoint segments (s : string) : list string :=
  match s with
  | EmptyString => [""]
  | String c s' =>
      let rest := segments s' in
      if Ascii.eqb c "/" then "" :: rest
      else match rest with
           | w :: ws => String c w :: ws
           | [] => [String c ""]
           end
  end.

(** [path.Clean] of a rooted path, on its segments; [above] are those kept, last first. *)
Fixpoint clean_segments (above : list string) (segs : list string) : list string :=
  match segs with
  | [] => rev above
  | seg :: segs =>
      if (seg =s "") || (seg =s ".") then clean_segments above segs
      else if seg =s ".." then clean_segments (tail above) segs
      else clean_segments (seg :: above) segs
  end.

Fixpoint rooted (segs : list string) : string :=
  match segs with
  | [] => ""
  | seg :: segs => "/" ++ seg ++ rooted segs
  end.

Definition ends_in_slash (s : string) : bool :=
  match list.last (segments s) with Some "" => negb (s =s "") | _ => false end.

Definition cleanPath (p : string) : string :=
  match clean_segments [] (segments p) with
  | [] => "/"
  | segs => rooted segs ++ (if ends_in_slash p then "/" else "")
  end.

(** ** Patterns *)

Section Mux.
Context {H : Type}.

Definition mux : Type := list (string * H).

Definition matches (path pattern : string) : bool :=
  (pattern =s path) || (ends_in_slash pattern && HasPrefix path pattern).

Definition longer (a b : string * H) : string * H :=
  if (String.length a.1 <? String.length b.1)%nat then b else a.

(** The handler of the longest pattern that matches. *)
Fixpoint mux_match (path : string) (m : mux) : option (string * H) :=
  match m with
  | [] => None
  | p :: m =>
      let best := mux_match path m in
      if matches path p.1 then Some (from_option (longer p) p best) else best
  end.

Inductive routed :=
| Handler (h : H)
| RedirectTo (path : string)
| NoRoute.

Definition exact (path : string) (m : mux) : bool := existsb (fun p => p.1 =s path) m.

(** [mux.findHandler]. *)
Definition find_handler (path : string) (m : mux) : routed :=
  let clean := cleanPath path in
  if negb (exact clean m) && negb (ends_in_slash clean) && exact (clean ++ "/") m then RedirectTo (clean ++ "/")
  else if negb (clean =s path) then RedirectTo clean
  else match mux_match path m with
       | Some (_, h) => Handler h
       | None => NoRoute
       end.

Lemma mux_match_in path m p : mux_match path m = Some p -> p ∈ m /\ matches path p.1 = true.
Proof.
  revert p. induction m as [|q m IH]; intros p; simpl; [done |].
  assert (forall p', mux_match path m = Some p' -> p' ∈ q :: m /\ matches path p'.1 = true) as IH'.
  { intros p' (Hin & Hp)%IH. split; [by apply list_elem_of_further | done]. }
  destruct (matches path q.1) eqn:Hq; [| apply IH'].
  destruct (mux_match path m) as [b |]; simpl; intros [= <-]; [| split; [apply list_elem_of_here | done]].
  unfold longer. case_match; [by apply IH' | split; [apply list_elem_of_here | done]].
Qed.

(** The pattern chosen is at least as long as every pattern that matches. *)
Lemma mux_match_longest path m p q :
  mux_match path m = Some p -> q ∈ m -> matches path q.1 = true -> (String.length q.1 <= String.length p.1)%nat.
Proof.
  revert p. induction m as [|x m IH]; intros p Hp Hq Hm; [by apply elem_of_nil in Hq |]. simpl in Hp.
  apply elem_of_cons in Hq as [-> | Hq].
  - rewrite Hm in Hp. destruct (mux_match path m) as [b |]; simpl in Hp; injection Hp as <-; [| done].
    unfold longer. case_match eqn:Hl; [apply Nat.ltb_lt in Hl; lia | done].
  - destruct (mux_match path m) as [b |] eqn:Hb.
    + specialize (IH b eq_refl Hq Hm). destruct (matches path x.1); simpl in Hp; injection Hp as <-; [| done].
      unfold longer. case_match eqn:Hl; [done | apply Nat.ltb_ge in Hl; lia].
    + exfalso. clear IH Hp p. induction m as [|y m IH]; [by apply elem_of_nil in Hq |]. simpl in Hb.
      apply elem_of_cons in Hq as [-> | Hq]; [by rewrite Hm in Hb |]. destruct (matches path y.1); [done | by apply IH].
Qed.

(** A request reaches a handler on a path its pattern matches. *)
Lemma find_handler_in path m h : find_handler path m = Handler h -> exists pattern, (pattern, h) ∈ m /\ matches path pattern = true.
Proof.
  unfold find_handler. case_match; [done |]. case_match; [done |]. destruct (mux_match path m) as [[pattern h'] |] eqn:Hm; [| done].
  intros [= <-]. exists pattern. by apply mux_match_in in Hm.
Qed.
End Mux.
Arguments mux : clear implicits.
Arguments routed : clear implicits.

Example clean_examples :
  cleanPath "/v1//wallets/../ledger/./x/" = "/v1/ledger/x/" /\ cleanPath "/.." = "/" /\ cleanPath "/v1" = "/v1" /\
  find_handler "/v1/ledger" [("/v1/ledger/", 1); ("/v1/", 2)] = RedirectTo "/v1/ledger/" /\
  find_handler "/v1/ledger/x" [("/v1/", 2); ("/v1/ledger/", 1)] = Handler 1 /\
  find_handler "/v1/wallet" [("/v1/wallets", 1); ("/v1/", 2)] = Handler 2.
Proof. repeat split. Qed.
