(* ===== verification/Telemetry.v ===== *)
(** * Telemetry: attributes of spans and labels of metrics.

    [SafeAttributes] of [internal/telemetry/telemetry.go] and the recorders of
    [internal/telemetry/metrics.go].  Collectors are counted by name and labels: a
    counter by its increments, a histogram by its observations, whose values are not
    kept.  The handles of all services in a process share the collectors of the first. *)

From Stdlib Require Import Ascii.
From S2P Require Import Prelude GoStrings Decimal Mux.

#[local] Open Scope string_scope.

(** ** Attributes *)

Definition allowedAttributeKeys : list string :=
  ["service.name"; "messaging.kafka.topic"; "operation"; "provider.id"; "model.id"; "fraud.session_id"; "payment.id";
   "verdict.action"; "outcome"; "rpc.service"; "rpc.method"; "http.request.method"; "http.response.status_code"].

Definition isAllowedAttribute (key : string) : bool :=
  negb (key =s "") && existsb (String.eqb key) allowedAttributeKeys.

Definition bounded (value : string) (limit : nat) : string :=
  if (String.length value <=? limit)%nat then value else String.substring 0 limit value.

(** Keys and values in turn; a last key without a value is dropped. *)
Fixpoint SafeAttributes (keyValues : list string) : list (string * string) :=
  match keyValues with
  | key :: value :: rest =>
      let key := TrimSpace key in
      if negb (isAllowedAttribute key) then SafeAttributes rest
      else (key, bounded value 128) :: SafeAttributes rest
  | _ => []
  end.

(** What a span is told of an error: the text before the first colon. *)
Definition boundedErrorType (err : string) : string :=
  let name := match Cut err ":" with Some (name, _) => name | None => err end in
  bounded (TrimPrefix (TrimPrefix name "*") ".") 64.

Lemma substring_length n s : (String.length (String.substring 0 n s) <= n)%nat.
Proof. revert s. induction n as [|n IH]; intros [|c s]; simpl; [lia | lia | lia |]. specialize (IH s). lia. Qed.

Lemma bounded_length value limit : (String.length (bounded value limit) <= limit)%nat.
Proof. unfold bounded. case_match eqn:Hl; [by apply Nat.leb_le | apply substring_length]. Qed.

(** Nothing but the keys of the list leaves a service, and no long value. *)
Lemma attributes_are_safe keyValues :
  Forall (fun kv => kv.1 ∈ allowedAttributeKeys /\ (String.length kv.2 <= 128)%nat) (SafeAttributes keyValues).
Proof.
  induction keyValues as [[|k [|v l]] IH] using (induction_ltof1 _ length); unfold ltof in IH; [constructor | constructor |].
  cbn [SafeAttributes]. destruct (isAllowedAttribute (TrimSpace k)) eqn:Ha; cbn [negb]; [| apply IH; simpl; lia].
  constructor; [| apply IH; simpl; lia]. split; [| apply bounded_length]. unfold isAllowedAttribute in Ha.
  apply andb_true_iff in Ha as [_ Ha]. apply existsb_exists in Ha as (key & Hin & <-%String.eqb_eq). by apply list_elem_of_In.
Qed.

(** ** Labels *)

Definition boundedSourceTopics : list string :=
  ["tx.initiated"; "payment.execute"; "payment.completed"; "payment.failed"; "tx.completed"; "tx.failed"; "tx.paused";
   "fraud.score.requested"; "fraud.flagged"; "fraud.error"; "user.verified"; "user.rejected"].

Definition buildBoundedKafkaTopics : list string :=
  concat ((fun topic => [topic; topic ++ ".dlq"]) <$> boundedSourceTopics).

Definition oneOf (value : string) (allowed : list string) : bool := existsb (String.eqb value) allowed.

(** [strings.Split(strings.Trim(path, "/"), "/")] *)
Fixpoint drop_empty (parts : list string) : list string :=
  match parts with
  | "" :: parts => drop_empty parts
  | _ => parts
  end.

Definition path_parts (path : string) : list string :=
  match rev (drop_empty (rev (drop_empty (segments path)))) with
  | [] => [""]
  | parts => parts
  end.

Fixpoint count_dashes (s : string) : nat :=
  match s with
  | EmptyString => 0
  | String c s => (if Ascii.eqb c "-" then 1 else 0) + count_dashes s
  end.

Definition looksLikeID (value : string) : bool := (24 <? String.length value)%nat || (2 <=? count_dashes value)%nat.

(** The parts after the first, each looked at with what is left of the one before. *)
Fixpoint mask (before : string) (parts : list string) : list string :=
  match parts with
  | [] => []
  | part :: parts =>
      let part := if looksLikeID part || (before =s "payments") || (before =s "wallets") then ":id" else part in
      part :: mask part parts
  end.

Definition boundedRoute (path : string) : string :=
  match path_parts path with
  | [] => "/"
  | first :: rest => if (first =s "") && bool_decide (rest = []) then "/" else rooted (first :: mask first rest)
  end.

(** ** Recorders *)

(** The samples of the process: how often each series was counted or observed. *)
Abbreviation samples := (gmap (string * list string) Z).

Definition observe (metric : string) (labels : list string) (m : samples) : samples :=
  <[(metric, labels) := default 0%Z (m !! (metric, labels)) + 1]> m.

Definition sagaStateLabels : list string :=
  ["STARTED"; "VERIFICATION_CHECKED"; "WALLET_DEBITED"; "LEDGER_RESERVED"; "PAYMENT_PROCESSING"; "FRAUD_REVIEW";
   "LEDGER_CONFIRMED"; "COMPLETED"; "COMPENSATING_LEDGER"; "COMPENSATING_WALLET"; "FAILED"].
Definition kafkaOutcomes : list string := ["consumed"; "produced"; "failed"; "retried"].
Definition sagaOutcomes : list string := ["completed"; "failed"].
Definition sagaEventLabels : list string :=
  ["step_failure"; "compensation"; "fraud_review"; "fraud_review_resumed"; "fraud_review_rejected"; "fraud_review_expired"].
Definition dbOperations : list string := ["query"; "exec"; "transaction"].
Definition dbOutcomes : list string := ["success"; "failure"].

Definition RecordSagaState (state : string) (m : samples) : bool * samples :=
  if negb (oneOf state sagaStateLabels) then (false, m)
  else (true, observe "saga_state_transitions_total" [state] m).

Definition RecordKafka (service topic outcome : string) (m : samples) : bool * samples :=
  if negb (oneOf topic buildBoundedKafkaTopics) || negb (oneOf outcome kafkaOutcomes) then (false, m)
  else (true, observe "service_kafka_records_total" [service; topic; outcome] m).

Definition RecordSaga (event : string) (m : samples) : bool * samples :=
  if oneOf event sagaOutcomes then (true, observe "saga_duration_seconds" [event] m)
  else if oneOf event sagaEventLabels then (true, observe "saga_events_total" [event] m)
  else (false, m).

Definition RecordDB (service operation outcome : string) (m : samples) : bool * samples :=
  if negb (oneOf operation dbOperations) || negb (oneOf outcome dbOutcomes) then (false, m)
  else (true, observe "service_database_operation_duration_seconds" [service; operation; outcome] m).

(** One counter that grows by the rows deleted. *)
Definition RecordFraudAuditDeleted (rows : Z) (m : samples) : samples :=
  let key := ("saga_fraud_audit_rows_deleted_total", []) in
  if (0 <? rows)%Z then <[key := default 0%Z (m !! key) + rows]> m else m.

(** The interceptor of the gRPC servers, after the handler answered with [code]. *)
Definition UnaryServerInterceptor (service fullMethod code : string) (m : samples) : samples :=
  observe "service_grpc_request_duration_seconds" [service; fullMethod]
    (observe "service_grpc_requests_total" [service; fullMethod; code] m).

(** The middleware, after the handler answered with [status]. *)
Definition HTTPMiddleware (service method path status : string) (m : samples) : samples :=
  let route := boundedRoute path in
  observe "service_http_request_duration_seconds" [service; method; route]
    (observe "service_http_requests_total" [service; method; route; status] m).

(** [ServiceMetrics]: the handles given out, the service whose handle has the collectors,
    and whether the default registry has them; registering them twice panics. *)
Record handles := Handles { given : gset string; base : option string; registered : bool }.

Definition NewMetrics (h : handles) : option handles :=
  if registered h then None else Some (Handles (given h) (base h) true).

Definition ServiceMetrics (service : string) (h : handles) : option handles :=
  if bool_decide (service ∈ given h) then Some h
  else match base h with
       | None => h ← NewMetrics h; Some (Handles ({[service]} ∪ given h) (Some service) (registered h))
       | Some b => Some (Handles ({[service]} ∪ given h) (Some b) (registered h))
       end.

Fixpoint ask_all (services : list string) (h : handles) : option handles :=
  match services with
  | [] => Some h
  | service :: services => h ← ServiceMetrics service h; ask_all services h
  end.

(** The collectors are registered once, whoever asks first. *)
Lemma handles_never_panic services h :
  registered h = bool_decide (is_Some (base h)) ->
  exists h', ask_all services h = Some h' /\ registered h' = bool_decide (is_Some (base h')) /\
    forall service, service ∈ services -> service ∈ given h'.
Proof.
  revert h. assert (forall service h, registered h = bool_decide (is_Some (base h)) -> exists h',
    ServiceMetrics service h = Some h' /\ registered h' = bool_decide (is_Some (base h')) /\ service ∈ given h' /\ given h ⊆ given h') as Hone.
  { intros service h Hr. unfold ServiceMetrics, NewMetrics. destruct (bool_decide (service ∈ given h)) eqn:Hg.
    { apply bool_decide_eq_true in Hg. exists h. split; [done |]. split; [done |]. set_solver. }
    destruct (base h) as [b |]; [eexists; split; [done |]; split; [done |]; simpl; set_solver |].
    rewrite bool_decide_eq_false_2 in Hr by (by intros []). rewrite Hr. cbn. eexists; split; [done |]; split; [done |]. simpl. set_solver. }
  assert (forall services h h', ask_all services h = Some h' -> registered h = bool_decide (is_Some (base h)) -> given h ⊆ given h') as Hmono.
  { induction services0 as [|x l IH]; intros h h'; simpl; [by intros [= <-] |]. intros Hall Hr.
    destruct (Hone x h Hr) as (h1 & Hx & Hr1 & _ & Hsub). rewrite Hx in Hall. simpl in Hall. etransitivity; [exact Hsub | by eapply IH]. }
  induction services as [|x l IH]; intros h Hr; [exists h; split; [done |]; split; [done |]; set_solver |]. simpl.
  destruct (Hone x h Hr) as (h1 & -> & Hr1 & Hin & _). simpl. destruct (IH h1 Hr1) as (h' & Hall & Hr' & Hgiven).
  exists h'. split; [done |]. split; [done |]. intros service [-> | Hs]%elem_of_cons; [| auto]. by eapply Hmono.
Qed.

(** ** Which series there are *)

(** The series of the recorders with fixed labels, for the services of a process. *)
Definition fixed_series (services : list string) : list (string * list string) :=
  (((fun s => ("saga_state_transitions_total", [s])) <$> sagaStateLabels) ++
   ((fun s => ("saga_duration_seconds", [s])) <$> sagaOutcomes) ++
   ((fun s => ("saga_events_total", [s])) <$> sagaEventLabels) ++
   [("saga_fraud_audit_rows_deleted_total", [])] ++
   (service ← services; topic ← buildBoundedKafkaTopics; outcome ← kafkaOutcomes;
    [("service_kafka_records_total", [service; topic; outcome])]) ++
   (service ← services; operation ← dbOperations; outcome ← dbOutcomes;
    [("service_database_operation_duration_seconds", [service; operation; outcome])]))%list.

Inductive recording :=
| OnSagaState (state : string)
| OnKafka (service topic outcome : string)
| OnSaga (event : string)
| OnDB (service operation outcome : string)
| OnDeleted (rows : Z).

Definition record_one (r : recording) (m : samples) : samples :=
  match r with
  | OnSagaState state => snd (RecordSagaState state m)
  | OnKafka service topic outcome => snd (RecordKafka service topic outcome m)
  | OnSaga event => snd (RecordSaga event m)
  | OnDB service operation outcome => snd (RecordDB service operation outcome m)
  | OnDeleted rows => RecordFraudAuditDeleted rows m
  end.

Definition by_services (services : list string) (r : recording) : Prop :=
  match r with OnKafka service _ _ | OnDB service _ _ => service ∈ services | _ => True end.

Lemma oneOf_elem value allowed : oneOf value allowed = true -> value ∈ allowed.
Proof. unfold oneOf. intros (x & Hx & <-%String.eqb_eq)%existsb_exists. by apply list_elem_of_In. Qed.

Lemma record_one_series services r m : by_services services r ->
  dom m ⊆ list_to_set (fixed_series services) -> dom (record_one r m) ⊆@{gset _} list_to_set (fixed_series services).
Proof.
  intros Hs Hm. assert (forall k v, k ∈ fixed_series services -> dom (<[k := v]> m) ⊆@{gset _} list_to_set (fixed_series services)) as Hins.
  { intros k v Hk. rewrite dom_insert. apply union_subseteq. split; [| done]. apply singleton_subseteq_l. by apply elem_of_list_to_set. }
  unfold fixed_series in Hins. destruct r as [state | service topic outcome | event | service operation outcome | rows]; simpl in Hs |- *.
  - unfold RecordSagaState. destruct (oneOf _ _) eqn:Ho; [| done]. apply oneOf_elem in Ho. simpl. apply Hins. rewrite !elem_of_app. left.
    apply list_elem_of_fmap. by exists state.
  - unfold RecordKafka. destruct (oneOf topic _) eqn:Ht; [| done]. destruct (oneOf outcome _) eqn:Ho; [| done].
    apply oneOf_elem in Ht, Ho. cbn [negb orb snd]. apply Hins. rewrite !elem_of_app. do 4 right. left.
    apply list_elem_of_bind. exists service. split; [| done]. apply list_elem_of_bind. exists topic. split; [| done].
    apply list_elem_of_bind. exists outcome. split; [apply list_elem_of_here | done].
  - unfold RecordSaga. destruct (oneOf event sagaOutcomes) eqn:Ho; [| destruct (oneOf event sagaEventLabels) eqn:He; [| done]]; simpl; apply Hins; rewrite !elem_of_app.
    + right; left. apply list_elem_of_fmap. exists event. split; [done | by apply oneOf_elem].
    + do 2 right. left. apply list_elem_of_fmap. exists event. split; [done | by apply oneOf_elem].
  - unfold RecordDB. destruct (oneOf operation _) eqn:Ht; [| done]. destruct (oneOf outcome _) eqn:Ho; [| done].
    apply oneOf_elem in Ht, Ho. cbn [negb orb snd]. apply Hins. rewrite !elem_of_app. do 5 right.
    apply list_elem_of_bind. exists service. split; [| done]. apply list_elem_of_bind. exists operation. split; [| done].
    apply list_elem_of_bind. exists outcome. split; [apply list_elem_of_here | done].
  - unfold RecordFraudAuditDeleted. case_match; [| done]. apply Hins. rewrite !elem_of_app. do 3 right. left. apply list_elem_of_here.
Qed.

Lemma size_listed {A} `{Countable A} (l : list A) : (size (list_to_set l : gset A) <= length l)%nat.
Proof.
  induction l as [|x l IH]; [done |]. rewrite list_to_set_cons, size_union_alt, size_singleton. cbn [length].
  assert (list_to_set l ∖ {[x]} ⊆ (list_to_set l : gset A)) as Hs by set_solver. apply subseteq_size in Hs. lia.
Qed.

(** However much is recorded, the series stay within a fixed number per service. *)
Lemma series_are_bounded services recordings :
  Forall (by_services services) recordings ->
  (size (foldr record_one ∅ recordings) <= 20 + 102 * length services)%nat.
Proof.
  intros Hs. assert (dom (foldr record_one ∅ recordings) ⊆@{gset _} list_to_set (fixed_series services)) as Hdom.
  { induction Hs as [|r l Hr _ IH]; simpl; [set_solver | by apply record_one_series]. }
  rewrite <- size_dom. etransitivity; [exact (subseteq_size _ _ Hdom) |]. etransitivity; [apply size_listed |].
  unfold fixed_series. rewrite !length_app, !length_fmap. clear Hs Hdom. induction services as [|s l IH]; [simpl; lia |].
  rewrite !bind_cons, !length_app in *. cbn [length] in *. 
  change (length (topic ← buildBoundedKafkaTopics; outcome ← kafkaOutcomes; [("service_kafka_records_total", [s; topic; outcome])])) with 96%nat.
  change (length (operation ← dbOperations; outcome ← dbOutcomes; [("service_database_operation_duration_seconds", [s; operation; outcome])])) with 6%nat.
  lia.
Qed.

(** Behind the first part of a path no identifier is left: a part is masked, or it is
    short and has at most one dash. *)
Lemma routes_hide_identifiers before parts :
  Forall (fun part => part = ":id" \/ ((String.length part <= 24)%nat /\ (count_dashes part < 2)%nat)) (mask before parts).
Proof.
  revert before. induction parts as [|part parts IH]; intros before; constructor; [| apply IH].
  unfold looksLikeID. destruct (_ || _ || _) eqn:Hm; [by left | right].
  rewrite !orb_false_iff, Nat.ltb_ge, Nat.leb_gt in Hm. lia.
Qed.

Fixpoint no_slash (s : string) : bool :=
  match s with
  | EmptyString => true
  | String c s => negb (Ascii.eqb c "/") && no_slash s
  end.

Lemma segments_plain s : no_slash s = true -> segments s = [s].
Proof.
  induction s as [|c s IH]; [done |]. simpl. intros [Hc Hs]%andb_true_iff. rewrite IH by done. by destruct (Ascii.eqb c "/").
Qed.

(** The first part is taken as it comes, so every path a client makes up is a route and
    a label of its own, also one that nothing serves. *)
Lemma routes_are_unbounded s : s <> "" -> no_slash s = true -> boundedRoute ("/" ++ s) = "/" ++ s.
Proof.
  intros Hne Hs. unfold boundedRoute, path_parts. change (segments ("/" ++ s)) with ("" :: segments s). rewrite segments_plain by done.
  destruct s as [|c s]; [done |]. cbn [drop_empty rev app mask rooted]. rewrite (proj2 (String.eqb_neq _ _)) by done. cbn [andb].
  assert (forall x, x ++ "" = x) as Hnil by (induction x as [|d x IH]; [done | exact (f_equal (String d) IH)]).
  cbn [mask rooted]. by rewrite Hnil.
Qed.

Example routes_evaluated :
  boundedRoute "/v1/wallets/6f1f24a4-6d1c-4a53-9a0e-3f3f0a1f8b11/balance" = "/v1/wallets/:id/balance" /\
  boundedRoute "/v1/payments/p1/fraud-review/resume" = "/v1/payments/:id/fraud-review/resume" /\
  boundedRoute "/" = "/" /\ boundedRoute "/healthz/" = "/healthz" /\ boundedRoute "//v1//ledger" = "/v1//ledger" /\
  SafeAttributes ["payment.id"; "p1"; "user.email"; "a@b.c"; " operation "; "debit"; "outcome"] = [("payment.id", "p1"); ("operation", "debit")] /\
  boundedErrorType "*net.OpError: dial tcp" = "net.OpError".
Proof. vm_compute. repeat split; reflexivity. Qed.
