(* ===== verification/Rfc3339.v ===== *)
(** * Rfc3339: reading times back.

    [time.Parse(time.RFC3339Nano, text)]: the date and the time of the day in digits
    (an hour may have one), any number of digits of a fraction after a point or a
    comma, of which nine count, and [Z] or an offset.  What [FormatRFC3339Nano] prints
    of a time of the years 1 to 9999 is read back as this time. *)

From Stdlib Require Import Ascii.
From stdpp Require Import pretty.
From S2P Require Import Prelude GoStrings Domain GoTime Decimal.
#[local] Open Scope string_scope.
#[local] Open Scope Z_scope.

Definition leap (y : Z) : bool := (y mod 4 =? 0) && (negb (y mod 100 =? 0) || (y mod 400 =? 0)).

Definition daysIn (m y : Z) : Z :=
  if m =? 2 then if leap y then 29 else 28
  else if (m =? 4) || (m =? 6) || (m =? 9) || (m =? 11) then 30 else 31.

(** Days from 1 January of year 1 to a date. *)
Definition days_of (y m d : Z) : Z :=
  let y := if m <=? 2 then y - 1 else y in
  let mp := if 2 <? m then m - 3 else m + 9 in
  365 * y + y / 4 - y / 100 + y / 400 + (153 * mp + 2) / 5 + d - 1 - 306.


(** ** Parsing *)

(** One or two digits; exactly two if [fixed]. *)
Definition getnum (fixed : bool) (s : string) : option (Z * string) :=
  match s with
  | EmptyString => None
  | String c1 s1 =>
      d1 ← digit_of c1;
      match (match s1 with EmptyString => None | String c2 s2 => d2 ← digit_of c2; Some (d2, s2) end) with
      | Some (d2, s2) => Some (Z.of_N (value [d1; d2]), s2)
      | None => if fixed then None else Some (Z.of_N d1, s1)
      end
  end.

Definition expect (c : ascii) (s : string) : option string :=
  match s with
  | String c' s' => if Ascii.eqb c' c then Some s' else None
  | EmptyString => None
  end.

Definition get_year (s : string) : option (Z * string) :=
  match s with
  | String c1 (String c2 (String c3 (String c4 s'))) =>
      d1 ← digit_of c1; d2 ← digit_of c2; d3 ← digit_of c3; d4 ← digit_of c4;
      Some (Z.of_N (value [d1; d2; d3; d4]), s')
  | _ => None
  end.

Definition commaOrPeriod (c : ascii) : bool := Ascii.eqb c "." || Ascii.eqb c ",".

(** The nanoseconds of the digits of a fraction. *)
Definition parseNanoseconds (ds : list N) : Z :=
  let ds := take 9 ds in Z.of_N (value ds) * 10 ^ (9 - Z.of_nat (length ds)).

Definition get_fraction (s : string) : Z * string :=
  match s with
  | String c s' =>
      match span_digits s' with
      | ([], _) => (0, s)
      | (ds, rest) => if commaOrPeriod c then (parseNanoseconds ds, rest) else (0, s)
      end
  | EmptyString => (0, s)
  end.

(** The offset in seconds of [Z] or of a sign, hours and minutes. *)
Definition get_zone (s : string) : option (Z * string) :=
  match s with
  | String c s' =>
      if Ascii.eqb c "Z" then Some (0, s')
      else
        '(hr, s) ← getnum true s';
        s ← expect ":" s;
        '(mm, s) ← getnum true s;
        if (24 <? hr) || (60 <? mm) then None
        else
          let offset := (hr * 60 + mm) * 60 in
          if Ascii.eqb c "+" then Some (offset, s)
          else if Ascii.eqb c "-" then Some (- offset, s) else None
  | EmptyString => None
  end.

Definition ParseRFC3339Nano (s : string) : option time :=
  '(y, s) ← get_year s; s ← expect "-" s;
  '(m, s) ← getnum true s; s ← expect "-" s;
  '(d, s) ← getnum true s; s ← expect "T" s;
  '(hour, s) ← getnum false s; s ← expect ":" s;
  '(minute, s) ← getnum true s; s ← expect ":" s;
  '(second, s) ← getnum true s;
  let '(nsec, s) := get_fraction s in
  '(offset, s) ← get_zone s;
  if negb (String.eqb s "") then None
  else if (m <? 1) || (12 <? m) || (24 <=? hour) || (60 <=? minute) || (60 <=? second) then None
  else if (d <? 1) || (daysIn m y <? d) then None
  else Some (days_of y m d * (24 * Hour) + hour * Hour + minute * Minute + second * Second + nsec - offset * Second).

(** ** The calendar *)

(** The year within an era of 400 years, which start in March, and the day in it. *)

(** The year within an era of 400 years, which start in March, and the day in it. *)
Lemma year_of_era doe : 0 <= doe < 146097 ->
  let yoe := (doe - doe / 1460 + doe / 36524 - doe / 146096) / 365 in
  0 <= yoe < 400 /\
  365 * yoe + yoe / 4 - yoe / 100 <= doe < 365 * (yoe + 1) + (yoe + 1) / 4 - (yoe + 1) / 100 + (yoe + 1) / 400.
Proof. intros Hdoe yoe. subst yoe. Z.to_euclidean_division_equations; lia. Qed.

(** A year of 366 days ends with a leap day. *)
Lemma leap_year yoe era : 0 <= yoe < 400 ->
  365 * yoe + yoe / 4 - yoe / 100 + 365 < 365 * (yoe + 1) + (yoe + 1) / 4 - (yoe + 1) / 100 + (yoe + 1) / 400 ->
  leap (yoe + era * 400 + 1) = true.
Proof.
  intros Hy Hlong. unfold leap.
  replace ((yoe + era * 400 + 1) mod 4) with ((yoe + 1) mod 4) by (Z.to_euclidean_division_equations; lia).
  replace ((yoe + era * 400 + 1) mod 100) with ((yoe + 1) mod 100) by (Z.to_euclidean_division_equations; lia).
  replace ((yoe + era * 400 + 1) mod 400) with ((yoe + 1) mod 400) by (Z.to_euclidean_division_equations; lia).
  apply andb_true_iff. rewrite orb_true_iff, negb_true_iff, !Z.eqb_eq, Z.eqb_neq.
  Z.to_euclidean_division_equations; lia.
Qed.

(** The month, which counts from March, and the day in it. *)
Lemma month_of_year doy : 0 <= doy <= 365 ->
  let mp := (5 * doy + 2) / 153 in
  0 <= mp <= 11 /\ 1 <= doy - (153 * mp + 2) / 5 + 1 <= 31 /\
  (mp = 11 -> doy - (153 * mp + 2) / 5 + 1 <= 29 /\ (doy - (153 * mp + 2) / 5 + 1 = 29 -> doy = 365)) /\
  (mp = 1 \/ mp = 3 \/ mp = 6 \/ mp = 8 -> doy - (153 * mp + 2) / 5 + 1 <= 30).
Proof. intros Hdoy mp. subst mp. Z.to_euclidean_division_equations; lia. Qed.

Lemma days_of_civil days : 0 <= days ->
  let '(y, m, d) := civil days in days_of y m d = days /\ 1 <= m <= 12 /\ 1 <= d <= daysIn m y.
Proof.
  intros Hdays. unfold civil. set (era := (days + 306) / 146097). set (doe := (days + 306) mod 146097).
  assert (0 <= doe < 146097) as Hdoe by (apply Z.mod_pos_bound; lia).
  assert (days = era * 146097 + doe - 306) as Hsplit by (unfold era, doe; Z.to_euclidean_division_equations; lia).
  destruct (year_of_era doe Hdoe) as [Hyoe Hyear]. set (yoe := (doe - _ + _ - _) / 365) in *.
  set (doy := doe - (365 * yoe + yoe / 4 - yoe / 100)) in *.
  assert (0 <= doy <= 365) as Hdoy by (unfold doy; clearbody yoe doe; Z.to_euclidean_division_equations; lia).
  destruct (month_of_year doy Hdoy) as (Hmp & Hd & Hfeb & Hshort). set (mp := (5 * doy + 2) / 153) in *.
  set (d := doy - (153 * mp + 2) / 5 + 1) in *.
  assert (365 * (yoe + era * 400) + (yoe + era * 400) / 4 - (yoe + era * 400) / 100 + (yoe + era * 400) / 400
          = era * 146097 + (365 * yoe + yoe / 4 - yoe / 100)) as Hstart
    by (clearbody yoe era; clear - Hyoe; Z.to_euclidean_division_equations; lia).
  assert (d = 29 -> mp = 11 -> leap (yoe + era * 400 + 1) = true) as Hleap.
  { intros Hd29 Hmp11. apply leap_year; [done |]. apply Hfeb in Hmp11 as [_ Hl]. specialize (Hl Hd29). unfold doy in Hl. lia. }
  clearbody yoe era. clearbody mp.
  destruct (mp <? 10) eqn:Hm; [apply Z.ltb_lt in Hm | apply Z.ltb_ge in Hm].
  - rewrite (proj2 (Z.leb_gt (mp + 3) 2)) by lia. rewrite Z.add_0_r. unfold days_of.
    rewrite (proj2 (Z.leb_gt (mp + 3) 2)), (proj2 (Z.ltb_lt 2 (mp + 3))) by lia.
    replace (mp + 3 - 3) with mp by lia. split; [unfold d; lia |]. split; [lia |]. unfold daysIn.
    rewrite (proj2 (Z.eqb_neq (mp + 3) 2)) by lia. destruct (_ || _) eqn:Hs; [| lia].
    rewrite !orb_true_iff, !Z.eqb_eq in Hs. split; [lia |]. apply Hshort. lia.
  - rewrite (proj2 (Z.leb_le (mp - 9) 2)) by lia. unfold days_of.
    rewrite (proj2 (Z.leb_le (mp - 9) 2)), (proj2 (Z.ltb_ge 2 (mp - 9))) by lia.
    replace (mp - 9 + 9) with mp by lia. replace (yoe + era * 400 + 1 - 1) with (yoe + era * 400) by lia.
    split; [unfold d; lia |]. split; [lia |]. unfold daysIn. destruct (mp - 9 =? 2) eqn:H2.
    + apply Z.eqb_eq in H2. assert (mp = 11) as H11 by lia. destruct (Hfeb H11) as [Hle _].
      destruct (leap _) eqn:Hlp; [lia |]. assert (d <> 29) by (intros H29; idtac; specialize (Hleap H29 H11); congruence). lia.
    + apply Z.eqb_neq in H2. rewrite !(proj2 (Z.eqb_neq _ _)) by lia. simpl. lia.
Qed.

(** ** Printed times *)

Lemma text_cons d ds rest : text (d :: ds) ++ rest = String (pretty_N_char d) (text ds ++ rest).
Proof. reflexivity. Qed.

Lemma getnum_text fixed d1 d2 rest :
  digits [d1; d2] -> getnum fixed (text [d1; d2] ++ rest) = Some (Z.of_N (value [d1; d2]), rest).
Proof. intros Hds. inversion_clear Hds as [|? ? H1 Hds']. inversion_clear Hds' as [|? ? H2 _]. rewrite !text_cons. simpl. by rewrite !digit_of_char. Qed.

(** A number of two digits. *)
Lemma getnum_pad fixed n rest : 0 <= n < 100 -> getnum fixed (pad 2 n ++ rest) = Some (n, rest).
Proof.
  intros Hn. destruct (pad_digits 2 n ltac:(lia) Hn) as (ds & -> & Hds & Hv & Hlen).
  destruct ds as [|d1 [|d2 [|]]]; try done. rewrite getnum_text by done. by rewrite Hv.
Qed.

Lemma get_year_pad y rest : 0 <= y < 10000 -> get_year (pad 4 y ++ rest) = Some (y, rest).
Proof.
  intros Hy. destruct (pad_digits 4 y ltac:(lia) Hy) as (ds & -> & Hds & Hv & Hlen).
  destruct ds as [|d1 [|d2 [|d3 [|d4 [|]]]]]; try done. unfold digits in Hds. rewrite !list.Forall_cons in Hds.
  destruct Hds as (H1 & H2 & H3 & H4 & _). rewrite !text_cons. simpl.
  rewrite !digit_of_char by done. simpl. by rewrite Hv.
Qed.

Lemma expect_char c rest : expect c (String c "" ++ rest) = Some rest.
Proof. rewrite append_cons, append_nil. simpl. by rewrite Ascii.eqb_refl. Qed.

Lemma trim_zeros_spec w : forall n, 0 <= n < 10 ^ Z.of_nat w ->
  let '(w', n') := trim_zeros w n in
  (w' <= w)%nat /\ n = n' * 10 ^ (Z.of_nat w - Z.of_nat w') /\ 0 <= n' < 10 ^ Z.of_nat w'.
Proof.
  induction w as [|w IH]; intros n Hn; cbn [trim_zeros]; [change (Z.of_nat 0) with 0 in *; rewrite Z.sub_diag; lia |].
  destruct (n mod 10 =? 0) eqn:Hz; [| rewrite Z.sub_diag; lia]. apply Z.eqb_eq in Hz.
  rewrite Nat2Z.inj_succ in *. rewrite Z.pow_succ_r in Hn by lia.
  assert (n = 10 * (n / 10)) as Hq by (pose proof (Z.div_mod n 10); lia).
  specialize (IH (n / 10) ltac:(lia)). destruct (trim_zeros w (n / 10)) as [w' n'] eqn:Ht.
  destruct IH as (Hw & Heq & Hn'). split; [lia |]. split; [| done].
  rewrite Hq, Heq at 1. replace (Z.succ (Z.of_nat w) - Z.of_nat w') with (Z.succ (Z.of_nat w - Z.of_nat w')) by lia.
  rewrite Z.pow_succ_r by lia. lia.
Qed.

Lemma get_fraction_printed n : 0 <= n < Second -> get_fraction (fraction 9 n ++ "Z") = (n, "Z").
Proof.
  intros Hn. unfold fraction. pose proof (trim_zeros_spec 9 n Hn) as Hs.
  destruct (trim_zeros 9 n) as [[|w] n']; destruct Hs as (Hw & Heq & Hn').
  - simpl in Hn'. assert (n' = 0) as -> by lia. subst n. reflexivity.
  - destruct (pad_digits (S w) n' ltac:(lia) Hn') as (ds & -> & Hds & Hv & Hlen).
    rewrite append_cons, append_nil. rewrite append_cons. unfold get_fraction. rewrite span_text by done.
    destruct ds as [|d ds]; [done |]. simpl commaOrPeriod. cbv iota. unfold parseNanoseconds. rewrite firstn_all2 by lia.
    rewrite Hv, Hlen. f_equal. by rewrite Heq.
Qed.

Lemma year_in_range y m d : 1 <= m <= 12 -> 1 <= d <= 31 -> 0 <= days_of y m d < 3652059 -> 0 <= y < 10000.
Proof.
  intros Hm Hd. unfold days_of. destruct (m <=? 2) eqn:Hle, (2 <? m) eqn:Hlt;
    rewrite ?Z.leb_le, ?Z.leb_gt, ?Z.ltb_lt, ?Z.ltb_ge in *; try lia; Z.to_euclidean_division_equations; lia.
Qed.

Lemma days_in_month m y : daysIn m y <= 31.
Proof. unfold daysIn. repeat case_match; lia. Qed.

(** What is printed is read. *)
Lemma parse_format t : 0 <= t < 3652059 * (24 * Hour) -> ParseRFC3339Nano (FormatRFC3339Nano t) = Some t.
Proof.
  intros Ht. unfold FormatRFC3339Nano. set (r := t mod (24 * Hour)).
  assert (0 <= t / (24 * Hour) < 3652059) as Hdays by (unfold Hour, Minute, Second in *; Z.to_euclidean_division_equations; lia).
  pose proof (days_of_civil (t / (24 * Hour)) (proj1 Hdays)) as Hc. destruct (civil _) as [[y m] d].
  destruct Hc as (Hdate & Hm & Hd). pose proof (days_in_month m y).
  assert (0 <= y < 10000) as Hy by (apply (year_in_range y m d); lia).
  assert (t = t / (24 * Hour) * (24 * Hour) + r /\ 0 <= r < 24 * Hour) as [Hsplit Hr]
    by (unfold r, Hour, Minute, Second in *; Z.to_euclidean_division_equations; lia).
  assert (0 <= r / Hour < 24 /\ 0 <= r / Minute mod 60 < 60 /\ 0 <= r / Second mod 60 < 60 /\ 0 <= r mod Second < Second /\
    r = r / Hour * Hour + r / Minute mod 60 * Minute + r / Second mod 60 * Second + r mod Second) as (Hh & Hmi & Hse & Hns & Hsum)
    by (clearbody r; clear - Hr; unfold Hour, Minute, Second in *; Z.to_euclidean_division_equations; lia).
  unfold ParseRFC3339Nano. rewrite get_year_pad by lia. cbn [mbind option_bind].
  do 5 (rewrite expect_char; cbn [mbind option_bind]; rewrite getnum_pad by lia; cbn [mbind option_bind]).
  rewrite get_fraction_printed by done. cbn [mbind option_bind get_zone Ascii.eqb Bool.eqb String.eqb negb].
  rewrite !(proj2 (Z.ltb_ge _ _)), !(proj2 (Z.leb_gt _ _)) by lia. cbn [orb]. f_equal. rewrite Hdate. lia.
Qed.

Example parse_offset :
  ParseRFC3339Nano "2024-02-29T14:34:56,789+02:00" = ParseRFC3339Nano "2024-02-29T12:34:56.789Z".
Proof. vm_compute. reflexivity. Qed.

Example parse_no_day : ParseRFC3339Nano "2023-02-29T12:34:56Z" = None.
Proof. vm_compute. reflexivity. Qed.
