(* ===== verification/Json.v ===== *)
(** * Json: the documents the services exchange.

    [encoding/json] is kept at the level of documents: [json.Marshal] of a struct
    is the document with the struct's tags, and [json.Unmarshal] reads a document
    field by field with Go's rules (unknown keys ignored, keys matched without
    case, the last of several matching keys wins, a missing key or [null] leaves
    the zero value, a value of another kind is an error).  A [time.Time] is
    rendered as an RFC 3339 string, which [JTime] stands for; [JString] is any
    other string.  Bytes that are not JSON are [None] where a payload is read.
    A [float64] is an IEEE 754 value of [SpecFloat]. *)

From Stdlib Require Import SpecFloat.
From S2P Require Import Prelude GoStrings Domain GoTime.

#[local] Set Warnings "-register-all".
#[local] Open Scope string_scope.
#[local] Open Scope Z_scope.

Abbreviation float64 := spec_float.
Definition float_zero : float64 := S754_zero false.
Definition float_one : float64 := S754_finite false (2 ^ 52)%positive (-52).

Definition IsNaN (x : float64) : bool := match x with S754_nan => true | _ => false end.

#[export] Instance float64_eq_dec : EqDecision float64.
Proof. solve_decision. Defined.

Inductive json :=
| JNull
| JBool (b : bool)
| JInt (z : Z)
| JFloat (x : float64)
| JString (s : string)
| JTime (t : time)
| JArray (l : list json)
| JObject (fields : list (string * json)).

Inductive json_error := JsonSyntax | JsonType (field : string).

(** The value a struct field with tag [name] is decoded from. *)
Definition json_field (name : string) (fields : list (string * json)) : option json :=
  snd <$> List.find (fun kv => EqualFold kv.1 name) (rev fields).

Definition get_string (name : string) (fields : list (string * json)) : res json_error string :=
  match json_field name fields with
  | None | Some JNull => Ok ""
  | Some (JString s) => Ok s
  | Some (JTime t) => Ok (FormatRFC3339Nano t)
  | Some _ => Err (JsonType name)
  end.

(** Into an integer field of [n] bits given by its range check. *)
Definition get_int (in_range : Z -> bool) (name : string) (fields : list (string * json))
    : res json_error Z :=
  match json_field name fields with
  | None | Some JNull => Ok 0
  | Some (JInt z) => if in_range z then Ok z else Err (JsonType name)
  | Some _ => Err (JsonType name)
  end.

Definition get_int64 : string -> list (string * json) -> res json_error Z :=
  get_int (fun z => (- 2 ^ 63 <=? z) && (z <? 2 ^ 63)).

Definition get_time (name : string) (fields : list (string * json)) : res json_error time :=
  match json_field name fields with
  | None | Some JNull => Ok zero_time
  | Some (JTime t) => Ok t
  | Some _ => Err (JsonType name)
  end.

Definition get_float (name : string) (fields : list (string * json)) : res json_error float64 :=
  match json_field name fields with
  | None | Some JNull => Ok float_zero
  | Some (JFloat x) => Ok x
  | Some (JInt z) =>
      match binary_normalize 53 1024 z 0 false with
      | S754_infinity _ => Err (JsonType name)
      | x => Ok x
      end
  | Some _ => Err (JsonType name)
  end.

(** The object a payload holds; a top-level [null] leaves every field zero. *)
Definition json_object (payload : option json) : res json_error (list (string * json)) :=
  match payload with
  | Some (JObject fields) => Ok fields
  | Some JNull => Ok []
  | Some _ => Err (JsonType "")
  | None => Err JsonSyntax
  end.

(** ** Texts

    Where the code handles the bytes of a document (a record of the broker, a
    parked record, a cursor), a document has a text: what [json.Marshal] writes and
    [json.Unmarshal] reads back, and its errors have theirs. *)
Class JsonText := {
  json_Marshal : json -> string;
  json_Unmarshal : string -> option json;
  json_Error : json_error -> string
}.

(** Well-formed UTF-8: [json.Marshal] replaces anything else. *)
Fixpoint utf8_bytes (l : list N) : bool :=
  let cont b := ((128 <=? b) && (b <? 192))%N in
  match l with
  | [] => true
  | b1 :: l1 =>
      if (b1 <? 128)%N then utf8_bytes l1 else
      match l1 with
      | [] => false
      | b2 :: l2 =>
          if ((194 <=? b1) && (b1 <=? 223))%N then cont b2 && utf8_bytes l2 else
          match l2 with
          | [] => false
          | b3 :: l3 =>
              if (b1 =? 224)%N then (160 <=? b2)%N && cont b2 && cont b3 && utf8_bytes l3
              else if (b1 =? 237)%N then (b2 <? 160)%N && cont b2 && cont b3 && utf8_bytes l3
              else if ((225 <=? b1) && (b1 <=? 239))%N then cont b2 && cont b3 && utf8_bytes l3
              else
                match l3 with
                | [] => false
                | b4 :: l4 =>
                    if (b1 =? 240)%N then (144 <=? b2)%N && cont b2 && cont b3 && cont b4 && utf8_bytes l4
                    else if (b1 =? 244)%N then (b2 <? 144)%N && cont b2 && cont b3 && cont b4 && utf8_bytes l4
                    else if ((241 <=? b1) && (b1 <=? 243))%N then cont b2 && cont b3 && cont b4 && utf8_bytes l4
                    else false
                end
          end
      end
  end.

Definition utf8_valid (s : string) : bool := utf8_bytes (bytes_of s).

(** Texts with the outline of [2006-01-02T15:04:05Z]: a string of that outline is
    read back as a time, so it is left out below. *)
Definition time_shaped (s : string) : bool :=
  let b := bytes_of s in
  bool_decide (b !! 4%nat = Some 45%N /\ b !! 7%nat = Some 45%N /\ b !! 10%nat = Some 84%N).

(** The documents that [json.Marshal] writes as they are and that have a text of their
    own: strings in UTF-8 that look like no time, integers, times of the years 1 to
    9999.  A [float64] is left out, since its text may be that of an integer. *)
Fixpoint json_ok (j : json) : bool :=
  match j with
  | JNull | JBool _ | JInt _ => true
  | JFloat _ => false
  | JString s => utf8_valid s && negb (time_shaped s)
  | JTime t => (0 <=? t) && (t <? 3652059 * 24 * Hour)
  | JArray l => forallb json_ok l
  | JObject fields => forallb (fun kv => utf8_valid kv.1 && json_ok kv.2) fields
  end.

(** What [encoding/json] documents: such a document is read back as it was, and
    nothing is no document. *)
Class JsonTextOk `{JsonText} : Prop := {
  json_Unmarshal_Marshal : forall j, json_ok j = true -> json_Unmarshal (json_Marshal j) = Some j;
  json_Unmarshal_empty : json_Unmarshal "" = None
}.

Notation "'let?' x := r 'in' k" := (res_bind r (fun x => k))
  (at level 10, x name, r at level 100, k at level 200) : prog_scope.
