(* ===== verification/Config.v ===== *)
(** * Config: the settings of the services, read from their environment.

    [internal/config/config.go].  [lookup] is [os.LookupEnv]: the value of a variable, if
    it is set.  [ReadFile] is what [os.ReadFile] answers for a path, with its error as a
    text.  A loader answers with the settings or with the text of its error. *)

From S2P Require Import Prelude GoStrings Domain GoTime Decimal Json Duration.

#[local] Open Scope string_scope.
#[local] Open Scope Z_scope.

Module Config.
Record t := mk {
  AppEnv : string;
  HTTPAddr : string;
  GRPCAddr : string;
  WalletGRPCAddr : string;
  LedgerGRPCAddr : string;
  SagaGRPCAddr : string;
  VerificationGRPCAddr : string;
  DatabaseURL : string;
  JWTSecret : string;
  JWTAlgorithm : string;
  JWTPublicKeyPEM : string;
  MTLSEnabled : bool;
  TLSCertFile : string;
  TLSKeyFile : string;
  TLSCAFile : string;
  KafkaBrokers : string;
  WalletOutboxTopic : string;
  LedgerConsumerTopic : string;
  LedgerConsumerGroupID : string;
  SagaConsumerGroupID : string;
  PaymentProcessorGroupID : string;
  NotificationConsumerGroupID : string;
  VerificationMode : string;
  PaymentRailURL : string;
  LedgerConsumerEnabled : bool;
  SagaConsumerEnabled : bool;
  DBMaxConns : Z;
  WalletOutboxBatchSize : Z;
  WalletOutboxPollInterval : Z;
  PaymentRailTimeout : Z;
  FraudReviewTTL : Z;
  FraudReviewReaperInterval : Z;
  RateLimitBurst : Z;
  RateLimitRefillEvery : Z;
  SagaFraudAuditRetention : Z
}.
Definition eta (r : t) : t :=
  mk r.(AppEnv) r.(HTTPAddr) r.(GRPCAddr) r.(WalletGRPCAddr) r.(LedgerGRPCAddr) r.(SagaGRPCAddr)
    r.(VerificationGRPCAddr) r.(DatabaseURL) r.(JWTSecret) r.(JWTAlgorithm) r.(JWTPublicKeyPEM)
    r.(MTLSEnabled) r.(TLSCertFile) r.(TLSKeyFile) r.(TLSCAFile) r.(KafkaBrokers) r.(WalletOutboxTopic)
    r.(LedgerConsumerTopic) r.(LedgerConsumerGroupID) r.(SagaConsumerGroupID)
    r.(PaymentProcessorGroupID) r.(NotificationConsumerGroupID) r.(VerificationMode) r.(PaymentRailURL)
    r.(LedgerConsumerEnabled) r.(SagaConsumerEnabled) r.(DBMaxConns) r.(WalletOutboxBatchSize)
    r.(WalletOutboxPollInterval) r.(PaymentRailTimeout) r.(FraudReviewTTL) r.(FraudReviewReaperInterval)
    r.(RateLimitBurst) r.(RateLimitRefillEvery) r.(SagaFraudAuditRetention).
Definition with_AppEnv : string -> t -> t := ltac:(derive_setter eta AppEnv).
Definition with_HTTPAddr : string -> t -> t := ltac:(derive_setter eta HTTPAddr).
Definition with_GRPCAddr : string -> t -> t := ltac:(derive_setter eta GRPCAddr).
Definition with_WalletGRPCAddr : string -> t -> t := ltac:(derive_setter eta WalletGRPCAddr).
Definition with_LedgerGRPCAddr : string -> t -> t := ltac:(derive_setter eta LedgerGRPCAddr).
Definition with_SagaGRPCAddr : string -> t -> t := ltac:(derive_setter eta SagaGRPCAddr).
Definition with_VerificationGRPCAddr : string -> t -> t := ltac:(derive_setter eta VerificationGRPCAddr).
Definition with_DatabaseURL : string -> t -> t := ltac:(derive_setter eta DatabaseURL).
Definition with_JWTSecret : string -> t -> t := ltac:(derive_setter eta JWTSecret).
Definition with_JWTAlgorithm : string -> t -> t := ltac:(derive_setter eta JWTAlgorithm).
Definition with_JWTPublicKeyPEM : string -> t -> t := ltac:(derive_setter eta JWTPublicKeyPEM).
Definition with_MTLSEnabled : bool -> t -> t := ltac:(derive_setter eta MTLSEnabled).
Definition with_TLSCertFile : string -> t -> t := ltac:(derive_setter eta TLSCertFile).
Definition with_TLSKeyFile : string -> t -> t := ltac:(derive_setter eta TLSKeyFile).
Definition with_TLSCAFile : string -> t -> t := ltac:(derive_setter eta TLSCAFile).
Definition with_KafkaBrokers : string -> t -> t := ltac:(derive_setter eta KafkaBrokers).
Definition with_WalletOutboxTopic : string -> t -> t := ltac:(derive_setter eta WalletOutboxTopic).
Definition with_LedgerConsumerTopic : string -> t -> t := ltac:(derive_setter eta LedgerConsumerTopic).
Definition with_LedgerConsumerGroupID : string -> t -> t := ltac:(derive_setter eta LedgerConsumerGroupID).
Definition with_SagaConsumerGroupID : string -> t -> t := ltac:(derive_setter eta SagaConsumerGroupID).
Definition with_PaymentProcessorGroupID : string -> t -> t := ltac:(derive_setter eta PaymentProcessorGroupID).
Definition with_NotificationConsumerGroupID : string -> t -> t := ltac:(derive_setter eta NotificationConsumerGroupID).
Definition with_VerificationMode : string -> t -> t := ltac:(derive_setter eta VerificationMode).
Definition with_PaymentRailURL : string -> t -> t := ltac:(derive_setter eta PaymentRailURL).
Definition with_LedgerConsumerEnabled : bool -> t -> t := ltac:(derive_setter eta LedgerConsumerEnabled).
Definition with_SagaConsumerEnabled : bool -> t -> t := ltac:(derive_setter eta SagaConsumerEnabled).
Definition with_DBMaxConns : Z -> t -> t := ltac:(derive_setter eta DBMaxConns).
Definition with_WalletOutboxBatchSize : Z -> t -> t := ltac:(derive_setter eta WalletOutboxBatchSize).
Definition with_WalletOutboxPollInterval : Z -> t -> t := ltac:(derive_setter eta WalletOutboxPollInterval).
Definition with_PaymentRailTimeout : Z -> t -> t := ltac:(derive_setter eta PaymentRailTimeout).
Definition with_FraudReviewTTL : Z -> t -> t := ltac:(derive_setter eta FraudReviewTTL).
Definition with_FraudReviewReaperInterval : Z -> t -> t := ltac:(derive_setter eta FraudReviewReaperInterval).
Definition with_RateLimitBurst : Z -> t -> t := ltac:(derive_setter eta RateLimitBurst).
Definition with_RateLimitRefillEvery : Z -> t -> t := ltac:(derive_setter eta RateLimitRefillEvery).
Definition with_SagaFraudAuditRetention : Z -> t -> t := ltac:(derive_setter eta SagaFraudAuditRetention).
(** [Config{}] *)
Definition zero : t :=
  mk "" "" "" "" "" "" "" "" "" "" "" false "" "" "" "" "" "" "" "" "" "" "" "" false false 0 0 0 0 0 0 0 0 0.
End Config.

(** ** Defaults *)

Definition defaultAppEnv : string := "local".
Definition defaultHTTPAddr : string := ":8080".
Definition defaultGRPCAddr : string := ":9090".
Definition defaultWalletGRPCAddr : string := "127.0.0.1:9090".
Definition defaultLedgerGRPCAddr : string := "127.0.0.1:9091".
Definition defaultLedgerServiceGRPCAddr : string := ":9091".
Definition defaultSagaGRPCAddr : string := ":9093".
Definition defaultSagaClientGRPCAddr : string := "127.0.0.1:9093".
Definition defaultVerificationGRPCAddr : string := "127.0.0.1:9094".
Definition defaultVerificationServiceGRPCAddr : string := ":9094".
Definition defaultVerificationMode : string := "auto".
Definition defaultKafkaBrokers : string := "127.0.0.1:9092".
Definition defaultPaymentRailURL : string := "http://127.0.0.1:18090".
Definition defaultWalletOutboxTopic : string := "tx.initiated".
Definition defaultLedgerConsumerTopic : string := "tx.initiated".
Definition defaultLedgerConsumerGroupID : string := "ledger-service".
Definition defaultSagaConsumerGroupID : string := "saga-orchestrator".
Definition defaultPaymentProcessorGroupID : string := "payment-processor".
Definition defaultNotificationConsumerGroupID : string := "notification-service".
Definition defaultDBMaxConns : Z := 10.
Definition defaultWalletOutboxBatchSize : Z := 100.
Definition defaultRateLimitBurst : Z := 60.
Definition defaultRateLimitRefillEvery : Z := Second.
Definition defaultWalletOutboxPollEvery : Z := 100 * 1000000.
Definition defaultPaymentRailTimeout : Z := 2 * Second.
Definition defaultFraudReviewReaperInterval : Z := Minute.
Definition defaultJWTAlgorithm : string := "HS256".
Definition jwtAlgorithmRS256 : string := "RS256".

(** ** Loading *)

Section Loading.
Variable ReadFile : string -> res string string.
Variable lookup : string -> option string.

Definition valueOrDefault (key fallback : string) : string :=
  match lookup key with
  | Some value => if value =s "" then fallback else value
  | None => fallback
  end.

(** [if raw, ok := lookup(key); ok && raw != "" { ... }]: a variable that is set is parsed
    and checked, and replaces the default. *)
Definition setting {A} (key : string) (parse : string -> option A) (accepts : A -> bool) (message : string)
    (fallback : A) : res string A :=
  match lookup key with
  | Some raw =>
      if raw =s "" then Ok fallback
      else match parse raw with
           | Some value => if accepts value then Ok value else Err (key ++ " " ++ message)
           | None => Err (key ++ " " ++ message)
           end
  | None => Ok fallback
  end.

Definition positive (z : Z) : bool := negb (z <=? 0).

Definition positive_duration (key : string) (fallback : Z) : res string Z :=
  setting key ParseDuration positive "must be a positive duration" fallback.

Definition positive_integer (key : string) (fallback : Z) : res string Z :=
  setting key Atoi positive "must be a positive integer" fallback.

Definition boolean (key : string) (fallback : bool) : res string bool :=
  setting key ParseBool (fun _ => true) "must be a boolean" fallback.

Definition loadBase (defaultGRPC : string) : res string Config.t :=
  let cfg :=
    Config.with_DBMaxConns defaultDBMaxConns
      (Config.with_GRPCAddr (valueOrDefault "GRPC_ADDR" defaultGRPC)
        (Config.with_HTTPAddr (valueOrDefault "HTTP_ADDR" defaultHTTPAddr)
          (Config.with_AppEnv (valueOrDefault "APP_ENV" defaultAppEnv) Config.zero))) in
  match lookup "DATABASE_URL" with
  | None | Some "" => Err "DATABASE_URL is required"
  | Some url =>
      let cfg := Config.with_DatabaseURL url cfg in
      let? conns := positive_integer "DB_MAX_CONNS" cfg.(Config.DBMaxConns) in
      Ok (Config.with_DBMaxConns (wrap32 conns) cfg)
  end.

Definition rsaPublicKeyPEM : res string string :=
  let inline :=
    match lookup "JWT_PUBLIC_KEY_PEM" with
    | Some pem => if TrimSpace pem =s "" then Err "JWT_PUBLIC_KEY_PEM or JWT_PUBLIC_KEY_FILE is required for RS256" else Ok pem
    | None => Err "JWT_PUBLIC_KEY_PEM or JWT_PUBLIC_KEY_FILE is required for RS256"
    end in
  match lookup "JWT_PUBLIC_KEY_FILE" with
  | Some path =>
      if TrimSpace path =s "" then inline
      else match ReadFile (TrimSpace path) with
           | Err e => Err ("read JWT_PUBLIC_KEY_FILE: " ++ e)
           | Ok contents => if contents =s "" then Err "JWT_PUBLIC_KEY_FILE is empty" else Ok contents
           end
  | None => inline
  end.

Definition loadJWT (cfg : Config.t) : res string Config.t :=
  let algorithm := ToUpper (TrimSpace (valueOrDefault "JWT_ALG" defaultJWTAlgorithm)) in
  if algorithm =s defaultJWTAlgorithm then
    match lookup "JWT_SECRET" with
    | None | Some "" => Err "JWT_SECRET is required"
    | Some secret => Ok (Config.with_JWTSecret secret (Config.with_JWTAlgorithm algorithm cfg))
    end
  else if algorithm =s jwtAlgorithmRS256 then
    let? pem := rsaPublicKeyPEM in
    Ok (Config.with_JWTPublicKeyPEM pem (Config.with_JWTAlgorithm algorithm cfg))
  else Err "JWT_ALG must be HS256 or RS256".

Definition loadMTLS (cfg : Config.t) : res string Config.t :=
  let? enabled := boolean "GRPC_TLS_ENABLED" cfg.(Config.MTLSEnabled) in
  let cfg := Config.with_MTLSEnabled enabled cfg in
  if negb cfg.(Config.MTLSEnabled) then Ok cfg
  else
    let cfg := Config.with_TLSCertFile (TrimSpace (valueOrDefault "GRPC_TLS_CERT_FILE" "")) cfg in
    let cfg := Config.with_TLSKeyFile (TrimSpace (valueOrDefault "GRPC_TLS_KEY_FILE" "")) cfg in
    let cfg := Config.with_TLSCAFile (TrimSpace (valueOrDefault "GRPC_TLS_CA_FILE" "")) cfg in
    if (cfg.(Config.TLSCertFile) =s "") || (cfg.(Config.TLSKeyFile) =s "") || (cfg.(Config.TLSCAFile) =s "")
    then Err "GRPC_TLS_CERT_FILE, GRPC_TLS_KEY_FILE, and GRPC_TLS_CA_FILE are required when GRPC_TLS_ENABLED is true"
    else Ok cfg.

(** The settings of the outbox publisher, under the names a service has for them. *)
Definition loadOutbox (interval size : string) (cfg : Config.t) : res string Config.t :=
  let? poll := positive_duration interval cfg.(Config.WalletOutboxPollInterval) in
  let cfg := Config.with_WalletOutboxPollInterval poll cfg in
  let? batch := positive_integer size cfg.(Config.WalletOutboxBatchSize) in
  Ok (Config.with_WalletOutboxBatchSize batch cfg).

Definition with_outbox_defaults (cfg : Config.t) : Config.t :=
  Config.with_WalletOutboxBatchSize defaultWalletOutboxBatchSize
    (Config.with_WalletOutboxPollInterval defaultWalletOutboxPollEvery cfg).

Definition LoadFromLookup : res string Config.t :=
  let? cfg := loadBase defaultGRPCAddr in
  loadJWT cfg.

Definition LoadWalletFromLookup : res string Config.t :=
  let? cfg := loadBase defaultGRPCAddr in
  let cfg := Config.with_KafkaBrokers (valueOrDefault "KAFKA_BROKERS" defaultKafkaBrokers) cfg in
  let cfg := Config.with_WalletOutboxTopic (valueOrDefault "WALLET_OUTBOX_TOPIC" defaultWalletOutboxTopic) cfg in
  let? cfg := loadOutbox "WALLET_OUTBOX_POLL_INTERVAL" "WALLET_OUTBOX_BATCH_SIZE" (with_outbox_defaults cfg) in
  loadMTLS cfg.

Definition LoadLedgerFromLookup : res string Config.t :=
  let? cfg := loadBase defaultLedgerServiceGRPCAddr in
  let cfg := Config.with_KafkaBrokers (valueOrDefault "KAFKA_BROKERS" defaultKafkaBrokers) cfg in
  let cfg := Config.with_LedgerConsumerTopic (valueOrDefault "LEDGER_CONSUMER_TOPIC" defaultLedgerConsumerTopic) cfg in
  let cfg := Config.with_LedgerConsumerGroupID (valueOrDefault "LEDGER_CONSUMER_GROUP_ID" defaultLedgerConsumerGroupID) cfg in
  let? enabled := boolean "LEDGER_CONSUMER_ENABLED" true in
  loadMTLS (Config.with_LedgerConsumerEnabled enabled cfg).

Definition loadFraudReviewReaper (cfg : Config.t) : res string Config.t :=
  let cfg := Config.with_FraudReviewReaperInterval defaultFraudReviewReaperInterval cfg in
  let? ttl := setting "SAGA_FRAUD_REVIEW_TTL" ParseDuration (fun value => negb (value <? 0))
                "must be a non-negative duration" cfg.(Config.FraudReviewTTL) in
  let cfg := Config.with_FraudReviewTTL ttl cfg in
  let? interval := positive_duration "SAGA_FRAUD_REVIEW_REAPER_INTERVAL" cfg.(Config.FraudReviewReaperInterval) in
  Ok (Config.with_FraudReviewReaperInterval interval cfg).

Definition LoadSagaFromLookup : res string Config.t :=
  let? cfg := loadBase defaultSagaGRPCAddr in
  let cfg := Config.with_KafkaBrokers (valueOrDefault "KAFKA_BROKERS" defaultKafkaBrokers) cfg in
  let cfg := Config.with_WalletGRPCAddr (valueOrDefault "WALLET_GRPC_ADDR" defaultWalletGRPCAddr) cfg in
  let cfg := Config.with_LedgerGRPCAddr (valueOrDefault "LEDGER_GRPC_ADDR" defaultLedgerGRPCAddr) cfg in
  let cfg := Config.with_VerificationGRPCAddr (valueOrDefault "VERIFICATION_GRPC_ADDR" defaultVerificationGRPCAddr) cfg in
  let cfg := Config.with_SagaConsumerGroupID (valueOrDefault "SAGA_CONSUMER_GROUP_ID" defaultSagaConsumerGroupID) cfg in
  let? enabled := boolean "SAGA_CONSUMER_ENABLED" true in
  let cfg := with_outbox_defaults (Config.with_SagaConsumerEnabled enabled cfg) in
  let? cfg := loadOutbox "SAGA_OUTBOX_POLL_INTERVAL" "SAGA_OUTBOX_BATCH_SIZE" cfg in
  let? cfg := loadFraudReviewReaper cfg in
  let? retention := setting "SAGA_FRAUD_AUDIT_RETENTION" ParseDuration (fun value => negb (value <? 0))
                      "must be a non-negative duration (0 keeps rows forever)" cfg.(Config.SagaFraudAuditRetention) in
  loadMTLS (Config.with_SagaFraudAuditRetention retention cfg).

Definition LoadPaymentProcessorFromLookup : res string Config.t :=
  let? cfg := loadBase defaultHTTPAddr in
  let cfg := Config.with_KafkaBrokers (valueOrDefault "KAFKA_BROKERS" defaultKafkaBrokers) cfg in
  let cfg := Config.with_PaymentProcessorGroupID
               (valueOrDefault "PAYMENT_PROCESSOR_CONSUMER_GROUP" defaultPaymentProcessorGroupID) cfg in
  let cfg := Config.with_PaymentRailURL (valueOrDefault "PAYMENT_RAIL_URL" defaultPaymentRailURL) cfg in
  let? timeout := positive_duration "PAYMENT_RAIL_TIMEOUT" defaultPaymentRailTimeout in
  let cfg := with_outbox_defaults (Config.with_PaymentRailTimeout timeout cfg) in
  loadOutbox "PAYMENT_PROCESSOR_OUTBOX_INTERVAL" "PAYMENT_PROCESSOR_OUTBOX_BATCH_SIZE" cfg.

Definition LoadNotificationFromLookup : res string Config.t :=
  let cfg := Config.with_DBMaxConns defaultDBMaxConns
               (Config.with_HTTPAddr (valueOrDefault "HTTP_ADDR" defaultHTTPAddr)
                 (Config.with_AppEnv (valueOrDefault "APP_ENV" defaultAppEnv) Config.zero)) in
  let cfg := Config.with_KafkaBrokers (valueOrDefault "KAFKA_BROKERS" defaultKafkaBrokers) cfg in
  Ok (Config.with_NotificationConsumerGroupID
        (valueOrDefault "NOTIFICATION_CONSUMER_GROUP" defaultNotificationConsumerGroupID) cfg).

Definition LoadVerificationFromLookup : res string Config.t :=
  let? cfg := loadBase defaultVerificationServiceGRPCAddr in
  let cfg := Config.with_KafkaBrokers (valueOrDefault "KAFKA_BROKERS" defaultKafkaBrokers) cfg in
  let cfg := Config.with_VerificationMode (valueOrDefault "VERIFICATION_MODE" defaultVerificationMode) cfg in
  let cfg := with_outbox_defaults cfg in
  let mode := cfg.(Config.VerificationMode) in
  if negb (mode =s "auto") && negb (mode =s "manual") && negb (mode =s "rules")
  then Err "VERIFICATION_MODE must be auto, manual, or rules"
  else
    let? cfg := loadOutbox "VERIFICATION_OUTBOX_INTERVAL" "VERIFICATION_OUTBOX_BATCH_SIZE" cfg in
    loadMTLS cfg.

Definition LoadGatewayFromLookup : res string Config.t :=
  let cfg := Config.with_AppEnv (valueOrDefault "APP_ENV" defaultAppEnv) Config.zero in
  let cfg := Config.with_HTTPAddr (valueOrDefault "HTTP_ADDR" defaultHTTPAddr) cfg in
  let cfg := Config.with_WalletGRPCAddr (valueOrDefault "WALLET_GRPC_ADDR" defaultWalletGRPCAddr) cfg in
  let cfg := Config.with_LedgerGRPCAddr (valueOrDefault "LEDGER_GRPC_ADDR" defaultLedgerGRPCAddr) cfg in
  let cfg := Config.with_SagaGRPCAddr (valueOrDefault "SAGA_GRPC_ADDR" defaultSagaClientGRPCAddr) cfg in
  let cfg := Config.with_VerificationGRPCAddr (valueOrDefault "VERIFICATION_GRPC_ADDR" defaultVerificationGRPCAddr) cfg in
  let? cfg := loadJWT cfg in
  let? burst := positive_integer "RATE_LIMIT_BURST" defaultRateLimitBurst in
  let? refill := positive_duration "RATE_LIMIT_REFILL_EVERY" defaultRateLimitRefillEvery in
  loadMTLS (Config.with_RateLimitRefillEvery refill (Config.with_RateLimitBurst burst cfg)).
End Loading.

(** ** Loaded settings *)

Lemma res_bind_Ok {E A B} (r : res E A) (k : A -> res E B) b :
  res_bind r k = Ok b -> exists a, r = Ok a /\ k a = Ok b.
Proof. destruct r; [eauto | done]. Qed.

(** Within [int64] and above zero. *)
Definition counts (z : Z) : Prop := 0 < z < 2 ^ 63.

Definition outbox_ok (cfg : Config.t) : Prop :=
  counts cfg.(Config.WalletOutboxPollInterval) /\ counts cfg.(Config.WalletOutboxBatchSize).

Definition tls_ok (cfg : Config.t) : Prop :=
  cfg.(Config.MTLSEnabled) = true ->
  cfg.(Config.TLSCertFile) <> "" /\ cfg.(Config.TLSKeyFile) <> "" /\ cfg.(Config.TLSCAFile) <> "".

Definition token_ok (cfg : Config.t) : Prop :=
  (cfg.(Config.JWTAlgorithm) = "HS256" /\ cfg.(Config.JWTSecret) <> "") \/
  (cfg.(Config.JWTAlgorithm) = "RS256" /\ cfg.(Config.JWTPublicKeyPEM) <> "").

Definition api_ok (cfg : Config.t) : Prop := cfg.(Config.DatabaseURL) <> "" /\ token_ok cfg.

Definition wallet_ok (cfg : Config.t) : Prop :=
  cfg.(Config.DatabaseURL) <> "" /\ cfg.(Config.KafkaBrokers) <> "" /\ cfg.(Config.WalletOutboxTopic) <> "" /\ outbox_ok cfg /\ tls_ok cfg.

Definition ledger_ok (cfg : Config.t) : Prop :=
  cfg.(Config.DatabaseURL) <> "" /\ cfg.(Config.KafkaBrokers) <> "" /\ cfg.(Config.LedgerConsumerTopic) <> "" /\
  cfg.(Config.LedgerConsumerGroupID) <> "" /\ tls_ok cfg.

(** A deadline or a retention of zero switches its worker off. *)
Definition saga_ok (cfg : Config.t) : Prop :=
  cfg.(Config.DatabaseURL) <> "" /\ cfg.(Config.KafkaBrokers) <> "" /\ cfg.(Config.WalletGRPCAddr) <> "" /\
  cfg.(Config.LedgerGRPCAddr) <> "" /\ cfg.(Config.VerificationGRPCAddr) <> "" /\ cfg.(Config.SagaConsumerGroupID) <> "" /\
  outbox_ok cfg /\ counts cfg.(Config.FraudReviewReaperInterval) /\ 0 <= cfg.(Config.FraudReviewTTL) < 2 ^ 63 /\
  0 <= cfg.(Config.SagaFraudAuditRetention) < 2 ^ 63 /\ tls_ok cfg.

Definition processor_ok (cfg : Config.t) : Prop :=
  cfg.(Config.DatabaseURL) <> "" /\ cfg.(Config.KafkaBrokers) <> "" /\ cfg.(Config.PaymentProcessorGroupID) <> "" /\
  cfg.(Config.PaymentRailURL) <> "" /\ counts cfg.(Config.PaymentRailTimeout) /\ outbox_ok cfg.

Definition verification_ok (cfg : Config.t) : Prop :=
  cfg.(Config.DatabaseURL) <> "" /\ cfg.(Config.KafkaBrokers) <> "" /\ cfg.(Config.VerificationMode) ∈ ["auto"; "manual"; "rules"] /\
  outbox_ok cfg /\ tls_ok cfg.

Definition gateway_ok (cfg : Config.t) : Prop :=
  token_ok cfg /\ counts cfg.(Config.RateLimitBurst) /\ counts cfg.(Config.RateLimitRefillEvery) /\
  cfg.(Config.WalletGRPCAddr) <> "" /\ cfg.(Config.LedgerGRPCAddr) <> "" /\ cfg.(Config.SagaGRPCAddr) <> "" /\
  cfg.(Config.VerificationGRPCAddr) <> "" /\ tls_ok cfg.

Definition notification_ok (cfg : Config.t) : Prop :=
  cfg.(Config.KafkaBrokers) <> "" /\ cfg.(Config.NotificationConsumerGroupID) <> "".

Section Settings.
Variable ReadFile : string -> res string string.
Variable lookup : string -> option string.

Lemma valueOrDefault_nonempty key fallback : fallback <> "" -> valueOrDefault lookup key fallback <> "".
Proof. intros Hf. unfold valueOrDefault. destruct (lookup key) as [v |]; [| done]. case_match eqn:Hv; [done | by apply String.eqb_neq]. Qed.

Lemma setting_Ok {A} key (parse : string -> option A) accepts message fallback a :
  setting lookup key parse accepts message fallback = Ok a ->
  a = fallback \/ exists raw, lookup key = Some raw /\ raw <> "" /\ parse raw = Some a /\ accepts a = true.
Proof.
  unfold setting. destruct (lookup key) as [raw |]; [| intros [= <-]; by left].
  destruct (String.eqb_spec raw ""); [intros [= <-]; by left |]. destruct (parse raw) as [v |] eqn:Hp; [| done].
  destruct (accepts v) eqn:Ha; [| done]. intros [= <-]. right. by exists raw.
Qed.

Lemma positive_duration_Ok key fallback d : counts fallback -> positive_duration lookup key fallback = Ok d -> counts d.
Proof.
  intros Hf [-> | (raw & _ & _ & Hp & Ha)]%setting_Ok; [done |]. apply ParseDuration_range in Hp.
  unfold positive, counts, int64 in *. lia.
Qed.

Lemma positive_integer_Ok key fallback z : counts fallback -> positive_integer lookup key fallback = Ok z -> counts z.
Proof.
  intros Hf [-> | (raw & _ & _ & Hp & Ha)]%setting_Ok; [done |]. apply Atoi_range in Hp.
  unfold positive, counts, int64 in *. lia.
Qed.

Lemma duration_Ok key message fallback d : 0 <= fallback < 2 ^ 63 ->
  setting lookup key ParseDuration (fun value => negb (value <? 0)) message fallback = Ok d -> 0 <= d < 2 ^ 63.
Proof.
  intros Hf [-> | (raw & _ & _ & Hp & Ha)]%setting_Ok; [done |]. apply ParseDuration_range in Hp. unfold int64 in Hp. lia.
Qed.

(** What each loader leaves of the settings it is given. *)
Lemma loadBase_inv grpc cfg : loadBase lookup grpc = Ok cfg -> exists url conns, url <> "" /\ counts conns /\
  cfg = Config.with_DBMaxConns (wrap32 conns) (Config.with_DatabaseURL url
    (Config.with_GRPCAddr (valueOrDefault lookup "GRPC_ADDR" grpc) (Config.with_HTTPAddr (valueOrDefault lookup "HTTP_ADDR" defaultHTTPAddr)
      (Config.with_AppEnv (valueOrDefault lookup "APP_ENV" defaultAppEnv) Config.zero)))).
Proof.
  unfold loadBase. destruct (lookup "DATABASE_URL") as [[|c url] |]; [done | | done].
  intros (conns & Hconns & [= <-])%res_bind_Ok. exists (String c url), conns. split; [done |]. split; [| done].
  by eapply positive_integer_Ok, Hconns.
Qed.

Lemma loadMTLS_inv cfg cfg' : loadMTLS lookup cfg = Ok cfg' ->
  tls_ok cfg' /\ exists enabled cert key ca, cfg' =
    Config.with_TLSCAFile ca (Config.with_TLSKeyFile key (Config.with_TLSCertFile cert (Config.with_MTLSEnabled enabled cfg))).
Proof.
  unfold loadMTLS, tls_ok. intros (enabled & _ & Hload)%res_bind_Ok. destruct enabled; cbn in Hload.
  - destruct (_ || _) eqn:Hfiles; [done |]. injection Hload as <-. rewrite !orb_false_iff, !String.eqb_neq in Hfiles.
    cbn. split; [tauto |]. by eexists true, _, _, _.
  - injection Hload as <-. split; [done |]. eexists false, cfg.(Config.TLSCertFile), cfg.(Config.TLSKeyFile), cfg.(Config.TLSCAFile).
    by destruct cfg.
Qed.

Lemma loadOutbox_inv interval size cfg cfg' : outbox_ok cfg -> loadOutbox lookup interval size cfg = Ok cfg' ->
  outbox_ok cfg' /\ exists poll batch, cfg' = Config.with_WalletOutboxBatchSize batch (Config.with_WalletOutboxPollInterval poll cfg).
Proof.
  intros [Hp Hb]. unfold loadOutbox. intros (poll & Hpoll & (batch & Hbatch & [= <-])%res_bind_Ok)%res_bind_Ok.
  split; [split | by eexists _, _]; [by eapply positive_duration_Ok, Hpoll | by eapply positive_integer_Ok, Hbatch].
Qed.

(** The settings of the outbox survive those read after them. *)
Lemma outbox_ok_tls enabled cert key ca cfg : outbox_ok cfg -> outbox_ok
  (Config.with_TLSCAFile ca (Config.with_TLSKeyFile key (Config.with_TLSCertFile cert (Config.with_MTLSEnabled enabled cfg)))).
Proof. by destruct cfg. Qed.

Lemma outbox_ok_reviews interval ttl retention cfg : outbox_ok cfg -> outbox_ok
  (Config.with_SagaFraudAuditRetention retention
    (Config.with_FraudReviewReaperInterval interval (Config.with_FraudReviewTTL ttl cfg))).
Proof. by destruct cfg. Qed.

Lemma token_ok_later refill burst enabled cert key ca cfg : token_ok cfg -> token_ok
  (Config.with_TLSCAFile ca (Config.with_TLSKeyFile key (Config.with_TLSCertFile cert (Config.with_MTLSEnabled enabled
    (Config.with_RateLimitRefillEvery refill (Config.with_RateLimitBurst burst cfg)))))).
Proof. by destruct cfg. Qed.

Lemma outbox_defaults cfg : outbox_ok (with_outbox_defaults cfg).
Proof. done. Qed.

Lemma rsa_nonempty pem : rsaPublicKeyPEM ReadFile lookup = Ok pem -> pem <> "".
Proof.
  unfold rsaPublicKeyPEM. set (inline := match lookup "JWT_PUBLIC_KEY_PEM" with Some _ => _ | None => _ end).
  assert (inline = Ok pem -> pem <> "") as Hin.
  { unfold inline. destruct (lookup "JWT_PUBLIC_KEY_PEM") as [p |]; [| done].
    destruct (String.eqb_spec (TrimSpace p) "") as [| Hp]; [done |]. intros [= <-]. by intros ->. }
  clearbody inline. destruct (lookup "JWT_PUBLIC_KEY_FILE") as [path |]; [| done]. destruct (_ =s ""); [done |].
  destruct (ReadFile _) as [contents |]; [| done]. destruct (String.eqb_spec contents ""); [done |]. by intros [= <-].
Qed.

Lemma loadJWT_inv cfg cfg' : loadJWT ReadFile lookup cfg = Ok cfg' -> token_ok cfg' /\ exists alg secret pem,
  cfg' = Config.with_JWTPublicKeyPEM pem (Config.with_JWTSecret secret (Config.with_JWTAlgorithm alg cfg)).
Proof.
  unfold loadJWT, token_ok. set (alg := ToUpper _). clearbody alg. destruct (String.eqb_spec alg defaultJWTAlgorithm) as [-> |].
  - destruct (lookup "JWT_SECRET") as [[|c secret] |]; [done | | done]. intros [= <-]. split; [by left |].
    exists defaultJWTAlgorithm, (String c secret), cfg.(Config.JWTPublicKeyPEM). by destruct cfg.
  - destruct (String.eqb_spec alg jwtAlgorithmRS256) as [-> |]; [| done].
    intros (pem & Hpem & [= <-])%res_bind_Ok. split; [right; split; [done |] | exists jwtAlgorithmRS256, cfg.(Config.JWTSecret), pem; by destruct cfg].
    by apply rsa_nonempty in Hpem.
Qed.

Lemma loadFraudReviewReaper_inv cfg cfg' : 0 <= cfg.(Config.FraudReviewTTL) < 2 ^ 63 ->
  loadFraudReviewReaper lookup cfg = Ok cfg' -> exists interval ttl, counts interval /\ 0 <= ttl < 2 ^ 63 /\
    cfg' = Config.with_FraudReviewReaperInterval interval (Config.with_FraudReviewTTL ttl cfg).
Proof.
  intros Hcfg. unfold loadFraudReviewReaper. intros (ttl & Httl & (interval & Hi & [= <-])%res_bind_Ok)%res_bind_Ok.
  exists interval, ttl. split; [by eapply positive_duration_Ok, Hi |]. split; [by eapply duration_Ok, Httl |]. by destruct cfg.
Qed.

Lemma wallet_settings cfg : LoadWalletFromLookup lookup = Ok cfg -> wallet_ok cfg.
Proof.
  unfold LoadWalletFromLookup. intros (base & (url & conns & Hurl & _ & ->)%loadBase_inv & (c & Hout & Htls)%res_bind_Ok)%res_bind_Ok.
  apply loadOutbox_inv in Hout as (Hout & poll & batch & ->); [| apply outbox_defaults].
  apply loadMTLS_inv in Htls as (Htls & enabled & cert & key & ca & ->).
  split; [exact Hurl |]. split; [by apply valueOrDefault_nonempty |]. split; [by apply valueOrDefault_nonempty |].
  split; [by apply outbox_ok_tls | exact Htls].
Qed.

Lemma ledger_settings cfg : LoadLedgerFromLookup lookup = Ok cfg -> ledger_ok cfg.
Proof.
  unfold LoadLedgerFromLookup. intros (base & (url & conns & Hurl & _ & ->)%loadBase_inv & (c & _ & Htls)%res_bind_Ok)%res_bind_Ok.
  apply loadMTLS_inv in Htls as (Htls & enabled & cert & key & ca & ->).
  split; [exact Hurl |]. do 3 (split; [by apply valueOrDefault_nonempty |]). exact Htls.
Qed.

Lemma saga_settings cfg : LoadSagaFromLookup lookup = Ok cfg -> saga_ok cfg.
Proof.
  unfold LoadSagaFromLookup. intros (base & (url & conns & Hurl & _ & ->)%loadBase_inv & (enabled & _ & Hload)%res_bind_Ok)%res_bind_Ok.
  apply res_bind_Ok in Hload as (c1 & Hout & Hload). apply loadOutbox_inv in Hout as (Hout & poll & batch & ->); [| apply outbox_defaults].
  apply res_bind_Ok in Hload as (c2 & Hreap & Hload). apply loadFraudReviewReaper_inv in Hreap as (interval & ttl & Hi & Ht & ->); [| done].
  apply res_bind_Ok in Hload as (retention & Hret & Htls). apply duration_Ok in Hret; [| done].
  apply loadMTLS_inv in Htls as (Htls & tls & cert & key & ca & ->).
  split; [exact Hurl |]. do 5 (split; [by apply valueOrDefault_nonempty |]). split; [by apply outbox_ok_tls, outbox_ok_reviews |]. split; [exact Hi |].
  split; [exact Ht |]. split; [exact Hret | exact Htls].
Qed.

Lemma processor_settings cfg : LoadPaymentProcessorFromLookup lookup = Ok cfg -> processor_ok cfg.
Proof.
  unfold LoadPaymentProcessorFromLookup. intros (base & (url & conns & Hurl & _ & ->)%loadBase_inv & (timeout & Ht & Hout)%res_bind_Ok)%res_bind_Ok.
  apply positive_duration_Ok in Ht; [| done]. apply loadOutbox_inv in Hout as (Hout & poll & batch & ->); [| apply outbox_defaults].
  split; [exact Hurl |]. do 3 (split; [by apply valueOrDefault_nonempty |]). split; [exact Ht | exact Hout].
Qed.

Lemma verification_settings cfg : LoadVerificationFromLookup lookup = Ok cfg -> verification_ok cfg.
Proof.
  unfold LoadVerificationFromLookup. intros (base & (url & conns & Hurl & _ & ->)%loadBase_inv & Hload)%res_bind_Ok.
  destruct (_ && _) eqn:Hmode; [done |]. apply res_bind_Ok in Hload as (c & Hout & Htls).
  apply loadOutbox_inv in Hout as (Hout & poll & batch & ->); [| apply outbox_defaults].
  apply loadMTLS_inv in Htls as (Htls & enabled & cert & key & ca & ->).
  split; [exact Hurl |]. split; [by apply valueOrDefault_nonempty |]. split; [| split; [by apply outbox_ok_tls | exact Htls]].
  rewrite !andb_false_iff, !negb_false_iff, !String.eqb_eq in Hmode.
  change (valueOrDefault lookup "VERIFICATION_MODE" defaultVerificationMode ∈ ["auto"; "manual"; "rules"]).
  clear ReadFile. rewrite !elem_of_cons. tauto.
Qed.

Lemma gateway_settings cfg : LoadGatewayFromLookup ReadFile lookup = Ok cfg -> gateway_ok cfg.
Proof.
  unfold LoadGatewayFromLookup. intros (c & (Htok & alg & secret & pem & ->)%loadJWT_inv & (burst & Hb & (refill & Hr & Htls)%res_bind_Ok)%res_bind_Ok)%res_bind_Ok.
  apply positive_integer_Ok in Hb; [| done]. apply positive_duration_Ok in Hr; [| done].
  apply loadMTLS_inv in Htls as (Htls & enabled & cert & key & ca & ->).
  split; [by apply token_ok_later |]. split; [exact Hb |]. split; [exact Hr |]. do 4 (split; [by apply valueOrDefault_nonempty |]). exact Htls.
Qed.

Lemma api_settings cfg : LoadFromLookup ReadFile lookup = Ok cfg -> api_ok cfg.
Proof.
  unfold LoadFromLookup. intros (base & (url & conns & Hurl & _ & ->)%loadBase_inv & (Htok & alg & secret & pem & ->)%loadJWT_inv)%res_bind_Ok.
  split; [exact Hurl | exact Htok].
Qed.

Lemma notification_settings cfg : LoadNotificationFromLookup lookup = Ok cfg -> notification_ok cfg.
Proof. intros [= <-]. split; by apply valueOrDefault_nonempty. Qed.
End Settings.


(** ** Evaluated *)

Fixpoint environment (vars : list (string * string)) (key : string) : option string :=
  match vars with
  | [] => None
  | (k, v) :: vars => if k =s key then Some v else environment vars key
  end.

Definition no_files (path : string) : res string string := Err ("open " ++ path ++ ": no such file or directory").


(** [DB_MAX_CONNS] is checked to be positive before it is cut to an [int32]: 2^31 is
    loaded as a negative number of connections, and 2^32 as none. *)
Lemma connections_wrap :
  let conns n := match loadBase (environment [("DATABASE_URL", "postgres://db"); ("DB_MAX_CONNS", n)]) ":9090" with
                 | Ok cfg => Some cfg.(Config.DBMaxConns) | Err _ => None end in
  conns "2147483648" = Some (- 2147483648) /\ conns "4294967296" = Some 0 /\ conns "0" = None /\ conns "25" = Some 25.
Proof. vm_compute. repeat split; reflexivity. Qed.

