(* ===== verification/Mtls.v ===== *)
(** * Mtls: mutual TLS between the services, with certificates that rotate.

    [internal/mtls/mtls.go] and the accessor of [internal/config].  The functions of
    [crypto/tls] and [crypto/x509] that read keys and certificates are a class.  A disk
    is what [os.ReadFile] answers for each path; the three files of a service are read
    one after the other, so each read has a disk of its own. *)

From S2P Require Import Prelude GoStrings Json Config.

#[local] Open Scope string_scope.

Class Tls := {
  certificate : Type;
  cert_pool : Type;
  (** [tls.X509KeyPair] of a certificate and its key *)
  X509KeyPair : string -> string -> res string certificate;
  (** the pool after [AppendCertsFromPEM], when it found a certificate *)
  AppendCertsFromPEM : string -> option cert_pool
}.

Inductive ClientAuthType := NoClientCert | RequireAndVerifyClientCert.
Inductive tls_version := VersionDefault | VersionTLS13.

Module MtlsConfig.
Record t := mk { Enabled : bool; CertFile : string; KeyFile : string; CAFile : string }.
End MtlsConfig.

Module material.
Record t := mk { cert : string; key : string; ca : string }.
Definition equal (m o : t) : bool := (m.(cert) =s o.(cert)) && (m.(key) =s o.(key)) && (m.(ca) =s o.(ca)).
End material.

(** The three reads of one load. *)
Definition disk : Type := string -> res string string.
Definition disks : Type := disk * disk * disk.

Definition MTLS (c : Config.t) : MtlsConfig.t :=
  MtlsConfig.mk c.(Config.MTLSEnabled) c.(Config.TLSCertFile) c.(Config.TLSKeyFile) c.(Config.TLSCAFile).

Definition readMaterial (cfg : MtlsConfig.t) (d : disks) : res string material.t :=
  let '(d1, d2, d3) := d in
  match d1 cfg.(MtlsConfig.CertFile) with
  | Err e => Err ("mtls: read cert file: " ++ e)
  | Ok cert =>
      match d2 cfg.(MtlsConfig.KeyFile) with
      | Err e => Err ("mtls: read key file: " ++ e)
      | Ok key =>
          match d3 cfg.(MtlsConfig.CAFile) with
          | Err e => Err ("mtls: read CA file: " ++ e)
          | Ok ca => Ok (material.mk cert key ca)
          end
      end
  end.

Section Credentials.
Context `{Tls}.

(** The fields of [tls.Config] the package sets. *)
Record tls_Config := TlsConfig {
  Certificates : list certificate;
  ClientAuth : ClientAuthType;
  ClientCAs : option cert_pool;
  RootCAs : option cert_pool;
  MinVersion : tls_version
}.

Definition serverTLS (cert : certificate) (pool : cert_pool) : tls_Config :=
  TlsConfig [cert] RequireAndVerifyClientCert (Some pool) None VersionTLS13.

Definition clientTLS (cert : certificate) (pool : cert_pool) : tls_Config :=
  TlsConfig [cert] NoClientCert None (Some pool) VersionTLS13.

(** What a handshake is made with. *)
Inductive credentials := Insecure | NewTLS (c : tls_Config).

Definition builder : Type := certificate -> cert_pool -> tls_Config.

Definition parse (m : material.t) (build : builder) : res string credentials :=
  match X509KeyPair m.(material.cert) m.(material.key) with
  | Err e => Err ("mtls: load key pair: " ++ e)
  | Ok cert =>
      match AppendCertsFromPEM m.(material.ca) with
      | None => Err "mtls: CA file contained no certificates"
      | Some pool => Ok (NewTLS (build cert pool))
      end
  end.

Record rotating := Rotating { cfg : MtlsConfig.t; build : builder; mat : material.t; creds : credentials }.

Definition newRotating (cfg : MtlsConfig.t) (build : builder) (d : disks) : res string rotating :=
  if (cfg.(MtlsConfig.CertFile) =s "") || (cfg.(MtlsConfig.KeyFile) =s "") || (cfg.(MtlsConfig.CAFile) =s "")
  then Err "mtls: cert, key, and CA files are all required when enabled"
  else
    let? mat := readMaterial cfg d in
    let? creds := parse mat build in
    Ok (Rotating cfg build mat creds).

(** [r.current()], with what it leaves of [r]. *)
Definition current (r : rotating) (d : disks) : credentials * rotating :=
  match readMaterial r.(cfg) d with
  | Ok m =>
      if material.equal m r.(mat) then (r.(creds), r)
      else match parse m r.(build) with
           | Ok c => (c, Rotating r.(cfg) r.(build) m c)
           | Err _ => (r.(creds), r)
           end
  | Err _ => (r.(creds), r)
  end.

(** [credentials.TransportCredentials] *)
Inductive transport := InsecureTransport | RotatingTransport (r : rotating).

Definition ServerCredentials (cfg : MtlsConfig.t) (d : disks) : res string transport :=
  if negb cfg.(MtlsConfig.Enabled) then Ok InsecureTransport
  else let? r := newRotating cfg serverTLS d in Ok (RotatingTransport r).

Definition ClientCredentials (cfg : MtlsConfig.t) (d : disks) : res string transport :=
  if negb cfg.(MtlsConfig.Enabled) then Ok InsecureTransport
  else let? r := newRotating cfg clientTLS d in Ok (RotatingTransport r).

(** A handshake, on either side; and a copy for another connection. *)
Definition Handshake (t : transport) (d : disks) : credentials * transport :=
  match t with
  | InsecureTransport => (Insecure, t)
  | RotatingTransport r => let '(c, r) := current r d in (c, RotatingTransport r)
  end.

Definition Clone (r : rotating) : rotating := Rotating r.(cfg) r.(build) r.(mat) r.(creds).

(** The credentials of handshakes one after the other. *)
Fixpoint handshakes (t : transport) (ds : list disks) : list credentials :=
  match ds with
  | [] => []
  | d :: ds => let '(c, t) := Handshake t d in c :: handshakes t ds
  end.

(** ** What a handshake should use *)

(** The credentials on disk, when the files can be read and fit each other. *)
Definition on_disk (cfg : MtlsConfig.t) (build : builder) (d : disks) : option credentials :=
  match readMaterial cfg d with
  | Ok m => match parse m build with Ok c => Some c | Err _ => None end
  | Err _ => None
  end.

(** Those on disk, or else the last that were. *)
Fixpoint last_good (cfg : MtlsConfig.t) (build : builder) (c : credentials) (ds : list disks) : list credentials :=
  match ds with
  | [] => []
  | d :: ds => let c := default c (on_disk cfg build d) in c :: last_good cfg build c ds
  end.

(** Both sides show a certificate, and the version is 1.3. *)
Definition mutual_server (c : credentials) : Prop :=
  exists cert pool, c = NewTLS (TlsConfig [cert] RequireAndVerifyClientCert (Some pool) None VersionTLS13).
Definition mutual_client (c : credentials) : Prop :=
  exists cert pool, c = NewTLS (TlsConfig [cert] NoClientCert None (Some pool) VersionTLS13).

(** ** The rotation is correct *)

(** The cached credentials are those of the cached files. *)
Definition consistent (r : rotating) : Prop := parse r.(mat) r.(build) = Ok r.(creds).

Lemma equal_spec m o : material.equal m o = true -> m = o.
Proof.
  unfold material.equal. rewrite !andb_true_iff, !String.eqb_eq. destruct m, o; simpl. intros [[-> ->] ->]. done.
Qed.

Lemma newRotating_spec conf bld d r : newRotating conf bld d = Ok r ->
  consistent r /\ r.(cfg) = conf /\ r.(build) = bld /\ on_disk conf bld d = Some r.(creds).
Proof.
  unfold newRotating, consistent, on_disk. case_match; [done |]. destruct (readMaterial conf d) as [m |]; [| done]. cbn [res_bind].
  destruct (parse m bld) as [c |] eqn:Hp; [| done]. cbn [res_bind]. intros [= <-]. done.
Qed.

Lemma current_spec r d : consistent r ->
  let '(c, r') := current r d in
  c = default r.(creds) (on_disk r.(cfg) r.(build) d) /\ r'.(creds) = c /\ consistent r' /\ r'.(cfg) = r.(cfg) /\ r'.(build) = r.(build).
Proof.
  unfold current, on_disk, consistent. intros Hr. destruct (readMaterial (cfg r) d) as [m |]; [| done].
  destruct (material.equal m (mat r)) eqn:He; [apply equal_spec in He as ->; by rewrite Hr |].
  destruct (parse m (build r)) as [c |] eqn:Hp; done.
Qed.

Lemma handshakes_last_good ds r : consistent r ->
  handshakes (RotatingTransport r) ds = last_good r.(cfg) r.(build) r.(creds) ds.
Proof.
  revert r. induction ds as [|d ds IH]; intros r Hr; [done |]. cbn [handshakes Handshake last_good].
  pose proof (current_spec r d Hr) as Hc. destruct (current r d) as [c r']. destruct Hc as (Hc & Hcr & Hr' & Hcfg & Hb).
  rewrite IH, Hcfg, Hb, Hcr by done. by rewrite <- Hc.
Qed.

Lemma on_disk_built cfg build d c : on_disk cfg build d = Some c -> exists cert pool, c = NewTLS (build cert pool).
Proof.
  unfold on_disk, parse. repeat case_match; try done. intros [= <-]. simplify_eq. eauto.
Qed.

Lemma last_good_built (P : credentials -> Prop) cfg build ds c :
  (forall cert pool, P (NewTLS (build cert pool))) -> P c -> Forall P (last_good cfg build c ds).
Proof.
  intros Hb. revert c. induction ds as [|d ds IH]; intros c Hc; [constructor |]. cbn [last_good].
  assert (P (default c (on_disk cfg build d))) as Hd.
  { destruct (on_disk cfg build d) as [c' |] eqn:Hon; [| done]. apply on_disk_built in Hon as (cert & pool & ->). apply Hb. }
  constructor; [done | by apply IH].
Qed.

Lemma rotation_spec conf bld (P : credentials -> Prop) d0 r ds :
  newRotating conf bld d0 = Ok r -> (forall cert pool, P (NewTLS (bld cert pool))) ->
  exists c0, on_disk conf bld d0 = Some c0 /\ handshakes (RotatingTransport r) ds = last_good conf bld c0 ds /\
    Forall P (handshakes (RotatingTransport r) ds).
Proof.
  intros (Hr & Hcfg & Hb & Hon)%newRotating_spec HP. exists r.(creds). split; [done |].
  rewrite handshakes_last_good, Hcfg, Hb by done. split; [done |]. apply last_good_built; [done |].
  apply on_disk_built in Hon as (cert & pool & ->). apply HP.
Qed.

(** C36: with mutual TLS enabled no connection goes without it: whatever happens to the
    files while a service runs, every handshake of its server uses the credentials that
    are on disk at that moment, or, while these cannot be read or do not fit each other,
    the last ones that did; it always asks for a client certificate of the same CA over
    TLS 1.3; the same holds for its clients, which verify the server; and only a service
    whose settings switch it off goes without. *)
Theorem enabled_transport_stays_mutual load lookup settings d0 ds tserver tclient :
  load lookup = Ok settings ->
  load = LoadWalletFromLookup \/ load = LoadLedgerFromLookup \/ load = LoadSagaFromLookup \/
    load = LoadVerificationFromLookup \/ (exists ReadFile, load = LoadGatewayFromLookup ReadFile) ->
  ServerCredentials (MTLS settings) d0 = Ok tserver -> ClientCredentials (MTLS settings) d0 = Ok tclient ->
  if settings.(Config.MTLSEnabled) then
    settings.(Config.TLSCertFile) <> "" /\ settings.(Config.TLSKeyFile) <> "" /\ settings.(Config.TLSCAFile) <> "" /\
    (exists c0, on_disk (MTLS settings) serverTLS d0 = Some c0 /\
       handshakes tserver ds = last_good (MTLS settings) serverTLS c0 ds /\ Forall mutual_server (handshakes tserver ds)) /\
    (exists c0, on_disk (MTLS settings) clientTLS d0 = Some c0 /\
       handshakes tclient ds = last_good (MTLS settings) clientTLS c0 ds /\ Forall mutual_client (handshakes tclient ds))
  else tserver = InsecureTransport /\ tclient = InsecureTransport.
Proof.
  intros Hload Hwhich. unfold ServerCredentials, ClientCredentials, MTLS. cbn [MtlsConfig.Enabled].
  assert (tls_ok settings) as Htls.
  { destruct Hwhich as [-> | [-> | [-> | [-> | [ReadFile ->]]]]]; [apply wallet_settings in Hload | apply ledger_settings in Hload
      | apply saga_settings in Hload | apply verification_settings in Hload | apply gateway_settings in Hload; clear ReadFile];
      unfold wallet_ok, ledger_ok, saga_ok, verification_ok, gateway_ok in Hload; tauto. }
  unfold tls_ok in Htls. destruct (Config.MTLSEnabled settings); cbn [negb]; [| by intros [= <-] [= <-]].
  intros (rs & Hrs & [= <-])%res_bind_Ok (rc & Hrc & [= <-])%res_bind_Ok. destruct (Htls eq_refl) as (? & ? & ?).
  do 3 (split; [done |]). split.
  - by apply (rotation_spec _ _ mutual_server d0 rs ds Hrs); unfold mutual_server; eauto.
  - by apply (rotation_spec _ _ mutual_client d0 rc ds Hrc); unfold mutual_client; eauto.
Qed.
End Credentials.

(** ** Evaluated *)

(** A key fits the certificate of the same text, and any text but the empty one is a CA. *)
#[local] Instance demo_tls : Tls := {
  certificate := string;
  cert_pool := string;
  X509KeyPair cert key := if cert =s key then Ok cert else Err "private key does not match public key";
  AppendCertsFromPEM ca := if ca =s "" then None else Some ca
}.

(** One disk for the three reads, with the certificate and the key it holds. *)
Definition demo_disk (cert key : string) : disks :=
  let d path := if path =s "/tls/crt" then Ok cert else if path =s "/tls/key" then Ok key
                else if path =s "/tls/ca" then Ok "ca" else Err "no such file" in
  (d, d, d).

Definition demo_env : string -> option string :=
  environment [("DATABASE_URL", "postgres://db"); ("GRPC_TLS_ENABLED", "true"); ("GRPC_TLS_CERT_FILE", "/tls/crt");
               ("GRPC_TLS_KEY_FILE", " /tls/key "); ("GRPC_TLS_CA_FILE", "/tls/ca")].

Definition shown (c : credentials) : string :=
  match c with NewTLS c => default "" (head c.(Certificates)) | Insecure => "" end.

(** A renewal that writes the certificate before the key: the old pair serves until
    the new one is complete, and still when the files go away. *)
Lemma enabled_transport_stays_mutual_witness :
  let ds := [demo_disk "a" "a"; demo_disk "b" "a"; demo_disk "b" "b"; demo_disk "" "b"] in
  exists settings tserver, LoadWalletFromLookup demo_env = Ok settings /\
    ServerCredentials (MTLS settings) (demo_disk "a" "a") = Ok tserver /\
    Forall mutual_server (handshakes tserver ds) /\ shown <$> handshakes tserver ds = ["a"; "a"; "b"; "b"].
Proof.
  intros ds. eexists _, _. split; [vm_compute; reflexivity |]. split; [vm_compute; reflexivity |].
  split; [| vm_compute; reflexivity].
  epose proof (enabled_transport_stays_mutual LoadWalletFromLookup demo_env _ (demo_disk "a" "a") ds _ _) as Hall.
  specialize (Hall ltac:(vm_compute; reflexivity) ltac:(by left) ltac:(vm_compute; reflexivity) ltac:(vm_compute; reflexivity)).
  destruct Hall as (_ & _ & _ & (c0 & _ & _ & Hm) & _). exact Hm.
Defined.
