(* ===== verification/Database.v ===== *)
(** * Database: the tables of the wallet and ledger services and their statements.

    [tables] holds the rows of the migrations in [db/migrations]; each statement
    of [internal/repo/queries] (and each SQL literal of [internal/repo/wallets.go])
    is a function from the tables to its rows and the new tables, with the
    constraints of the schema checked in the order the server checks them: CHECK,
    then UNIQUE, then FOREIGN KEY.  Row identifiers come from the server's
    [gen_random_uuid()], a parameter; [now()] is the clock of the transaction. *)

From stdpp Require Import sorting.
From S2P Require Import Prelude GoStrings Domain Json.

#[local] Open Scope string_scope.
#[local] Open Scope Z_scope.

(** The server's generator: the [n]-th identifier it hands out. *)
Class Postgres := gen_random_uuid : nat -> uuid.

(** What the services rely on: identifiers are distinct and never the nil UUID. *)
Class PostgresOk `{Postgres} : Prop := {
  gen_random_uuid_inj : forall n m, gen_random_uuid n = gen_random_uuid m -> n = m;
  gen_random_uuid_not_nil : forall n, gen_random_uuid n <> uuid_Nil
}.

(** What a [timestamptz] keeps of a time. *)
Definition pg_timestamp (t : time) : time := t / 1000 * 1000.

Module OutboxEvent.
Record t := mk {
  ID : uuid;
  Topic : string;
  PartitionKey : string;
  Payload : json;
  Traceparent : string;
  Tracestate : string;
  ClaimedAt : option time;
  PublishedAt : option time;
  CreatedAt : time
}.
Definition eta (x : t) : t :=
  mk (ID x) (Topic x) (PartitionKey x) (Payload x) (Traceparent x) (Tracestate x)
     (ClaimedAt x) (PublishedAt x) (CreatedAt x).
Definition with_ClaimedAt : option time -> t -> t := ltac:(derive_setter eta ClaimedAt).
Definition with_PublishedAt : option time -> t -> t := ltac:(derive_setter eta PublishedAt).
End OutboxEvent.

(** A row of [ledger_transfer_reservations]: the columns the confirmation and the
    cancellation fill are nullable. *)
Module ReservationRow.
Record t := mk {
  id : uuid;
  payment_id : uuid;
  idempotency_key : string;
  trace_id : string;
  from_wallet_id : uuid;
  to_wallet_id : uuid;
  amount_cents : Z;
  currency : string;
  status : string;
  transfer_id : option uuid;
  wallet_debit_id : option uuid;
  completed_at : option time;
  canceled_at : option time;
  cancel_reason : string;
  created_at : time;
  updated_at : time
}.
Definition eta (x : t) : t :=
  mk (id x) (payment_id x) (idempotency_key x) (trace_id x) (from_wallet_id x) (to_wallet_id x)
     (amount_cents x) (currency x) (status x) (transfer_id x) (wallet_debit_id x)
     (completed_at x) (canceled_at x) (cancel_reason x) (created_at x) (updated_at x).
Definition with_status : string -> t -> t := ltac:(derive_setter eta status).
Definition with_transfer_id : option uuid -> t -> t := ltac:(derive_setter eta transfer_id).
Definition with_wallet_debit_id : option uuid -> t -> t := ltac:(derive_setter eta wallet_debit_id).
Definition with_completed_at : option time -> t -> t := ltac:(derive_setter eta completed_at).
Definition with_canceled_at : option time -> t -> t := ltac:(derive_setter eta canceled_at).
Definition with_cancel_reason : string -> t -> t := ltac:(derive_setter eta cancel_reason).
Definition with_updated_at : time -> t -> t := ltac:(derive_setter eta updated_at).
End ReservationRow.

Record tables := Tables {
  wallets : gmap uuid Wallet.t;
  transfers : list Transfer.t;
  ledger_entries : list LedgerEntry.t;
  saga_wallet_operations : list SagaWalletOperation.t;
  reservations : gmap uuid ReservationRow.t;  (* by payment_id, which is UNIQUE *)
  outbox_events : list OutboxEvent.t;
  uuids_used : nat;
  now : time
}.

Definition tables_eta (t : tables) : tables :=
  Tables (wallets t) (transfers t) (ledger_entries t) (saga_wallet_operations t)
         (reservations t) (outbox_events t) (uuids_used t) (now t).
Definition with_wallets : gmap uuid Wallet.t -> tables -> tables :=
  ltac:(derive_setter tables_eta wallets).
Definition with_transfers : list Transfer.t -> tables -> tables :=
  ltac:(derive_setter tables_eta transfers).
Definition with_ledger_entries : list LedgerEntry.t -> tables -> tables :=
  ltac:(derive_setter tables_eta ledger_entries).
Definition with_saga_wallet_operations : list SagaWalletOperation.t -> tables -> tables :=
  ltac:(derive_setter tables_eta saga_wallet_operations).
Definition with_reservations : gmap uuid ReservationRow.t -> tables -> tables :=
  ltac:(derive_setter tables_eta reservations).
Definition with_outbox_events : list OutboxEvent.t -> tables -> tables :=
  ltac:(derive_setter tables_eta outbox_events).
Definition with_uuids_used : nat -> tables -> tables :=
  ltac:(derive_setter tables_eta uuids_used).

Definition with_now : time -> tables -> tables := ltac:(derive_setter tables_eta now).

Definition empty_tables (t0 : time) : tables := Tables ∅ [] [] [] ∅ [] 0 t0.

Abbreviation db A := (prog tables error A).

Section Statements.
Context `{Postgres}.

(** [gen_random_uuid()] as a column default. *)
Definition fresh (t : tables) : uuid := gen_random_uuid (uuids_used t).
Definition used (t : tables) : tables := with_uuids_used (S (uuids_used t)) t.

(** [wallets.sql.go] *)
Definition stmt_CreateWallet (user_id : uuid) (currency : string) (t : tables)
    : res error (Wallet.t * tables) :=
  let w := Wallet.mk (fresh t) user_id 0 currency (now t) (now t) in
  Ok (w, used (with_wallets (<[fresh t := w]> (wallets t)) t)).

Definition q_GetWallet (id : uuid) (t : tables) : res error Wallet.t :=
  match wallets t !! id with Some w => Ok w | None => Err PgNoRows end.

Definition q_LockWalletsForTransfer (ids : list uuid) (t : tables) : res error (list Wallet.t) :=
  Ok (omap (fun id => wallets t !! id) (merge_sort N.le (remove_dups ids))).

Definition stmt_UpdateWalletBalance (id : uuid) (balance : Z) (t : tables)
    : res error (Wallet.t * tables) :=
  match wallets t !! id with
  | None => Err PgNoRows
  | Some w =>
      let w' := Wallet.with_UpdatedAt (now t) (Wallet.with_Balance balance w) in
      if balance <? 0 then Err PgCheckViolation
      else Ok (w', with_wallets (<[id := w']> (wallets t)) t)
  end.

(** [transfers.sql.go] *)
Definition stmt_CreateTransfer (from_wallet_id to_wallet_id : uuid) (amount : Z) (t : tables)
    : res error (Transfer.t * tables) :=
  if amount <=? 0 then Err PgCheckViolation
  else if decide (from_wallet_id = to_wallet_id) then Err PgCheckViolation
  else match wallets t !! from_wallet_id, wallets t !! to_wallet_id with
       | Some _, Some _ =>
           let x := Transfer.mk (fresh t) from_wallet_id to_wallet_id amount "completed" (now t) 0 0 in
           Ok (x, used (with_transfers (transfers t ++ [x])%list t))
       | _, _ => Err PgForeignKeyViolation
       end.

(** [ledger.sql.go] *)
Definition entry_is (transfer_id : uuid) (direction : string) (e : LedgerEntry.t) : bool :=
  bool_decide (e.(LedgerEntry.TransferID) = transfer_id)
  && (e.(LedgerEntry.Direction) =s direction).

Definition stmt_CreateLedgerEntry (wallet_id transfer_id : uuid) (direction : string)
    (amount balance_after : Z) (t : tables) : res error (LedgerEntry.t * tables) :=
  if negb ((direction =s "debit") || (direction =s "credit")) then Err PgCheckViolation
  else if amount <=? 0 then Err PgCheckViolation
  else if existsb (entry_is transfer_id direction) (ledger_entries t) then Err PgUniqueViolation
  else if negb (existsb (fun x => bool_decide (x.(Transfer.ID) = transfer_id)) (transfers t))
       then Err PgForeignKeyViolation
  else match wallets t !! wallet_id with
       | None => Err PgForeignKeyViolation
       | Some _ =>
           let e := LedgerEntry.mk (fresh t) wallet_id transfer_id direction amount balance_after (now t) in
           Ok (e, used (with_ledger_entries (ledger_entries t ++ [e])%list t))
       end.

Definition q_TransferProcessed (transfer_id : uuid) (t : tables) : res error bool :=
  Ok (existsb (fun e => bool_decide (e.(LedgerEntry.TransferID) = transfer_id)) (ledger_entries t)).

(** [saga_wallet_operations.sql.go] *)
Definition operation_is (payment_id : uuid) (operation : string) (o : SagaWalletOperation.t) : bool :=
  bool_decide (o.(SagaWalletOperation.PaymentID) = payment_id)
  && (o.(SagaWalletOperation.Operation) =s operation).

Definition find_operation (payment_id : uuid) (operation : string) (t : tables)
    : option SagaWalletOperation.t :=
  List.find (operation_is payment_id operation) (saga_wallet_operations t).

Definition q_GetSagaWalletOperation (payment_id : uuid) (operation : string) (t : tables)
    : res error SagaWalletOperation.t :=
  match find_operation payment_id operation t with Some o => Ok o | None => Err PgNoRows end.

Definition operation_key_is (key operation : string) (o : SagaWalletOperation.t) : bool :=
  (o.(SagaWalletOperation.IdempotencyKey) =s key) && (o.(SagaWalletOperation.Operation) =s operation).

Definition stmt_CreateSagaWalletOperation (payment_id : uuid) (operation idempotency_key : string)
    (wallet_id : uuid) (amount_cents : Z) (currency status : string) (balance_after_cents : Z)
    (t : tables) : res error (SagaWalletOperation.t * tables) :=
  if negb ((operation =s "debit") || (operation =s "compensation")) then Err PgCheckViolation
  else if amount_cents <=? 0 then Err PgCheckViolation
  else if negb (status =s "completed") then Err PgCheckViolation
  else if existsb (operation_is payment_id operation) (saga_wallet_operations t)
       then Err PgUniqueViolation
  else if existsb (operation_key_is idempotency_key operation) (saga_wallet_operations t)
       then Err PgUniqueViolation
  else match wallets t !! wallet_id with
       | None => Err PgForeignKeyViolation
       | Some _ =>
           let o := SagaWalletOperation.mk (fresh t) payment_id operation idempotency_key wallet_id
                      amount_cents currency status balance_after_cents (now t) (now t) in
           Ok (o, used (with_saga_wallet_operations (saga_wallet_operations t ++ [o])%list t))
       end.

(** The SQL of [repo/wallets.go] on [ledger_transfer_reservations]. *)
Definition q_reservation (payment_id : uuid) (t : tables) : res error ReservationRow.t :=
  match reservations t !! payment_id with Some r => Ok r | None => Err PgNoRows end.

Definition stmt_insert_reservation (payment_id : uuid) (idempotency_key trace_id : string)
    (from_wallet_id to_wallet_id : uuid) (amount_cents : Z) (currency status : string) (t : tables)
    : res error (ReservationRow.t * tables) :=
  if amount_cents <=? 0 then Err PgCheckViolation
  else if negb ((status =s "RESERVED") || (status =s "CONFIRMED") || (status =s "CANCELED"))
       then Err PgCheckViolation
  else if decide (from_wallet_id = to_wallet_id) then Err PgCheckViolation
  else match reservations t !! payment_id with
       | Some _ => Err PgUniqueViolation
       | None =>
           match wallets t !! from_wallet_id, wallets t !! to_wallet_id with
           | Some _, Some _ =>
               let r := ReservationRow.mk (fresh t) payment_id idempotency_key trace_id from_wallet_id
                          to_wallet_id amount_cents currency status None None None None "" (now t) (now t) in
               Ok (r, used (with_reservations (<[payment_id := r]> (reservations t)) t))
           | _, _ => Err PgForeignKeyViolation
           end
       end.

(** [UPDATE ... WHERE id = $1 RETURNING ...] for a row given by its id. *)
Definition update_reservation (id : uuid) (f : ReservationRow.t -> ReservationRow.t) (t : tables)
    : res error (ReservationRow.t * tables) :=
  match List.find (fun kr => bool_decide (kr.2.(ReservationRow.id) = id)) (map_to_list (reservations t)) with
  | None => Err PgNoRows
  | Some (k, r) => Ok (f r, with_reservations (<[k := f r]> (reservations t)) t)
  end.

Definition stmt_confirm_reservation (id : uuid) (status : string) (transfer_id wallet_debit_id : uuid)
    (t : tables) : res error (ReservationRow.t * tables) :=
  res_bind
    (update_reservation id
       (fun r => ReservationRow.with_status status
                (ReservationRow.with_transfer_id (Some transfer_id)
                (ReservationRow.with_wallet_debit_id (Some wallet_debit_id)
                (ReservationRow.with_completed_at (Some (now t))
                (ReservationRow.with_updated_at (now t) r))))) t)
    (fun rt =>
       if negb (existsb (fun x => bool_decide (x.(Transfer.ID) = transfer_id)) (transfers t))
       then Err PgForeignKeyViolation
       else Ok rt).

Definition stmt_cancel_reservation (id : uuid) (status cancel_reason : string) (t : tables)
    : res error (ReservationRow.t * tables) :=
  update_reservation id
    (fun r => ReservationRow.with_status status
             (ReservationRow.with_canceled_at (Some (now t))
             (ReservationRow.with_cancel_reason cancel_reason
             (ReservationRow.with_updated_at (now t) r)))) t.

(** [outbox.sql.go] *)
Definition stmt_CreateOutboxEvent (topic partition_key : string) (payload : json)
    (traceparent tracestate : string) (t : tables) : res error (OutboxEvent.t * tables) :=
  let e := OutboxEvent.mk (fresh t) topic partition_key payload traceparent tracestate None None (now t) in
  Ok (e, used (with_outbox_events (outbox_events t ++ [e])%list t)).
End Statements.

(** ** Table updates

    What the successful statements do, as the contracts of the operations name
    it. *)

Definition set_balance (id : uuid) (b : Z) (t : tables) : tables :=
  match wallets t !! id with
  | None => t
  | Some w => with_wallets (<[id := Wallet.with_UpdatedAt (now t) (Wallet.with_Balance b w)]> (wallets t)) t
  end.

Definition add_transfer (x : Transfer.t) (t : tables) : tables :=
  used (with_transfers (transfers t ++ [x])%list t).
Definition add_entry (e : LedgerEntry.t) (t : tables) : tables :=
  used (with_ledger_entries (ledger_entries t ++ [e])%list t).
Definition add_operation (o : SagaWalletOperation.t) (t : tables) : tables :=
  used (with_saga_wallet_operations (saga_wallet_operations t ++ [o])%list t).
Definition add_outbox (e : OutboxEvent.t) (t : tables) : tables :=
  used (with_outbox_events (outbox_events t ++ [e])%list t).
Definition set_reservation (p : uuid) (r : ReservationRow.t) (t : tables) : tables :=
  with_reservations (<[p := r]> (reservations t)) t.

Lemma set_balance_lookup id b t w id' :
  wallets t !! id = Some w ->
  wallets (set_balance id b t) !! id' =
    if decide (id = id') then Some (Wallet.with_UpdatedAt (now t) (Wallet.with_Balance b w))
    else wallets t !! id'.
Proof. intros Hw. unfold set_balance. rewrite Hw. simpl. by rewrite lookup_insert. Qed.

(** Everything but the balances is as before. *)
Lemma set_balance_frame id b t :
  set_balance id b t = with_wallets (wallets (set_balance id b t)) t.
Proof. unfold set_balance. destruct (wallets t !! id); [done |]. by destruct t. Qed.

Lemma set_balance_now id b t : now (set_balance id b t) = now t.
Proof. by rewrite set_balance_frame. Qed.
Lemma set_balance_uuids id b t : uuids_used (set_balance id b t) = uuids_used t.
Proof. by rewrite set_balance_frame. Qed.
Lemma set_balance_transfers id b t : transfers (set_balance id b t) = transfers t.
Proof. by rewrite set_balance_frame. Qed.
Lemma set_balance_operations id b t : saga_wallet_operations (set_balance id b t) = saga_wallet_operations t.
Proof. by rewrite set_balance_frame. Qed.
Lemma set_balance_reservations id b t : reservations (set_balance id b t) = reservations t.
Proof. by rewrite set_balance_frame. Qed.
Lemma set_balance_entries id b t : ledger_entries (set_balance id b t) = ledger_entries t.
Proof. by rewrite set_balance_frame. Qed.
Lemma set_balance_outbox id b t : outbox_events (set_balance id b t) = outbox_events t.
Proof. by rewrite set_balance_frame. Qed.
Lemma set_balance_fresh `{Postgres} id b t : fresh (set_balance id b t) = fresh t.
Proof. unfold fresh. by rewrite set_balance_uuids. Qed.
Lemma find_operation_set_balance p op id b t :
  find_operation p op (set_balance id b t) = find_operation p op t.
Proof. unfold find_operation. by rewrite set_balance_operations. Qed.

(** Rewriting away the parts of the tables a balance update leaves alone. *)
Create Rewrite HintDb tables.
#[export] Hint Rewrite set_balance_now set_balance_uuids set_balance_transfers set_balance_operations
  set_balance_reservations set_balance_entries set_balance_outbox @set_balance_fresh
  find_operation_set_balance : tables.

Lemma stmt_UpdateWalletBalance_ok id b t w :
  wallets t !! id = Some w -> 0 <= b ->
  stmt_UpdateWalletBalance id b t =
    Ok (Wallet.with_UpdatedAt (now t) (Wallet.with_Balance b w), set_balance id b t).
Proof.
  intros Hw Hb. unfold stmt_UpdateWalletBalance, set_balance. rewrite Hw.
  by rewrite (proj2 (Z.ltb_ge b 0)).
Qed.

Lemma stmt_UpdateWalletBalance_negative id b t w :
  wallets t !! id = Some w -> b < 0 -> stmt_UpdateWalletBalance id b t = Err PgCheckViolation.
Proof.
  intros Hw Hb. unfold stmt_UpdateWalletBalance. rewrite Hw. by rewrite (proj2 (Z.ltb_lt b 0)).
Qed.

(** ** Lookups in append-only tables *)

Lemma find_app {A} (f : A -> bool) l1 l2 :
  List.find f (l1 ++ l2)%list = match List.find f l1 with Some x => Some x | None => List.find f l2 end.
Proof. induction l1 as [|x l1 IH]; simpl; [done |]. by destruct (f x). Qed.

Lemma existsb_find {A} (f : A -> bool) l :
  existsb f l = match List.find f l with Some _ => true | None => false end.
Proof. induction l as [|x l IH]; simpl; [done |]. by destruct (f x). Qed.

Lemma find_Some_elem {A} (f : A -> bool) l x : List.find f l = Some x -> x ∈ l /\ f x = true.
Proof. intros Hf. apply find_some in Hf as [Hin Hfx]. by rewrite list_elem_of_In. Qed.

Lemma find_None_elem {A} (f : A -> bool) l x : List.find f l = None -> x ∈ l -> f x = false.
Proof. rewrite list_elem_of_In. intros Hf Hin. by apply (find_none _ _ Hf). Qed.

Lemma operation_is_true p op o :
  operation_is p op o = true <->
  o.(SagaWalletOperation.PaymentID) = p /\ o.(SagaWalletOperation.Operation) = op.
Proof. unfold operation_is. rewrite andb_true_iff, bool_decide_eq_true, String.eqb_eq. done. Qed.

(** ** The invariant of the tables

    [issued t u]: the server handed [u] out before reaching state [t]. *)

Section Invariant.
Context `{Postgres}.

Definition issued (t : tables) (u : uuid) : Prop :=
  exists n, (n < uuids_used t)%nat /\ u = gen_random_uuid n.

Definition known_status (s : string) : Prop :=
  s = LedgerReservationReserved \/ s = LedgerReservationConfirmed \/ s = LedgerReservationCanceled.

Record wf (t : tables) : Prop := {
  wf_wallet id w : wallets t !! id = Some w ->
    w.(Wallet.ID) = id /\ id <> uuid_Nil /\ 0 <= w.(Wallet.Balance) < 2 ^ 63 /\ issued t id;
  wf_transfer x : x ∈ transfers t -> 0 < x.(Transfer.Amount) /\ issued t x.(Transfer.ID);
  wf_transfer_ids : NoDup (Transfer.ID <$> transfers t);
  wf_operation o : o ∈ saga_wallet_operations t ->
    0 < o.(SagaWalletOperation.AmountCents) < 2 ^ 63 /\
    (o.(SagaWalletOperation.Operation) = SagaWalletOperationDebit \/
     o.(SagaWalletOperation.Operation) = SagaWalletOperationCompensation) /\
    is_Some (wallets t !! o.(SagaWalletOperation.WalletID)) /\
    issued t o.(SagaWalletOperation.ID);
  wf_operation_unique :
    NoDup ((fun o => (o.(SagaWalletOperation.PaymentID), o.(SagaWalletOperation.Operation)))
             <$> saga_wallet_operations t);
  wf_compensation o : o ∈ saga_wallet_operations t ->
    o.(SagaWalletOperation.Operation) = SagaWalletOperationCompensation ->
    exists d, d ∈ saga_wallet_operations t /\
      d.(SagaWalletOperation.PaymentID) = o.(SagaWalletOperation.PaymentID) /\
      d.(SagaWalletOperation.Operation) = SagaWalletOperationDebit /\
      d.(SagaWalletOperation.AmountCents) = o.(SagaWalletOperation.AmountCents) /\
      d.(SagaWalletOperation.WalletID) = o.(SagaWalletOperation.WalletID);
  wf_reservation p r : reservations t !! p = Some r ->
    r.(ReservationRow.payment_id) = p /\ 0 < r.(ReservationRow.amount_cents) /\
    known_status r.(ReservationRow.status) /\
    r.(ReservationRow.from_wallet_id) <> r.(ReservationRow.to_wallet_id) /\
    issued t r.(ReservationRow.id);
  wf_reservation_ids p p' r r' : reservations t !! p = Some r -> reservations t !! p' = Some r' ->
    r.(ReservationRow.id) = r'.(ReservationRow.id) -> p = p';
  wf_entry e : e ∈ ledger_entries t ->
    0 < e.(LedgerEntry.Amount) /\
    (e.(LedgerEntry.Direction) = "debit" \/ e.(LedgerEntry.Direction) = "credit") /\
    e.(LedgerEntry.TransferID) ∈ Transfer.ID <$> transfers t /\
    issued t e.(LedgerEntry.ID);
  wf_entry_unique :
    NoDup ((fun e => (e.(LedgerEntry.TransferID), e.(LedgerEntry.Direction))) <$> ledger_entries t);
  wf_entry_ids : NoDup (LedgerEntry.ID <$> ledger_entries t)
}.

Lemma wf_empty t0 : wf (empty_tables t0).
Proof. split; simpl; intros; try (by apply NoDup_nil_2); set_solver. Qed.

Lemma issued_used t t' u : (uuids_used t <= uuids_used t')%nat -> issued t u -> issued t' u.
Proof. intros ? (n & ? & ->). exists n. auto with lia. Qed.

Context `{!PostgresOk}.

Lemma issued_ne_fresh t u : issued t u -> u <> fresh t.
Proof. unfold fresh. intros (n & ? & ->) Heq. apply gen_random_uuid_inj in Heq. lia. Qed.

Lemma fresh_not_nil t : fresh t <> uuid_Nil.
Proof. apply gen_random_uuid_not_nil. Qed.

(** No wallet, transfer, operation, reservation or entry bears the next identifier. *)
Lemma fresh_not_issued t : ~ issued t (fresh t).
Proof. intros Hi. by apply issued_ne_fresh in Hi. Qed.
End Invariant.

(** ** The updates keep the invariant *)

Section Preservation.
Context `{Postgres} `{!PostgresOk}.

(** [t'] extends [t]: identifiers stay issued and wallets stay there. *)
Definition extends (t t' : tables) : Prop :=
  (uuids_used t <= uuids_used t')%nat /\
  (forall id, is_Some (wallets t !! id) -> is_Some (wallets t' !! id)).

Lemma wf_set_balance id b t w :
  wf t -> wallets t !! id = Some w -> 0 <= b < 2 ^ 63 -> wf (set_balance id b t).
Proof.
  intros Hwf Hw Hb. pose proof (wf_wallet _ Hwf id w Hw) as (Hid & Hnil & _ & Hiss).
  rewrite set_balance_frame. destruct Hwf. split; simpl; try done.
  - intros id' w'. rewrite (set_balance_lookup _ _ _ w) by done. case_decide as Heq.
    + subst id'. intros [= <-]. done.
    + by apply wf_wallet0.
  - intros o Ho. destruct (wf_operation0 o Ho) as (? & ? & Hs & ?). repeat (split; [done |]). split; [| done].
    rewrite (set_balance_lookup _ _ _ w) by done. case_decide; eauto.
Qed.

Lemma wf_used t : wf t -> wf (used t).
Proof.
  intros []. assert (forall u, issued t u -> issued (used t) u) as Hi
    by (intros u; apply issued_used; simpl; lia).
  split; simpl; try done.
  - intros id w Hw. specialize (wf_wallet0 _ _ Hw). intuition auto.
  - intros x Hx. specialize (wf_transfer0 _ Hx). intuition auto.
  - intros o Ho. specialize (wf_operation0 _ Ho). intuition auto.
  - intros p r Hr. specialize (wf_reservation0 _ _ Hr). intuition auto.
  - intros e He. specialize (wf_entry0 _ He). intuition auto.
Qed.

Lemma issued_fresh t : issued (used t) (fresh t).
Proof. exists (uuids_used t). simpl. auto with lia. Qed.

Lemma wf_with_now n t : wf t -> wf (with_now n t).
Proof. intros []. by split. Qed.

Lemma wf_add_wallet w t :
  wf t -> w.(Wallet.ID) = fresh t -> w.(Wallet.Balance) = 0 ->
  wf (used (with_wallets (<[fresh t := w]> (wallets t)) t)).
Proof.
  intros Hwf Hid Hb. apply wf_used in Hwf. destruct Hwf. split; simpl in *; try done.
  - intros id w'. rewrite lookup_insert. case_decide as Heq; [| by apply wf_wallet0].
    intros [= <-]. subst id. split; [done |]. split; [apply fresh_not_nil |]. rewrite Hb.
    split; [lia | exact (issued_fresh t)].
  - intros o Ho. destruct (wf_operation0 o Ho) as (? & ? & Hs & ?). do 2 (split; [done |]). split; [| done].
    rewrite lookup_insert. case_decide; eauto.
Qed.

Lemma wf_add_outbox e t : wf t -> wf (add_outbox e t).
Proof.
  intros Hwf. apply wf_used in Hwf. destruct Hwf. by split.
Qed.

Lemma NoDup_fmap_snoc {A B} (f : A -> B) (l : list A) x :
  NoDup (f <$> l) -> f x ∉ f <$> l -> NoDup (f <$> (l ++ [x])%list).
Proof.
  intros. rewrite fmap_app. apply list.NoDup_app. split; [done |]. split.
  - intros y Hy. simpl. rewrite list_elem_of_singleton. intros ->. done.
  - apply NoDup_singleton.
Qed.

Lemma fresh_not_in {A} (f : A -> uuid) (l : list A) t :
  (forall x, x ∈ l -> issued t (f x)) -> fresh t ∉ f <$> l.
Proof.
  intros Hl Hin. apply list_elem_of_fmap in Hin as (x & Heq & Hx).
  by apply (issued_ne_fresh _ _ (Hl x Hx)).
Qed.

Lemma wf_add_transfer x t :
  wf t -> x.(Transfer.ID) = fresh t -> 0 < x.(Transfer.Amount) -> wf (add_transfer x t).
Proof.
  intros Hwf Hid Ha.
  assert (fresh t ∉ Transfer.ID <$> transfers t) as Hf
    by (apply fresh_not_in; intros; by apply Hwf).
  apply wf_used in Hwf. destruct Hwf. split; simpl in *; try done.
  - intros y. rewrite elem_of_app, list_elem_of_singleton. intros [? | ->]; [auto |].
    rewrite Hid. split; [done | exact (issued_fresh t)].
  - apply NoDup_fmap_snoc; [done |]. by rewrite Hid.
  - intros e He. destruct (wf_entry0 e He) as (? & ? & ? & ?). rewrite fmap_app. set_solver.
Qed.

Lemma wf_add_operation o t :
  wf t -> o.(SagaWalletOperation.ID) = fresh t ->
  0 < o.(SagaWalletOperation.AmountCents) < 2 ^ 63 ->
  is_Some (wallets t !! o.(SagaWalletOperation.WalletID)) ->
  find_operation o.(SagaWalletOperation.PaymentID) o.(SagaWalletOperation.Operation) t = None ->
  (o.(SagaWalletOperation.Operation) = SagaWalletOperationDebit \/
   o.(SagaWalletOperation.Operation) = SagaWalletOperationCompensation /\
   exists d, d ∈ saga_wallet_operations t /\
      d.(SagaWalletOperation.PaymentID) = o.(SagaWalletOperation.PaymentID) /\
      d.(SagaWalletOperation.Operation) = SagaWalletOperationDebit /\
      d.(SagaWalletOperation.AmountCents) = o.(SagaWalletOperation.AmountCents) /\
      d.(SagaWalletOperation.WalletID) = o.(SagaWalletOperation.WalletID)) ->
  wf (add_operation o t).
Proof.
  intros Hwf Hid Ha Hw Hn Hop.
  apply wf_used in Hwf. destruct Hwf. split; simpl in *; try done.
  - intros y. rewrite elem_of_app, list_elem_of_singleton. intros [? | ->]; [auto |].
    rewrite Hid. split; [done |]. split; [naive_solver |]. split; [done | exact (issued_fresh t)].
  - apply NoDup_fmap_snoc; [done |]. rewrite list_elem_of_fmap. intros (y & Heq & Hy).
    pose proof (find_None_elem _ _ _ Hn Hy) as Hf. apply not_true_iff_false in Hf.
    apply Hf, operation_is_true. naive_solver.
  - intros y. rewrite elem_of_app, list_elem_of_singleton. intros Hy Hc.
    enough (exists d, d ∈ saga_wallet_operations t /\
      d.(SagaWalletOperation.PaymentID) = y.(SagaWalletOperation.PaymentID) /\
      d.(SagaWalletOperation.Operation) = SagaWalletOperationDebit /\
      d.(SagaWalletOperation.AmountCents) = y.(SagaWalletOperation.AmountCents) /\
      d.(SagaWalletOperation.WalletID) = y.(SagaWalletOperation.WalletID)) as (d & ? & ?)
      by (exists d; rewrite elem_of_app; auto).
    destruct Hy as [Hy | ->]; [by apply wf_compensation0 |].
    destruct Hop as [Hd | [_ ?]]; [by rewrite Hd in Hc | done].
Qed.

Lemma wf_add_entry e t :
  wf t -> e.(LedgerEntry.ID) = fresh t -> 0 < e.(LedgerEntry.Amount) ->
  (e.(LedgerEntry.Direction) = "debit" \/ e.(LedgerEntry.Direction) = "credit") ->
  e.(LedgerEntry.TransferID) ∈ Transfer.ID <$> transfers t ->
  List.find (entry_is e.(LedgerEntry.TransferID) e.(LedgerEntry.Direction)) (ledger_entries t) = None ->
  wf (add_entry e t).
Proof.
  intros Hwf Hid Ha Hdir Htr Hn.
  assert (fresh t ∉ LedgerEntry.ID <$> ledger_entries t) as Hf
    by (apply fresh_not_in; intros; by apply Hwf).
  apply wf_used in Hwf. destruct Hwf. split; simpl in *; try done.
  - intros y. rewrite elem_of_app, list_elem_of_singleton. intros [? | ->]; [auto |].
    rewrite Hid. do 3 (split; [done |]). exact (issued_fresh t).
  - apply NoDup_fmap_snoc; [done |]. rewrite list_elem_of_fmap. intros (y & [= Ht Hd] & Hy).
    pose proof (find_None_elem _ _ _ Hn Hy) as Hf'. unfold entry_is in Hf'.
    rewrite <- Ht, <- Hd, bool_decide_eq_true_2, String.eqb_refl in Hf' by done. done.
  - apply NoDup_fmap_snoc; [done |]. by rewrite Hid.
Qed.

Lemma wf_insert_reservation p r t :
  wf t -> reservations t !! p = None -> r.(ReservationRow.id) = fresh t ->
  r.(ReservationRow.payment_id) = p -> 0 < r.(ReservationRow.amount_cents) ->
  known_status r.(ReservationRow.status) ->
  r.(ReservationRow.from_wallet_id) <> r.(ReservationRow.to_wallet_id) ->
  wf (used (set_reservation p r t)).
Proof.
  intros Hwf Hn Hid Hp Ha Hs Hne.
  assert (forall q r', reservations t !! q = Some r' -> r'.(ReservationRow.id) <> fresh t) as Hf
    by (intros q r' Hr; apply issued_ne_fresh; by apply (wf_reservation _ Hwf q r' Hr)).
  apply wf_used in Hwf. destruct Hwf. split; simpl in *; try done.
  - intros q r'. rewrite lookup_insert. case_decide as Hq; [| by apply wf_reservation0].
    intros [= <-]. subst q. rewrite Hid. do 4 (split; [done |]). exact (issued_fresh t).
  - intros q q' s s'. rewrite !lookup_insert. repeat case_decide; intros; simplify_eq; eauto;
      exfalso; eapply Hf; eauto; congruence.
Qed.

(** An update that keeps what identifies a reservation. *)
Lemma wf_update_reservation p r r' t :
  wf t -> reservations t !! p = Some r ->
  r'.(ReservationRow.id) = r.(ReservationRow.id) ->
  r'.(ReservationRow.payment_id) = r.(ReservationRow.payment_id) ->
  r'.(ReservationRow.amount_cents) = r.(ReservationRow.amount_cents) ->
  r'.(ReservationRow.from_wallet_id) = r.(ReservationRow.from_wallet_id) ->
  r'.(ReservationRow.to_wallet_id) = r.(ReservationRow.to_wallet_id) ->
  known_status r'.(ReservationRow.status) ->
  wf (set_reservation p r' t).
Proof.
  intros Hwf Hr Hid Hp Ha Hf Ht Hs. pose proof (wf_reservation _ Hwf _ _ Hr) as (? & ? & ? & ? & ?).
  destruct Hwf. split; simpl in *; try done.
  - intros q r''. rewrite lookup_insert. case_decide as Hq; [| by apply wf_reservation0].
    intros [= <-]. subst q. rewrite Hid, Hp, Ha, Hf, Ht. done.
  - intros q q' s s'. rewrite !lookup_insert.
    repeat case_decide; intros; simplify_eq; eauto; rewrite Hid in *; eauto.
Qed.

Lemma update_reservation_ok p r f t :
  wf t -> reservations t !! p = Some r ->
  update_reservation r.(ReservationRow.id) f t = Ok (f r, set_reservation p (f r) t).
Proof.
  intros Hwf Hr. unfold update_reservation.
  destruct (List.find _ _) as [[q s]|] eqn:Hf.
  - apply find_Some_elem in Hf as [Hin Hid]. apply elem_of_map_to_list in Hin.
    apply bool_decide_eq_true in Hid. simpl in Hid.
    assert (q = p) as -> by (eapply (wf_reservation_ids _ Hwf); eauto).
    by simplify_eq.
  - apply (find_None_elem _ _ (p, r)) in Hf; [| by apply elem_of_map_to_list].
    by apply bool_decide_eq_false in Hf.
Qed.
End Preservation.
