(* ===== verification/Outbox.v ===== *)
(** * Outbox: the transactional outbox of [internal/outbox].

    [Repository.Enqueue], which writes a row of [outbox_events] with the trace headers
    of its caller.  Claiming, publishing and marking rows is in [Publisher]. *)

From stdpp Require Import sorting.
From S2P Require Import Prelude GoStrings Domain Json Database.

#[local] Open Scope string_scope.
#[local] Open Scope Z_scope.

(** The W3C trace headers [telemetry.InjectTextMap] finds in a [context.Context]. *)
Record context := Context { ctx_traceparent : string; ctx_tracestate : string }.
Definition background : context := Context "" "".

Section Repository.
Context `{Postgres}.

Definition Enqueue (ctx : context) (topic partitionKey : string) (payload : json) : db OutboxEvent.t :=
  exec (stmt_CreateOutboxEvent topic partitionKey payload (ctx_traceparent ctx) (ctx_tracestate ctx)).
End Repository.
