(* ===== verification/Kafka.v ===== *)
(** * Kafka: records, the broker and the trace headers.

    The broker is the log of the records it accepted, each with its partition and
    its offset within it.  Which partition a key goes to, and which records a
    broker refuses (too large, unknown topic, no permission), is its configuration,
    a parameter.  [kafkaCarrier] is [internal/telemetry]'s view of a record's
    headers, and [KafkaProducer] that of [internal/outbox/kafka.go]. *)

From S2P Require Import Prelude GoStrings Domain Json Database Outbox.

#[local] Open Scope string_scope.
#[local] Open Scope Z_scope.

(** [kgo.Record] *)
Module KafkaRecord.
Record t := mk {
  Topic : string;
  Partition : Z;
  Offset : Z;
  Key : string;
  Value : string;
  Headers : list (string * string)
}.
End KafkaRecord.

#[export] Instance KafkaRecord_eq_dec : EqDecision KafkaRecord.t.
Proof. solve_decision. Defined.

Class Broker := {
  partition_of : string -> string -> Z;
  broker_refuses : KafkaRecord.t -> option error
}.

Abbreviation log := (list KafkaRecord.t).

(** ** Trace headers *)

Definition TraceparentHeader : string := "traceparent".
Definition TracestateHeader : string := "tracestate".

(** [go.opentelemetry.io/otel]: the trace context read from a carrier, and the one
    of a span started under a context. *)
Class Tracing := {
  trace_Extract : context -> (string -> string) -> context;
  trace_Start : context -> context
}.

Definition carrier_Get (headers : list (string * string)) (key : string) : string :=
  match List.find (fun h => EqualFold h.1 key) headers with
  | Some h => h.2
  | None => ""
  end.

Fixpoint carrier_Set (headers : list (string * string)) (key value : string) : list (string * string) :=
  match headers with
  | [] => [(key, value)]
  | h :: rest => if EqualFold h.1 key then (h.1, value) :: rest else h :: carrier_Set rest key value
  end.

(** [propagation.TraceContext{}.Inject]: the headers of the context that it has. *)
Definition InjectKafka (ctx : context) (headers : list (string * string)) : list (string * string) :=
  let headers :=
    if ctx_tracestate ctx =s "" then headers else carrier_Set headers TracestateHeader (ctx_tracestate ctx) in
  if ctx_traceparent ctx =s "" then headers else carrier_Set headers TraceparentHeader (ctx_traceparent ctx).

Definition ExtractKafka `{Tracing} (ctx : context) (headers : list (string * string)) : context :=
  trace_Extract ctx (carrier_Get headers).

(** ** Producing *)

Section Producer.
Context `{Broker}.

(** The place a new record gets. *)
Definition placed (topic key value : string) (headers : list (string * string)) (l : log) : KafkaRecord.t :=
  let p := partition_of topic key in
  let same r := (r.(KafkaRecord.Topic) =s topic) && (r.(KafkaRecord.Partition) =? p) in
  KafkaRecord.mk topic p (Z.of_nat (length (List.filter same l))) key value headers.

Definition broker_append (topic key value : string) (headers : list (string * string)) (l : log)
    : res error (unit * log) :=
  let r := placed topic key value headers l in
  match broker_refuses r with
  | Some e => Err e
  | None => Ok (tt, (l ++ [r])%list)
  end.
End Producer.

(** The records of a partition, in the order of their offsets. *)
Definition partition (topic : string) (p : Z) (l : log) : log :=
  List.filter (fun r => (r.(KafkaRecord.Topic) =s topic) && (r.(KafkaRecord.Partition) =? p)) l.

(** Offsets count the records of their partition. *)
Definition offsets_ok (l : log) : Prop :=
  forall topic p n r, partition topic p l !! n = Some r -> r.(KafkaRecord.Offset) = Z.of_nat n.

Lemma partition_app topic p l1 l2 : partition topic p (l1 ++ l2)%list = (partition topic p l1 ++ partition topic p l2)%list.
Proof. apply List.filter_app. Qed.

Lemma broker_append_ok `{Broker} topic key value headers l l' :
  broker_append topic key value headers l = Ok (tt, l') ->
  l' = (l ++ [placed topic key value headers l])%list.
Proof. unfold broker_append. destruct (broker_refuses _); [done |]. by intros [= <-]. Qed.

Lemma broker_append_offsets `{Broker} topic key value headers l l' :
  offsets_ok l -> broker_append topic key value headers l = Ok (tt, l') -> offsets_ok l'.
Proof.
  intros Ho ->%broker_append_ok t p n r. rewrite partition_app. unfold partition at 2; simpl.
  rewrite lookup_app. destruct (partition t p l !! n) as [r' |] eqn:Hn.
  { intros [= <-]. by apply (Ho t p). }
  apply lookup_ge_None in Hn.
  destruct (_ && _) eqn:Hsame; [| by rewrite lookup_nil].
  apply andb_true_iff in Hsame as [<-%String.eqb_eq <-%Z.eqb_eq].
  intros [Hz <-]%list_lookup_singleton_Some. fold (partition topic (partition_of topic key) l).
  simpl. fold (partition topic (partition_of topic key) l). simpl in Hn, Hz. lia.
Qed.
