(* ===== verification/DeadLetter.v ===== *)
(** * DeadLetter: parked records.

    [internal/deadletter]: the envelope a consumer parks a record it cannot decode
    in, and its way back.  A Go byte slice is its bytes; [nil] and the empty slice
    are the same string here. *)

From stdpp Require Import pretty.
From S2P Require Import Prelude GoStrings Domain Base64 GoTime Json Database Outbox Kafka.

#[local] Open Scope string_scope.
#[local] Open Scope Z_scope.

Definition Suffix : string := ".dlq".
Definition SchemaVersion : Z := 1.
Definition TopicFor (topic : string) : string := topic ++ Suffix.
Definition RedriveHeader : string := "x-dead-letter-redrive".

Module DeadRecord.
Record t := mk {
  Topic : string;
  Partition : Z;
  Offset : Z;
  Key : string;
  Value : string;
  Reason : string;
  FailedAt : time
}.
End DeadRecord.

Module Payload.
Record t := mk {
  SchemaVersion : Z;
  Topic : string;
  Partition : Z;
  Offset : Z;
  Key : string;
  Value : string;
  Error : string;
  FailedAt : time
}.
End Payload.

(** The struct's fields, given the texts of its two byte slices. *)
Definition envelope (p : Payload.t) (key value : string) : list (string * json) :=
  ([("schema_version", JInt p.(Payload.SchemaVersion));
    ("topic", JString p.(Payload.Topic));
    ("partition", JInt p.(Payload.Partition));
    ("offset", JInt p.(Payload.Offset))] ++
   (if p.(Payload.Key) =s "" then [] else [("key", JString key)]) ++
   [("value", JString value);
    ("error", JString p.(Payload.Error));
    ("failed_at", JTime p.(Payload.FailedAt))])%list.

Definition payload_json (p : Payload.t) : json :=
  JObject (envelope p (StdEncoding_EncodeToString p.(Payload.Key)) (StdEncoding_EncodeToString p.(Payload.Value))).

(** Into a [[]byte] field. *)
Definition get_bytes (name : string) (fields : list (string * json)) : res json_error string :=
  let? text := get_string name fields in
  match StdEncoding_DecodeString text with
  | Some bytes => Ok bytes
  | None => Err (JsonType name)
  end.

Definition get_int32 : string -> list (string * json) -> res json_error Z :=
  get_int (fun z => (- 2 ^ 31 <=? z) && (z <? 2 ^ 31)).

Definition payload_of_json (document : option json) : res json_error Payload.t :=
  let? fields := json_object document in
  let? schema_version := get_int64 "schema_version" fields in
  let? topic := get_string "topic" fields in
  let? partition := get_int32 "partition" fields in
  let? offset := get_int64 "offset" fields in
  let? key := get_bytes "key" fields in
  let? value := get_bytes "value" fields in
  let? error := get_string "error" fields in
  let? failed_at := get_time "failed_at" fields in
  Ok (Payload.mk schema_version topic partition offset key value error failed_at).

Inductive decode_error :=
| DecodePayload (e : json_error)
| UnsupportedSchema (version : Z)
| NoSourceTopic.

Section Codec.
Context `{JsonText}.

Definition payload_for (record : DeadRecord.t) (fallbackFailedAt : time) : Payload.t :=
  let failedAt :=
    if IsZero record.(DeadRecord.FailedAt) then fallbackFailedAt else record.(DeadRecord.FailedAt) in
  Payload.mk SchemaVersion record.(DeadRecord.Topic) record.(DeadRecord.Partition) record.(DeadRecord.Offset)
    record.(DeadRecord.Key) record.(DeadRecord.Value) record.(DeadRecord.Reason) failedAt.

Definition Encode (record : DeadRecord.t) (fallbackFailedAt : time) : string :=
  json_Marshal (payload_json (payload_for record fallbackFailedAt)).

Definition Decode (value : string) : res decode_error Payload.t :=
  match payload_of_json (json_Unmarshal value) with
  | Err e => Err (DecodePayload e)
  | Ok payload =>
      if negb (payload.(Payload.SchemaVersion) =? SchemaVersion)
      then Err (UnsupportedSchema payload.(Payload.SchemaVersion))
      else if payload.(Payload.Topic) =s "" then Err NoSourceTopic
      else Ok payload
  end.
End Codec.

(** [FromKafka]: the reason is the text of the cause. *)
Definition FromKafka (record : KafkaRecord.t) (reason : string) : DeadRecord.t :=
  DeadRecord.mk record.(KafkaRecord.Topic) record.(KafkaRecord.Partition) record.(KafkaRecord.Offset)
    record.(KafkaRecord.Key) record.(KafkaRecord.Value) reason zero_time.

(** What is produced for a parked record: topic, key, value and headers. *)
Definition Replay (parked : KafkaRecord.t) (payload : Payload.t) (override : option string)
    : string * string * string * list (string * string) :=
  let value := default payload.(Payload.Value) override in
  (payload.(Payload.Topic), payload.(Payload.Key), value,
   [(RedriveHeader, parked.(KafkaRecord.Topic) ++ ":" ++ pretty parked.(KafkaRecord.Partition)
                    ++ ":" ++ pretty parked.(KafkaRecord.Offset))]).

(** ** Round trip *)

Lemma get_bytes_encoded name fields s :
  get_string name fields = Ok (StdEncoding_EncodeToString s) -> get_bytes name fields = Ok s.
Proof. intros Hs. unfold get_bytes. rewrite Hs. simpl. by rewrite std_round_trip. Qed.

Lemma envelope_fields p k v :
  json_field "schema_version" (envelope p k v) = Some (JInt p.(Payload.SchemaVersion)) /\
  json_field "topic" (envelope p k v) = Some (JString p.(Payload.Topic)) /\
  json_field "partition" (envelope p k v) = Some (JInt p.(Payload.Partition)) /\
  json_field "offset" (envelope p k v) = Some (JInt p.(Payload.Offset)) /\
  json_field "key" (envelope p k v) = (if p.(Payload.Key) =s "" then None else Some (JString k)) /\
  json_field "value" (envelope p k v) = Some (JString v) /\
  json_field "error" (envelope p k v) = Some (JString p.(Payload.Error)) /\
  json_field "failed_at" (envelope p k v) = Some (JTime p.(Payload.FailedAt)).
Proof. unfold envelope. destruct (_ =s ""); vm_compute; repeat split. Qed.

Lemma payload_json_round_trip p :
  int64 p.(Payload.SchemaVersion) -> int32 p.(Payload.Partition) -> int64 p.(Payload.Offset) ->
  payload_of_json (Some (payload_json p)) = Ok p.
Proof.
  intros Hv Hp Ho.
  destruct (envelope_fields p (StdEncoding_EncodeToString p.(Payload.Key)) (StdEncoding_EncodeToString p.(Payload.Value)))
    as (E1 & E2 & E3 & E4 & E5 & E6 & E7 & E8).
  unfold payload_of_json, payload_json. cbn [json_object res_bind]. set (fields := envelope _ _ _) in *.
  assert (get_bytes "key" fields = Ok p.(Payload.Key)) as Hkey.
  { destruct (p.(Payload.Key) =s "") eqn:Hk.
    - unfold get_bytes, get_string. rewrite E5. apply String.eqb_eq in Hk as ->. done.
    - apply get_bytes_encoded. unfold get_string. by rewrite E5. }
  assert (get_bytes "value" fields = Ok p.(Payload.Value)) as Hvalue
    by (apply get_bytes_encoded; unfold get_string; by rewrite E6).
  unfold get_int64, get_int32, get_int, get_string, get_time. rewrite E1, E2, E3, E4, E7, E8, Hkey, Hvalue.
  unfold int64, int32 in *. rewrite !(proj2 (Z.leb_le _ _)), !(proj2 (Z.ltb_lt _ _)) by lia. by destruct p.
Qed.

Lemma decode_encode `{JsonTextOk} record now :
  let p := payload_for record now in
  record.(DeadRecord.Topic) <> "" -> int32 record.(DeadRecord.Partition) -> int64 record.(DeadRecord.Offset) ->
  json_ok (payload_json p) = true -> Decode (Encode record now) = Ok p.
Proof.
  intros p Ht Hp Ho Hok. unfold Decode, Encode. rewrite json_Unmarshal_Marshal by exact Hok.
  rewrite payload_json_round_trip by (try done; unfold int64; simpl; lia). simpl.
  by rewrite (proj2 (String.eqb_neq _ _) Ht).
Qed.
