(* ===== verification/Consumer.v ===== *)
(** * Consumer: reading a partition, parking and committing.

    What the record handlers of [internal/ledgerconsumer], [internal/sagaconsumer]
    and [internal/notification] share: [deadLetter] and [commit], and the loop of
    [KafkaConsumer.Run].  A consumer group keeps, per partition, the offset of the
    next record to read after a restart; committing a record sets it to the offset
    after the record.  A running consumer is given each record once: one whose
    handling failed is logged and comes again only after a restart, from the
    committed offset. *)

From S2P Require Import Prelude GoStrings Domain Json Database Outbox Kafka DeadLetter.

#[local] Open Scope string_scope.
#[local] Open Scope Z_scope.

(** A service's own state, the broker's log and the offsets of its consumer group. *)
Record reader (T : Type) := Reader {
  app : T;
  topics : log;
  offsets : gmap (string * Z) Z
}.
Arguments Reader {T} _ _ _.
Arguments app {T} _.
Arguments topics {T} _.
Arguments offsets {T} _.

(** [kgo.NewClient] of a consumer: its brokers, its group and what it reads. *)
Module Subscription.
Record t := mk { Brokers : list string; Group : string; Topics : list string }.
End Subscription.

(** What a poll returns; [until] is the number of its records after which the context of
    the run ends, if it does. *)
Record poll := Poll { fetched : log; until : option nat }.

Section Consumer.
Context {T E : Type} `{Infra E} `{Broker} `{JsonText}.
(** How a client reports what the broker answered. *)
Variable of_broker : error -> E.

(** A call of the service's own code, which has no transaction open around it. *)
Definition run_app {A} (p : prog T E A) : prog (reader T) E A := fun c =>
  let w := committed c in
  match p (Conn (app w) None (schedule c)) with
  | (r, c') => (r, Conn (Reader (committed c') (topics w) (offsets w)) None (schedule c'))
  end.

(** [client.CommitRecords(ctx, record)] *)
Definition CommitRecord (record : KafkaRecord.t) : prog (reader T) E unit :=
  exec (fun w => Ok (tt, Reader (app w) (topics w)
    (<[(record.(KafkaRecord.Topic), record.(KafkaRecord.Partition)) := record.(KafkaRecord.Offset) + 1]> (offsets w)))).

(** [client.ProduceSync] *)
Definition ProduceSync (topic key value : string) (headers : list (string * string)) : prog (reader T) E unit :=
  exec (fun w => match broker_append topic key value headers (topics w) with
                 | Ok (_, l) => Ok (tt, Reader (app w) l (offsets w))
                 | Err e => Err (of_broker e)
                 end).

(** [deadletter.KafkaPublisher.Publish] at the time [now]. *)
Definition Publish (now : time) (record : DeadRecord.t) : prog (reader T) E unit :=
  ProduceSync (TopicFor record.(DeadRecord.Topic)) record.(DeadRecord.Key) (Encode record now) [].

Definition deadLetter (now : time) (record : KafkaRecord.t) (cause : string) : prog (reader T) E unit :=
  Publish now (FromKafka record cause) ;! CommitRecord record.

(** The records of a fetch: an error is logged and the next record is handled. *)
Fixpoint each_record (handle : KafkaRecord.t -> prog (reader T) E unit) (records : log)
    : prog (reader T) E (list (res E unit)) :=
  match records with
  | [] => ret []
  | record :: rest =>
      let! r := attempt (handle record) in
      let! rs := each_record handle rest in
      ret (r :: rs)
  end.

(** The loop of [KafkaConsumer.Run]: records that come after the end of the context are
    left alone, and the next poll returns. *)
Fixpoint Run (handle : KafkaRecord.t -> prog (reader T) E unit) (polls : list poll)
    : prog (reader T) E (list (res E unit)) :=
  match polls with
  | [] => ret []
  | Poll records None :: rest =>
      let! rs := each_record handle records in
      let! more := Run handle rest in
      ret (rs ++ more)%list
  | Poll records (Some k) :: _ => each_record handle (take k records)
  end.

(** The records that are handled before the context ends. *)
Fixpoint before_end (polls : list poll) : log :=
  match polls with
  | [] => []
  | Poll records None :: rest => (records ++ before_end rest)%list
  | Poll records (Some k) :: _ => take k records
  end.

(** What a consumer that starts now is given of a partition. *)
Definition uncommitted (topic : string) (p : Z) (w : reader T) : log :=
  drop (Z.to_nat (default 0 (offsets w !! (topic, p)))) (partition topic p (topics w)).

(** A consumer that starts now, until it has read what a partition holds. *)
Definition restarted (handle : KafkaRecord.t -> prog (reader T) E unit) (topic : string) (p : Z)
    : prog (reader T) E (list (res E unit)) := fun c =>
  Run handle [Poll (uncommitted topic p (committed c)) None] c.

(** *** The loop handles the records in order, however they are polled *)

Lemma each_record_app handle l1 l2 c :
  each_record handle (l1 ++ l2)%list c
  = (let! rs := each_record handle l1 in let! more := each_record handle l2 in ret (rs ++ more)%list) c.
Proof.
  revert c. induction l1 as [|r l1 IH]; intros c; simpl.
  - unfold bind, ret. destruct (each_record handle l2 c) as [[] ?]; done.
  - unfold bind, attempt, ret in *. destruct (handle r c) as [x c1]. rewrite IH.
    destruct (each_record handle l1 c1) as [[rs1 |] c2]; [| done].
    by destruct (each_record handle l2 c2) as [[rs2 |] c3].
Qed.

Lemma run_each handle polls c : Run handle polls c = each_record handle (before_end polls) c.
Proof.
  revert c. induction polls as [|[records [k |]] polls IH]; intros c; simpl; [done | done |].
  rewrite each_record_app. unfold bind. destruct (each_record handle records c) as [[rs |] c1]; [| done].
  by rewrite IH.
Qed.

Lemma wp_run handle polls (Q : res E (list (res E unit)) -> conn (reader T) -> Prop) c :
  wp (each_record handle (before_end polls)) Q c -> wp (Run handle polls) Q c.
Proof. unfold wp. by rewrite run_each. Qed.
End Consumer.

(** ** Handled records

    [handled r t l]: what the service owes to the record [r] has been done, in its
    own state [t] or in the broker's log [l].  A handler is sound when, under any
    loss of round trips, it answers [nil] only for a record that is handled, commits
    nothing but a handled record, and undoes nothing. *)

Section Soundness.
Context {T E : Type} `{Infra E} `{Broker} `{JsonText}.
Variable of_broker : error -> E.
Variable Inv : T -> Prop.
Variable handled : KafkaRecord.t -> T -> log -> Prop.
Hypothesis handled_log : forall r t l l', handled r t l -> l `prefix_of` l' -> handled r t l'.

(** [w'] is reached from [w]: what was handled stays handled, the log grows. *)
Record onward (w w' : reader T) : Prop := {
  onward_handled r : handled r (app w) (topics w) -> handled r (app w') (topics w');
  onward_log : topics w `prefix_of` topics w'
}.

Definition committed_record (record : KafkaRecord.t) (w : reader T) : gmap (string * Z) Z :=
  <[(record.(KafkaRecord.Topic), record.(KafkaRecord.Partition)) := record.(KafkaRecord.Offset) + 1]> (offsets w).

Definition sound_outcome (record : KafkaRecord.t) (w : reader T) (r : res E unit) (c' : conn (reader T)) : Prop :=
  let w' := committed c' in
  working c' = None /\ Inv (app w') /\ onward w w' /\
  (r = Ok tt -> handled record (app w') (topics w')) /\
  (offsets w' = offsets w \/
   (offsets w' = committed_record record w /\ handled record (app w') (topics w'))).

Definition sound_handler (handle : KafkaRecord.t -> prog (reader T) E unit) : Prop :=
  forall record w s, Inv (app w) -> wp (handle record) (sound_outcome record w) (Conn w None s).

#[export] Instance onward_preorder : PreOrder onward.
Proof.
  split; [by intros w; split |]. intros w1 w2 w3 [Ha Hb] [Hc Hd]. split; [auto | by etransitivity].
Qed.

(** An error before anything changed for good. *)
Lemma sound_error record w w' e s :
  Inv (app w') -> onward w w' -> offsets w' = offsets w -> sound_outcome record w (Err e) (Conn w' None s).
Proof. intros Hi Ho Heq. split; [done |]. split; [done |]. split; [done |]. split; [done |]. by left. Qed.

(** Committing a record that is handled. *)
Lemma commit_sound record w w1 s :
  Inv (app w1) -> onward w w1 -> offsets w1 = offsets w -> handled record (app w1) (topics w1) ->
  wp (CommitRecord record) (sound_outcome record w) (Conn w1 None s).
Proof.
  intros Hi Ho Heq Hh. unfold CommitRecord. wp_step; [by apply sound_error |].
  set (w2 := Reader _ _ _). assert (onward w w2) as Ho2 by (destruct Ho; by split).
  assert (offsets w2 = committed_record record w) as Hw2 by (unfold committed_record; by rewrite <- Heq).
  split.
  - split; [done |]. split; [done |]. split; [done |]. split; [done |]. by right.
  - intros _. split; [done |]. split; [done |]. split; [done |]. split; [done |]. by right.
Qed.

(** Parking a record, when parking is what it is owed. *)
Lemma dead_letter_sound now record cause w s :
  Inv (app w) ->
  (forall l r, r.(KafkaRecord.Topic) = TopicFor record.(KafkaRecord.Topic) ->
     r.(KafkaRecord.Key) = record.(KafkaRecord.Key) ->
     r.(KafkaRecord.Value) = Encode (FromKafka record cause) now ->
     r ∈ l -> handled record (app w) l) ->
  wp (deadLetter of_broker now record cause) (sound_outcome record w) (Conn w None s).
Proof.
  intros Hi Hpark. unfold deadLetter, Publish, ProduceSync. wp_step. wp_step; [by apply sound_error |].
  destruct (broker_append _ _ _ _ _) as [[[] l] | e] eqn:Ha; [| by apply sound_error].
  apply broker_append_ok in Ha as ->. set (w1 := Reader _ _ _).
  assert (onward w w1) as Ho by (split; simpl; [intros r Hr; eapply handled_log; [exact Hr |]; by eexists | by eexists]).
  split; [| intros _; by apply sound_error].
  apply commit_sound; [done | done | done |]. unfold w1. cbn [app topics]. eapply Hpark; [..| apply elem_of_app; right; apply list_elem_of_singleton; reflexivity]; done.
Qed.

(** All records of a fetch whose handling answered [nil] are handled at its end. *)
Lemma each_record_handled handle records : sound_handler handle -> forall w s, Inv (app w) ->
  wp (each_record handle records) (fun r c' =>
    working c' = None /\ Inv (app (committed c')) /\ onward w (committed c') /\
    exists rs, r = Ok rs /\
      Forall2 (fun record r => r = Ok tt -> handled record (app (committed c')) (topics (committed c'))) records rs)
    (Conn w None s).
Proof.
  intros Hh. induction records as [|record rest IH]; intros w s Hw; simpl.
  - wp_step. repeat (split; [done |]). by exists [].
  - wp_step. wp_step. eapply wp_mono; [by apply Hh |]. intros r [w1 wk s1] (Hwk & Hi & Ho & Hok & _). simpl in *. subst wk.
    wp_step. eapply wp_mono; [by apply IH |]. intros rs [w2 wk s2] (Hwk & Hi2 & Ho2 & rs' & -> & Hall). simpl in *. subst wk.
    wp_step. split; [done |]. split; [done |]. split; [by etransitivity |]. exists (r :: rs'). split; [done |].
    constructor; [| done]. intros ->. by apply (onward_handled _ _ Ho2), Hok.
Qed.

Lemma wp_run_app {A} (p : prog T E A) (Q : res E A -> conn (reader T) -> Prop) w s :
  wp p (fun r c' => Q r (Conn (Reader (committed c') (topics w) (offsets w)) None (schedule c'))) (Conn (app w) None s) ->
  wp (run_app p) Q (Conn w None s).
Proof. unfold wp, run_app. simpl. by destruct (p _). Qed.
End Soundness.
