(* ===== verification/Redrive.v ===== *)
(** * Redrive: working through a dead-letter topic.

    [cmd/dlq-redrive]: one poll, the decision on one parked record and the loop over
    what the polls return.  [RedriveCli] adds the command line and the output. *)

From S2P Require Import Prelude GoStrings Domain Base64 GoTime Json Database Outbox Kafka DeadLetter Consumer.

#[local] Open Scope string_scope.
#[local] Open Scope Z_scope.

Definition actionList : string := "list".
Definition actionRedrive : string := "redrive".
Definition actionDiscard : string := "discard".

Inductive redrive_error :=
| CannotRedrive (e : decode_error)
| ProduceFailed (e : redrive_error)
| UnknownAction (action : string)
| Interrupted
| FetchError (topic : string) (partition : Z) (cause : string)
| ClientError (e : error).

#[export] Instance redrive_infra : Infra redrive_error := ClientError PgUnavailable.

(** ** Polling *)

Inductive fetch_cause := DeadlineExceeded | Canceled | FetchFailed (cause : string).

(** What [PollFetches] returns, and whether the tool was interrupted meanwhile. *)
Module Fetches.
Record t := mk {
  Interrupted : bool;
  Errors : list (string * Z * fetch_cause);
  Records : log
}.
End Fetches.

(** The errors are looked at in order, the deadline of the poll apart. *)
Fixpoint first_failure (errors : list (string * Z * fetch_cause)) : option redrive_error :=
  match errors with
  | [] => None
  | (topic, partition, FetchFailed cause) :: _ => Some (FetchError topic partition cause)
  | _ :: rest => first_failure rest
  end.

Definition pollOnce (fetches : Fetches.t) : res redrive_error log :=
  if fetches.(Fetches.Interrupted) then Err Interrupted
  else match first_failure fetches.(Fetches.Errors) with
       | Some e => Err e
       | None => Ok fetches.(Fetches.Records)
       end.

Section Redrive.
Context `{Broker} `{JsonText}.

(** The tool has no state of its own. *)
Abbreviation tool A := (prog (reader unit) redrive_error A).

Definition decide_record (action : string) (parked : KafkaRecord.t) (override : option string) : tool unit :=
  let decoded := Decode parked.(KafkaRecord.Value) in
  if action =s actionList then ret tt
  else if action =s actionDiscard then CommitRecord parked
  else if action =s actionRedrive then
    match decoded with
    | Err e => throw (CannotRedrive e)
    | Ok payload =>
        let '(topic, key, value, headers) := Replay parked payload override in
        let! produced := attempt (ProduceSync ClientError topic key value headers) in
        match produced with
        | Err e => throw (ProduceFailed e)
        | Ok _ => CommitRecord parked
        end
    end
  else throw (UnknownAction action).

(** One batch: stops when [max] records have been decided. *)
Fixpoint decide_batch (action : string) (override : option string) (max seen : Z) (records : log) : tool Z :=
  match records with
  | [] => ret seen
  | parked :: rest =>
      if negb (max =? 0) && (max <=? seen) then ret seen
      else decide_record action parked override ;! decide_batch action override max (seen + 1) rest
  end.

(** The loop of [run], given what the polls return: an empty poll ends it, and so does
    the end of the list, after which nothing more arrives. *)
Fixpoint run_redrive (action : string) (override : option string) (max seen : Z) (polls : list Fetches.t) : tool Z :=
  if (max =? 0) || (seen <? max) then
    match polls with
    | [] => ret seen
    | poll :: rest =>
        let! records := lift (pollOnce poll) in
        match records with
        | [] => ret seen
        | records =>
            let! seen := decide_batch action override max seen records in
            run_redrive action override max seen rest
        end
    end
  else ret seen.

(** Parking loses nothing: redriving a record that a consumer parked puts a
    record with the topic, the key and the very bytes of the original back on the
    source topic, and commits the parked one, whatever the bytes are and whatever
    the reason was. *)
Theorem redrive_restores_record `{!JsonTextOk} original cause at_ parked w :
  let envelope := payload_for (FromKafka original cause) at_ in
  original.(KafkaRecord.Topic) <> "" -> int32 original.(KafkaRecord.Partition) -> int64 original.(KafkaRecord.Offset) ->
  json_ok (payload_json envelope) = true ->
  parked.(KafkaRecord.Value) = Encode (FromKafka original cause) at_ ->
  (forall r, r.(KafkaRecord.Topic) = original.(KafkaRecord.Topic) -> broker_refuses r = None) ->
  exists w' r,
    yields (decide_record actionRedrive parked None) w (Ok tt) w' /\
    topics w' = (topics w ++ [r])%list /\
    r.(KafkaRecord.Topic) = original.(KafkaRecord.Topic) /\ r.(KafkaRecord.Key) = original.(KafkaRecord.Key) /\
    r.(KafkaRecord.Value) = original.(KafkaRecord.Value) /\
    offsets w' = committed_record parked w.
Proof.
  intros envelope Ht Hp Ho Hok Hv Hacc.
  set (r := placed original.(KafkaRecord.Topic) original.(KafkaRecord.Key) original.(KafkaRecord.Value)
              (Replay parked envelope None).2 (topics w)).
  exists (Reader tt (topics w ++ [r])%list (committed_record parked w)), r. split; [| done].
  unfold decide_record. rewrite Hv, decode_encode by done. cbn [negb String.eqb].
  eapply yields_bind.
  - apply yields_attempt, yields_exec. unfold broker_append, Replay. simpl. rewrite Hacc by done. reflexivity.
  - apply yields_exec. by destruct w as [[] l o].
Qed.

(** ** Working through a topic *)

(** [parked] is what a consumer left of [original]. *)
Definition parks (parked original : KafkaRecord.t) : Prop := exists cause at_,
  parked.(KafkaRecord.Value) = Encode (FromKafka original cause) at_ /\
  original.(KafkaRecord.Topic) <> "" /\ int32 original.(KafkaRecord.Partition) /\ int64 original.(KafkaRecord.Offset) /\
  json_ok (payload_json (payload_for (FromKafka original cause) at_)) = true.

(** [r] is [original] again, at another place of its topic. *)
Definition restores (original r : KafkaRecord.t) : Prop :=
  r.(KafkaRecord.Topic) = original.(KafkaRecord.Topic) /\ r.(KafkaRecord.Key) = original.(KafkaRecord.Key) /\
  r.(KafkaRecord.Value) = original.(KafkaRecord.Value).

(** The offsets after committing records one after the other. *)
Definition commit_all (records : log) (o : gmap (string * Z) Z) : gmap (string * Z) Z :=
  foldl (fun o r => <[(r.(KafkaRecord.Topic), r.(KafkaRecord.Partition)) := r.(KafkaRecord.Offset) + 1]> o) o records.

(** The broker takes what is put back. *)
Definition accepted (original : KafkaRecord.t) : Prop :=
  forall r, r.(KafkaRecord.Topic) = original.(KafkaRecord.Topic) -> broker_refuses r = None.

(** The first [n] records are put back and committed, and perhaps one more is put back. *)
Definition done_so_far (pairs : list (KafkaRecord.t * KafkaRecord.t)) (w w' : reader unit) (finished : bool) : Prop :=
  exists n added, (n <= length pairs)%nat /\ (n <= length added <= S n)%nat /\
    topics w' = (topics w ++ added)%list /\
    Forall2 restores (take (length added) pairs.*2) added /\
    offsets w' = commit_all (take n pairs.*1) (offsets w) /\
    (finished = true -> n = length pairs /\ length added = n).

Lemma decide_once `{!JsonTextOk} parked original w s :
  parks parked original ->
  wp (decide_record actionRedrive parked None) (fun r c' => working c' = None /\
    done_so_far [(parked, original)] w (committed c') (is_Ok r) /\
    (quiet s -> accepted original -> quiet (schedule c') /\ r = Ok tt)) (Conn w None s).
Proof.
  intros (cause & at_ & Hv & Ht & Hp & Ho & Hok). unfold decide_record. rewrite Hv, decode_encode by done. cbn [negb String.eqb].
  change (actionRedrive =s actionList) with false. change (actionRedrive =s actionDiscard) with false.
  change (actionRedrive =s actionRedrive) with true. cbv iota. unfold Replay, ProduceSync. cbn [Payload.Topic Payload.Key Payload.Value payload_for].
  assert (forall e s', (quiet s -> accepted original -> False) -> working (Conn w None s') = None /\
    done_so_far [(parked, original)] w w (is_Ok (Err e : res redrive_error unit)) /\
    (quiet s -> accepted original -> quiet (schedule (Conn w None s')) /\ (Err e : res redrive_error unit) = Ok tt)) as Hnothing.
  { intros e s' Hno. split; [done |]. split; [| intros Hq Ha; by destruct (Hno Hq Ha)]. exists 0%nat, []. rewrite app_nil_r. split_and!; simpl; try done; lia. }
  wp_step. wp_step. wp_step; [apply Hnothing; by intros |].
  unfold broker_append. destruct (broker_refuses _) as [e |] eqn:Href.
  { wp_step. apply Hnothing. intros _ Ha. rewrite Ha in Href; done. }
  set (r := placed _ _ _ _ _). assert (restores original r) as Hr by done.
  set (w1 := Reader _ _ _).
  assert (forall e s2, ~ quiet s -> working (Conn w1 None s2) = None /\ done_so_far [(parked, original)] w w1 (is_Ok (Err e : res redrive_error unit)) /\
    (quiet s -> accepted original -> quiet (schedule (Conn w1 None s2)) /\ (Err e : res redrive_error unit) = Ok tt)) as Hproduced.
  { intros e s2 Hno. split; [done |]. split; [| by intros Hq]. exists 0%nat, [r]. split_and!; simpl; try done; try lia. by constructor. }
  split; [| intros Hq; wp_beta; wp_step; by apply Hproduced]. wp_beta. unfold CommitRecord. wp_step; [by apply Hproduced; auto |].
  assert (forall b, done_so_far [(parked, original)] w (Reader tt (topics w1) (committed_record parked w1)) b) as Hdone.
  { intros b. exists 1%nat, [r]. split_and!; simpl; try done; try lia. by constructor. }
  destruct w as [[] l o]. split; [| intros Hq]; (split; [done |]); (split; [apply Hdone |]); [auto | tauto].
Qed.

(** One part of a list after another. *)
Lemma done_then pairs1 pairs2 w w1 w2 b :
  done_so_far pairs1 w w1 true -> done_so_far pairs2 w1 w2 b -> done_so_far (pairs1 ++ pairs2)%list w w2 b.
Proof.
  intros (n1 & added1 & _ & _ & Ht1 & Hr1 & Ho1 & Hfin) (n2 & added2 & Hn2 & Hl2 & Ht2 & Hr2 & Ho2 & Hfin2).
  destruct (Hfin eq_refl) as [-> Hlen]. exists (length pairs1 + n2)%nat, (added1 ++ added2)%list.
  rewrite Hlen in Hr1. rewrite !fmap_app, !length_app, Hlen.
  split_and!; [lia | lia | lia | by rewrite Ht2, Ht1, app_assoc | | | intros ->; destruct (Hfin2 eq_refl); lia].
  - rewrite take_app_add' by (by rewrite length_fmap). apply Forall2_app; [| done]. rewrite take_ge in Hr1; [done |]. by rewrite length_fmap.
  - rewrite take_app_add' by (by rewrite length_fmap). rewrite Ho2, Ho1. unfold commit_all.
    rewrite foldl_app, (take_ge pairs1.*1) by (by rewrite length_fmap). done.
Qed.

Lemma done_part pairs1 pairs2 w w' : done_so_far pairs1 w w' false ->
  done_so_far (pairs1 ++ pairs2)%list w w' false.
Proof.
  intros (n & added & Hn & Hl & Ht & Hr & Ho & _). exists n, added. rewrite !fmap_app, length_app. split_and!; try done; try lia.
  - apply Forall2_length in Hr as Hlen. rewrite length_take, length_fmap in Hlen.
    rewrite take_app_le; [done |]. rewrite length_fmap. lia.
  - rewrite take_app_le; [done |]. by rewrite length_fmap.
Qed.

Lemma done_more pairs w w' b : done_so_far pairs w w' true -> done_so_far pairs w w' b.
Proof. intros (n & added & Hn & Hl & Ht & Hr & Ho & Hfin). exists n, added. split_and!; auto; lia. Qed.

Lemma done_nothing w b : done_so_far [] w w b.
Proof. exists 0%nat, []. rewrite app_nil_r. split_and!; simpl; try done; lia. Qed.

Lemma batch_spec `{!JsonTextOk} pairs : forall seen w s,
  Forall (fun p => parks p.1 p.2) pairs ->
  wp (decide_batch actionRedrive None 0 seen pairs.*1) (fun r c' => working c' = None /\
    done_so_far pairs w (committed c') (is_Ok r) /\ (forall n, r = Ok n -> n = seen + Z.of_nat (length pairs)) /\
    (quiet s -> Forall (fun p => accepted p.2) pairs -> quiet (schedule c') /\ is_Ok r = true)) (Conn w None s).
Proof.
  induction pairs as [|[parked original] pairs IH]; intros seen w s Hall; cbn [fmap list_fmap decide_batch fst].
  - wp_step. split; [done |]. split; [apply done_nothing |]. split; [intros n [= <-]; simpl; lia | done].
  - inversion Hall as [|? ? Hp Hps]; subst. cbn [Z.eqb negb andb]. wp_step. eapply wp_mono; [by apply (decide_once parked original) |].
    intros r c' (Hw & Hdone & Hq). destruct r as [[] | e].
    + destruct c' as [w1 x s1]. cbn [working committed schedule] in *. subst x. eapply wp_mono; [by apply IH |].
      intros r c'' (Hw' & Hdone' & Hn & Hq'). split; [done |]. split; [exact (done_then [(parked, original)] pairs w w1 _ _ Hdone Hdone') |].
      split; [intros n Hr; rewrite (Hn n Hr); simpl; lia |]. intros Hqs [Ha Has]%list.Forall_cons. destruct (Hq Hqs Ha). auto.
    + split; [done |]. split; [exact (done_part [(parked, original)] pairs w _ Hdone) |]. split; [done |].
      intros Hqs [Ha _]%list.Forall_cons. by destruct (Hq Hqs Ha).
Qed.

(** The polls return [records], a batch at a time. *)
Definition polled (polls : list Fetches.t) (records : log) : Prop :=
  exists batches, Forall2 (fun poll batch => pollOnce poll = Ok batch /\ batch <> []) polls batches /\ concat batches = records.

Lemma run_spec `{!JsonTextOk} polls : forall pairs seen w s,
  Forall (fun p => parks p.1 p.2) pairs -> polled polls pairs.*1 ->
  wp (run_redrive actionRedrive None 0 seen polls) (fun r c' => working c' = None /\
    done_so_far pairs w (committed c') (is_Ok r) /\ (forall n, r = Ok n -> n = seen + Z.of_nat (length pairs)) /\
    (quiet s -> Forall (fun p => accepted p.2) pairs -> is_Ok r = true)) (Conn w None s).
Proof.
  induction polls as [|poll polls IH]; intros pairs seen w s Hall (batches & Hpolls & Hall'); cbn [run_redrive Z.eqb orb];
    inversion Hpolls as [| ? batch ? ? [Hpoll Hne] Hrest]; subst; cbn [concat] in Hall'.
  - destruct pairs; [| done]. wp_step. split; [done |]. split; [apply done_nothing |]. split; [intros n [= <-]; simpl; lia | done].
  - rewrite Hpoll. destruct batch as [|first rest]; [done |].
    destruct (fmap_app_inv _ _ _ _ (eq_sym Hall')) as (pairs1 & pairs2 & Hp1 & Hp2 & ->). wp_step. wp_step. wp_beta. rewrite Hp1.
    apply list.Forall_app in Hall as [Hall1 Hall2]. wp_step. eapply wp_mono; [by apply batch_spec |].
    intros r c' (Hw & Hdone & Hn & Hq). destruct r as [n | e].
    + rewrite (Hn n eq_refl). destruct c' as [w1 x s1]. cbn [working committed schedule] in *. subst x.
      eapply wp_mono; [apply (IH pairs2); [done | by eexists] |].
      intros r c'' (Hw' & Hdone' & Hn' & Hq'). split; [done |]. split; [by eapply done_then |].
      split; [intros m Hr; rewrite (Hn' m Hr), length_app; lia |]. intros Hqs [Ha Has]%list.Forall_app. destruct (Hq Hqs Ha). auto.
    + split; [done |]. split; [by apply done_part |]. split; [done |]. intros Hqs [Ha _]%list.Forall_app. by destruct (Hq Hqs Ha).
Qed.

(** C25: redriving a dead-letter topic puts back what was parked there.  Whatever round
    trips are lost or refused, the records put back are the originals, in order and
    from the first on, each with the topic, the key and the very bytes it had; what is
    committed is what was put back, with at most one record put back and not yet
    committed, so a rerun repeats at most that one.  When the tool says it is done, it
    reports the number of parked records and every one is back and committed; and it
    gets there when the broker accepts the records and no round trip is lost. *)
Theorem redrive_restores_topic `{!JsonTextOk} pairs polls w s :
  Forall (fun p => parks p.1 p.2) pairs -> polled polls pairs.*1 ->
  let '(r, c') := run_redrive actionRedrive None 0 0 polls (Conn w None s) in
  done_so_far pairs w (committed c') (is_Ok r) /\
  (forall n, r = Ok n -> n = Z.of_nat (length pairs)) /\
  (quiet s -> Forall (fun p => accepted p.2) pairs -> r = Ok (Z.of_nat (length pairs))).
Proof.
  intros Hall Hpolls. pose proof (run_spec polls pairs 0 w s Hall Hpolls) as Hrun. unfold wp in Hrun.
  destruct (run_redrive _ _ _ _ _ _) as [r c']. destruct Hrun as (_ & Hdone & Hn & Hq). split_and!; [done | done |].
  intros Hqs Ha. specialize (Hq Hqs Ha). destruct r; [| done]. by rewrite (Hn _ eq_refl).
Qed.
End Redrive.
