(* ===== verification/RedriveCli.v ===== *)
(** * RedriveCli: the command line of the redrive tool.

    [cmd/dlq-redrive/main.go]: the options and their rules, [run] with its value file,
    [main] with its exit code, and how a record's bytes are shown.  Of the standard
    library it uses [flag] and [strconv.ParseInt] with base 0.
    [LookupEnv] and [ReadFile] are the environment; [NewClient] is the Kafka library's
    check of the client's options. *)

From Stdlib Require Import Ascii.
From S2P Require Import Prelude GoStrings Domain Base64 GoTime Json Decimal Duration Flag Database Outbox Kafka DeadLetter Consumer Redrive.

#[local] Open Scope string_scope.
#[local] Open Scope Z_scope.

(** ** [strconv.ParseInt(s, 0, 64)] *)

(** The letters in either case, as the library folds them. *)
Definition lower (c : ascii) : N := N.lor (N_of_ascii c) 32.

Definition digit_value (c : ascii) : option Z :=
  match digit_of c with
  | Some d => Some (Z.of_N d)
  | None => if (97 <=? lower c)%N && (lower c <=? 122)%N then Some (Z.of_N (lower c) - 87) else None
  end.

(** The digits of a base; underscores between them are looked at by [underscoreOK]. *)
Fixpoint base_digits (base n : Z) (s : string) : option Z :=
  match s with
  | EmptyString => Some n
  | String c s' =>
      if Ascii.eqb c "_" then base_digits base n s'
      else match digit_value c with
           | Some d => if d <? base then base_digits base (n * base + d) s' else None
           | None => None
           end
  end.

(** The base a text announces, and the digits after the prefix. *)
Definition base_of (s : string) : Z * string :=
  match s with
  | String "0" (String c rest) =>
      if (lower c =? 98)%N && negb (rest =s "") then (2, rest)
      else if (lower c =? 111)%N && negb (rest =s "") then (8, rest)
      else if (lower c =? 120)%N && negb (rest =s "") then (16, rest)
      else (8, String c rest)
  | String "0" rest => (8, rest)
  | _ => (10, s)
  end.

Inductive saw := SawStart | SawDigit | SawUnderscore | SawOther.

Fixpoint underscores (hex : bool) (seen : saw) (s : string) : bool :=
  match s with
  | EmptyString => match seen with SawUnderscore => false | _ => true end
  | String c s' =>
      if bool_decide (is_Some (digit_of c)) || (hex && (97 <=? lower c)%N && (lower c <=? 102)%N)
      then underscores hex SawDigit s'
      else if Ascii.eqb c "_" then match seen with SawDigit => underscores hex SawUnderscore s' | _ => false end
      else match seen with SawUnderscore => false | _ => underscores hex SawOther s' end
  end.

(** On the text without its sign. *)
Definition underscoreOK (s : string) : bool :=
  match s with
  | String "0" (String c rest) =>
      if (lower c =? 98)%N || (lower c =? 111)%N || (lower c =? 120)%N
      then underscores (lower c =? 120)%N SawDigit rest
      else underscores false SawStart s
  | _ => underscores false SawStart s
  end.

Definition has_underscore (s : string) : bool := Contains s "_".

Definition ParseInt0 (s : string) : option Z :=
  let '(sign, s) := match s with
                    | String c s' => if Ascii.eqb c "-" then (-1, s')
                                     else if Ascii.eqb c "+" then (1, s') else (1, s)
                    | EmptyString => (1, s)
                    end in
  if s =s "" then None
  else
    let '(base, ds) := base_of s in
    match base_digits base 0 ds with
    | Some n =>
        let z := sign * n in
        if (has_underscore s && negb (underscoreOK s)) || negb ((- 2 ^ 63 <=? z) && (z <? 2 ^ 63)) then None else Some z
    | None => None
    end.

(** A decimal, the bases, a leading zero, and what is refused. *)
Example integers_evaluated :
  ParseInt0 "100" = Some 100 /\ ParseInt0 "-0x1F" = Some (-31) /\ ParseInt0 "0b101" = Some 5 /\ ParseInt0 "017" = Some 15 /\
  ParseInt0 "0" = Some 0 /\ ParseInt0 "1_000" = Some 1000 /\ ParseInt0 "0x_f" = Some 15 /\ ParseInt0 "1__0" = None /\
  ParseInt0 "_1" = None /\ ParseInt0 "0x" = None /\ ParseInt0 "08" = None /\ ParseInt0 "" = None /\ ParseInt0 "+" = None /\
  ParseInt0 "9223372036854775808" = None /\ ParseInt0 "-9223372036854775808" = Some (- 2 ^ 63).
Proof. vm_compute. repeat split. Qed.

Lemma ParseInt0_range s z : ParseInt0 s = Some z -> int64 z.
Proof.
  unfold ParseInt0. destruct (match s with String c s' => _ | EmptyString => _ end) as [sign s1].
  destruct (s1 =s ""); [done |]. destruct (base_of s1) as [base ds]. destruct (base_digits base 0 ds); [| done].
  destruct (has_underscore s1 && negb (underscoreOK s1)); [done |]. cbn [orb].
  destruct (andb _ _) eqn:Hr; [| done]. apply andb_true_iff in Hr as [H1%Z.leb_le H2%Z.ltb_lt].
  cbn [negb]. intros [= <-]. unfold int64. lia.
Qed.

(** ** Options *)

Definition defaultBrokers : string := "127.0.0.1:9092".
Definition defaultGroup : string := "dlq-redrive".
Definition defaultWait : Z := 10 * Second.
Definition previewBytes : nat := 200.

Module options.
Record t := mk {
  action : string;
  topic : string;
  brokers : list string;
  group : string;
  max : Z;
  wait : Z;
  valueFile : string
}.
End options.

(** The values of the flags while they are parsed: [--brokers] is one text. *)
Module Flags.
Record t := mk {
  brokers : string;
  topic : string;
  group : string;
  max : Z;
  wait : Z;
  valueFile : string
}.
Definition eta (r : t) : t := mk r.(brokers) r.(topic) r.(group) r.(max) r.(wait) r.(valueFile).
Definition with_brokers : string -> t -> t := ltac:(derive_setter eta brokers).
Definition with_topic : string -> t -> t := ltac:(derive_setter eta topic).
Definition with_group : string -> t -> t := ltac:(derive_setter eta group).
Definition with_max : Z -> t -> t := ltac:(derive_setter eta max).
Definition with_wait : Z -> t -> t := ltac:(derive_setter eta wait).
Definition with_valueFile : string -> t -> t := ltac:(derive_setter eta valueFile).
End Flags.

Inductive usage_error :=
| NoAction
| BadAction (action : string)
| FlagsRefused (e : flag_error)
| TopicRequired
| TopicIsDeadLetters (topic : string)
| NegativeMax
| WaitNotPositive
| ValueFileMisused
| NoBrokers.

(** [flag.Value.Set] of the flag of that name, if there is one. *)
Definition set_flag (name value : string) (flags : Flags.t) : option (option Flags.t) :=
  if name =s "brokers" then Some (Some (Flags.with_brokers value flags))
  else if name =s "topic" then Some (Some (Flags.with_topic value flags))
  else if name =s "group" then Some (Some (Flags.with_group value flags))
  else if name =s "max" then Some (option_map (fun n => Flags.with_max n flags) (ParseInt0 value))
  else if name =s "wait" then Some (option_map (fun d => Flags.with_wait d flags) (ParseDuration value))
  else if name =s "value-file" then Some (Some (Flags.with_valueFile value flags))
  else None.

Definition accepted_flags (args : list string) (flags : Flags.t) : res usage_error Flags.t :=
  match parse_flags set_flag args flags with Ok flags => Ok flags | Err e => Err (FlagsRefused e) end.

Section Command.
Context (LookupEnv : string -> option string).

Definition envOr (key fallback : string) : string :=
  match LookupEnv key with
  | Some value => if value =s "" then fallback else value
  | None => fallback
  end.

Definition parseOptions (args : list string) : res usage_error options.t :=
  match args with
  | [] => Err NoAction
  | action :: args =>
      if negb (existsb (String.eqb action) [actionList; actionRedrive; actionDiscard]) then Err (BadAction action)
      else
        let? flags := accepted_flags args (Flags.mk (envOr "KAFKA_BROKERS" defaultBrokers) "" defaultGroup 0 defaultWait "") in
        let topic := TrimSpace flags.(Flags.topic) in
        if topic =s "" then Err TopicRequired
        else if HasSuffix topic Suffix then Err (TopicIsDeadLetters topic)
        else if flags.(Flags.max) <? 0 then Err NegativeMax
        else if flags.(Flags.wait) <=? 0 then Err WaitNotPositive
        else if negb (flags.(Flags.valueFile) =s "") && (negb (action =s actionRedrive) || negb (flags.(Flags.max) =? 1))
        then Err ValueFileMisused
        else
          let brokers := List.filter (fun broker => negb (broker =s "")) (TrimSpace <$> split_commas flags.(Flags.brokers)) in
          if bool_decide (brokers = []) then Err NoBrokers
          else Ok (options.mk action topic brokers flags.(Flags.group) flags.(Flags.max) flags.(Flags.wait) flags.(Flags.valueFile))
  end.

(** ** The run *)

Context (ReadFile : string -> option string).
(** The Kafka library's verdict on the brokers, the group and the topic of a client. *)
Context (NewClient : list string -> string -> string -> option string).
Context `{Broker} `{JsonText}.

Inductive run_error :=
| ReadValueFile
| ClientOptions (cause : string)
| RunFailed (e : redrive_error).

(** The replacement value: [Ok None] when no file is named. *)
Definition read_override (opts : options.t) : res run_error (option string) :=
  if opts.(options.valueFile) =s "" then Ok None
  else match ReadFile opts.(options.valueFile) with
       | Some value => Ok (Some value)
       | None => Err ReadValueFile
       end.

(** [run], given what the polls will return; the number is what it reports as seen. *)
Definition run (opts : options.t) (polls : list Fetches.t) (c : conn (reader unit)) : res run_error Z * conn (reader unit) :=
  match read_override opts with
  | Err e => (Err e, c)
  | Ok override =>
      match NewClient opts.(options.brokers) opts.(options.group) (TopicFor opts.(options.topic)) with
      | Some cause => (Err (ClientOptions cause), c)
      | None =>
          let '(r, c') := run_redrive opts.(options.action) override opts.(options.max) 0 polls c in
          (match r with Ok seen => Ok seen | Err e => Err (RunFailed e) end, c')
      end
  end.

(** [main]: the exit code, and what happened to the topics and the offsets. *)
Definition main (args : list string) (polls : list Fetches.t) (c : conn (reader unit)) : Z * conn (reader unit) :=
  match parseOptions args with
  | Err _ => (2, c)
  | Ok opts =>
      match run opts polls c with
      | (Ok _, c') => (0, c')
      | (Err _, c') => (1, c')
      end
  end.
End Command.

(** ** What is printed *)

Definition pastTense (action : string) : string :=
  if action =s actionRedrive then "redriven"
  else if action =s actionDiscard then "discarded"
  else "listed".

(** [strings.ReplaceAll(s, "\n", `\n`)] *)
Fixpoint escape_newlines (s : string) : string :=
  match s with
  | EmptyString => ""
  | String c s' => if Ascii.eqb c "010" then String "\" (String "n" (escape_newlines s')) else String c (escape_newlines s')
  end.

(** [fmt.Sprintf("%x", s)] *)
Definition hex_digit (d : N) : ascii := ascii_of_N (if (d <? 10)%N then 48 + d else 87 + d).

Fixpoint hex (s : string) : string :=
  match s with
  | EmptyString => ""
  | String c s' => String (hex_digit (N_of_ascii c / 16)) (String (hex_digit (N_of_ascii c mod 16)) (hex s'))
  end.

Definition ellipsis : string := of_bytes [226; 128; 166]%N.

Definition preview (value : string) : string :=
  let truncated := (previewBytes <? String.length value)%nat in
  let value := if truncated then String.substring 0 previewBytes value else value in
  let text := if utf8_valid value then escape_newlines value else "hex:" ++ hex value in
  if truncated then text ++ ellipsis else text.

(** Short text is shown as it is; bytes that are not text are shown in hexadecimal. *)
Example previews_evaluated :
  preview "a line" = "a line" /\ preview (of_bytes [97; 10; 98]%N) = "a\nb" /\ preview (of_bytes [255; 0; 10]%N) = "hex:ff000a" /\
  preview (of_bytes (replicate 201 97%N)) = of_bytes (replicate 200 97%N) ++ ellipsis.
Proof. vm_compute. repeat split. Qed.

(** Text that is longer than the preview is shown in hexadecimal when a character of
    several bytes lies across the limit: the bytes are cut first and looked at then. *)
Lemma preview_splits_characters :
  let value := of_bytes (replicate 199 97%N ++ [195; 169]%N)%list in
  utf8_valid value = true /\ preview value = "hex:" ++ hex (String.substring 0 200 value) ++ ellipsis.
Proof. vm_compute. split; reflexivity. Qed.

(** ** The rules of the options *)

Definition options_ok (o : options.t) : Prop :=
  o.(options.action) ∈ [actionList; actionRedrive; actionDiscard] /\
  o.(options.topic) <> "" /\ HasSuffix o.(options.topic) Suffix = false /\
  0 <= o.(options.max) < 2 ^ 63 /\ 0 < o.(options.wait) < 2 ^ 63 /\
  (o.(options.valueFile) <> "" -> o.(options.action) = actionRedrive /\ o.(options.max) = 1) /\
  o.(options.brokers) <> [] /\ Forall (fun broker => broker <> "") o.(options.brokers).

Definition flags_fit (flags : Flags.t) : Prop := int64 flags.(Flags.max) /\ int64 flags.(Flags.wait).

Lemma set_flag_fit name value flags flags' :
  flags_fit flags -> set_flag name value flags = Some (Some flags') -> flags_fit flags'.
Proof.
  intros [Hm Hw]. unfold set_flag, flags_fit.
  do 3 (destruct (_ =s _); [by intros [= <-] |]).
  destruct (_ =s _). { destruct (ParseInt0 value) eqn:Hz; [| done]. intros [= <-]. eauto using ParseInt0_range. }
  destruct (_ =s _). { destruct (ParseDuration value) eqn:Hz; [| done]. intros [= <-]. eauto using ParseDuration_range. }
  destruct (_ =s _); [by intros [= <-] | done].
Qed.

Lemma parseOptions_ok env args o : parseOptions env args = Ok o -> options_ok o.
Proof.
  unfold parseOptions. destruct args as [|action args]; [done |]. destruct (existsb _ _) eqn:Ha; [| done]. cbn [negb].
  unfold accepted_flags. destruct (parse_flags _ _ _) as [flags |] eqn:Hflags; [| done]. cbn [res_bind].
  assert (flags_fit flags) as [Hm Hw].
  { eapply (parse_flags_keeps set_flag flags_fit); [eauto using set_flag_fit | | exact Hflags]. split; vm_compute; done. }
  destruct (String.eqb_spec (TrimSpace flags.(Flags.topic)) "") as [| Htopic]; [done |].
  destruct (HasSuffix _ _) eqn:Hsuffix; [done |]. destruct (Z.ltb_spec flags.(Flags.max) 0); [done |].
  destruct (Z.leb_spec flags.(Flags.wait) 0); [done |]. destruct (andb _ _) eqn:Hvf; [done |].
  case_bool_decide as Hb; [done |]. intros [= <-]. unfold options_ok, int64 in *. simpl.
  split_and!; try done; try lia.
  - apply existsb_exists in Ha as (x & Hx & ->%str_eqb_true). by apply list_elem_of_In.
  - intros Hne%str_eqb_false. rewrite Hne in Hvf. simpl in Hvf. apply orb_false_iff in Hvf as [H1 H2].
    apply negb_false_iff in H1 as ->%str_eqb_true. apply negb_false_iff in H2. split; [done | lia].
  - apply List.Forall_forall. intros b [_ Hne]%filter_In. apply negb_true_iff in Hne. by apply str_eqb_false.
Qed.

(** ** What a run changes *)

(** [action] has put [added] on the topics, at most [k] of them. *)
Definition touched (action : string) (override : option string) (k : Z) (w w' : reader unit) : Prop :=
  exists added, topics w' = (topics w ++ added)%list /\ Z.of_nat (length added) <= k /\
    (action <> actionRedrive -> added = []) /\ (action = actionList -> w' = w) /\
    Forall (fun r => forall value, override = Some value -> r.(KafkaRecord.Value) = value) added.

Lemma untouched action override k w : 0 <= k -> touched action override k w w.
Proof. intros Hk. exists []. rewrite app_nil_r. by split_and!. Qed.

Lemma touched_then action override k1 k2 w w1 w2 :
  touched action override k1 w w1 -> touched action override k2 w1 w2 -> touched action override (k1 + k2) w w2.
Proof.
  intros (a1 & Ht1 & Hk1 & Hr1 & Hl1 & Hf1) (a2 & Ht2 & Hk2 & Hr2 & Hl2 & Hf2). exists (a1 ++ a2)%list.
  rewrite length_app, Ht2, Ht1, app_assoc. split_and!; [done | lia | | | by apply Forall_app].
  - intros Hne. by rewrite Hr1, Hr2.
  - intros ->. by rewrite Hl2, Hl1.
Qed.

Lemma touched_le action override k k' w w' : k <= k' -> touched action override k w w' -> touched action override k' w w'.
Proof. intros Hk (added & Ht & Hle & Hrest). exists added. split_and!; naive_solver lia. Qed.

Section Effects.
Context `{Broker} `{JsonText}.

Lemma decide_touches action override parked w s :
  wp (decide_record action parked override) (fun _ c' => working c' = None /\
    touched action override 1 w (committed c')) (Conn w None s).
Proof.
  assert (forall (r : res redrive_error unit) s', working (Conn w None s') = None /\ touched action override 1 w (committed (Conn w None s')))
    as Hnothing by (intros; split; [done | by apply untouched]).
  unfold decide_record. destruct (String.eqb_spec action actionList) as [| Hlist]; [wp_step; by apply (Hnothing (Ok tt)) |].
  assert (forall added o s', (length added <= 1)%nat -> (action <> actionRedrive -> added = []) ->
    Forall (fun r => forall value, override = Some value -> r.(KafkaRecord.Value) = value) added ->
    let c' := Conn (Reader tt (topics w ++ added)%list o) None s' in
    working c' = None /\ touched action override 1 w (committed c')) as Hadded.
  { intros added o s' Hlen Hr Hv. split; [done |]. exists added. split_and!; try done; lia. }
  assert (forall o s', let c' := Conn (Reader tt (topics w) o) None s' in
    working c' = None /\ touched action override 1 w (committed c')) as Hcommitted.
  { intros o s'. specialize (Hadded [] o s'). rewrite app_nil_r in Hadded. apply Hadded; simpl; try done; lia. }
  destruct (String.eqb_spec action actionDiscard).
  { unfold CommitRecord. destruct w as [[] l o]. wp_step; [by apply (Hnothing (Err (ClientError PgUnavailable))) |].
    split; intros; apply Hcommitted. }
  destruct (String.eqb_spec action actionRedrive) as [Ha | _]; [| wp_step; by apply (Hnothing (Ok tt))].
  destruct (Decode _) as [payload | e]; [| wp_step; by apply (Hnothing (Ok tt))]. unfold Replay, ProduceSync. cbv iota zeta beta.
  wp_step. wp_step. wp_step; [by apply (Hnothing (Ok tt)) |]. unfold broker_append.
  destruct (broker_refuses _); [wp_step; by apply (Hnothing (Ok tt)) |]. set (r := placed _ _ _ _ _).
  assert (forall value, override = Some value -> r.(KafkaRecord.Value) = value) as Hr by (by intros value ->).
  assert (forall o s', let c' := Conn (Reader tt (topics w ++ [r])%list o) None s' in
    working c' = None /\ touched action override 1 w (committed c')) as Hproduced.
  { intros o s2. apply (Hadded [r]); [done | done | by constructor]. }
  destruct w as [[] l o]. split; [| intros; wp_beta; wp_step; apply Hproduced]. wp_beta. unfold CommitRecord.
  wp_step; [apply Hproduced | split; intros; apply Hproduced].
Qed.

(** The number of records that may be decided: [max], or with 0 all there are. *)
Definition limit (max seen total : Z) : Z := if max =? 0 then seen + total else max.

Lemma batch_touches action override max records : forall seen w s,
  seen <= limit max seen (Z.of_nat (length records)) ->
  wp (decide_batch action override max seen records) (fun r c' => working c' = None /\
    match r with
    | Ok n => seen <= n <= limit max seen (Z.of_nat (length records)) /\ touched action override (n - seen) w (committed c')
    | Err _ => touched action override (limit max seen (Z.of_nat (length records)) - seen) w (committed c')
    end) (Conn w None s).
Proof.
  unfold limit. induction records as [|parked records IH]; intros seen w s Hseen; cbn [decide_batch].
  - wp_step. split; [done |]. split; [lia | apply untouched; lia].
  - rewrite length_cons in *. destruct (negb _ && _) eqn:Hfull.
    { wp_step. split; [done |]. split; [lia | apply untouched; lia]. }
    wp_step. eapply wp_mono; [apply decide_touches |]. intros r [w1 x s1] [Hw Hone]. cbn [working committed] in *. subst x.
    assert (seen + 1 <= (if max =? 0 then seen + Z.of_nat (S (length records)) else max)) as Hnext by (destruct (Z.eqb_spec max 0); lia).
    destruct r as [[] | e]; [| split; [done |]; eapply touched_le; [| exact Hone]; lia].
    eapply wp_mono; [apply IH; destruct (max =? 0); lia |]. intros r c'' [Hw Hrest]. split; [done |]. destruct r as [n | e].
    + destruct Hrest as [Hn Hrest]. split; [destruct (max =? 0); lia |].
      replace (n - seen) with (1 + (n - (seen + 1))) by lia. by eapply touched_then.
    + eapply touched_le; [| eapply touched_then; [exact Hone | exact Hrest]]. destruct (max =? 0); lia.
Qed.

Definition records_of (polls : list Fetches.t) : log := concat (Fetches.Records <$> polls).

Lemma run_touches action override max polls : forall seen w s,
  seen <= limit max seen (Z.of_nat (length (records_of polls))) ->
  wp (run_redrive action override max seen polls) (fun r c' =>
    touched action override (limit max seen (Z.of_nat (length (records_of polls))) - seen) w (committed c') /\
    (forall n, r = Ok n -> seen <= n <= limit max seen (Z.of_nat (length (records_of polls))))) (Conn w None s).
Proof.
  induction polls as [|poll polls IH]; intros seen w s Hseen; cbn [run_redrive]; destruct (_ || _).
  1,2,4: wp_step; (split; [apply untouched; lia | by intros n [= <-]]).
  unfold records_of in *. cbn [fmap list_fmap concat] in *. rewrite length_app in *. unfold limit in *.
  wp_step. wp_step. unfold pollOnce.
  destruct (Fetches.Interrupted poll); [split; [apply untouched; lia | done] |].
  destruct (first_failure _); [split; [apply untouched; lia | done] |]. wp_beta.
  destruct (Fetches.Records poll) as [|first rest]; [wp_step; split; [apply untouched; lia | by intros n [= <-]] |].
  wp_step. eapply wp_mono; [apply batch_touches; unfold limit; destruct (max =? 0); lia |].
  intros r [w1 x s1] [Hw Hbatch]. cbn [working committed] in *. subst x. unfold limit in *. destruct r as [n | e].
  - destruct Hbatch as [Hn Hbatch]. eapply wp_mono; [apply IH; destruct (max =? 0); lia |]. intros r c'' [Hrest Hr].
    split; [| intros m Hm; specialize (Hr m Hm); destruct (max =? 0); lia].
    eapply touched_le; [| eapply touched_then; [exact Hbatch | exact Hrest]]. destruct (max =? 0); lia.
  - split; [| done]. eapply touched_le; [| exact Hbatch]. destruct (max =? 0); lia.
Qed.
End Effects.

(** The change from [w] to [w'] is one the options allow, with [available] records to decide. *)
Definition allowed (read_file : string -> option string) (o : options.t) (available : nat) (w w' : reader unit) : Prop :=
  exists added, topics w' = (topics w ++ added)%list /\
    (if o.(options.max) =? 0 then (length added <= available)%nat else Z.of_nat (length added) <= o.(options.max)) /\
    (o.(options.action) = actionList -> w' = w) /\
    (o.(options.action) = actionDiscard -> added = []) /\
    (o.(options.valueFile) <> "" -> (length added <= 1)%nat /\
      Forall (fun r => read_file o.(options.valueFile) = Some r.(KafkaRecord.Value)) added).

Lemma touched_allowed read_file o override available w w' :
  options_ok o -> read_override read_file o = Ok override ->
  touched o.(options.action) override (limit o.(options.max) 0 (Z.of_nat available) - 0) w w' ->
  allowed read_file o available w w'.
Proof.
  intros (_ & _ & _ & Hmax & _ & Hvf & _) Hread (added & Ht & Hk & Hred & Hlist & Hv). unfold limit in Hk. exists added.
  split_and!; [done | destruct (_ =? 0); lia | done | by intros Ha; apply Hred; rewrite Ha |].
  intros Hne. destruct (Hvf Hne) as [_ Hone]. rewrite Hone in Hk. simpl in Hk. split; [lia |].
  unfold read_override in Hread. apply str_eqb_false in Hne. rewrite Hne in Hread.
  destruct (read_file _); simplify_eq. eapply list.Forall_impl; [exact Hv |]. intros r Hr. by rewrite (Hr _ eq_refl).
Qed.

Lemma nothing_allowed read_file o available w : options_ok o -> allowed read_file o available w w.
Proof.
  intros (_ & _ & _ & Hmax & _). exists []. rewrite app_nil_r.
  split_and!; try done; [destruct (_ =? 0); simpl; lia | intros; split; [simpl; lia | constructor]].
Qed.

(** The command does no more than its line says.  A line that breaks the rules changes
    nothing and exits with 2.  Otherwise the options obey the rules, and whatever is
    lost or refused: [list] changes nothing, [discard] puts nothing on any topic, no
    more than [--max] records are put back, and with a value file at most one is, with
    the bytes of the file. *)
Theorem command_is_bounded `{Broker} `{JsonText} env read_file new_client args polls w s :
  let '(code, c') := main env read_file new_client args polls (Conn w None s) in
  match parseOptions env args with
  | Err _ => code = 2 /\ c' = Conn w None s
  | Ok o => options_ok o /\ (code = 0 \/ code = 1) /\
            allowed read_file o (length (records_of polls)) w (committed c')
  end.
Proof.
  unfold main. destruct (parseOptions env args) as [o | e] eqn:Ho; [| done]. apply parseOptions_ok in Ho.
  unfold run. destruct (read_override read_file o) as [override |] eqn:Hread; [| by auto using nothing_allowed].
  destruct (new_client _ _ _); [by auto using nothing_allowed |].
  pose proof (run_touches o.(options.action) override o.(options.max) polls 0 w s) as Hrun.
  unfold wp in Hrun. destruct (run_redrive _ _ _ _ _ _) as [r c'].
  destruct Hrun as [Htouched _]; [unfold limit; destruct Ho as (_ & _ & _ & Hmax & _); destruct (_ =? _); lia |].
  destruct r; eauto using touched_allowed.
Qed.

(** Lines the tool takes and lines it refuses. *)
Example lines_evaluated :
  let parse := parseOptions (fun _ => None) in
  parse ["redrive"; "--topic"; "tx.initiated"; "--max=1"; "-value-file"; "fixed.json"]
    = Ok (options.mk "redrive" "tx.initiated" ["127.0.0.1:9092"] "dlq-redrive" 1 (10 * Second) "fixed.json") /\
  parse ["list"; "-topic= tx.failed "; "--brokers"; "a:1, ,b:2"; "--wait"; "1m"]
    = Ok (options.mk "list" "tx.failed" ["a:1"; "b:2"] "dlq-redrive" 0 Minute "") /\
  parse [] = Err NoAction /\ parse ["replay"] = Err (BadAction "replay") /\ parse ["list"] = Err TopicRequired /\
  parse ["list"; "--topic"] = Err (FlagsRefused (FlagNeedsArgument "topic")) /\ parse ["list"; "--Topic=x"] = Err (FlagsRefused (FlagNotDefined "Topic")) /\
  parse ["list"; "--topic=tx.failed.dlq"] = Err (TopicIsDeadLetters "tx.failed.dlq") /\
  parse ["list"; "--topic=t"; "--max=-1"] = Err NegativeMax /\ parse ["list"; "--topic=t"; "--max=ten"] = Err (FlagsRefused (InvalidValue "ten" "max")) /\
  parse ["redrive"; "--topic=t"; "--value-file=f"] = Err ValueFileMisused /\ parse ["list"; "--topic=t"; "--brokers=,"] = Err NoBrokers.
Proof. vm_compute. repeat split. Qed.

(** What follows the first argument that is not a flag is not read: here the limit is,
    without a word, not applied. *)
Lemma flags_after_argument_ignored :
  parseOptions (fun _ => None) ["redrive"; "--topic"; "tx.initiated"; "now"; "--max"; "1"]
  = Ok (options.mk "redrive" "tx.initiated" ["127.0.0.1:9092"] "dlq-redrive" 0 (10 * Second) "").
Proof. reflexivity. Qed.
