(* ===== verification/Publisher.v ===== *)
(** * Publisher: from the outbox table to the broker.

    [Repository.ClaimUnpublished] and [MarkPublished] of [internal/outbox/repo.go]
    with their statements, and [Publisher.PublishBatch] of [publisher.go].  Every
    service that writes events has an [outbox_events] table of its own, so the
    publisher is stated over [OutboxTable], which the wallet, saga and verification
    databases implement.

    The rows that [UPDATE ... RETURNING] gives back come in no promised order: the
    order is a parameter, known to be a permutation. *)

From stdpp Require Import sorting.
From S2P Require Import Prelude GoStrings Domain Json Database Outbox Kafka.

#[local] Open Scope string_scope.
#[local] Open Scope Z_scope.

(** ** The table *)

Class OutboxTable (T : Type) := {
  outbox_rows : T -> list OutboxEvent.t;
  set_outbox_rows : list OutboxEvent.t -> T -> T;
  outbox_clock : T -> time
}.

Class OutboxTableOk (T : Type) `{OutboxTable T} : Prop := {
  outbox_rows_set l t : outbox_rows (set_outbox_rows l t) = l
}.

Class Returning := {
  returning : list OutboxEvent.t -> list OutboxEvent.t;
  returning_perm l : returning l ≡ₚ l
}.

(** What the publisher works on: a service's database and the broker. *)
Record station (T : Type) := Station { store : T; broker : log }.
Arguments Station {T} _ _.
Arguments store {T} _.
Arguments broker {T} _.

Definition unpublished (e : OutboxEvent.t) : Prop := e.(OutboxEvent.PublishedAt) = None.

#[export] Instance unpublished_dec e : Decision (unpublished e).
Proof. unfold unpublished. destruct (OutboxEvent.PublishedAt e); [by right | by left]. Defined.

(** [ORDER BY created_at, id] *)
Definition created_before (e1 e2 : OutboxEvent.t) : Prop :=
  e1.(OutboxEvent.CreatedAt) < e2.(OutboxEvent.CreatedAt) \/
  (e1.(OutboxEvent.CreatedAt) = e2.(OutboxEvent.CreatedAt) /\ (e1.(OutboxEvent.ID) <= e2.(OutboxEvent.ID))%N).

#[export] Instance created_before_dec : RelDecision created_before.
Proof. unfold created_before. solve_decision. Defined.

Section Statements.
Context {T : Type} `{OutboxTable T} `{Returning}.

(** The rows the common table expression locks. *)
Definition claimable (limit : nat) (t : T) : list OutboxEvent.t :=
  take limit (merge_sort created_before (filter unpublished (outbox_rows t))).

Definition stmt_ClaimUnpublished (limit : Z) (t : T) : res error (list OutboxEvent.t * T) :=
  if limit <? 0 then Err PgInvalidLimit
  else
    let ids := OutboxEvent.ID <$> claimable (Z.to_nat limit) t in
    let claim e := if decide (e.(OutboxEvent.ID) ∈ ids)
                   then OutboxEvent.with_ClaimedAt (Some (outbox_clock t)) e else e in
    let rows := claim <$> outbox_rows t in
    Ok (returning (filter (fun e => e.(OutboxEvent.ID) ∈ ids) rows), set_outbox_rows rows t).

Definition stmt_MarkPublished (id : uuid) (t : T) : res error (unit * T) :=
  let mark e := if decide (e.(OutboxEvent.ID) = id)
                then OutboxEvent.with_PublishedAt (Some (outbox_clock t)) e else e in
  Ok (tt, set_outbox_rows (mark <$> outbox_rows t) t).
End Statements.

(** ** The publisher *)

Abbreviation pdb T A := (prog (station T) error A).

Section Publisher.
Context {T : Type} `{OutboxTable T} `{Returning} `{Broker} `{Tracing} `{JsonText}.

Definition on_store {A} (stmt : T -> res error (A * T)) (w : station T) : res error (A * station T) :=
  match stmt (store w) with
  | Ok (a, t) => Ok (a, Station t (broker w))
  | Err e => Err e
  end.

Definition on_broker {A} (stmt : log -> res error (A * log)) (w : station T) : res error (A * station T) :=
  match stmt (broker w) with
  | Ok (a, l) => Ok (a, Station (store w) l)
  | Err e => Err e
  end.

Definition ClaimUnpublished (batchSize : Z) : pdb T (list OutboxEvent.t) :=
  let batchSize := if batchSize <? 1 then 1 else batchSize in
  exec (on_store (stmt_ClaimUnpublished (wrap32 batchSize))).

Definition MarkPublished (id : uuid) : pdb T unit := exec (on_store (stmt_MarkPublished id)).

(** [KafkaProducer.Produce] *)
Definition Produce (topic key value : string) (headers : list (string * string)) : pdb T unit :=
  exec (on_broker (broker_append topic key value headers)).

(** [event.Context] *)
Definition event_Context (ctx : context) (event : OutboxEvent.t) : context :=
  trace_Extract ctx (fun key =>
    if key =s TraceparentHeader then event.(OutboxEvent.Traceparent)
    else if key =s TracestateHeader then event.(OutboxEvent.Tracestate)
    else "").

(** [event.Headers] *)
Definition event_Headers (event : OutboxEvent.t) : list (string * string) :=
  ((if event.(OutboxEvent.Traceparent) =s "" then [] else [(TraceparentHeader, event.(OutboxEvent.Traceparent))]) ++
   (if event.(OutboxEvent.Tracestate) =s "" then [] else [(TracestateHeader, event.(OutboxEvent.Tracestate))]))%list.

Definition record_headers (ctx : context) (event : OutboxEvent.t) : list (string * string) :=
  InjectKafka (trace_Start (event_Context ctx event)) (event_Headers event).

(** The loop over the claimed events: the number published so far is returned with
    the error that stops it. *)
Fixpoint publish_each (ctx : context) (published : Z) (events : list OutboxEvent.t) : pdb T (Z * option error) :=
  match events with
  | [] => ret (published, None)
  | event :: rest =>
      let! produced := attempt (Produce event.(OutboxEvent.Topic) event.(OutboxEvent.PartitionKey)
                                  (json_Marshal event.(OutboxEvent.Payload)) (record_headers ctx event)) in
      match produced with
      | Err e => ret (published, Some e)
      | Ok _ =>
          let! marked := attempt (MarkPublished event.(OutboxEvent.ID)) in
          match marked with
          | Err e => ret (published, Some e)
          | Ok _ => publish_each ctx (wrap64 (published + 1)) rest
          end
      end
  end.

Definition PublishBatch (ctx : context) (batchSize : Z) : pdb T (Z * option error) :=
  let! claimed := attempt (ClaimUnpublished batchSize) in
  match claimed with
  | Err e => ret (0, Some e)
  | Ok events => publish_each ctx 0 events
  end.

(** [NewPublisher]: a batch size that is not positive becomes the default. *)
Definition defaultBatchSize : Z := 100.
Definition publisher_batch (batchSize : Z) : Z := if batchSize <=? 0 then defaultBatchSize else batchSize.

(** [Run], between two ticks: the batches of [schedules], one after the other. *)
Fixpoint run_batches (ctx : context) (batchSize : Z) (schedules : list (list fault)) (w : station T) : station T :=
  match schedules with
  | [] => w
  | s :: rest =>
      run_batches ctx batchSize rest
        (committed (snd (PublishBatch ctx (publisher_batch batchSize) (Conn w None s))))
  end.
End Publisher.

(** ** What the publisher keeps *)

Definition carries `{JsonText} (r : KafkaRecord.t) (e : OutboxEvent.t) : Prop :=
  r.(KafkaRecord.Topic) = e.(OutboxEvent.Topic) /\ r.(KafkaRecord.Key) = e.(OutboxEvent.PartitionKey) /\
  r.(KafkaRecord.Value) = json_Marshal e.(OutboxEvent.Payload).

(** An event's identity, which claiming and marking leave alone. *)
Definition identity : Type := uuid * (string * string * json * string * string).
Definition ident (e : OutboxEvent.t) : identity :=
  (e.(OutboxEvent.ID), (e.(OutboxEvent.Topic), e.(OutboxEvent.PartitionKey), e.(OutboxEvent.Payload),
                        e.(OutboxEvent.Traceparent), e.(OutboxEvent.Tracestate))).

Lemma carries_ident `{JsonText} r e e' : ident e = ident e' -> carries r e -> carries r e'.
Proof. unfold ident, carries. intros [= _ -> -> -> _ _]. done. Qed.

Section Facts.
Context {T : Type} `{OutboxTableOk T} `{Returning} `{Broker} `{Tracing} `{JsonText}.
Implicit Types (w : station T) (t : T).

(** Every event marked as published was accepted by the broker. *)
Record delivered w : Prop := {
  delivered_ids : NoDup (OutboxEvent.ID <$> outbox_rows (store w));
  delivered_records e : e ∈ outbox_rows (store w) -> ~ unpublished e -> exists r, r ∈ broker w /\ carries r e
}.

(** The progress from [w0]: the events of the table are still there, and what the
    broker got since carries events of the table. *)
Record progress w0 w : Prop := {
  progress_rows : exists new, ident <$> outbox_rows (store w) = ((ident <$> outbox_rows (store w0)) ++ new)%list;
  progress_log : exists new, broker w = (broker w0 ++ new)%list /\
    forall r, r ∈ new -> exists e, e ∈ outbox_rows (store w) /\ carries r e
}.

Lemma ident_ids (l l' : list OutboxEvent.t) : ident <$> l = ident <$> l' -> OutboxEvent.ID <$> l = OutboxEvent.ID <$> l'.
Proof.
  intros Hl. assert (forall k : list OutboxEvent.t, OutboxEvent.ID <$> k = fst <$> (ident <$> k)) as Hid.
  { intros k. rewrite <- list_fmap_compose. done. }
  by rewrite !Hid, Hl.
Qed.

Lemma ident_elem (l l' : list OutboxEvent.t) e : ident <$> l = ident <$> l' -> e ∈ l -> exists e', e' ∈ l' /\ ident e' = ident e.
Proof.
  intros Hl He. assert (ident e ∈ ident <$> l') as (e' & ? & ?)%list_elem_of_fmap; [| by exists e'].
  rewrite <- Hl. by apply list_elem_of_fmap_2.
Qed.

Lemma progress_refl w : progress w w.
Proof.
  split; [exists []; by rewrite app_nil_r |]. exists []. rewrite app_nil_r. split; [done |]. set_solver.
Qed.

(** A step that keeps the events and adds records that carry some of them. *)
Lemma progress_step w0 w w' new :
  progress w0 w -> ident <$> outbox_rows (store w') = ident <$> outbox_rows (store w) ->
  broker w' = (broker w ++ new)%list ->
  (forall r, r ∈ new -> exists e, e ∈ outbox_rows (store w) /\ carries r e) -> progress w0 w'.
Proof.
  intros [[rows Hr] (old & Hb & Ho)] Hi Hb' Hn. split; [exists rows; by rewrite Hi |].
  exists (old ++ new)%list. split; [by rewrite Hb', Hb, (assoc_L (++))%list |].
  assert (forall r, r ∈ (old ++ new)%list -> exists e, e ∈ outbox_rows (store w) /\ carries r e) as Hall
    by (intros r [?|?]%elem_of_app; auto).
  intros r (e & He & Hc)%Hall. destruct (ident_elem _ _ e (eq_sym Hi) He) as (e' & ? & Hid).
  exists e'. split; [done |]. by eapply carries_ident.
Qed.

(** One produced and marked event at a time. *)
Definition claimed_ok (events : list OutboxEvent.t) w : Prop :=
  forall e, e ∈ events -> exists row, row ∈ outbox_rows (store w) /\ ident row = ident e.

Lemma mark_ident id (stamp : option time) (l : list OutboxEvent.t) :
  ident <$> ((fun e => if decide (e.(OutboxEvent.ID) = id) then OutboxEvent.with_PublishedAt stamp e else e) <$> l)
  = ident <$> l.
Proof. rewrite <- list_fmap_compose. apply list_fmap_ext. intros i e _. simpl. by case_decide. Qed.

Lemma claim_ident ids (stamp : option time) (l : list OutboxEvent.t) :
  ident <$> ((fun e => if decide (e.(OutboxEvent.ID) ∈ (ids : list uuid))
                       then OutboxEvent.with_ClaimedAt stamp e else e) <$> l)
  = ident <$> l.
Proof. rewrite <- list_fmap_compose. apply list_fmap_ext. intros i e _. simpl. by case_decide. Qed.

(** Two rows with the same identifier are the same event. *)
Lemma same_id w row e :
  delivered w -> row ∈ outbox_rows (store w) -> e ∈ outbox_rows (store w) ->
  row.(OutboxEvent.ID) = e.(OutboxEvent.ID) -> row = e.
Proof.
  intros [Hnd _] (i & Hi)%list_elem_of_lookup (j & Hj)%list_elem_of_lookup Hid.
  assert (i = j) as ->; [| congruence].
  apply (NoDup_lookup _ i j row.(OutboxEvent.ID) Hnd); rewrite list_lookup_fmap.
  - by rewrite Hi.
  - by rewrite Hj, Hid.
Qed.

Lemma produce_triple w0 ctx e rest :
  triple (fun w => delivered w /\ progress w0 w /\ claimed_ok (e :: rest) w)
    (Produce e.(OutboxEvent.Topic) e.(OutboxEvent.PartitionKey) (json_Marshal e.(OutboxEvent.Payload))
       (record_headers ctx e))
    (fun _ w => delivered w /\ progress w0 w /\ claimed_ok (e :: rest) w /\
                exists r, r ∈ broker w /\ carries r e)
    (fun w => delivered w /\ progress w0 w).
Proof.
  eapply triple_refines; [apply (refines_exec _ anywhere) |]. intros w (Hd & Hp & Hc). split; [done |].
  split; [done |]. intros [] w' Hw. unfold on_broker in Hw.
  destruct (broker_append _ _ _ _ _) as [[[] l] |] eqn:Ha; [| done]. injection Hw as <-.
  apply broker_append_ok in Ha as ->.
  set (r := placed _ _ _ _ _). assert (carries r e) as Hr by done.
  destruct (Hc e) as (row & Hrow & Hid); [set_solver |].
  assert (delivered (Station (store w) (broker w ++ [r])%list)) as Hd'.
  { destruct Hd as [Hnd Hall]. split; [done |]. simpl. intros e' He' Hu.
    destruct (Hall e' He' Hu) as (r' & ? & ?). exists r'. set_solver. }
  assert (progress w0 (Station (store w) (broker w ++ [r])%list)) as Hp'.
  { eapply (progress_step _ w); [done | done | done |]. intros r' ->%list_elem_of_singleton. exists row.
    split; [done |]. by eapply carries_ident. }
  split; [| done]. split; [done |]. split; [done |]. split; [done |]. exists r. set_solver.
Qed.

Lemma mark_triple w0 e rest :
  triple (fun w => delivered w /\ progress w0 w /\ claimed_ok (e :: rest) w /\ exists r, r ∈ broker w /\ carries r e)
    (MarkPublished e.(OutboxEvent.ID))
    (fun _ w => delivered w /\ progress w0 w /\ claimed_ok rest w)
    (fun w => delivered w /\ progress w0 w).
Proof.
  eapply triple_refines; [apply (refines_exec _ anywhere) |]. intros w (Hd & Hp & Hc & r & Hr & Hre).
  split; [done |]. split; [done |]. intros [] w' Hw. injection Hw as <-.
  set (mark := fun x : OutboxEvent.t => _). set (w' := Station _ _).
  assert (outbox_rows (store w') = mark <$> outbox_rows (store w)) as Hrows by apply outbox_rows_set.
  assert (ident <$> outbox_rows (store w') = ident <$> outbox_rows (store w)) as Hid
    by (rewrite Hrows; apply mark_ident).
  assert (delivered w') as Hd'.
  { split; [rewrite (ident_ids _ _ Hid); apply Hd |]. rewrite Hrows.
    intros x (y & -> & Hy)%list_elem_of_fmap Hu. unfold mark in *. destruct (Hc e) as (row & Hrow & Hride); [set_solver |].
    case_decide as Heq; [| by apply (delivered_records w Hd)].
    assert (y = row) as -> by (eapply same_id; [done.. |]; injection Hride as ->; done).
    exists r. split; [done |]. by eapply carries_ident. }
  assert (progress w0 w') as Hp'.
  { eapply (progress_step _ w _ []); [done | done | by rewrite app_nil_r | set_solver]. }
  split; [| done]. split; [done |]. split; [done |]. intros x Hx. destruct (Hc x) as (row & Hrow & Hrid); [set_solver |].
  destruct (ident_elem _ _ row (eq_sym Hid) Hrow) as (row' & ? & ?). exists row'. split; [done | congruence].
Qed.

Lemma publish_each_triple w0 ctx events : forall n,
  triple (fun w => delivered w /\ progress w0 w /\ claimed_ok events w)
    (publish_each ctx n events)
    (fun _ w => delivered w /\ progress w0 w) (fun w => delivered w /\ progress w0 w).
Proof.
  induction events as [|e rest IH]; intros n; simpl.
  { apply triple_ret. naive_solver. }
  eapply triple_bind; [apply triple_attempt, (produce_triple w0 ctx e rest) |]. intros [[] | err].
  2: { by apply triple_ret. }
  eapply triple_bind; [apply triple_attempt, (mark_triple w0 e rest) |]. intros [[] | err]; [apply IH |].
  by apply triple_ret.
Qed.

Lemma claim_triple w0 b :
  triple (fun w => delivered w /\ progress w0 w) (ClaimUnpublished b)
    (fun events w => delivered w /\ progress w0 w /\ claimed_ok events w)
    (fun w => delivered w /\ progress w0 w).
Proof.
  eapply triple_refines; [apply (refines_exec _ anywhere) |]. intros w (Hd & Hp).
  split; [done |]. split; [done |]. intros events w' Hw. unfold on_store, stmt_ClaimUnpublished in Hw.
  destruct (_ <? 0); [done |]. injection Hw as <- <-.
  set (ids := OutboxEvent.ID <$> _). set (claim := fun x : OutboxEvent.t => _). set (w' := Station _ _).
  assert (outbox_rows (store w') = claim <$> outbox_rows (store w)) as Hrows by apply outbox_rows_set.
  assert (ident <$> outbox_rows (store w') = ident <$> outbox_rows (store w)) as Hid
    by (rewrite Hrows; apply claim_ident).
  assert (delivered w') as Hd'.
  { split; [rewrite (ident_ids _ _ Hid); apply Hd |]. rewrite Hrows. intros x (y & -> & Hy)%list_elem_of_fmap Hu.
    unfold claim in *. destruct (delivered_records w Hd y Hy) as (r & Hr & Hc); [by case_decide |].
    exists r. split; [done |]. by case_decide. }
  assert (progress w0 w') as Hp'.
  { eapply (progress_step _ w _ []); [done | done | by rewrite app_nil_r | set_solver]. }
  split; [| done]. split; [done |]. split; [done |]. intros e He.
  rewrite returning_perm in He. apply list_elem_of_filter in He as [_ He]. exists e. by rewrite Hrows.
Qed.

Lemma statement_keeps {A} (Q : T -> Prop) (stmt : station T -> res error (A * station T)) :
  (forall w a w', Q (store w) -> stmt w = Ok (a, w') -> Q (store w')) ->
  triple (fun w => Q (store w)) (attempt (exec stmt)) (fun _ w => Q (store w)) (fun w => Q (store w)).
Proof.
  intros HQ. eapply triple_conseq.
  - apply (triple_attempt _ (fun w => Q (store w)) (fun _ w => Q (store w)) (fun w => Q (store w)) (fun w => Q (store w))).
    eapply (triple_refines _ _ anywhere); [apply refines_exec |]. intros w Hw. split; [done |]. split; [exact Hw |].
    intros a w' Hs. split; by eapply HQ.
  - done.
  - by intros [].
  - done.
Qed.

(** What does not depend on the two stamps of an event is kept by a batch. *)
Lemma batch_keeps (Q : T -> Prop) ctx b :
  (forall t l, Q t -> ident <$> l = ident <$> outbox_rows t -> Q (set_outbox_rows l t)) ->
  triple (fun w => Q (store w)) (PublishBatch ctx b) (fun _ w => Q (store w)) (fun w => Q (store w)).
Proof.
  intros HQ. eapply triple_bind.
  { apply (statement_keeps Q). intros w events w' Hw Hs. unfold on_store, stmt_ClaimUnpublished in Hs.
    destruct (_ <? 0); [done |]. injection Hs as <- <-. apply HQ; [done | apply claim_ident]. }
  intros [events | e]; [| by apply triple_ret]. generalize 0 as n.
  induction events as [|e rest IH]; intros n; simpl; [by apply triple_ret |]. eapply triple_bind.
  { apply (statement_keeps Q). intros w [] w' Hw Hs. unfold on_broker in Hs.
    destruct (broker_append _ _ _ _ _) as [[[] l] |]; [| done]. by injection Hs as <-. }
  intros [[] | err]; [| by apply triple_ret]. eapply triple_bind.
  { apply (statement_keeps Q). intros w [] w' Hw Hs. injection Hs as <-. apply HQ; [done | apply mark_ident]. }
  intros [[] | err]; [apply IH | by apply triple_ret].
Qed.

Lemma batch_triple w0 ctx b :
  triple (fun w => delivered w /\ progress w0 w) (PublishBatch ctx b)
    (fun _ w => delivered w /\ progress w0 w) (fun w => delivered w /\ progress w0 w).
Proof.
  eapply triple_bind; [apply triple_attempt, claim_triple |]. intros [events | e]; [apply publish_each_triple |].
  by apply triple_ret.
Qed.
End Facts.

(** ** Runs of a service and its publisher *)

Section Runs.
Context {T : Type} `{OutboxTableOk T} `{Returning} `{Broker} `{Tracing} `{JsonText}.
Implicit Types (w : station T) (t : T).

(** What a service's own transactions do to the table: they add events. *)
Definition appends t t' : Prop :=
  exists new, outbox_rows t' = (outbox_rows t ++ new)%list /\ Forall unpublished new /\
    NoDup (OutboxEvent.ID <$> outbox_rows t').

Inductive publishing w0 : station T -> Prop :=
| publishing_start : publishing w0 w0
| publishing_batch w ctx batch s :
    publishing w0 w -> publishing w0 (committed (snd (PublishBatch ctx batch (Conn w None s))))
| publishing_write w t' :
    publishing w0 w -> appends (store w) t' -> publishing w0 (Station t' (broker w)).

Lemma publishing_keeps w0 w : delivered w0 -> publishing w0 w -> delivered w /\ progress w0 w.
Proof.
  intros Hstart. induction 1 as [| w ctx batch s _ IH | w t' _ [Hd Hp] (new & Hrows & Hnew & Hnd)].
  - split; [done | apply progress_refl].
  - destruct (wp_elim _ _ _ (batch_triple w0 ctx batch w s IH)) as [_ Hr]. by destruct (fst _).
  - split.
    + split; [exact Hnd |]. simpl. rewrite Hrows. intros e [He | He]%elem_of_app Hu; [by apply (delivered_records w Hd) |].
      rewrite list.Forall_forall in Hnew. destruct (Hu (Hnew e He)).
    + destruct Hp as [[rows Hr] (old & Hb & Ho)]. split; simpl.
      * exists (rows ++ (ident <$> new))%list. by rewrite Hrows, fmap_app, Hr, (assoc_L (++))%list.
      * exists old. split; [done |]. intros r (e & He & ?)%Ho. exists e. rewrite Hrows. set_solver.
Qed.

(** ** Draining *)

(** The events still to publish. *)
Definition pending t : list identity := ident <$> filter unpublished (outbox_rows t).

(** A broker that takes the event whatever its log holds. *)
Definition accepted (ctx : context) (e : OutboxEvent.t) : Prop :=
  forall l, broker_refuses (placed e.(OutboxEvent.Topic) e.(OutboxEvent.PartitionKey)
                              (json_Marshal e.(OutboxEvent.Payload)) (record_headers ctx e) l) = None.

Lemma accepted_ident ctx e e' : ident e = ident e' -> accepted ctx e -> accepted ctx e'.
Proof.
  unfold ident, accepted, record_headers, event_Context, event_Headers. by intros [= _ -> -> -> -> ->].
Qed.

Lemma pending_mark id stamp (l : list OutboxEvent.t) :
  ident <$> filter unpublished ((fun e => if decide (e.(OutboxEvent.ID) = id)
                                          then OutboxEvent.with_PublishedAt (Some stamp) e else e) <$> l)
  = filter (fun k => k.1 <> id) (ident <$> filter unpublished l).
Proof.
  induction l as [|e l IH]; [done |]. rewrite fmap_cons, !filter_cons.
  destruct (decide (e.(OutboxEvent.ID) = id)) as [He | He].
  - rewrite (decide_False (P := unpublished (OutboxEvent.with_PublishedAt _ _))) by done. rewrite IH.
    case_decide; [| done]. rewrite fmap_cons, filter_cons, decide_False; [done |]. naive_solver.
  - case_decide; [| done]. rewrite !fmap_cons, filter_cons, decide_True by done. by rewrite IH.
Qed.

Lemma pending_claim ids stamp (l : list OutboxEvent.t) :
  ident <$> filter unpublished ((fun e => if decide (e.(OutboxEvent.ID) ∈ (ids : list uuid))
                                          then OutboxEvent.with_ClaimedAt stamp e else e) <$> l)
  = ident <$> filter unpublished l.
Proof.
  induction l as [|e l IH]; [done |]. rewrite fmap_cons, !filter_cons.
  destruct (decide (e.(OutboxEvent.ID) ∈ ids)).
  - destruct (decide (unpublished e)) as [Hu | Hu].
    + rewrite decide_True by done. rewrite !fmap_cons. by rewrite IH.
    + rewrite decide_False by done. apply IH.
  - case_decide; [| done]. rewrite !fmap_cons. by rewrite IH.
Qed.

Lemma publish_each_yields ctx events : forall w n,
  Forall (accepted ctx) events -> 0 <= n -> n + Z.of_nat (length events) < 2 ^ 63 ->
  exists w' new,
    yields (publish_each ctx n events) w (Ok (n + Z.of_nat (length events), None)) w' /\
    pending (store w') = filter (fun k => k.1 ∉ (OutboxEvent.ID <$> events)) (pending (store w)) /\
    ident <$> outbox_rows (store w') = ident <$> outbox_rows (store w) /\
    broker w' = (broker w ++ new)%list /\ Forall2 carries new events.
Proof.
  induction events as [|e rest IH]; intros w n Hacc Hn Hlen; simpl.
  - exists w, []. rewrite Z.add_0_r, app_nil_r. split; [done |]. split; [| by repeat constructor].
    symmetry. apply filter_all. set_solver.
  - apply list.Forall_cons in Hacc as [He Hacc]. simpl in Hlen.
    set (r := placed e.(OutboxEvent.Topic) e.(OutboxEvent.PartitionKey) (json_Marshal e.(OutboxEvent.Payload))
                (record_headers ctx e) (broker w)).
    set (w1 := Station (store w) (broker w ++ [r])%list).
    set (t2 := set_outbox_rows ((fun x => if decide (x.(OutboxEvent.ID) = e.(OutboxEvent.ID))
                 then OutboxEvent.with_PublishedAt (Some (outbox_clock (store w))) x else x) <$> outbox_rows (store w))
                 (store w)).
    edestruct (IH (Station t2 (broker w1)) (n + 1)) as (w' & new & Hrun & Hpend & Hid & Hb & Hc); [done | lia | lia |].
    exists w', (r :: new). split.
    + eapply yields_bind; [apply yields_attempt, yields_exec |].
      { unfold on_broker, broker_append. by rewrite He. }
      simpl. eapply yields_bind; [apply yields_attempt, yields_exec; done |]. simpl.
      rewrite wrap64_id by (unfold int64; lia).
      replace (n + Z.of_nat (S (length rest))) with (n + 1 + Z.of_nat (length rest)) by lia. exact Hrun.
    + rewrite Hpend, Hid, Hb. unfold pending, t2. cbn [store broker]. rewrite outbox_rows_set, pending_mark, mark_ident.
      rewrite list_filter_filter. split; [| split; [done |]; split; [unfold w1; cbn [broker]; by rewrite <- app_assoc | by constructor]].
      apply list_filter_iff. intros k. set_solver.
Qed.

Lemma claimable_perm limit t :
  filter unpublished (outbox_rows t) ≡ₚ
    (claimable limit t ++ drop limit (merge_sort created_before (filter unpublished (outbox_rows t))))%list.
Proof. unfold claimable. rewrite take_drop. symmetry. apply merge_sort_Permutation. Qed.

Lemma claimable_rows limit t e : e ∈ claimable limit t -> e ∈ outbox_rows t /\ unpublished e.
Proof.
  intros He. assert (e ∈ filter unpublished (outbox_rows t)) as [? ?]%list_elem_of_filter; [| done].
  rewrite (claimable_perm limit t). set_solver.
Qed.

(** The rows with the claimed identifiers are the claimed rows. *)
Lemma claimed_rows limit t :
  NoDup (OutboxEvent.ID <$> outbox_rows t) ->
  filter (fun e => e.(OutboxEvent.ID) ∈ OutboxEvent.ID <$> claimable limit t) (outbox_rows t) ≡ₚ claimable limit t.
Proof.
  intros Hnd. pose proof (NoDup_fmap_1 _ _ Hnd) as Hnd'. apply NoDup_Permutation.
  - by apply list.NoDup_filter.
  - assert (NoDup (filter unpublished (outbox_rows t))) as Hf by by apply list.NoDup_filter.
    rewrite (claimable_perm limit t) in Hf. by apply list.NoDup_app in Hf as [? _].
  - intros e. rewrite list_elem_of_filter. split.
    + intros [(e' & Hid & He')%list_elem_of_fmap He]. destruct (claimable_rows _ _ _ He') as [Hr _].
      assert (e = e') as ->; [| done]. apply list_elem_of_lookup in He as [i Hi]. apply list_elem_of_lookup in Hr as [j Hj].
      assert (i = j) as ->; [| congruence].
      apply (NoDup_lookup _ i j e.(OutboxEvent.ID) Hnd); rewrite list_lookup_fmap; [by rewrite Hi | by rewrite Hj, Hid].
    + intros He. split; [by apply list_elem_of_fmap_2 | by apply (claimable_rows limit)].
Qed.

Lemma filter_ident ids (claim : OutboxEvent.t -> OutboxEvent.t) (l : list OutboxEvent.t) :
  (forall e, ident (claim e) = ident e) ->
  ident <$> filter (fun e => e.(OutboxEvent.ID) ∈ (ids : list uuid)) (claim <$> l)
  = ident <$> filter (fun e => e.(OutboxEvent.ID) ∈ ids) l.
Proof.
  intros Hc. induction l as [|e l IH]; [done |]. rewrite fmap_cons, !filter_cons.
  assert ((claim e).(OutboxEvent.ID) = e.(OutboxEvent.ID)) as -> by (pose proof (Hc e); unfold ident in *; congruence).
  case_decide; [| done]. rewrite !fmap_cons. by rewrite Hc, IH.
Qed.

Lemma claim_yields batch w :
  NoDup (OutboxEvent.ID <$> outbox_rows (store w)) -> 1 <= batch < 2 ^ 31 ->
  exists w' events,
    yields (ClaimUnpublished batch) w (Ok events) w' /\
    ident <$> events ≡ₚ ident <$> claimable (Z.to_nat batch) (store w) /\
    pending (store w') = pending (store w) /\
    ident <$> outbox_rows (store w') = ident <$> outbox_rows (store w) /\ broker w' = broker w.
Proof.
  intros Hnd Hb. set (ids := OutboxEvent.ID <$> claimable (Z.to_nat batch) (store w)).
  set (claim e := if decide (e.(OutboxEvent.ID) ∈ ids)
                  then OutboxEvent.with_ClaimedAt (Some (outbox_clock (store w))) e else e).
  exists (Station (set_outbox_rows (claim <$> outbox_rows (store w)) (store w)) (broker w)),
    (returning (filter (fun e => e.(OutboxEvent.ID) ∈ ids) (claim <$> outbox_rows (store w)))).
  split; [| cbn [store broker]; unfold pending; rewrite outbox_rows_set; split;
    [| split; [apply pending_claim | split; [apply claim_ident | done]]]].
  - apply yields_exec. unfold on_store, stmt_ClaimUnpublished.
    rewrite (proj2 (Z.ltb_ge batch 1)) by lia. rewrite wrap32_id by (unfold int32; lia).
    by rewrite (proj2 (Z.ltb_ge batch 0)) by lia.
  - rewrite returning_perm, filter_ident by (intros e; unfold claim; by case_decide). unfold ids. by rewrite claimed_rows.
Qed.

Lemma pending_claimed limit t (ids : list uuid) :
  NoDup (OutboxEvent.ID <$> outbox_rows t) -> ids ≡ₚ OutboxEvent.ID <$> claimable limit t ->
  filter (fun k => k.1 ∈ ids) (pending t) ≡ₚ ident <$> claimable limit t.
Proof.
  intros Hnd Hids. unfold pending. rewrite filter_fmap. f_equiv.
  rewrite (list_filter_iff _ (fun e => e.(OutboxEvent.ID) ∈ OutboxEvent.ID <$> claimable limit t))
    by (intros e; simpl; by rewrite Hids).
  transitivity (filter unpublished
    (filter (fun e => e.(OutboxEvent.ID) ∈ OutboxEvent.ID <$> claimable limit t) (outbox_rows t))).
  { rewrite !list_filter_filter. erewrite list_filter_iff; [done |]. tauto. }
  rewrite claimed_rows by done. rewrite filter_all; [done |]. intros e He. by apply (claimable_rows limit t).
Qed.

(** One batch: the claimed events leave [pending] and reach the broker. *)
Lemma batch_yields ctx batch w :
  NoDup (OutboxEvent.ID <$> outbox_rows (store w)) -> 1 <= batch < 2 ^ 31 ->
  (forall e, e ∈ outbox_rows (store w) -> accepted ctx e) ->
  exists w' events new,
    yields (PublishBatch ctx batch) w (Ok (Z.of_nat (length events), None)) w' /\
    pending (store w) ≡ₚ ((ident <$> events) ++ pending (store w'))%list /\
    length events = Nat.min (Z.to_nat batch) (length (pending (store w))) /\
    ident <$> outbox_rows (store w') = ident <$> outbox_rows (store w) /\
    broker w' = (broker w ++ new)%list /\ Forall2 carries new events.
Proof.
  intros Hnd Hb Hacc. destruct (claim_yields batch w Hnd Hb) as (w1 & events & Hclaim & Hev & Hp1 & Hi1 & Hb1).
  assert (length events = Nat.min (Z.to_nat batch) (length (pending (store w)))) as Hlen.
  { apply Permutation_length in Hev. rewrite !length_fmap in Hev. rewrite Hev. unfold claimable, pending.
    rewrite length_take, length_fmap. by rewrite (Permutation_length (merge_sort_Permutation _ _)). }
  assert (OutboxEvent.ID <$> events ≡ₚ OutboxEvent.ID <$> claimable (Z.to_nat batch) (store w)) as Hids.
  { assert (forall k : list OutboxEvent.t, OutboxEvent.ID <$> k = fst <$> (ident <$> k)) as Hid
      by (intros k; by rewrite <- list_fmap_compose).
    rewrite !Hid. by rewrite Hev. }
  destruct (publish_each_yields ctx events w1 0) as (w2 & new & Hrun & Hp2 & Hi2 & Hb2 & Hc).
  - rewrite list.Forall_forall. intros e He.
    assert (ident e ∈ ident <$> claimable (Z.to_nat batch) (store w)) as (e' & Heq & He')%list_elem_of_fmap
      by (rewrite <- Hev; by apply list_elem_of_fmap_2).
    eapply accepted_ident; [symmetry; exact Heq |]. by apply Hacc, (claimable_rows (Z.to_nat batch)).
  - lia.
  - lia.
  - exists w2, events, new. split; [by eapply yields_bind; [apply yields_attempt, Hclaim |] |].
    split; [| split; [done |]; split; [by rewrite Hi2 | by rewrite Hb2, Hb1]].
    rewrite Hp2, Hp1, Hev. transitivity
      (filter (fun k => k.1 ∈ OutboxEvent.ID <$> events) (pending (store w)) ++
       filter (fun k => k.1 ∉ OutboxEvent.ID <$> events) (pending (store w)))%list.
    { symmetry. apply filter_app_complement. }
    f_equiv. by apply pending_claimed.
Qed.

Lemma batches_drain ctx batch k : forall w,
  NoDup (OutboxEvent.ID <$> outbox_rows (store w)) -> 1 <= batch < 2 ^ 31 ->
  (forall e, e ∈ outbox_rows (store w) -> accepted ctx e) ->
  let w' := run_batches ctx batch (replicate k []) w in
  exists events new,
    pending (store w) ≡ₚ ((ident <$> events) ++ pending (store w'))%list /\
    length (pending (store w')) = (length (pending (store w)) - k * Z.to_nat batch)%nat /\
    ident <$> outbox_rows (store w') = ident <$> outbox_rows (store w) /\
    broker w' = (broker w ++ new)%list /\ Forall2 carries new events.
Proof.
  induction k as [|k IH]; intros w Hnd Hb Hacc; simpl.
  - exists [], []. rewrite app_nil_r, Nat.sub_0_r. by repeat constructor.
  - unfold publisher_batch. rewrite (proj2 (Z.leb_gt batch 0)) by lia.
    destruct (batch_yields ctx batch w Hnd Hb Hacc) as (w1 & ev1 & new1 & Hrun & Hp1 & Hl1 & Hi1 & Hb1 & Hc1).
    rewrite Hrun. cbn [snd committed].
    destruct (IH w1) as (ev2 & new2 & Hp2 & Hl2 & Hi2 & Hb2 & Hc2).
    + by rewrite (ident_ids _ _ Hi1).
    + done.
    + intros e He. destruct (ident_elem _ _ e Hi1 He) as (e' & He' & Hid).
      eapply accepted_ident; [exact Hid |]. by apply Hacc.
    + exists (ev1 ++ ev2)%list, (new1 ++ new2)%list. split; [| split; [| split; [congruence |]; split]].
      * by rewrite Hp1, Hp2, fmap_app, (assoc_L (++))%list.
      * apply Permutation_length in Hp1. rewrite length_app, length_fmap in Hp1. lia.
      * by rewrite Hb2, Hb1, (assoc_L (++))%list.
      * by apply Forall2_app.
Qed.

(** C23: the publisher drains the outbox: with nothing lost and a broker that takes
    the events, enough batches (their number times the batch size reaches the number
    of unpublished events) leave every event of the table published, and the broker
    got exactly one record for each event that was waiting. *)
Theorem publisher_drains ctx batch k w :
  let w' := run_batches ctx batch (replicate k []) w in
  NoDup (OutboxEvent.ID <$> outbox_rows (store w)) -> 1 <= batch < 2 ^ 31 ->
  (forall e, e ∈ outbox_rows (store w) -> accepted ctx e) ->
  (length (filter unpublished (outbox_rows (store w))) <= k * Z.to_nat batch)%nat ->
  (forall e, e ∈ outbox_rows (store w') -> ~ unpublished e) /\
  exists events new,
    ident <$> events ≡ₚ pending (store w) /\ broker w' = (broker w ++ new)%list /\ Forall2 carries new events.
Proof.
  intros w' Hnd Hb Hacc Hk.
  destruct (batches_drain ctx batch k w Hnd Hb Hacc) as (events & new & Hp & Hl & _ & Hbr & Hc). fold w' in Hp, Hl, Hbr.
  assert (pending (store w') = []) as Hnil.
  { apply nil_length_inv. rewrite Hl. unfold pending. rewrite length_fmap. lia. }
  split.
  - intros e He Hu. assert (e ∈ filter unpublished (outbox_rows (store w'))) as Hin by by apply list_elem_of_filter.
    apply (list_elem_of_fmap_2 ident) in Hin. unfold pending in Hnil. rewrite Hnil in Hin. set_solver.
  - exists events, new. rewrite Hnil, app_nil_r in Hp. by rewrite <- Hp.
Qed.
End Runs.
