(* ===== verification/Fixtures.v ===== *)
(** * Fixtures: a concrete server and a small database.

    The parameters of the model given concrete values, and tables with two
    wallets, on which the theorems are exercised. *)

From stdpp Require Import pretty.
From S2P Require Import Prelude GoStrings Domain Json Database Outbox.

#[local] Open Scope string_scope.
#[local] Open Scope Z_scope.

(** Identifiers counted from 1. *)
#[export] Instance demo_server : Postgres := fun n => (N.of_nat n + 1)%N.

#[export] Instance demo_server_ok : PostgresOk.
Proof. split; unfold gen_random_uuid, demo_server, uuid_Nil; lia. Qed.

(** Identifiers written in decimal and read back up to 64. *)
#[export] Instance demo_uuid : Uuid := {
  uuid_String := pretty;
  uuid_Parse s := List.find (fun u => pretty u =s s) (N.of_nat <$> seq 0 65)
}.

Definition alice : uuid := 32%N.
Definition bob : uuid := 33%N.

(** Alice's wallet is 1 and holds 10.00, Bob's is 2 and is empty. *)
Definition open_wallet (userID : uuid) (t : tables) : tables :=
  used (with_wallets (<[fresh t := Wallet.mk (fresh t) userID 0 DefaultCurrency (now t) (now t)]> (wallets t)) t).

Definition two_wallets : tables :=
  set_balance 1%N 1000 (open_wallet bob (open_wallet alice (empty_tables 10))).

Lemma two_wallets_wf : wf two_wallets.
Proof.
  unfold two_wallets. eapply wf_set_balance; [| by vm_compute | lia].
  apply wf_add_wallet; [| done | done]. apply wf_add_wallet; [| done | done]. apply wf_empty.
Qed.

Definition balance_of (id : uuid) (t : tables) : option Z := Wallet.Balance <$> wallets t !! id.

(** One granted request and five ticks of the clock. *)
Definition played {A} (t : tables) (q : tables -> res error (A * tables)) : tables :=
  match q t with Ok (_, t') => with_now (now t' + 5) t' | Err _ => t end.

Lemma played_wf {A} t (q : tables -> res error (A * tables)) :
  wf t -> (forall a t', wf t -> q t = Ok (a, t') -> wf t') -> wf (played t q).
Proof.
  intros Hwf Hq. unfold played. destruct (q t) as [[a t'] |]; [| done].
  apply wf_with_now. by eapply Hq.
Qed.
