(* ===== verification/JsonExamples.v ===== *)
(** * JsonExamples: a text for every document.

    A concrete [JsonText] whose texts are read back, so that theorems stated for any
    such codec can be evaluated: a document is written as the binary code of its
    tree, which is not what [encoding/json] writes. *)

From Stdlib Require Import SpecFloat.
From stdpp Require Import countable.
From S2P Require Import Prelude GoStrings Domain Json.

#[local] Set Warnings "-register-all".
#[local] Open Scope string_scope.
#[local] Open Scope Z_scope.

#[export] Instance float64_countable : Countable float64.
Proof.
  refine (inj_countable
    (fun x => match x with
              | S754_zero s => inl (inl s)
              | S754_infinity s => inl (inr s)
              | S754_nan => inr (inl tt)
              | S754_finite s m e => inr (inr (s, m, e))
              end)
    (fun x => Some match x with
              | inl (inl s) => S754_zero s
              | inl (inr s) => S754_infinity s
              | inr (inl tt) => S754_nan
              | inr (inr (s, m, e)) => S754_finite s m e
              end) _).
  by intros [].
Defined.

(** Leaves of a document. *)
Definition leaf : Type := option (bool + Z + float64 + string + (time * unit)).

Fixpoint tree_of (j : json) : gen_tree leaf :=
  match j with
  | JNull => GenLeaf None
  | JBool b => GenLeaf (Some (inl (inl (inl (inl b)))))
  | JInt z => GenLeaf (Some (inl (inl (inl (inr z)))))
  | JFloat x => GenLeaf (Some (inl (inl (inr x))))
  | JString s => GenLeaf (Some (inl (inr s)))
  | JTime t => GenLeaf (Some (inr (t, tt)))
  | JArray l => GenNode 0 (tree_of <$> l)
  | JObject l => GenNode 1 ((fun kv => GenNode 2 [GenLeaf (Some (inl (inr kv.1))); tree_of kv.2]) <$> l)
  end.

Fixpoint of_tree (t : gen_tree leaf) : json :=
  match t with
  | GenLeaf None => JNull
  | GenLeaf (Some (inl (inl (inl (inl b))))) => JBool b
  | GenLeaf (Some (inl (inl (inl (inr z))))) => JInt z
  | GenLeaf (Some (inl (inl (inr x)))) => JFloat x
  | GenLeaf (Some (inl (inr s))) => JString s
  | GenLeaf (Some (inr (t, _))) => JTime t
  | GenNode 0 l => JArray (of_tree <$> l)
  | GenNode _ l =>
      JObject ((fun kv => match kv with
                          | GenNode _ [GenLeaf (Some (inl (inr k))); v] => (k, of_tree v)
                          | _ => ("", JNull)
                          end) <$> l)
  end.

Lemma of_tree_of : forall j, of_tree (tree_of j) = j.
Proof.
  fix IH 1. intros []; simpl; try done.
  - f_equal. induction l as [|x l IHl]; [done |]. simpl. f_equal; [apply IH | apply IHl].
  - f_equal. induction fields as [|[k v] l IHl]; [done |]. simpl. f_equal; [f_equal; apply IH | apply IHl].
Qed.

Definition zero_bit : Ascii.ascii := Ascii.ascii_of_N 48.
Definition one_bit : Ascii.ascii := Ascii.ascii_of_N 49.

(** A positive number as a string of its bits, and back. *)
Fixpoint bits_of (p : positive) : string :=
  match p with
  | xH => ""
  | xO p => String zero_bit (bits_of p)
  | xI p => String one_bit (bits_of p)
  end.

Fixpoint of_bits (s : string) : option positive :=
  match s with
  | EmptyString => Some xH
  | String c s =>
      p ← of_bits s;
      if Ascii.eqb c zero_bit then Some (xO p) else if Ascii.eqb c one_bit then Some (xI p) else None
  end.

Lemma of_bits_of p : of_bits (bits_of p) = Some p.
Proof. induction p as [p IH | p IH |]; cbn [bits_of of_bits]; rewrite ?IH; reflexivity. Qed.

#[export] Instance demo_json : JsonText := {
  json_Marshal j := String one_bit (bits_of (encode (tree_of j)));
  json_Unmarshal s := match s with
                      | EmptyString => None
                      | String _ s' => p ← of_bits s'; of_tree <$> decode p
                      end;
  json_Error e := match e with JsonSyntax => "syntax" | JsonType name => "type of " ++ name end
}.

#[export] Instance demo_json_ok : JsonTextOk.
Proof.
  split; [| done]. intros j _. unfold json_Unmarshal, json_Marshal, demo_json. rewrite of_bits_of. simpl.
  rewrite decode_encode. simpl. by rewrite of_tree_of.
Qed.

Example demo_text :
  json_Unmarshal (json_Marshal (JObject [("payment_id", JString "p1"); ("amount_cents", JInt 300); ("at", JTime 5)]))
  = Some (JObject [("payment_id", JString "p1"); ("amount_cents", JInt 300); ("at", JTime 5)]).
Proof. vm_compute. reflexivity. Qed.
