(* ===== verification/WalletRepo.v ===== *)
(** * WalletRepo: the wallet side of [internal/repo/wallets.go].

    The transactions that move money: [CreateTransfer] between two wallets, and
    the saga's [DebitForSaga] and [CompensateDebit].  Each is written in the
    order of the source, with its transaction, its locks and its reads; a pure
    contract ([transfer_spec], [debit_spec], [compensate_spec]) says what it does
    to the tables, and a refinement theorem relates the two under every fault
    schedule. *)

From stdpp Require Import sorting.
From S2P Require Import Prelude GoStrings Domain Json Database Outbox Fixtures.

#[local] Open Scope string_scope.
#[local] Open Scope Z_scope.

Definition is_no_rows (e : error) : bool := bool_decide (e = PgNoRows).
Definition isUniqueViolation (e : error) : bool := bool_decide (e = PgUniqueViolation).

(** ** Operations *)

Section Operations.
Context `{Postgres} `{Uuid}.

Definition CreateWallet (userID : uuid) (currency : string) : db Wallet.t :=
  exec (stmt_CreateWallet userID currency).

Definition GetWallet (id : uuid) : db Wallet.t :=
  let! r := attempt (query (q_GetWallet id)) in
  match r with
  | Ok w => ret w
  | Err e => if is_no_rows e then throw ErrNotFound else throw e
  end.

(** Both wallets locked in id order, as a map by wallet id. *)
Definition lockWallets (firstID secondID : uuid) : db (gmap uuid Wallet.t) :=
  let ids := if (secondID <? firstID)%N then [secondID; firstID] else [firstID; secondID] in
  let! rows := query (q_LockWalletsForTransfer ids) in
  ret (foldl (fun m w => <[w.(Wallet.ID) := w]> m) ∅ rows).

(** The wallet locked, or the zero wallet when there is none. *)
Definition lockWallet (id : uuid) : db Wallet.t :=
  let! r := attempt (query (q_GetWallet id)) in
  match r with
  | Ok w => ret w
  | Err e => if is_no_rows e then ret Wallet.zero else throw e
  end.

Definition getSagaWalletOperation (paymentID : uuid) (operation : string) : db SagaWalletOperation.t :=
  query (q_GetSagaWalletOperation paymentID operation).

(** [event.MarshalTransactionInitiated] *)
Definition MarshalTransactionInitiated (transfer : Transfer.t) (currency : string) : json :=
  JObject [
    ("transfer_id", JString (uuid_String transfer.(Transfer.ID)));
    ("from_wallet_id", JString (uuid_String transfer.(Transfer.FromWalletID)));
    ("to_wallet_id", JString (uuid_String transfer.(Transfer.ToWalletID)));
    ("amount_cents", JInt transfer.(Transfer.Amount));
    ("currency", JString currency);
    ("initiated_at", JTime transfer.(Transfer.CreatedAt))].

Definition TransactionInitiatedTopic : string := "tx.initiated".

Definition CreateTransfer (outboxTopic : string) (ctx : context) (userID fromWalletID toWalletID : uuid)
    (amount : Z) : db Transfer.t :=
  guard (amount <=? 0) ErrInvalidAmount ;!
  guard (bool_decide (fromWalletID = toWalletID)) ErrInvalidTransfer ;!
  begin ;!
  deferred_rollback (
    let! locked := lockWallets fromWalletID toWalletID in
    match locked !! fromWalletID with
    | None => throw ErrNotFound
    | Some from =>
        guard (negb (bool_decide (from.(Wallet.UserID) = userID))) ErrNotFound ;!
        match locked !! toWalletID with
        | None => throw ErrNotFound
        | Some to =>
            guard (negb (from.(Wallet.Currency) =s to.(Wallet.Currency))) ErrCurrencyMismatch ;!
            let! from := lift (Debit from amount) in
            let! to := lift (Credit to amount) in
            exec (stmt_UpdateWalletBalance from.(Wallet.ID) from.(Wallet.Balance)) ;!
            exec (stmt_UpdateWalletBalance to.(Wallet.ID) to.(Wallet.Balance)) ;!
            let! transfer := exec (stmt_CreateTransfer fromWalletID toWalletID amount) in
            let payload := MarshalTransactionInitiated transfer from.(Wallet.Currency) in
            let topic := if outboxTopic =s "" then TransactionInitiatedTopic else outboxTopic in
            Enqueue ctx topic (uuid_String from.(Wallet.ID)) payload ;!
            commit ;!
            ret (Transfer.with_ToBalance to.(Wallet.Balance)
                (Transfer.with_FromBalance from.(Wallet.Balance) transfer))
        end
    end).

(** [if existing, err := getSagaWalletOperation(...); err == nil { commit; return
    existing } else if !errors.Is(err, pgx.ErrNoRows) { return err }] before [k]. *)
Definition return_existing (paymentID : uuid) (operation : string)
    (k : db SagaWalletOperation.t) : db SagaWalletOperation.t :=
  let! r := attempt (getSagaWalletOperation paymentID operation) in
  match r with
  | Ok existing => commit ;! ret existing
  | Err e => if is_no_rows e then k else throw e
  end.

(** The end of both saga operations: record the operation; on a unique violation
    roll back and answer with the recorded operation of the payment. *)
Definition record_operation (paymentID : uuid) (operation idempotencyKey : string) (walletID : uuid)
    (amountCents : Z) (currency : string) (balanceAfter : Z) : db SagaWalletOperation.t :=
  let! r := attempt (exec (stmt_CreateSagaWalletOperation paymentID operation idempotencyKey walletID
                             amountCents currency SagaWalletOperationCompleted balanceAfter)) in
  match r with
  | Err e =>
      if isUniqueViolation e then
        rollback ;!
        let! looked := attempt (getSagaWalletOperation paymentID operation) in
        match looked with
        | Ok existing => ret existing
        | Err lookupErr => if is_no_rows lookupErr then throw ErrInvalidTransfer else throw lookupErr
        end
      else throw e
  | Ok created => commit ;! ret created
  end.

Definition DebitForSaga (cmd : SagaDebitCommand.t) : db SagaWalletOperation.t :=
  guard (bool_decide (cmd.(SagaDebitCommand.PaymentID) = uuid_Nil)
         || bool_decide (cmd.(SagaDebitCommand.FromWalletID) = uuid_Nil)
         || (cmd.(SagaDebitCommand.IdempotencyKey) =s "")) ErrInvalidTransfer ;!
  guard (cmd.(SagaDebitCommand.AmountCents) <=? 0) ErrInvalidAmount ;!
  lift (NormalizeCurrency cmd.(SagaDebitCommand.Currency)) ;!
  begin ;!
  deferred_rollback (
    return_existing cmd.(SagaDebitCommand.PaymentID) SagaWalletOperationDebit (
    let! wallet := lockWallet cmd.(SagaDebitCommand.FromWalletID) in
    return_existing cmd.(SagaDebitCommand.PaymentID) SagaWalletOperationDebit (
    guard (bool_decide (wallet.(Wallet.ID) = uuid_Nil)) ErrNotFound ;!
    guard (negb (wallet.(Wallet.Currency) =s cmd.(SagaDebitCommand.Currency))) ErrCurrencyMismatch ;!
    let! wallet := lift (Debit wallet cmd.(SagaDebitCommand.AmountCents)) in
    exec (stmt_UpdateWalletBalance wallet.(Wallet.ID) wallet.(Wallet.Balance)) ;!
    record_operation cmd.(SagaDebitCommand.PaymentID) SagaWalletOperationDebit
      cmd.(SagaDebitCommand.IdempotencyKey) wallet.(Wallet.ID) cmd.(SagaDebitCommand.AmountCents)
      cmd.(SagaDebitCommand.Currency) wallet.(Wallet.Balance)))).

Definition CompensateDebit (cmd : SagaCompensationCommand.t) : db SagaWalletOperation.t :=
  guard (bool_decide (cmd.(SagaCompensationCommand.PaymentID) = uuid_Nil)
         || bool_decide (cmd.(SagaCompensationCommand.FromWalletID) = uuid_Nil)
         || (cmd.(SagaCompensationCommand.IdempotencyKey) =s "")) ErrInvalidTransfer ;!
  guard (cmd.(SagaCompensationCommand.AmountCents) <? 0) ErrInvalidAmount ;!
  (if cmd.(SagaCompensationCommand.Currency) =s "" then ret tt
   else lift (NormalizeCurrency cmd.(SagaCompensationCommand.Currency)) ;! ret tt) ;!
  begin ;!
  deferred_rollback (
    return_existing cmd.(SagaCompensationCommand.PaymentID) SagaWalletOperationCompensation (
    let! found := attempt (getSagaWalletOperation cmd.(SagaCompensationCommand.PaymentID)
                             SagaWalletOperationDebit) in
    match found with
    | Err e => if is_no_rows e then throw ErrDebitNotFound else throw e
    | Ok debit =>
    return_existing cmd.(SagaCompensationCommand.PaymentID) SagaWalletOperationCompensation (
    guard (negb (bool_decide (cmd.(SagaCompensationCommand.WalletDebitID) = uuid_Nil))
           && negb (bool_decide (cmd.(SagaCompensationCommand.WalletDebitID)
                                 = debit.(SagaWalletOperation.ID)))) ErrDebitNotFound ;!
    guard (negb (bool_decide (debit.(SagaWalletOperation.WalletID)
                              = cmd.(SagaCompensationCommand.FromWalletID)))) ErrDebitNotFound ;!
    guard ((0 <? cmd.(SagaCompensationCommand.AmountCents))
           && negb (cmd.(SagaCompensationCommand.AmountCents)
                    =? debit.(SagaWalletOperation.AmountCents))) ErrInvalidAmount ;!
    guard (negb (cmd.(SagaCompensationCommand.Currency) =s "")
           && negb (cmd.(SagaCompensationCommand.Currency)
                    =s debit.(SagaWalletOperation.Currency))) ErrCurrencyMismatch ;!
    let! wallet := lockWallet debit.(SagaWalletOperation.WalletID) in
    guard (bool_decide (wallet.(Wallet.ID) = uuid_Nil)) ErrNotFound ;!
    let! wallet := lift (Credit wallet debit.(SagaWalletOperation.AmountCents)) in
    exec (stmt_UpdateWalletBalance wallet.(Wallet.ID) wallet.(Wallet.Balance)) ;!
    record_operation cmd.(SagaCompensationCommand.PaymentID) SagaWalletOperationCompensation
      cmd.(SagaCompensationCommand.IdempotencyKey) wallet.(Wallet.ID) debit.(SagaWalletOperation.AmountCents)
      debit.(SagaWalletOperation.Currency) wallet.(Wallet.Balance))
    end)).
End Operations.

(** ** Contracts *)

Section Contracts.
Context `{Postgres} `{Uuid}.

Definition transfer_spec (outboxTopic : string) (ctx : context) (userID fromID toID : uuid) (amount : Z)
    (t : tables) : res error (Transfer.t * tables) :=
  if amount <=? 0 then Err ErrInvalidAmount
  else if decide (fromID = toID) then Err ErrInvalidTransfer
  else match wallets t !! fromID, wallets t !! toID with
       | Some from, Some to =>
           if negb (bool_decide (from.(Wallet.UserID) = userID)) then Err ErrNotFound
           else if negb (from.(Wallet.Currency) =s to.(Wallet.Currency)) then Err ErrCurrencyMismatch
           else if from.(Wallet.Balance) <? amount then Err ErrInsufficientFunds
           else if 2 ^ 63 <=? to.(Wallet.Balance) + amount then Err PgCheckViolation
           else
             let x := Transfer.mk (fresh t) fromID toID amount "completed" (now t) 0 0 in
             let moved := set_balance toID (to.(Wallet.Balance) + amount)
                            (set_balance fromID (from.(Wallet.Balance) - amount) t) in
             let event := OutboxEvent.mk (gen_random_uuid (S (uuids_used t)))
                            (if outboxTopic =s "" then TransactionInitiatedTopic else outboxTopic)
                            (uuid_String fromID)
                            (MarshalTransactionInitiated x from.(Wallet.Currency))
                            (ctx_traceparent ctx) (ctx_tracestate ctx) None None (now t) in
             Ok (Transfer.with_ToBalance (to.(Wallet.Balance) + amount)
                   (Transfer.with_FromBalance (from.(Wallet.Balance) - amount) x),
                 add_outbox event (add_transfer x moved))
       | _, _ => Err ErrNotFound
       end.

(** Recording an operation whose idempotency key another payment already used
    is refused. *)
Definition record_spec (o : SagaWalletOperation.t) (t : tables)
    : res error (SagaWalletOperation.t * tables) :=
  if existsb (operation_key_is o.(SagaWalletOperation.IdempotencyKey) o.(SagaWalletOperation.Operation))
       (saga_wallet_operations t)
  then Err ErrInvalidTransfer
  else Ok (o, add_operation o t).

Definition debit_spec (cmd : SagaDebitCommand.t) (t : tables)
    : res error (SagaWalletOperation.t * tables) :=
  let '(SagaDebitCommand.mk paymentID walletID amount currency key) := cmd in
  if bool_decide (paymentID = uuid_Nil) || bool_decide (walletID = uuid_Nil) || (key =s "")
  then Err ErrInvalidTransfer
  else if amount <=? 0 then Err ErrInvalidAmount
  else if negb (is_Ok (NormalizeCurrency currency)) then Err ErrUnsupportedCurrency
  else match find_operation paymentID SagaWalletOperationDebit t with
       | Some existing => Ok (existing, t)
       | None =>
           match wallets t !! walletID with
           | None => Err ErrNotFound
           | Some w =>
               if negb (w.(Wallet.Currency) =s currency) then Err ErrCurrencyMismatch
               else if w.(Wallet.Balance) <? amount then Err ErrInsufficientFunds
               else
                 let balance := w.(Wallet.Balance) - amount in
                 record_spec
                   (SagaWalletOperation.mk (fresh t) paymentID SagaWalletOperationDebit key walletID amount
                      currency SagaWalletOperationCompleted balance (now t) (now t))
                   (set_balance walletID balance t)
           end
       end.

Definition compensate_spec (cmd : SagaCompensationCommand.t) (t : tables)
    : res error (SagaWalletOperation.t * tables) :=
  let '(SagaCompensationCommand.mk paymentID walletID debitID amount currency key reason) := cmd in
  if bool_decide (paymentID = uuid_Nil) || bool_decide (walletID = uuid_Nil) || (key =s "")
  then Err ErrInvalidTransfer
  else if amount <? 0 then Err ErrInvalidAmount
  else if negb (currency =s "") && negb (is_Ok (NormalizeCurrency currency)) then Err ErrUnsupportedCurrency
  else match find_operation paymentID SagaWalletOperationCompensation t with
       | Some existing => Ok (existing, t)
       | None =>
           match find_operation paymentID SagaWalletOperationDebit t with
           | None => Err ErrDebitNotFound
           | Some debit =>
               if negb (bool_decide (debitID = uuid_Nil))
                  && negb (bool_decide (debitID = debit.(SagaWalletOperation.ID))) then Err ErrDebitNotFound
               else if negb (bool_decide (debit.(SagaWalletOperation.WalletID) = walletID))
                    then Err ErrDebitNotFound
               else if (0 <? amount) && negb (amount =? debit.(SagaWalletOperation.AmountCents))
                    then Err ErrInvalidAmount
               else if negb (currency =s "") && negb (currency =s debit.(SagaWalletOperation.Currency))
                    then Err ErrCurrencyMismatch
               else match wallets t !! walletID with
                    | None => Err ErrNotFound
                    | Some w =>
                        let balance := w.(Wallet.Balance) + debit.(SagaWalletOperation.AmountCents) in
                        if 2 ^ 63 <=? balance then Err PgCheckViolation
                        else record_spec
                               (SagaWalletOperation.mk (fresh t) paymentID SagaWalletOperationCompensation
                                  key walletID debit.(SagaWalletOperation.AmountCents)
                                  debit.(SagaWalletOperation.Currency) SagaWalletOperationCompleted
                                  balance (now t) (now t))
                               (set_balance walletID balance t)
                    end
           end
       end.
End Contracts.

(** ** Refinement *)

Section Refinement.
Context `{Postgres} `{!PostgresOk} `{Uuid}.

Lemma lock_fold (look : uuid -> option Wallet.t) l (m : gmap uuid Wallet.t) id :
  (forall i w, look i = Some w -> w.(Wallet.ID) = i) ->
  foldl (fun m w => <[w.(Wallet.ID) := w]> m) m (omap look l) !! id =
    match look id with
    | Some w => if decide (id ∈ l) then Some w else m !! id
    | None => m !! id
    end.
Proof.
  intros Hlook. revert m. induction l as [|i l IH]; intros m; simpl.
  - by destruct (look id).
  - destruct (look i) as [w|] eqn:Hi; simpl; rewrite IH.
    + rewrite (Hlook i w Hi).
      destruct (decide (i = id)) as [-> | Hne].
      * rewrite Hi, lookup_insert_eq. repeat case_decide; set_solver.
      * rewrite lookup_insert_ne by done.
        destruct (look id); [| done]. repeat case_decide; set_solver.
    + destruct (look id) eqn:?; [| done].
      assert (id <> i) by naive_solver. repeat case_decide; set_solver.
Qed.

(** [lockWallets] sees exactly the two wallets it asks for. *)
Lemma lockWallets_spec firstID secondID (Q : res error (gmap uuid Wallet.t) -> conn tables -> Prop) cm t s :
  wf t ->
  (forall s', (quiet s -> quiet s') -> ~ quiet s -> Q (Err unavailable) (Conn cm (Some t) s')) ->
  (forall s' locked, (quiet s -> quiet s') ->
     locked !! firstID = wallets t !! firstID -> locked !! secondID = wallets t !! secondID ->
     Q (Ok locked) (Conn cm (Some t) s')) ->
  wp (lockWallets firstID secondID) Q (Conn cm (Some t) s).
Proof.
  intros Hwf Hf Hn. unfold lockWallets. wp_step. wp_step; [by apply Hf |].
  unfold q_LockWalletsForTransfer. wp_step.
  set (ids := if (secondID <? firstID)%N then [secondID; firstID] else [firstID; secondID]).
  assert (forall i, (i = firstID \/ i = secondID) -> i ∈ sorting.merge_sort N.le (remove_dups ids)) as Hin.
  { intros i Hi. rewrite sorting.merge_sort_Permutation, elem_of_remove_dups.
    unfold ids. destruct (secondID <? firstID)%N; set_solver. }
  apply Hn; [done | |].
  all: rewrite lock_fold by (intros i w Hw; by apply (wf_wallet _ Hwf)).
  all: case_match; [rewrite decide_True; [done | apply Hin; auto] | by rewrite lookup_empty].
Qed.

Lemma lockWallet_spec id (Q : res error Wallet.t -> conn tables -> Prop) cm t s :
  (forall s', (quiet s -> quiet s') -> ~ quiet s -> Q (Err unavailable) (Conn cm (Some t) s')) ->
  (forall s', (quiet s -> quiet s') ->
     Q (Ok (default Wallet.zero (wallets t !! id))) (Conn cm (Some t) s')) ->
  wp (lockWallet id) Q (Conn cm (Some t) s).
Proof.
  intros Hf Hn. unfold lockWallet. wp_step. wp_step. wp_step.
  - simpl. wp_step. by apply Hf.
  - unfold q_GetWallet. specialize (Hn s'). destruct (wallets t !! id); simpl in *; wp_step; by apply Hn.
Qed.

Lemma return_existing_spec paymentID operation k
    (Q : res error SagaWalletOperation.t -> conn tables -> Prop) cm t s :
  (forall s', (quiet s -> quiet s') -> ~ quiet s -> Q (Err unavailable) (Conn cm (Some t) s')) ->
  (forall s' o, (quiet s -> quiet s') -> find_operation paymentID operation t = Some o ->
     wp (commit ;! ret o) Q (Conn cm (Some t) s')) ->
  (forall s', (quiet s -> quiet s') -> find_operation paymentID operation t = None ->
     wp k Q (Conn cm (Some t) s')) ->
  wp (return_existing paymentID operation k) Q (Conn cm (Some t) s).
Proof.
  intros Hf He Hk. unfold return_existing, getSagaWalletOperation. wp_step. wp_step. wp_step.
  - simpl. wp_step. by apply Hf.
  - unfold q_GetSagaWalletOperation. destruct (find_operation _ _ _) eqn:Ho; simpl; auto.
Qed.

Lemma record_operation_spec p op key w a cur b
    (Q : res error SagaWalletOperation.t -> conn tables -> Prop) cm t s :
  let o := SagaWalletOperation.mk (fresh t) p op key w a cur SagaWalletOperationCompleted b (now t) (now t) in
  (op = SagaWalletOperationDebit \/ op = SagaWalletOperationCompensation) ->
  0 < a -> is_Some (wallets t !! w) ->
  find_operation p op t = None -> find_operation p op cm = None ->
  (forall wk s', (quiet s -> quiet s') -> ~ quiet s -> Q (Err unavailable) (Conn cm wk s')) ->
  (forall s', (quiet s -> quiet s') ->
     match record_spec o t with
     | Err e => Q (Err e) (Conn cm None s')
     | Ok (o', t') => wp (commit ;! ret o') Q (Conn cm (Some t') s')
     end) ->
  wp (record_operation p op key w a cur b) Q (Conn cm (Some t) s).
Proof.
  intros o Hop Ha [wal Hw] Hn Hcm Hf Hk. unfold record_operation, getSagaWalletOperation. wp_step. wp_step. wp_step.
  - simpl. wp_step. by apply Hf.
  - unfold stmt_CreateSagaWalletOperation.
    replace (negb ((op =s "debit") || (op =s "compensation"))) with false
      by (by destruct Hop as [-> | ->]).
    rewrite (proj2 (Z.leb_gt a 0)) by done. simpl.
    rewrite !existsb_find. unfold find_operation in Hn. rewrite Hn.
    unfold record_spec in Hk. subst o. simpl in Hk. rewrite existsb_find in Hk.
    destruct (List.find (operation_key_is key op) (saga_wallet_operations t)) as [o'|] eqn:Hkey.
    + simpl. wp_step. wp_step. wp_step. wp_step. wp_step.
      { simpl. wp_step. apply Hf; [auto | not_quiet]. }
      unfold q_GetSagaWalletOperation. rewrite Hcm. simpl. wp_step. apply Hk. auto.
    + rewrite Hw. simpl. by apply Hk.
Qed.

Lemma debit_refines cmd : refines wf (DebitForSaga cmd) (debit_spec cmd).
Proof.
  intros t s Hwf. unfold DebitForSaga. destruct cmd as [p w a cur key]. simpl.
  wp_step. wp_step; [finish_outcome; by rewrite H2 |].
  wp_step. wp_step; [finish_outcome; by rewrite H2, H3 |].
  rewrite H2, H3.
  wp_step. wp_step. destruct (NormalizeCurrency cur) as [c | e] eqn:Hc; simpl.
  2: { finish_outcome. f_equal. revert Hc. unfold NormalizeCurrency. by repeat case_match; intros [= <-]. }
  wp_step. wp_step; [finish_outcome |]. wp_step.
  apply return_existing_spec; [intros; finish_outcome | intros s1 o Hq1 -> |].
  { by apply commit_ret_outcome; auto 15. }
  intros s1 Hq1 Hn. rewrite Hn. wp_step. apply lockWallet_spec; [intros; finish_outcome |]. intros s2 Hq2.
  apply return_existing_spec; [intros; finish_outcome | intros; congruence |]. intros s3 Hq3 _.
  destruct (wallets t !! w) as [wal|] eqn:Hw; simpl.
  2: { wp_step. wp_step. by finish_outcome. }
  pose proof (wf_wallet _ Hwf _ _ Hw) as (Hid & Hnil & Hb & _).
  wp_step. wp_step; [rewrite bool_decide_eq_true in H5; congruence |].
  wp_step. wp_step; [by finish_outcome; rewrite H6 |]. rewrite H6.
  wp_step. wp_step. destruct (Debit wal a) as [wal' | e] eqn:Hd.
  2: { finish_outcome. revert Hd. unfold Debit. rewrite H3. by case_match; intros [= <-]. }
  apply Debit_ok in Hd as [Ha ->]; [| unfold int64; lia]. simpl. rewrite Hid.
  rewrite (proj2 (Z.ltb_ge _ _)) by lia.
  wp_step. wp_step; [finish_outcome |].
  rewrite (stmt_UpdateWalletBalance_ok _ _ _ wal) by (done || lia).
  apply record_operation_spec.
  - by left.
  - lia.
  - rewrite (set_balance_lookup _ _ _ wal) by done. by rewrite decide_True.
  - by rewrite find_operation_set_balance.
  - done.
  - intros; finish_outcome.
  - intros s5 Hq5. rewrite set_balance_now, set_balance_fresh. destruct (record_spec _ _) as [[o t'] | e] eqn:Hr.
    + by apply commit_ret_outcome; auto 15.
    + by finish_outcome.
Qed.

Lemma NormalizeCurrency_err cur e : NormalizeCurrency cur = Err e -> e = ErrUnsupportedCurrency.
Proof. unfold NormalizeCurrency. by repeat case_match; intros [= <-]. Qed.

(** The tail of [CompensateDebit], from the lock on. *)
Lemma compensate_tail p w key debit cm s t (Q : res error SagaWalletOperation.t -> conn tables -> Prop) :
  wf t -> cm = t ->
  find_operation p SagaWalletOperationCompensation t = None ->
  find_operation p SagaWalletOperationDebit t = Some debit ->
  debit.(SagaWalletOperation.WalletID) = w ->
  (forall wk s', (quiet s -> quiet s') -> ~ quiet s -> Q (Err unavailable) (Conn cm wk s')) ->
  (forall wk s', (quiet s -> quiet s') ->
     match match wallets t !! w with
           | None => Err ErrNotFound
           | Some wal =>
               let balance := wal.(Wallet.Balance) + debit.(SagaWalletOperation.AmountCents) in
               if 2 ^ 63 <=? balance then Err PgCheckViolation
               else record_spec
                      (SagaWalletOperation.mk (fresh t) p SagaWalletOperationCompensation
                         key w debit.(SagaWalletOperation.AmountCents)
                         debit.(SagaWalletOperation.Currency) SagaWalletOperationCompleted
                         balance (now t) (now t))
                      (set_balance w balance t)
           end with
     | Err e => Q (Err e) (Conn cm wk s')
     | Ok (o, t') => wp (commit ;! ret o) Q (Conn cm (Some t') s')
     end) ->
  wp (let! wallet := lockWallet debit.(SagaWalletOperation.WalletID) in
      guard (bool_decide (wallet.(Wallet.ID) = uuid_Nil)) ErrNotFound ;!
      let! wallet := lift (Credit wallet debit.(SagaWalletOperation.AmountCents)) in
      exec (stmt_UpdateWalletBalance wallet.(Wallet.ID) wallet.(Wallet.Balance)) ;!
      record_operation p SagaWalletOperationCompensation key wallet.(Wallet.ID)
        debit.(SagaWalletOperation.AmountCents) debit.(SagaWalletOperation.Currency)
        wallet.(Wallet.Balance)) Q (Conn cm (Some t) s).
Proof.
  intros Hwf -> Hn Hd Hdw Hf Hk.
  apply find_Some_elem in Hd as [Hd _].
  pose proof (wf_operation _ Hwf _ Hd) as (Ham & _ & [wal Hw] & _). rewrite Hdw in *.
  pose proof (wf_wallet _ Hwf _ _ Hw) as (Hid & Hnil & Hb & _). rewrite Hw in Hk.
  set (b := Wallet.Balance wal + SagaWalletOperation.AmountCents debit) in *. simpl in Hk.
  wp_step. apply lockWallet_spec; [intros; apply Hf; auto |]. intros s1 Hq1. rewrite Hw. simpl.
  wp_step. wp_step; [rewrite bool_decide_eq_true in H2; congruence |].
  unfold Credit. rewrite (proj2 (Z.leb_gt _ _)) by lia. wp_step. wp_step. simpl. rewrite Hid. fold b.
  destruct (Z.leb_spec (2 ^ 63) b) as [Hov | Hfit].
  - wp_step. wp_step; [apply Hf; [auto | not_quiet] |].
    rewrite (stmt_UpdateWalletBalance_negative _ _ _ wal Hw); [apply Hk; auto |].
    by apply wrap64_add_overflow; [| lia |].
  - rewrite wrap64_id by (unfold int64; lia).
    wp_step. wp_step; [apply Hf; [auto | not_quiet] |].
    rewrite (stmt_UpdateWalletBalance_ok _ _ _ wal) by (done || lia).
    apply record_operation_spec.
    + by right.
    + lia.
    + rewrite (set_balance_lookup _ _ _ wal) by done. by rewrite decide_True.
    + by rewrite find_operation_set_balance.
    + done.
    + intros; apply Hf; [auto | not_quiet].
    + intros s3 Hq3. rewrite set_balance_now, set_balance_fresh.
      specialize (Hk None s3). destruct (record_spec _ _) as [[o t'] | e]; apply Hk; auto.
Qed.

Lemma optional_currency cur (Q : res error unit -> conn tables -> Prop) c :
  (negb (cur =s "") && negb (is_Ok (NormalizeCurrency cur)) = true -> Q (Err ErrUnsupportedCurrency) c) ->
  (negb (cur =s "") && negb (is_Ok (NormalizeCurrency cur)) = false -> Q (Ok tt) c) ->
  wp (if cur =s "" then ret tt else lift (NormalizeCurrency cur) ;! ret tt) Q c.
Proof.
  destruct (cur =s "") eqn:Hc; simpl; intros He Ho; [by wp_step; apply Ho |].
  wp_step. wp_step. destruct (NormalizeCurrency cur) as [c' | e] eqn:Hn; simpl in *.
  - wp_step. auto.
  - apply NormalizeCurrency_err in Hn as ->. auto.
Qed.

Lemma compensate_refines cmd : refines wf (CompensateDebit cmd) (compensate_spec cmd).
Proof.
  intros t s Hwf. unfold CompensateDebit. destruct cmd as [p w d a cur key reason]. simpl.
  wp_step. wp_step; [finish_outcome; by rewrite H2 |].
  wp_step. wp_step; [finish_outcome; by rewrite H2, H3 |].
  rewrite H2, H3. wp_step.
  apply optional_currency; intros Hcur; [finish_outcome; by rewrite Hcur |]. rewrite Hcur.
  wp_step. wp_step; [finish_outcome |]. wp_step.
  apply return_existing_spec; [intros; finish_outcome | intros s1 o Hq1 -> |].
  { by apply commit_ret_outcome; auto. }
  intros s1 Hq1 Hn. rewrite Hn. unfold getSagaWalletOperation at 1.
  wp_step. wp_step. wp_step; [simpl; wp_step; finish_outcome |].
  unfold q_GetSagaWalletOperation.
  destruct (find_operation p SagaWalletOperationDebit t) as [debit|] eqn:Hd; simpl.
  2: { wp_step. by finish_outcome. }
  apply return_existing_spec; [intros; finish_outcome | intros; congruence |]. intros s3 Hq3 _.
  wp_step. wp_step; [finish_outcome; by rewrite H6 |]. rewrite H6.
  wp_step. wp_step; [finish_outcome; by rewrite H7 |]. rewrite H7.
  wp_step. wp_step; [finish_outcome; by rewrite H8 |]. rewrite H8.
  wp_step. wp_step; [finish_outcome; by rewrite H9 |]. rewrite H9.
  apply negb_false_iff, bool_decide_eq_true in H7.
  apply (compensate_tail p w key debit t); try done.
  - intros; finish_outcome.
  - intros wk s4 Hq4. case_match eqn:Hr.
    + destruct a0 as [o t']. by apply commit_ret_outcome; auto 15.
    + by finish_outcome.
Qed.

(** The writes of [CreateTransfer] once the two balances are known to fit. *)
Lemma transfer_writes topic ctx fromID toID amount from to fb tb cur payload ans
    (Q : res error Transfer.t -> conn tables -> Prop) cm t s :
  let t1 := set_balance toID tb (set_balance fromID fb t) in
  let x := Transfer.mk (fresh t) fromID toID amount "completed" (now t) 0 0 in
  let e := OutboxEvent.mk (gen_random_uuid (S (uuids_used t))) topic cur (payload x)
             (ctx_traceparent ctx) (ctx_tracestate ctx) None None (now t) in
  0 < amount -> fromID <> toID ->
  wallets t !! fromID = Some from -> wallets t !! toID = Some to -> 0 <= fb -> 0 <= tb ->
  (forall wk s', (quiet s -> quiet s') -> ~ quiet s -> Q (Err unavailable) (Conn cm wk s')) ->
  (forall s', (quiet s -> quiet s') ->
     wp (commit ;! ret (ans x)) Q (Conn cm (Some (add_outbox e (add_transfer x t1))) s')) ->
  wp (exec (stmt_UpdateWalletBalance fromID fb) ;!
      exec (stmt_UpdateWalletBalance toID tb) ;!
      let! transfer := exec (stmt_CreateTransfer fromID toID amount) in
      Enqueue ctx topic cur (payload transfer) ;!
      commit ;!
      ret (ans transfer)) Q (Conn cm (Some t) s).
Proof.
  intros t1 x e Ha Hne Hf Ht Hfb Htb Hlost Hk.
  wp_step. wp_step; [apply Hlost; auto |]. rewrite (stmt_UpdateWalletBalance_ok _ _ _ from) by done.
  wp_step. wp_step; [apply Hlost; [auto | not_quiet] |].
  assert (wallets (set_balance fromID fb t) !! toID = Some to) as Ht'
    by (rewrite (set_balance_lookup _ _ _ from) by done; by rewrite decide_False).
  rewrite (stmt_UpdateWalletBalance_ok _ _ _ to) by done.
  wp_step. wp_step; [apply Hlost; [auto | not_quiet] |].
  assert (is_Some (wallets t1 !! fromID) /\ is_Some (wallets t1 !! toID)) as [[? Hx] [? Hy]].
  { unfold t1. rewrite !(set_balance_lookup toID _ _ to) by done.
    rewrite decide_False by done. rewrite decide_True by done.
    rewrite (set_balance_lookup _ _ _ from) by done. by rewrite decide_True. }
  unfold stmt_CreateTransfer. rewrite (proj2 (Z.leb_gt _ _)), decide_False by done.
  fold t1. rewrite Hx, Hy. wp_beta.
  assert (now t1 = now t /\ uuids_used t1 = uuids_used t) as [Hnow Hu]
    by (unfold t1; by autorewrite with tables).
  assert (fresh t1 = fresh t) as Hfr by (unfold fresh; by rewrite Hu). rewrite Hfr, Hnow.
  fold x. unfold Enqueue. wp_step. wp_step; [apply Hlost; [auto | not_quiet] |].
  unfold stmt_CreateOutboxEvent. wp_beta. fold (add_transfer x t1).
  replace (OutboxEvent.mk _ _ _ _ _ _ _ _ _) with e
    by (unfold e, fresh; simpl; by rewrite Hu, Hnow).
  apply Hk. auto.
Qed.

Lemma transfer_refines topic ctx user fromID toID amount :
  refines wf (CreateTransfer topic ctx user fromID toID amount)
             (transfer_spec topic ctx user fromID toID amount).
Proof.
  intros t s Hwf. unfold CreateTransfer, transfer_spec.
  wp_step. wp_step; [finish_outcome; by rewrite H2 |]. rewrite H2.
  wp_step. wp_step.
  { apply bool_decide_eq_true in H3. rewrite decide_True by done. by finish_outcome. }
  apply bool_decide_eq_false in H3. rewrite decide_False by done.
  wp_step. wp_step; [finish_outcome |]. wp_step. wp_step.
  apply lockWallets_spec; [done | intros; finish_outcome |]. intros s1 locked Hq1 -> ->.
  destruct (wallets t !! fromID) as [from|] eqn:Hf; [| wp_step; by finish_outcome].
  wp_step. wp_step; [finish_outcome; by rewrite H5; case_match |]. rewrite H5.
  destruct (wallets t !! toID) as [to|] eqn:Ht; [| wp_step; by finish_outcome].
  wp_step. wp_step; [finish_outcome; by rewrite H6 |]. rewrite H6.
  pose proof (wf_wallet _ Hwf _ _ Hf) as (Hfid & _ & Hfb & _).
  pose proof (wf_wallet _ Hwf _ _ Ht) as (Htid & _ & Htb & _).
  apply Z.leb_gt in H2.
  unfold Debit. rewrite (proj2 (Z.leb_gt amount 0)) by done. wp_step. wp_step.
  destruct (Z.ltb_spec (Wallet.Balance from) amount); [by finish_outcome |].
  rewrite wrap64_id by (unfold int64; lia).
  unfold Credit. rewrite (proj2 (Z.leb_gt amount 0)) by done. wp_step. wp_step. simpl.
  rewrite Hfid, Htid.
  destruct (Z.leb_spec (2 ^ 63) (Wallet.Balance to + amount)).
  - wp_step. wp_step; [finish_outcome |]. rewrite (stmt_UpdateWalletBalance_ok _ _ _ from) by (done || lia).
    wp_step. wp_step; [finish_outcome |].
    rewrite (stmt_UpdateWalletBalance_negative _ _ _ to); [by finish_outcome | |].
    + rewrite (set_balance_lookup _ _ _ from) by done. by rewrite decide_False.
    + apply wrap64_add_overflow; lia.
  - rewrite wrap64_id by (unfold int64; lia).
    apply (transfer_writes _ _ _ _ _ from to _ _ _
             (fun x => MarshalTransactionInitiated x from.(Wallet.Currency))
             (fun x => Transfer.with_ToBalance (Wallet.Balance to + amount)
                        (Transfer.with_FromBalance (Wallet.Balance from - amount) x)));
      try (done || lia).
    + intros; finish_outcome.
    + intros s2 Hq2. by apply commit_ret_outcome; auto 15.
Qed.
End Refinement.

(** ** Accounting

    [funds t] is the money of the system as the wallet service sees it: the
    balances plus what the sagas have debited and not given back. *)

Definition total_balance (t : tables) : Z := map_sum Wallet.Balance (wallets t).

Definition operation_effect (o : SagaWalletOperation.t) : Z :=
  if o.(SagaWalletOperation.Operation) =s SagaWalletOperationDebit then o.(SagaWalletOperation.AmountCents)
  else - o.(SagaWalletOperation.AmountCents).

Definition outstanding (t : tables) : Z := sumZ operation_effect (saga_wallet_operations t).
Definition funds (t : tables) : Z := total_balance t + outstanding t.

(** What one payment still owes back. *)
Definition outstanding_of (p : uuid) (t : tables) : Z :=
  sumZ (fun o => if decide (o.(SagaWalletOperation.PaymentID) = p) then operation_effect o else 0)
       (saga_wallet_operations t).

Lemma total_set_balance id b t w :
  wallets t !! id = Some w ->
  total_balance (set_balance id b t) = total_balance t - w.(Wallet.Balance) + b.
Proof.
  intros Hw. unfold total_balance, set_balance. rewrite Hw. simpl.
  by rewrite (map_sum_insert _ _ _ w).
Qed.

Lemma total_set_balance_other id b t id' w' :
  wallets t !! id' = Some w' -> id <> id' ->
  wallets (set_balance id b t) !! id' = Some w'.
Proof.
  intros Hw Hne. unfold set_balance. destruct (wallets t !! id); [simpl; by rewrite lookup_insert_ne | done].
Qed.

(** The balances of a transfer. *)
Lemma moved_lookup fromID toID fb tb from to t id :
  fromID <> toID -> wallets t !! fromID = Some from -> wallets t !! toID = Some to ->
  wallets (set_balance toID tb (set_balance fromID fb t)) !! id =
    if decide (toID = id) then Some (Wallet.with_UpdatedAt (now t) (Wallet.with_Balance tb to))
    else if decide (fromID = id) then Some (Wallet.with_UpdatedAt (now t) (Wallet.with_Balance fb from))
    else wallets t !! id.
Proof.
  intros Hne Hf Ht. rewrite (set_balance_lookup toID _ _ to) by (by apply total_set_balance_other).
  by rewrite set_balance_now, (set_balance_lookup fromID _ _ from).
Qed.

Section Accounting.
Context `{Postgres} `{!PostgresOk} `{Uuid}.

(** The shapes of a contract that succeeded. *)
Lemma transfer_spec_inv topic ctx user fromID toID amount t x t' :
  transfer_spec topic ctx user fromID toID amount t = Ok (x, t') ->
  exists from to e x0,
    t' = add_outbox e (add_transfer x0
           (set_balance toID (to.(Wallet.Balance) + amount)
              (set_balance fromID (from.(Wallet.Balance) - amount) t))) /\
    fromID <> toID /\ wallets t !! fromID = Some from /\ wallets t !! toID = Some to /\
    from.(Wallet.UserID) = user /\ 0 < amount <= from.(Wallet.Balance) /\
    to.(Wallet.Balance) + amount < 2 ^ 63 /\
    x0.(Transfer.ID) = fresh t /\ x0.(Transfer.Amount) = amount /\
    e.(OutboxEvent.PartitionKey) = uuid_String fromID /\
    e.(OutboxEvent.Payload) = MarshalTransactionInitiated x from.(Wallet.Currency).
Proof.
  unfold transfer_spec. intros Hs.
  repeat (case_match; try done; []). simplify_eq.
  rewrite Z.leb_gt, Z.ltb_ge, negb_false_iff, bool_decide_eq_true in *.
  do 4 eexists. split; [reflexivity |]. repeat (split; [done || lia |]). done.
Qed.

Lemma record_spec_inv o t o' t' :
  record_spec o t = Ok (o', t') -> o' = o /\ t' = add_operation o t.
Proof. unfold record_spec. by case_match; intros [= <- <-]. Qed.

Lemma debit_spec_inv p w a cur key t o t' :
  debit_spec (SagaDebitCommand.mk p w a cur key) t = Ok (o, t') ->
  find_operation p SagaWalletOperationDebit t = Some o /\ t' = t \/
  exists wal,
    find_operation p SagaWalletOperationDebit t = None /\
    wallets t !! w = Some wal /\ 0 < a <= wal.(Wallet.Balance) /\ wal.(Wallet.Currency) = cur /\
    o = SagaWalletOperation.mk (fresh t) p SagaWalletOperationDebit key w a cur
          SagaWalletOperationCompleted (wal.(Wallet.Balance) - a) (now t) (now t) /\
    t' = add_operation o (set_balance w (wal.(Wallet.Balance) - a) t).
Proof.
  unfold debit_spec. intros Hs. repeat case_match; try done; simplify_eq; [by left |].
  apply record_spec_inv in Hs as [-> ->]. right. eexists.
  rewrite Z.leb_gt, Z.ltb_ge, negb_false_iff, String.eqb_eq in *. done.
Qed.

Lemma compensate_spec_inv p w d a cur key reason t o t' :
  compensate_spec (SagaCompensationCommand.mk p w d a cur key reason) t = Ok (o, t') ->
  find_operation p SagaWalletOperationCompensation t = Some o /\ t' = t \/
  exists debit wal,
    find_operation p SagaWalletOperationCompensation t = None /\
    find_operation p SagaWalletOperationDebit t = Some debit /\
    debit.(SagaWalletOperation.WalletID) = w /\ wallets t !! w = Some wal /\
    wal.(Wallet.Balance) + debit.(SagaWalletOperation.AmountCents) < 2 ^ 63 /\
    o = SagaWalletOperation.mk (fresh t) p SagaWalletOperationCompensation key w
          debit.(SagaWalletOperation.AmountCents) debit.(SagaWalletOperation.Currency)
          SagaWalletOperationCompleted
          (wal.(Wallet.Balance) + debit.(SagaWalletOperation.AmountCents)) (now t) (now t) /\
    t' = add_operation o
           (set_balance w (wal.(Wallet.Balance) + debit.(SagaWalletOperation.AmountCents)) t).
Proof.
  unfold compensate_spec. intros Hs. repeat case_match; try done; simplify_eq; [by left |].
  apply record_spec_inv in Hs as [-> ->]. right. do 2 eexists.
  rewrite Z.leb_gt, (negb_false_iff (bool_decide (_ = w))), bool_decide_eq_true in *. done.
Qed.

Lemma transfer_spec_wf topic ctx user fromID toID amount t x t' :
  wf t -> transfer_spec topic ctx user fromID toID amount t = Ok (x, t') -> wf t'.
Proof.
  intros Hwf Hs. apply transfer_spec_inv in Hs
    as (from & to & e & x0 & -> & Hne & Hf & Ht & _ & Ha & Hfit & Hid & Ham & _).
  pose proof (wf_wallet _ Hwf _ _ Hf) as (_ & _ & Hfb & _).
  pose proof (wf_wallet _ Hwf _ _ Ht) as (_ & _ & Htb & _).
  apply wf_add_outbox, wf_add_transfer; [| by autorewrite with tables | lia].
  eapply wf_set_balance; [eapply wf_set_balance; [done | done | lia] | | lia].
  by apply total_set_balance_other.
Qed.

Lemma debit_spec_wf cmd t o t' : wf t -> debit_spec cmd t = Ok (o, t') -> wf t'.
Proof.
  destruct cmd as [p w a cur key]. intros Hwf Hs.
  apply debit_spec_inv in Hs as [[_ ->] | (wal & Hn & Hw & Ha & _ & -> & ->)]; [done |].
  pose proof (wf_wallet _ Hwf _ _ Hw) as (_ & _ & Hb & _).
  apply wf_add_operation; simpl; autorewrite with tables; try done; [| lia | | by left].
  - eapply wf_set_balance; [done | done | lia].
  - rewrite (set_balance_lookup _ _ _ wal) by done. by rewrite decide_True.
Qed.

Lemma compensate_spec_wf cmd t o t' : wf t -> compensate_spec cmd t = Ok (o, t') -> wf t'.
Proof.
  destruct cmd as [p w d a cur key reason]. intros Hwf Hs.
  apply compensate_spec_inv in Hs
    as [[_ ->] | (debit & wal & Hn & Hd & Hdw & Hw & Hfit & -> & ->)]; [done |].
  pose proof (wf_wallet _ Hwf _ _ Hw) as (_ & _ & Hb & _).
  apply find_Some_elem in Hd as [Hin [Hp Hop]%operation_is_true].
  pose proof (wf_operation _ Hwf _ Hin) as (Ham & _).
  apply wf_add_operation; simpl; autorewrite with tables; try done.
  - eapply wf_set_balance; [done | done | lia].
  - rewrite (set_balance_lookup _ _ _ wal) by done. by rewrite decide_True.
  - right. split; [done |]. exists debit. done.
Qed.

Lemma outstanding_add o t : outstanding (add_operation o t) = outstanding t + operation_effect o.
Proof. unfold outstanding. simpl. apply sumZ_snoc. Qed.

Lemma transfer_spec_funds topic ctx user fromID toID amount t x t' :
  transfer_spec topic ctx user fromID toID amount t = Ok (x, t') -> funds t' = funds t.
Proof.
  intros Hs. apply transfer_spec_inv in Hs
    as (from & to & e & x0 & -> & Hne & Hf & Ht & _ & Ha & Hfit & Hid & Ham & _).
  unfold funds, total_balance, outstanding, add_outbox, add_transfer. simpl. autorewrite with tables.
  fold (total_balance (set_balance toID (to.(Wallet.Balance) + amount)
           (set_balance fromID (from.(Wallet.Balance) - amount) t))).
  rewrite (total_set_balance _ _ _ to) by (by apply total_set_balance_other).
  rewrite (total_set_balance _ _ _ from) by done. unfold total_balance. lia.
Qed.

Lemma debit_spec_funds cmd t o t' : debit_spec cmd t = Ok (o, t') -> funds t' = funds t.
Proof.
  destruct cmd as [p w a cur key]. intros Hs.
  apply debit_spec_inv in Hs as [[_ ->] | (wal & Hn & Hw & Ha & _ & -> & ->)]; [done |].
  unfold funds. rewrite outstanding_add. unfold operation_effect at 1. simpl.
  change (total_balance (add_operation ?o ?t)) with (total_balance t).
  rewrite (total_set_balance _ _ _ wal) by done.
  unfold outstanding. autorewrite with tables. lia.
Qed.

Lemma compensate_spec_funds cmd t o t' : compensate_spec cmd t = Ok (o, t') -> funds t' = funds t.
Proof.
  destruct cmd as [p w d a cur key reason]. intros Hs.
  apply compensate_spec_inv in Hs
    as [[_ ->] | (debit & wal & Hn & Hd & Hdw & Hw & Hfit & -> & ->)]; [done |].
  unfold funds. rewrite outstanding_add. unfold operation_effect at 1. simpl.
  change (total_balance (add_operation ?o ?t)) with (total_balance t).
  rewrite (total_set_balance _ _ _ wal) by done.
  unfold outstanding. autorewrite with tables. lia.
Qed.

Lemma find_operation_add p op o t :
  find_operation p op (add_operation o t) =
    match find_operation p op t with
    | Some x => Some x
    | None => if operation_is p op o then Some o else None
    end.
Proof. unfold find_operation, add_operation. simpl. by rewrite find_app. Qed.

Lemma operation_is_self p op o :
  o.(SagaWalletOperation.PaymentID) = p -> o.(SagaWalletOperation.Operation) = op ->
  operation_is p op o = true.
Proof. intros. by apply operation_is_true. Qed.

(** Once the operation is on record, the commands that the contract accepts are
    answered with it. *)
Lemma debit_spec_existing cmd t t' r o :
  debit_spec cmd t = Ok r ->
  find_operation cmd.(SagaDebitCommand.PaymentID) SagaWalletOperationDebit t' = Some o ->
  debit_spec cmd t' = Ok (o, t').
Proof.
  destruct cmd. unfold debit_spec. simpl. intros Hs ->.
  do 3 (match goal with Hi : (if ?b then _ else _) = _ |- _ => destruct b; [done |] end). done.
Qed.

Lemma compensate_spec_existing cmd t t' r o :
  compensate_spec cmd t = Ok r ->
  find_operation cmd.(SagaCompensationCommand.PaymentID) SagaWalletOperationCompensation t' = Some o ->
  compensate_spec cmd t' = Ok (o, t').
Proof.
  destruct cmd. unfold compensate_spec. simpl. intros Hs ->.
  do 3 (match goal with Hi : (if ?b then _ else _) = _ |- _ => destruct b; [done |] end). done.
Qed.

Lemma debit_spec_idempotent cmd : idempotent (debit_spec cmd).
Proof.
  destruct cmd as [p w a cur key]. intros t o t' Hs. pose proof Hs as Hs'.
  apply debit_spec_inv in Hs as [[_ ->] | (wal & Hn & Hw & Ha & _ & -> & ->)]; [done |].
  eapply debit_spec_existing; [done |].
  simpl. rewrite find_operation_add. autorewrite with tables. rewrite Hn.
  by rewrite operation_is_self.
Qed.

Lemma compensate_spec_idempotent cmd : idempotent (compensate_spec cmd).
Proof.
  destruct cmd as [p w d a cur key reason]. intros t o t' Hs. pose proof Hs as Hs'.
  apply compensate_spec_inv in Hs
    as [[_ ->] | (debit & wal & Hn & Hd & Hdw & Hw & Hfit & -> & ->)]; [done |].
  eapply compensate_spec_existing; [done |].
  simpl. rewrite find_operation_add. autorewrite with tables. rewrite Hn.
  by rewrite operation_is_self.
Qed.
End Accounting.

(** ** One payment

    The recorded amount of a payment's operation of one kind. *)

Definition operation_key (o : SagaWalletOperation.t) : uuid * string :=
  (o.(SagaWalletOperation.PaymentID), o.(SagaWalletOperation.Operation)).

Definition recorded (p : uuid) (op : string) (l : list SagaWalletOperation.t) : Z :=
  match List.find (operation_is p op) l with Some o => o.(SagaWalletOperation.AmountCents) | None => 0 end.

Lemma recorded_cons p op o l :
  recorded p op (o :: l) = if operation_is p op o then o.(SagaWalletOperation.AmountCents) else recorded p op l.
Proof. unfold recorded. simpl. by destruct (operation_is p op o). Qed.

Lemma recorded_absent p op l : (p, op) ∉ operation_key <$> l -> recorded p op l = 0.
Proof.
  intros Hn. unfold recorded. destruct (List.find _ l) as [o|] eqn:Hf; [| done]. exfalso.
  apply find_Some_elem in Hf as [Hin [<- <-]%operation_is_true]. apply Hn, list_elem_of_fmap. by exists o.
Qed.

(** A payment's operations add up to its debit less its compensation. *)
Lemma outstanding_recorded p (l : list SagaWalletOperation.t) :
  NoDup (operation_key <$> l) ->
  (forall o, o ∈ l -> o.(SagaWalletOperation.Operation) = SagaWalletOperationDebit \/
                      o.(SagaWalletOperation.Operation) = SagaWalletOperationCompensation) ->
  sumZ (fun o => if decide (o.(SagaWalletOperation.PaymentID) = p) then operation_effect o else 0) l =
  recorded p SagaWalletOperationDebit l - recorded p SagaWalletOperationCompensation l.
Proof.
  induction l as [|o l IH]; simpl; [done |]. intros [Hnot Hnd]%list.NoDup_cons Hop.
  rewrite IH by (auto; intros; apply Hop; set_solver). rewrite !recorded_cons.
  assert (forall op, operation_is p op o = true -> recorded p op l = 0) as Habs.
  { intros op [<- <-]%operation_is_true. by apply recorded_absent. }
  destruct (decide (SagaWalletOperation.PaymentID o = p)) as [Hp | Hp].
  - unfold operation_effect. pose proof (Hop o ltac:(set_solver)) as [Ho | Ho]; rewrite Ho; simpl.
    + rewrite (operation_is_self p SagaWalletOperationDebit o), Habs by (done || by apply operation_is_self).
      destruct (operation_is p SagaWalletOperationCompensation o) eqn:Hc; [| lia].
      apply operation_is_true in Hc as [_ Hc]. by rewrite Ho in Hc.
    + rewrite (operation_is_self p SagaWalletOperationCompensation o),
        (Habs SagaWalletOperationCompensation) by (done || by apply operation_is_self).
      destruct (operation_is p SagaWalletOperationDebit o) eqn:Hc; [| lia].
      apply operation_is_true in Hc as [_ Hc]. by rewrite Ho in Hc.
  - destruct (operation_is p SagaWalletOperationDebit o) eqn:Hd;
      [by apply operation_is_true in Hd as [? _] |].
    destruct (operation_is p SagaWalletOperationCompensation o) eqn:Hc;
      [by apply operation_is_true in Hc as [? _] | lia].
Qed.

Lemma outstanding_of_wf `{Postgres} p t :
  wf t ->
  outstanding_of p t =
    match find_operation p SagaWalletOperationDebit t, find_operation p SagaWalletOperationCompensation t with
    | Some d, None => d.(SagaWalletOperation.AmountCents)
    | _, _ => 0
    end.
Proof.
  intros Hwf. unfold outstanding_of.
  rewrite outstanding_recorded; [| apply Hwf | intros o Ho; by apply (wf_operation _ Hwf)].
  unfold recorded. fold (find_operation p SagaWalletOperationDebit t).
  fold (find_operation p SagaWalletOperationCompensation t).
  destruct (find_operation p SagaWalletOperationCompensation t) as [c|] eqn:Hc;
    [| destruct (find_operation p SagaWalletOperationDebit t); lia].
  apply find_Some_elem in Hc as [Hin [Hp Hop]%operation_is_true].
  destruct (wf_compensation _ Hwf c Hin Hop) as (d & Hd & Hdp & Hdo & Ha & _).
  destruct (find_operation p SagaWalletOperationDebit t) as [d'|] eqn:Hf.
  - enough (d' = d) as -> by lia.
    apply find_Some_elem in Hf as [Hin' [Hp' Hop']%operation_is_true].
    assert (operation_key d' = operation_key d) as Hk by (unfold operation_key; congruence).
    pose proof (wf_operation_unique _ Hwf) as Hnd. fold operation_key in Hnd.
    apply list_elem_of_lookup in Hin' as [i Hi]. apply list_elem_of_lookup in Hd as [j Hj].
    assert (i = j) as ->; [| congruence].
    apply (NoDup_lookup _ i j (operation_key d) Hnd); rewrite list_lookup_fmap, ?Hi, ?Hj; simpl; [| done].
    f_equal. exact Hk.
  - apply (find_None_elem _ _ d) in Hf; [| done].
    by rewrite (operation_is_self p) in Hf by congruence.
Qed.

(** ** Properties *)

Section Properties.
Context `{Postgres} `{!PostgresOk} `{Uuid}.

(** C6: [CreateTransfer] is atomic: under every schedule of lost round trips it
    ends outside a transaction, having moved the amount, written the transfer
    and its outbox event all together or not at all, and it answers as
    [transfer_spec] says (validation, ownership, currency, funds and overflow
    of the recipient's balance, in that order); it reports a lost connection
    only when a round trip was lost. *)
Theorem transfer_atomic topic ctx user fromID toID amount :
  refines wf (CreateTransfer topic ctx user fromID toID amount)
             (transfer_spec topic ctx user fromID toID amount).
Proof. apply transfer_refines. Qed.

(** C7: [DebitForSaga] is atomic: the balance and the operation's record change
    together or not at all under every fault schedule, an operation already on
    record for the payment is returned as it is, and every refusal is the one
    [debit_spec] names. *)
Theorem debit_atomic cmd : refines wf (DebitForSaga cmd) (debit_spec cmd).
Proof. apply debit_refines. Qed.

(** C8: [CompensateDebit] is atomic under every fault schedule and gives back
    exactly the recorded debit of the payment, to the wallet it was taken from,
    once; the amount, wallet, debit identifier and currency of the command are
    only compared with the record. *)
Theorem compensate_atomic cmd : refines wf (CompensateDebit cmd) (compensate_spec cmd).
Proof. apply compensate_refines. Qed.

(** A caller that repeats [DebitForSaga] after every lost answer debits the
    wallet at most once: whatever round trips are lost over [n] retries, the
    tables are the ones before or the ones after a single debit, and an answer
    is the answer of that debit. *)
Theorem debit_retries_debit_once cmd t o t' n s :
  wf t -> debit_spec cmd t = Ok (o, t') ->
  wp (retries n (DebitForSaga cmd)) (fun r c' =>
    (r = Ok o /\ committed c' = t') \/
    (r = Err unavailable /\ (committed c' = t \/ committed c' = t'))) (Conn t None s).
Proof.
  intros Hwf Hs. apply (retries_at_most_once _ (debit_spec cmd) wf);
    eauto using debit_refines, debit_spec_idempotent, debit_spec_wf.
Qed.

(** Repeating [CompensateDebit] after lost answers gives the money back at
    most once. *)
Theorem compensate_retries_credit_once cmd t o t' n s :
  wf t -> compensate_spec cmd t = Ok (o, t') ->
  wp (retries n (CompensateDebit cmd)) (fun r c' =>
    (r = Ok o /\ committed c' = t') \/
    (r = Err unavailable /\ (committed c' = t \/ committed c' = t'))) (Conn t None s).
Proof.
  intros Hwf Hs. apply (retries_at_most_once _ (compensate_spec cmd) wf);
    eauto using compensate_refines, compensate_spec_idempotent, compensate_spec_wf.
Qed.

(** A transfer that [CreateTransfer] grants takes the amount from the
    sender, gives it to the recipient, leaves every other wallet alone, and
    adds to the outbox exactly one event, about this transfer. *)
Theorem transfer_moves_money topic ctx user fromID toID amount t s x c' :
  wf t ->
  CreateTransfer topic ctx user fromID toID amount (Conn t None s) = (Ok x, c') ->
  exists from to e,
    wallets t !! fromID = Some from /\ wallets t !! toID = Some to /\
    from.(Wallet.UserID) = user /\ 0 < amount <= from.(Wallet.Balance) /\
    Wallet.Balance <$> wallets (committed c') !! fromID = Some (from.(Wallet.Balance) - amount) /\
    Wallet.Balance <$> wallets (committed c') !! toID = Some (to.(Wallet.Balance) + amount) /\
    (forall id, id <> fromID -> id <> toID -> wallets (committed c') !! id = wallets t !! id) /\
    outbox_events (committed c') = (outbox_events t ++ [e])%list /\
    e.(OutboxEvent.PartitionKey) = uuid_String fromID /\
    e.(OutboxEvent.Payload) = MarshalTransactionInitiated x from.(Wallet.Currency).
Proof.
  intros Hwf Hrun. pose proof (transfer_refines topic ctx user fromID toID amount t s Hwf) as Hr.
  unfold wp in Hr. rewrite Hrun in Hr. destruct Hr as [_ Ho].
  inversion Ho as [a t' Hs | | |]; subst. clear Ho Hrun.
  apply transfer_spec_inv in Hs
    as (from & to & e & x0 & -> & Hne & Hf & Ht & Hu & Ha & _ & _ & _ & Hkey & Hpay).
  pose proof (total_set_balance_other fromID (from.(Wallet.Balance) - amount) t toID to Ht Hne) as Ht'.
  exists from, to, e. simpl. autorewrite with tables.
  do 4 (split; [done |]). rewrite !(moved_lookup _ _ _ _ from to) by done.
  rewrite (decide_False (P := toID = fromID)), !decide_True by done.
  do 2 (split; [done |]). split; [| done].
  intros id Hif Hit. rewrite (moved_lookup _ _ _ _ from to) by done. by rewrite !decide_False by done.
Qed.
End Properties.

(** ** The properties at work *)

Definition demo_debit : SagaDebitCommand.t := SagaDebitCommand.mk 50%N 1%N 300 "USD" "50:debit".
Definition demo_compensation : SagaCompensationCommand.t :=
  SagaCompensationCommand.mk 50%N 1%N uuid_Nil 300 "USD" "50:compensate" "rail declined".

(** The tables after [demo_debit]. *)
Definition after_debit : tables :=
  match debit_spec demo_debit two_wallets with Ok (_, t) => t | Err _ => two_wallets end.

Definition after_compensation : tables :=
  match compensate_spec demo_compensation after_debit with Ok (_, t) => t | Err _ => after_debit end.

Lemma after_debit_wf : wf after_debit.
Proof.
  unfold after_debit. destruct (debit_spec demo_debit two_wallets) as [[o t]|] eqn:Hd; [| apply two_wallets_wf].
  eapply debit_spec_wf; [apply two_wallets_wf | exact Hd].
Qed.

Lemma transfer_atomic_witness :
  let run := CreateTransfer "" background alice 1%N 2%N 400 (Conn two_wallets None [NoFault; NoFault; FailAfter]) in
  fst run = Err PgUnavailable /\ balance_of 1%N (committed (snd run)) = Some 1000 /\
  outcome (transfer_spec "" background alice 1%N 2%N 400 two_wallets)
    (~ quiet [NoFault; NoFault; FailAfter]) two_wallets (fst run) (committed (snd run)).
Proof.
  intros run. split; [by vm_compute |]. split; [by vm_compute |].
  exact (proj2 (wp_elim _ _ _ (transfer_atomic "" background alice 1%N 2%N 400 two_wallets _ two_wallets_wf))).
Defined.

Lemma debit_atomic_witness :
  let run := DebitForSaga demo_debit (Conn two_wallets None []) in
  is_Ok (fst run) = true /\ balance_of 1%N (committed (snd run)) = Some 700 /\
  outcome (debit_spec demo_debit two_wallets) (~ quiet []) two_wallets (fst run) (committed (snd run)).
Proof.
  intros run. split; [by vm_compute |]. split; [by vm_compute |].
  exact (proj2 (wp_elim _ _ _ (debit_atomic demo_debit two_wallets [] two_wallets_wf))).
Defined.

Lemma compensate_atomic_witness :
  let run := CompensateDebit demo_compensation (Conn after_debit None []) in
  is_Ok (fst run) = true /\ balance_of 1%N (committed (snd run)) = Some 1000 /\
  outcome (compensate_spec demo_compensation after_debit) (~ quiet []) after_debit (fst run) (committed (snd run)).
Proof.
  intros run. split; [by vm_compute |]. split; [by vm_compute |].
  exact (proj2 (wp_elim _ _ _ (compensate_atomic demo_compensation after_debit [] after_debit_wf))).
Defined.

Lemma debit_retries_debit_once_witness :
  let s := [NoFault; NoFault; NoFault; NoFault; NoFault; NoFault; FailAfter; FailBefore] in
  let run := retries 3 (DebitForSaga demo_debit) (Conn two_wallets None s) in
  is_Ok (fst run) = true /\
  exists o, (fst run = Ok o /\ committed (snd run) = after_debit) \/
    (fst run = Err unavailable /\ (committed (snd run) = two_wallets \/ committed (snd run) = after_debit)).
Proof.
  intros s run. split; [by vm_compute |]. eexists.
  apply (wp_elim _ _ _ (debit_retries_debit_once demo_debit two_wallets _ after_debit 3 s two_wallets_wf
                          ltac:(vm_compute; reflexivity))).
Defined.

Lemma compensate_retries_credit_once_witness :
  let s := [NoFault; FailBefore; NoFault; FailAfter] in
  let run := retries 3 (CompensateDebit demo_compensation) (Conn after_debit None s) in
  is_Ok (fst run) = true /\
  exists o, (fst run = Ok o /\ committed (snd run) = after_compensation) \/
    (fst run = Err unavailable /\
     (committed (snd run) = after_debit \/ committed (snd run) = after_compensation)).
Proof.
  intros s run. split; [by vm_compute |]. eexists.
  apply (wp_elim _ _ _ (compensate_retries_credit_once demo_compensation after_debit _ after_compensation 3 s
                          after_debit_wf ltac:(vm_compute; reflexivity))).
Defined.

Lemma transfer_moves_money_witness :
  exists x c' e,
    CreateTransfer "" background alice 1%N 2%N 400 (Conn two_wallets None []) = (Ok x, c') /\
    balance_of 2%N (committed c') = Some 400 /\
    outbox_events (committed c') = [e].
Proof.
  destruct (CreateTransfer "" background alice 1%N 2%N 400 (Conn two_wallets None [])) as [r c'] eqn:Hrun.
  destruct r as [x | e]; [| exfalso; revert Hrun; vm_compute; discriminate].
  pose proof (transfer_moves_money "" background alice 1%N 2%N 400 two_wallets [] x c' two_wallets_wf Hrun)
    as (from & to & e & Hf & Ht & _ & _ & _ & Hto & _ & Hout & _).
  exists x, c', e. split; [done |]. split.
  - unfold balance_of. rewrite Hto. vm_compute in Ht. by injection Ht as <-.
  - exact Hout.
Defined.
