(* ===== verification/LedgerRepo.v ===== *)
(** * LedgerRepo: the ledger side of [internal/repo/wallets.go].

    Reservations and their confirmation or cancellation, the entries appended
    for a transfer event, and the paged reading of a wallet's entries.  As for
    the wallet side, each operation has a pure contract that it refines under
    every fault schedule. *)

From stdpp Require Import sorting.
From S2P Require Import Prelude GoStrings Domain Json Database Outbox Fixtures WalletRepo.

#[local] Open Scope string_scope.
#[local] Open Scope Z_scope.

Module LedgerCursor.
Record t := mk { CreatedAt : time; ID : uuid; Valid : bool }.
Definition zero : t := mk zero_time uuid_Nil false.
End LedgerCursor.

Module LedgerTransfer.
Record t := mk {
  TransferID : uuid;
  FromWalletID : uuid;
  ToWalletID : uuid;
  AmountCents : Z;
  Currency : string
}.
End LedgerTransfer.

(** ** Operations *)

(** [pgtype.UUID] and [pgtype.Timestamptz] with [Valid] as options. *)
Definition uuidFromPG (id : option uuid) : uuid := default uuid_Nil id.
Definition timeFromPG (t : option time) : time := default zero_time t.

Definition scanLedgerReservation (row : ReservationRow.t) : LedgerReservation.t :=
  LedgerReservation.mk
    row.(ReservationRow.id)
    row.(ReservationRow.payment_id)
    row.(ReservationRow.idempotency_key)
    row.(ReservationRow.trace_id)
    row.(ReservationRow.from_wallet_id)
    row.(ReservationRow.to_wallet_id)
    row.(ReservationRow.amount_cents)
    row.(ReservationRow.currency)
    row.(ReservationRow.status)
    (uuidFromPG row.(ReservationRow.transfer_id))
    (uuidFromPG row.(ReservationRow.wallet_debit_id))
    (timeFromPG row.(ReservationRow.completed_at))
    (timeFromPG row.(ReservationRow.canceled_at))
    row.(ReservationRow.cancel_reason)
    row.(ReservationRow.created_at)
    row.(ReservationRow.updated_at).

Definition sameReservationPayload (existing : LedgerReservation.t) (cmd : LedgerReserveCommand.t) : bool :=
  bool_decide (existing.(LedgerReservation.PaymentID) = cmd.(LedgerReserveCommand.PaymentID))
  && (existing.(LedgerReservation.IdempotencyKey) =s cmd.(LedgerReserveCommand.IdempotencyKey))
  && bool_decide (existing.(LedgerReservation.FromWalletID) = cmd.(LedgerReserveCommand.FromWalletID))
  && bool_decide (existing.(LedgerReservation.ToWalletID) = cmd.(LedgerReserveCommand.ToWalletID))
  && (existing.(LedgerReservation.AmountCents) =? cmd.(LedgerReserveCommand.AmountCents))
  && (existing.(LedgerReservation.Currency) =s cmd.(LedgerReserveCommand.Currency)).

Definition ledgerConfirmationFromReservation (r : LedgerReservation.t) : LedgerConfirmation.t :=
  LedgerConfirmation.mk r.(LedgerReservation.PaymentID) r.(LedgerReservation.TransferID)
    r.(LedgerReservation.Status) r.(LedgerReservation.CompletedAt).

Section Operations.
Context `{Postgres}.

Definition getLedgerReservationByPaymentID (paymentID : uuid) : db LedgerReservation.t :=
  let! row := query (q_reservation paymentID) in
  ret (scanLedgerReservation row).

Definition TransferProcessed (transferID : uuid) : db bool := query (q_TransferProcessed transferID).

(** Both wallets of a transfer locked, with the checks every ledger write makes. *)
Definition locked_pair (fromID toID : uuid) (currency : string) : db (Wallet.t * Wallet.t) :=
  let! locked := lockWallets fromID toID in
  match locked !! fromID with
  | None => throw ErrNotFound
  | Some from =>
      match locked !! toID with
      | None => throw ErrNotFound
      | Some to =>
          guard (negb (from.(Wallet.Currency) =s to.(Wallet.Currency))
                 || negb (from.(Wallet.Currency) =s currency)) ErrCurrencyMismatch ;!
          ret (from, to)
      end
  end.

Definition AppendTransferEntries (transfer : LedgerTransfer.t) : db unit :=
  guard (transfer.(LedgerTransfer.AmountCents) <=? 0) ErrInvalidAmount ;!
  guard (bool_decide (transfer.(LedgerTransfer.FromWalletID) = transfer.(LedgerTransfer.ToWalletID)))
    ErrInvalidTransfer ;!
  lift (NormalizeCurrency transfer.(LedgerTransfer.Currency)) ;!
  begin ;!
  deferred_rollback (
    let! processed := query (q_TransferProcessed transfer.(LedgerTransfer.TransferID)) in
    if processed then commit else
    let! pair := locked_pair transfer.(LedgerTransfer.FromWalletID) transfer.(LedgerTransfer.ToWalletID)
                   transfer.(LedgerTransfer.Currency) in
    let '(from, to) := pair in
    let! r := attempt (exec (stmt_CreateLedgerEntry from.(Wallet.ID) transfer.(LedgerTransfer.TransferID)
                               "debit" transfer.(LedgerTransfer.AmountCents) from.(Wallet.Balance))) in
    match r with
    | Err e => if isUniqueViolation e then ret tt else throw e
    | Ok _ =>
        let! r := attempt (exec (stmt_CreateLedgerEntry to.(Wallet.ID) transfer.(LedgerTransfer.TransferID)
                                   "credit" transfer.(LedgerTransfer.AmountCents) to.(Wallet.Balance))) in
        match r with
        | Err e => if isUniqueViolation e then ret tt else throw e
        | Ok _ => commit
        end
    end).

Definition ReserveTransfer (cmd : LedgerReserveCommand.t) : db LedgerReservation.t :=
  guard (bool_decide (cmd.(LedgerReserveCommand.PaymentID) = uuid_Nil)
         || bool_decide (cmd.(LedgerReserveCommand.FromWalletID) = uuid_Nil)
         || bool_decide (cmd.(LedgerReserveCommand.ToWalletID) = uuid_Nil)
         || (cmd.(LedgerReserveCommand.IdempotencyKey) =s "")) ErrInvalidTransfer ;!
  guard (cmd.(LedgerReserveCommand.AmountCents) <=? 0) ErrInvalidAmount ;!
  guard (bool_decide (cmd.(LedgerReserveCommand.FromWalletID) = cmd.(LedgerReserveCommand.ToWalletID)))
    ErrInvalidTransfer ;!
  let! currency := lift (NormalizeCurrency cmd.(LedgerReserveCommand.Currency)) in
  let cmd := LedgerReserveCommand.with_Currency currency cmd in
  begin ;!
  deferred_rollback (
    let! r := attempt (getLedgerReservationByPaymentID cmd.(LedgerReserveCommand.PaymentID)) in
    match r with
    | Ok existing =>
        guard (negb (sameReservationPayload existing cmd)) ErrAlreadyExists ;!
        commit ;! ret existing
    | Err e =>
        guard (negb (is_no_rows e)) e ;!
        locked_pair cmd.(LedgerReserveCommand.FromWalletID) cmd.(LedgerReserveCommand.ToWalletID)
          cmd.(LedgerReserveCommand.Currency) ;!
        let! r := attempt (exec (stmt_insert_reservation cmd.(LedgerReserveCommand.PaymentID)
                     cmd.(LedgerReserveCommand.IdempotencyKey) cmd.(LedgerReserveCommand.TraceID)
                     cmd.(LedgerReserveCommand.FromWalletID) cmd.(LedgerReserveCommand.ToWalletID)
                     cmd.(LedgerReserveCommand.AmountCents) cmd.(LedgerReserveCommand.Currency)
                     LedgerReservationReserved)) in
        match r with
        | Err e =>
            if isUniqueViolation e then
              rollback ;!
              let! existing := getLedgerReservationByPaymentID cmd.(LedgerReserveCommand.PaymentID) in
              guard (negb (sameReservationPayload existing cmd)) ErrAlreadyExists ;!
              ret existing
            else throw e
        | Ok row => commit ;! ret (scanLedgerReservation row)
        end
    end).

Definition ConfirmTransfer (cmd : LedgerConfirmCommand.t) : db LedgerConfirmation.t :=
  guard (bool_decide (cmd.(LedgerConfirmCommand.PaymentID) = uuid_Nil)
         || bool_decide (cmd.(LedgerConfirmCommand.LedgerReservationID) = uuid_Nil)
         || bool_decide (cmd.(LedgerConfirmCommand.WalletDebitID) = uuid_Nil)
         || (cmd.(LedgerConfirmCommand.IdempotencyKey) =s "")) ErrInvalidTransfer ;!
  begin ;!
  deferred_rollback (
    let! r := attempt (getLedgerReservationByPaymentID cmd.(LedgerConfirmCommand.PaymentID)) in
    match r with
    | Err e => if is_no_rows e then throw ErrNotFound else throw e
    | Ok reservation =>
        guard (negb (bool_decide (reservation.(LedgerReservation.ID)
                                  = cmd.(LedgerConfirmCommand.LedgerReservationID))))
          ErrFailedPrecondition ;!
        if reservation.(LedgerReservation.Status) =s LedgerReservationConfirmed then
          commit ;! ret (ledgerConfirmationFromReservation reservation)
        else if reservation.(LedgerReservation.Status) =s LedgerReservationCanceled then
          throw ErrFailedPrecondition
        else
          let! pair := locked_pair reservation.(LedgerReservation.FromWalletID)
                         reservation.(LedgerReservation.ToWalletID)
                         reservation.(LedgerReservation.Currency) in
          let '(from, to) := pair in
          let! transfer := exec (stmt_CreateTransfer reservation.(LedgerReservation.FromWalletID)
                                   reservation.(LedgerReservation.ToWalletID)
                                   reservation.(LedgerReservation.AmountCents)) in
          exec (stmt_CreateLedgerEntry from.(Wallet.ID) transfer.(Transfer.ID) "debit"
                  reservation.(LedgerReservation.AmountCents) from.(Wallet.Balance)) ;!
          exec (stmt_CreateLedgerEntry to.(Wallet.ID) transfer.(Transfer.ID) "credit"
                  reservation.(LedgerReservation.AmountCents) to.(Wallet.Balance)) ;!
          let! row := exec (stmt_confirm_reservation reservation.(LedgerReservation.ID)
                              LedgerReservationConfirmed transfer.(Transfer.ID)
                              cmd.(LedgerConfirmCommand.WalletDebitID)) in
          commit ;!
          ret (ledgerConfirmationFromReservation (scanLedgerReservation row))
    end).

Definition CancelReservation (cmd : LedgerCancelCommand.t) : db LedgerReservation.t :=
  guard (bool_decide (cmd.(LedgerCancelCommand.PaymentID) = uuid_Nil)
         || bool_decide (cmd.(LedgerCancelCommand.LedgerReservationID) = uuid_Nil)
         || (cmd.(LedgerCancelCommand.IdempotencyKey) =s "")) ErrInvalidTransfer ;!
  begin ;!
  deferred_rollback (
    let! r := attempt (getLedgerReservationByPaymentID cmd.(LedgerCancelCommand.PaymentID)) in
    match r with
    | Err e => if is_no_rows e then throw ErrNotFound else throw e
    | Ok reservation =>
        guard (negb (bool_decide (reservation.(LedgerReservation.ID)
                                  = cmd.(LedgerCancelCommand.LedgerReservationID))))
          ErrFailedPrecondition ;!
        if reservation.(LedgerReservation.Status) =s LedgerReservationCanceled then
          commit ;! ret reservation
        else if reservation.(LedgerReservation.Status) =s LedgerReservationConfirmed then
          throw ErrFailedPrecondition
        else
          let! row := exec (stmt_cancel_reservation reservation.(LedgerReservation.ID)
                              LedgerReservationCanceled cmd.(LedgerCancelCommand.Reason)) in
          commit ;!
          ret (scanLedgerReservation row)
    end).
End Operations.

(** ** Contracts *)

Section Contracts.
Context `{Postgres}.

(** The wallets of a transfer, or why the ledger refuses it. *)
Definition pair_spec (fromID toID : uuid) (currency : string) (t : tables)
    : res error (Wallet.t * Wallet.t) :=
  match wallets t !! fromID, wallets t !! toID with
  | Some from, Some to =>
      if negb (from.(Wallet.Currency) =s to.(Wallet.Currency))
         || negb (from.(Wallet.Currency) =s currency) then Err ErrCurrencyMismatch
      else Ok (from, to)
  | _, _ => Err ErrNotFound
  end.

Definition append_spec (x : LedgerTransfer.t) (t : tables) : res error (unit * tables) :=
  let '(LedgerTransfer.mk tid fromID toID amount currency) := x in
  if amount <=? 0 then Err ErrInvalidAmount
  else if bool_decide (fromID = toID) then Err ErrInvalidTransfer
  else if negb (is_Ok (NormalizeCurrency currency)) then Err ErrUnsupportedCurrency
  else if existsb (fun e => bool_decide (e.(LedgerEntry.TransferID) = tid)) (ledger_entries t) then Ok (tt, t)
  else match pair_spec fromID toID currency t with
       | Err e => Err e
       | Ok (from, to) =>
           if negb (existsb (fun x => bool_decide (x.(Transfer.ID) = tid)) (transfers t))
           then Err PgForeignKeyViolation
           else
             let t1 := add_entry (LedgerEntry.mk (fresh t) fromID tid "debit" amount
                                    from.(Wallet.Balance) (now t)) t in
             Ok (tt, add_entry (LedgerEntry.mk (fresh t1) toID tid "credit" amount
                                  to.(Wallet.Balance) (now t)) t1)
       end.

Definition reserve_spec (cmd : LedgerReserveCommand.t) (t : tables)
    : res error (LedgerReservation.t * tables) :=
  let '(LedgerReserveCommand.mk p key trace fromID toID amount currency) := cmd in
  if bool_decide (p = uuid_Nil) || bool_decide (fromID = uuid_Nil) || bool_decide (toID = uuid_Nil)
     || (key =s "") then Err ErrInvalidTransfer
  else if amount <=? 0 then Err ErrInvalidAmount
  else if bool_decide (fromID = toID) then Err ErrInvalidTransfer
  else match NormalizeCurrency currency with
       | Err e => Err e
       | Ok currency =>
           match reservations t !! p with
           | Some row =>
               if sameReservationPayload (scanLedgerReservation row)
                    (LedgerReserveCommand.mk p key trace fromID toID amount currency)
               then Ok (scanLedgerReservation row, t) else Err ErrAlreadyExists
           | None =>
               match pair_spec fromID toID currency t with
               | Err e => Err e
               | Ok _ =>
                   let row := ReservationRow.mk (fresh t) p key trace fromID toID amount currency
                                LedgerReservationReserved None None None None "" (now t) (now t) in
                   Ok (scanLedgerReservation row, used (set_reservation p row t))
               end
           end
       end.

(** The transfer that confirming a reservation creates. *)
Definition settlement (r : ReservationRow.t) (t : tables) : Transfer.t :=
  Transfer.mk (fresh t) r.(ReservationRow.from_wallet_id) r.(ReservationRow.to_wallet_id)
    r.(ReservationRow.amount_cents) "completed" (now t) 0 0.

(** The two entries of a settled transfer [x]. *)
Definition settle (x : Transfer.t) (from to : Wallet.t) (t : tables) : tables :=
  let t1 := add_transfer x t in
  let t2 := add_entry (LedgerEntry.mk (fresh t1) x.(Transfer.FromWalletID) x.(Transfer.ID) "debit"
                         x.(Transfer.Amount) from.(Wallet.Balance) (now t)) t1 in
  add_entry (LedgerEntry.mk (fresh t2) x.(Transfer.ToWalletID) x.(Transfer.ID) "credit"
               x.(Transfer.Amount) to.(Wallet.Balance) (now t)) t2.

Definition confirmed_row (r : ReservationRow.t) (x : Transfer.t) (debitID : uuid) (at_ : time) : ReservationRow.t :=
  ReservationRow.with_status LedgerReservationConfirmed
    (ReservationRow.with_transfer_id (Some x.(Transfer.ID))
    (ReservationRow.with_wallet_debit_id (Some debitID)
    (ReservationRow.with_completed_at (Some at_)
    (ReservationRow.with_updated_at at_ r)))).

Definition confirm_spec (cmd : LedgerConfirmCommand.t) (t : tables)
    : res error (LedgerConfirmation.t * tables) :=
  let '(LedgerConfirmCommand.mk p key trace rid debitID) := cmd in
  if bool_decide (p = uuid_Nil) || bool_decide (rid = uuid_Nil) || bool_decide (debitID = uuid_Nil)
     || (key =s "") then Err ErrInvalidTransfer
  else match reservations t !! p with
       | None => Err ErrNotFound
       | Some r =>
           if negb (bool_decide (r.(ReservationRow.id) = rid)) then Err ErrFailedPrecondition
           else if r.(ReservationRow.status) =s LedgerReservationConfirmed then
             Ok (ledgerConfirmationFromReservation (scanLedgerReservation r), t)
           else if r.(ReservationRow.status) =s LedgerReservationCanceled then Err ErrFailedPrecondition
           else match pair_spec r.(ReservationRow.from_wallet_id) r.(ReservationRow.to_wallet_id)
                        r.(ReservationRow.currency) t with
                | Err e => Err e
                | Ok (from, to) =>
                    let x := settlement r t in
                    let r' := confirmed_row r x debitID (now t) in
                    Ok (ledgerConfirmationFromReservation (scanLedgerReservation r'),
                        set_reservation p r' (settle x from to t))
                end
       end.

Definition canceled_row (r : ReservationRow.t) (reason : string) (at_ : time) : ReservationRow.t :=
  ReservationRow.with_status LedgerReservationCanceled
    (ReservationRow.with_canceled_at (Some at_)
    (ReservationRow.with_cancel_reason reason
    (ReservationRow.with_updated_at at_ r))).

Definition cancel_spec (cmd : LedgerCancelCommand.t) (t : tables)
    : res error (LedgerReservation.t * tables) :=
  let '(LedgerCancelCommand.mk p key trace rid reason) := cmd in
  if bool_decide (p = uuid_Nil) || bool_decide (rid = uuid_Nil) || (key =s "") then Err ErrInvalidTransfer
  else match reservations t !! p with
       | None => Err ErrNotFound
       | Some r =>
           if negb (bool_decide (r.(ReservationRow.id) = rid)) then Err ErrFailedPrecondition
           else if r.(ReservationRow.status) =s LedgerReservationCanceled then Ok (scanLedgerReservation r, t)
           else if r.(ReservationRow.status) =s LedgerReservationConfirmed then Err ErrFailedPrecondition
           else let r' := canceled_row r reason (now t) in
                Ok (scanLedgerReservation r', set_reservation p r' t)
       end.
End Contracts.

(** ** Refinement *)

Lemma entry_is_other_transfer tid dir (l : list LedgerEntry.t) :
  existsb (fun e => bool_decide (e.(LedgerEntry.TransferID) = tid)) l = false ->
  existsb (entry_is tid dir) l = false.
Proof.
  intros Hn. apply not_true_is_false. intros He. apply existsb_exists in He as (e & Hin & He).
  apply andb_true_iff in He as [He _].
  assert (existsb (fun e => bool_decide (e.(LedgerEntry.TransferID) = tid)) l = true)
    by (apply existsb_exists; eauto). congruence.
Qed.

Section Refinement.
Context `{Postgres} `{!PostgresOk}.

Lemma locked_pair_spec fromID toID cur (Q : res error (Wallet.t * Wallet.t) -> conn tables -> Prop) cm t s :
  wf t ->
  (forall s', (quiet s -> quiet s') -> ~ quiet s -> Q (Err unavailable) (Conn cm (Some t) s')) ->
  (forall s', (quiet s -> quiet s') -> Q (pair_spec fromID toID cur t) (Conn cm (Some t) s')) ->
  wp (locked_pair fromID toID cur) Q (Conn cm (Some t) s).
Proof.
  intros Hwf Hf Hn. unfold locked_pair, pair_spec in *. wp_step.
  apply lockWallets_spec; [done | intros; by apply Hf |]. intros s1 locked Hq1 -> ->.
  specialize (Hn s1 Hq1). destruct (wallets t !! fromID) as [from|]; [| by wp_step].
  destruct (wallets t !! toID) as [to|]; [| by wp_step].
  wp_step. wp_step; [by rewrite H1 in Hn |]. wp_step. by rewrite H1 in Hn.
Qed.

Lemma pair_spec_inv fromID toID cur t from to :
  pair_spec fromID toID cur t = Ok (from, to) ->
  wallets t !! fromID = Some from /\ wallets t !! toID = Some to /\
  from.(Wallet.Currency) = cur /\ to.(Wallet.Currency) = cur.
Proof.
  unfold pair_spec. intros Hp. repeat case_match; try done. simplify_eq.
  rewrite orb_false_iff, !negb_false_iff, !String.eqb_eq in *. naive_solver.
Qed.

Lemma stmt_CreateLedgerEntry_ok w tid dir amount b wal t :
  (dir = "debit" \/ dir = "credit") -> 0 < amount ->
  existsb (entry_is tid dir) (ledger_entries t) = false ->
  existsb (fun x => bool_decide (x.(Transfer.ID) = tid)) (transfers t) = true ->
  wallets t !! w = Some wal ->
  let e := LedgerEntry.mk (fresh t) w tid dir amount b (now t) in
  stmt_CreateLedgerEntry w tid dir amount b t = Ok (e, add_entry e t).
Proof.
  intros Hd Ha He Hx Hw e. unfold stmt_CreateLedgerEntry.
  replace (negb ((dir =s "debit") || (dir =s "credit"))) with false by (by destruct Hd as [-> | ->]).
  rewrite (proj2 (Z.leb_gt amount 0)), He, Hx, Hw by done. done.
Qed.

(** The second entry of a transfer does not meet the first one's key. *)
Lemma entry_is_add tid dir e t :
  e.(LedgerEntry.Direction) <> dir ->
  existsb (entry_is tid dir) (ledger_entries t) = false ->
  existsb (entry_is tid dir) (ledger_entries (add_entry e t)) = false.
Proof.
  intros Hne Hn. simpl. rewrite existsb_app, Hn. simpl. unfold entry_is.
  rewrite (proj2 (String.eqb_neq _ _)) by done. by rewrite andb_false_r.
Qed.

Lemma append_refines x : refines wf (AppendTransferEntries x) (append_spec x).
Proof.
  intros t s Hwf. destruct x as [tid fromID toID amount cur]. unfold AppendTransferEntries, append_spec. simpl.
  wp_step. wp_step; [finish_outcome; by rewrite H1 |]. rewrite H1.
  wp_step. wp_step; [finish_outcome; by rewrite H2 |]. rewrite H2.
  wp_step. wp_step. destruct (NormalizeCurrency cur) as [c | e] eqn:Hc; simpl.
  2: { apply NormalizeCurrency_err in Hc as ->. by finish_outcome. }
  wp_step. wp_step; [finish_outcome |]. wp_step. wp_step. wp_step; [finish_outcome |].
  unfold q_TransferProcessed.
  destruct (existsb (fun e => bool_decide (LedgerEntry.TransferID e = tid)) (ledger_entries t)) eqn:Hp; wp_beta.
  { wp_step; by finish_outcome. }
  wp_step. apply locked_pair_spec; [done | intros; finish_outcome |]. intros s2 Hq2.
  destruct (pair_spec fromID toID cur t) as [[from to] | e] eqn:Hpair; wp_beta; [| by finish_outcome].
  apply pair_spec_inv in Hpair as (Hf & Ht & _).
  pose proof (wf_wallet _ Hwf _ _ Hf) as (-> & _). pose proof (wf_wallet _ Hwf _ _ Ht) as (-> & _).
  apply Z.leb_gt in H1.
  wp_step. wp_step. wp_step; [simpl; wp_step; finish_outcome |].
  destruct (existsb (fun x => bool_decide (Transfer.ID x = tid)) (transfers t)) eqn:Hx; simpl.
  2: { unfold stmt_CreateLedgerEntry. simpl. rewrite (proj2 (Z.leb_gt amount 0)), Hx by done.
       rewrite entry_is_other_transfer by done. simpl. wp_step. by finish_outcome. }
  rewrite (stmt_CreateLedgerEntry_ok _ _ _ _ _ from) by (auto; by apply entry_is_other_transfer). wp_beta.
  wp_step. wp_step. wp_step; [simpl; wp_step; finish_outcome |].
  rewrite (stmt_CreateLedgerEntry_ok _ _ _ _ _ to);
    [| by right | done | apply entry_is_add; [done | by apply entry_is_other_transfer] | done | done].
  wp_beta. wp_step; by finish_outcome.
Qed.

Lemma getReservation_spec p (Q : res error (res error LedgerReservation.t) -> conn tables -> Prop) cm t s :
  (forall s', (quiet s -> quiet s') -> ~ quiet s -> Q (Ok (Err unavailable)) (Conn cm (Some t) s')) ->
  (forall s', (quiet s -> quiet s') ->
     Q (Ok match reservations t !! p with
           | Some row => Ok (scanLedgerReservation row) | None => Err PgNoRows end) (Conn cm (Some t) s')) ->
  wp (attempt (getLedgerReservationByPaymentID p)) Q (Conn cm (Some t) s).
Proof.
  intros Hf Hn. unfold getLedgerReservationByPaymentID. wp_step. wp_step. wp_step; [by apply Hf |].
  unfold q_reservation. specialize (Hn s').
  destruct (reservations t !! p); [wp_step |]; by apply Hn.
Qed.

Lemma reserve_refines cmd : refines wf (ReserveTransfer cmd) (reserve_spec cmd).
Proof.
  intros t s Hwf. destruct cmd as [p key trace fromID toID amount cur].
  unfold ReserveTransfer, reserve_spec. cbn -[NormalizeCurrency String.eqb Z.leb pair_spec].
  wp_step. wp_step; [finish_outcome; by rewrite H1 |]. rewrite H1.
  wp_step. wp_step; [finish_outcome; by rewrite H2 |]. rewrite H2.
  wp_step. wp_step; [finish_outcome; by rewrite H3 |]. rewrite H3.
  wp_step. wp_step. destruct (NormalizeCurrency cur) as [c | e] eqn:Hc; [| by finish_outcome].
  unfold LedgerReserveCommand.with_Currency. cbn -[pair_spec sameReservationPayload scanLedgerReservation].
  wp_step. wp_step; [finish_outcome |]. wp_step. wp_step.
  apply getReservation_spec; [intros; simpl; wp_step; wp_step; finish_outcome |]. intros s1 Hq1.
  destruct (reservations t !! p) as [row|] eqn:Hr.
  { wp_step. wp_step; [finish_outcome; by rewrite <- (negb_involutive (sameReservationPayload _ _)), H5 |].
    apply negb_false_iff in H5. rewrite H5. apply commit_ret_outcome; auto. }
  wp_step. wp_step; [done |].
  wp_step. apply locked_pair_spec; [done | intros; finish_outcome |]. intros s2 Hq2.
  destruct (pair_spec fromID toID c t) as [[from to] | e] eqn:Hpair; wp_beta; [| by finish_outcome].
  apply pair_spec_inv in Hpair as (Hf & Ht & _).
  wp_step. wp_step. wp_step; [simpl; wp_step; finish_outcome |].
  unfold stmt_insert_reservation. rewrite H2, Hr, Hf, Ht.
  apply bool_decide_eq_false in H3. rewrite decide_False by done. cbn -[scanLedgerReservation].
  by apply commit_ret_outcome; auto 15.
Qed.

(** A new transfer has no entries yet. *)
Lemma no_entries_fresh t :
  wf t -> existsb (fun e => bool_decide (LedgerEntry.TransferID e = fresh t)) (ledger_entries t) = false.
Proof.
  intros Hwf. apply not_true_is_false. intros He. apply existsb_exists in He as (e & Hin & He).
  apply bool_decide_eq_true in He. apply list_elem_of_In in Hin.
  pose proof (wf_entry _ Hwf e Hin) as (_ & _ & Htr & _). rewrite He in Htr.
  revert Htr. apply (fresh_not_in Transfer.ID). intros. by apply Hwf.
Qed.

Lemma existsb_find_None {A} (f : A -> bool) l : existsb f l = false -> List.find f l = None.
Proof. rewrite existsb_find. by destruct (List.find f l). Qed.

(** The two entries of a transfer that has none. *)
Lemma wf_add_entries d c t :
  wf t -> d.(LedgerEntry.ID) = fresh t -> c.(LedgerEntry.ID) = fresh (used t) ->
  d.(LedgerEntry.Direction) = "debit" -> c.(LedgerEntry.Direction) = "credit" ->
  0 < d.(LedgerEntry.Amount) -> 0 < c.(LedgerEntry.Amount) ->
  c.(LedgerEntry.TransferID) = d.(LedgerEntry.TransferID) ->
  d.(LedgerEntry.TransferID) ∈ Transfer.ID <$> transfers t ->
  existsb (fun e => bool_decide (LedgerEntry.TransferID e = d.(LedgerEntry.TransferID)))
    (ledger_entries t) = false ->
  wf (add_entry c (add_entry d t)).
Proof.
  intros Hwf Hd Hc Hdd Hcd Hda Hca Htid Hx Hn.
  apply wf_add_entry; [apply wf_add_entry; auto | done | done | auto | by rewrite Htid |].
  - apply existsb_find_None, entry_is_other_transfer. done.
  - apply existsb_find_None, entry_is_add; [by rewrite Hcd, Hdd |].
    apply entry_is_other_transfer. by rewrite Htid.
Qed.

Lemma settle_wf x from to t :
  wf t -> x.(Transfer.ID) = fresh t -> 0 < x.(Transfer.Amount) -> wf (settle x from to t).
Proof.
  intros Hwf Hid Ha. apply wf_add_entries; try done; [by apply wf_add_transfer | |].
  - simpl. rewrite fmap_app. set_solver.
  - simpl. rewrite Hid. by apply no_entries_fresh.
Qed.

(** The writes of [ConfirmTransfer]: the transfer, its two entries and the
    reservation's new state. *)
Lemma confirm_writes p r from to debitID (Q : res error LedgerConfirmation.t -> conn tables -> Prop) cm t s :
  wf t -> reservations t !! p = Some r ->
  wallets t !! r.(ReservationRow.from_wallet_id) = Some from ->
  wallets t !! r.(ReservationRow.to_wallet_id) = Some to ->
  let res := scanLedgerReservation r in
  let x := settlement r t in
  let r' := confirmed_row r x debitID (now t) in
  (forall wk s', (quiet s -> quiet s') -> ~ quiet s -> Q (Err unavailable) (Conn cm wk s')) ->
  (forall s', (quiet s -> quiet s') ->
     wp (commit ;! ret (ledgerConfirmationFromReservation (scanLedgerReservation r'))) Q
        (Conn cm (Some (set_reservation p r' (settle x from to t))) s')) ->
  wp (let! transfer := exec (stmt_CreateTransfer res.(LedgerReservation.FromWalletID)
                               res.(LedgerReservation.ToWalletID) res.(LedgerReservation.AmountCents)) in
      exec (stmt_CreateLedgerEntry from.(Wallet.ID) transfer.(Transfer.ID) "debit"
              res.(LedgerReservation.AmountCents) from.(Wallet.Balance)) ;!
      exec (stmt_CreateLedgerEntry to.(Wallet.ID) transfer.(Transfer.ID) "credit"
              res.(LedgerReservation.AmountCents) to.(Wallet.Balance)) ;!
      let! row := exec (stmt_confirm_reservation res.(LedgerReservation.ID)
                          LedgerReservationConfirmed transfer.(Transfer.ID) debitID) in
      commit ;! ret (ledgerConfirmationFromReservation (scanLedgerReservation row)))
     Q (Conn cm (Some t) s).
Proof.
  intros Hwf Hr Hf Ht res x r' Hlost Hk. subst res. simpl.
  pose proof (wf_reservation _ Hwf _ _ Hr) as (_ & Ha & _ & Hne & _).
  pose proof (wf_wallet _ Hwf _ _ Hf) as (-> & _). pose proof (wf_wallet _ Hwf _ _ Ht) as (-> & _).
  wp_step. wp_step; [apply Hlost; auto |].
  unfold stmt_CreateTransfer. rewrite (proj2 (Z.leb_gt _ _)), decide_False, Hf, Ht by done. wp_beta.
  fold (settlement r t). fold x. fold (add_transfer x t).
  assert (existsb (fun y => bool_decide (Transfer.ID y = Transfer.ID x)) (transfers (add_transfer x t)) = true) as Hx.
  { simpl. rewrite existsb_app. simpl. rewrite bool_decide_eq_true_2 by done. by rewrite orb_true_r. }
  assert (existsb (fun e => bool_decide (LedgerEntry.TransferID e = Transfer.ID x))
            (ledger_entries (add_transfer x t)) = false) as Hn.
  { exact (no_entries_fresh t Hwf). }
  wp_step. wp_step; [apply Hlost; [auto | not_quiet] |].
  rewrite (stmt_CreateLedgerEntry_ok _ _ _ _ _ from) by (auto; by apply entry_is_other_transfer). wp_beta.
  wp_step. wp_step; [apply Hlost; [auto | not_quiet] |].
  rewrite (stmt_CreateLedgerEntry_ok _ _ _ _ _ to);
    [| by right | done | apply entry_is_add; [done | by apply entry_is_other_transfer] | done | done].
  wp_step. wp_step; [apply Hlost; [auto | not_quiet] |]. cbv zeta.
  change (add_entry _ _) with (settle x from to t).
  assert (wf (settle x from to t)) as Hwf' by (by apply settle_wf).
  unfold stmt_confirm_reservation. rewrite (update_reservation_ok p) by done.
  simpl. simpl in Hx. rewrite Hx. simpl. apply Hk. auto.
Qed.

Lemma confirm_refines cmd : refines wf (ConfirmTransfer cmd) (confirm_spec cmd).
Proof.
  intros t s Hwf. destruct cmd as [p key trace rid debitID]. unfold ConfirmTransfer, confirm_spec.
  cbn -[String.eqb pair_spec scanLedgerReservation].
  wp_step. wp_step; [finish_outcome; by rewrite H1 |]. rewrite H1.
  wp_step. wp_step; [finish_outcome |]. wp_step. wp_step.
  apply getReservation_spec; [intros; simpl; wp_step; finish_outcome |]. intros s1 Hq1.
  destruct (reservations t !! p) as [r|] eqn:Hr; [| simpl; wp_step; by finish_outcome].
  change (LedgerReservation.ID (scanLedgerReservation r)) with (ReservationRow.id r).
  change (LedgerReservation.Status (scanLedgerReservation r)) with (ReservationRow.status r).
  wp_step. wp_step; [finish_outcome; by rewrite H3 |]. rewrite H3.
  destruct (ReservationRow.status r =s LedgerReservationConfirmed).
  { apply commit_ret_outcome; auto. }
  destruct (ReservationRow.status r =s LedgerReservationCanceled); [wp_step; by finish_outcome |].
  wp_step. apply locked_pair_spec; [done | intros; finish_outcome |]. intros s2 Hq2.
  simpl. destruct (pair_spec _ _ _ t) as [[from to] | e] eqn:Hpair; [| by finish_outcome].
  apply pair_spec_inv in Hpair as (Hf & Ht & _).
  apply (confirm_writes p r from to debitID); try done; [intros; finish_outcome |].
  intros s3 Hq3. by apply commit_ret_outcome; auto 15.
Qed.

Lemma cancel_refines cmd : refines wf (CancelReservation cmd) (cancel_spec cmd).
Proof.
  intros t s Hwf. destruct cmd as [p key trace rid reason]. unfold CancelReservation, cancel_spec.
  cbn -[String.eqb scanLedgerReservation].
  wp_step. wp_step; [finish_outcome; by rewrite H1 |]. rewrite H1.
  wp_step. wp_step; [finish_outcome |]. wp_step. wp_step.
  apply getReservation_spec; [intros; simpl; wp_step; finish_outcome |]. intros s1 Hq1.
  destruct (reservations t !! p) as [r|] eqn:Hr; [| simpl; wp_step; by finish_outcome].
  change (LedgerReservation.ID (scanLedgerReservation r)) with (ReservationRow.id r).
  change (LedgerReservation.Status (scanLedgerReservation r)) with (ReservationRow.status r).
  wp_step. wp_step; [finish_outcome; by rewrite H3 |]. rewrite H3.
  destruct (ReservationRow.status r =s LedgerReservationCanceled).
  { apply commit_ret_outcome; auto. }
  destruct (ReservationRow.status r =s LedgerReservationConfirmed); [wp_step; by finish_outcome |].
  wp_step. wp_step; [finish_outcome |].
  unfold stmt_cancel_reservation. rewrite (update_reservation_ok p) by done.
  apply commit_ret_outcome; auto 15.
Qed.
End Refinement.

(** ** What the ledger promises

    The entries of one transfer, in the order they were written. *)

Definition entries_of (tid : uuid) (t : tables) : list LedgerEntry.t :=
  filter (fun e => e.(LedgerEntry.TransferID) = tid) (ledger_entries t).

(** The entry pair of a transfer: a debit and a credit of the same amount. *)
Definition entry_pair (fromID toID : uuid) (amount : Z) (l : list LedgerEntry.t) : Prop :=
  exists d c, l = [d; c] /\
    d.(LedgerEntry.Direction) = "debit" /\ c.(LedgerEntry.Direction) = "credit" /\
    d.(LedgerEntry.Amount) = amount /\ c.(LedgerEntry.Amount) = amount /\
    d.(LedgerEntry.WalletID) = fromID /\ c.(LedgerEntry.WalletID) = toID.

(** Debits count negative, credits positive. *)
Definition signed_amount (e : LedgerEntry.t) : Z :=
  if e.(LedgerEntry.Direction) =s "debit" then - e.(LedgerEntry.Amount) else e.(LedgerEntry.Amount).

Record ledger_ok (t : tables) : Prop := {
  ok_balanced : sumZ signed_amount (ledger_entries t) = 0;
  ok_double_entry tid : entries_of tid t = [] \/ exists f g a, entry_pair f g a (entries_of tid t);
  ok_confirmed p r : reservations t !! p = Some r ->
    r.(ReservationRow.status) = LedgerReservationConfirmed ->
    exists tid, r.(ReservationRow.transfer_id) = Some tid /\
      entry_pair r.(ReservationRow.from_wallet_id) r.(ReservationRow.to_wallet_id)
        r.(ReservationRow.amount_cents) (entries_of tid t);
  ok_unconfirmed p r : reservations t !! p = Some r ->
    r.(ReservationRow.status) <> LedgerReservationConfirmed -> r.(ReservationRow.transfer_id) = None;
  ok_distinct p p' r r' tid : reservations t !! p = Some r -> reservations t !! p' = Some r' ->
    r.(ReservationRow.transfer_id) = Some tid -> r'.(ReservationRow.transfer_id) = Some tid -> p = p'
}.

(** The life of a reservation row. *)
Inductive row_step (r : ReservationRow.t) : ReservationRow.t -> Prop :=
| row_same : row_step r r
| row_confirm x debitID at_ : r.(ReservationRow.status) = LedgerReservationReserved ->
    row_step r (confirmed_row r x debitID at_)
| row_cancel reason at_ : r.(ReservationRow.status) = LedgerReservationReserved ->
    row_step r (canceled_row r reason at_).

Definition rows_step (t t' : tables) : Prop :=
  forall p r, reservations t !! p = Some r -> exists r', reservations t' !! p = Some r' /\ row_step r r'.

Lemma row_step_trans r1 r2 r3 : row_step r1 r2 -> row_step r2 r3 -> row_step r1 r3.
Proof.
  intros H12 H23.
  destruct H12 as [| x d at_ Hs | reason at_ Hs]; [exact H23 | |];
    destruct H23 as [| ? ? ? Hs' | ? ? Hs']; try (simpl in Hs'; discriminate Hs').
  - by apply row_confirm.
  - by apply row_cancel.
Qed.

#[export] Instance rows_step_preorder : PreOrder rows_step.
Proof.
  split.
  - intros t p r Hr. exists r. split; [done | constructor].
  - intros t1 t2 t3 H12 H23 p r Hr. destruct (H12 p r Hr) as (r2 & Hr2 & ?).
    destruct (H23 p r2 Hr2) as (r3 & Hr3 & ?). exists r3. split; [done |]. by eapply row_step_trans.
Qed.

Lemma entries_of_add tid e t :
  entries_of tid (add_entry e t) =
    (entries_of tid t ++ if decide (e.(LedgerEntry.TransferID) = tid) then [e] else [])%list.
Proof.
  unfold entries_of, add_entry. simpl. by rewrite list.filter_app.
Qed.

Lemma entries_of_none tid t :
  existsb (fun e => bool_decide (e.(LedgerEntry.TransferID) = tid)) (ledger_entries t) = false ->
  entries_of tid t = [].
Proof.
  unfold entries_of. induction (ledger_entries t) as [|e l IH]; simpl; [done |].
  rewrite orb_false_iff, bool_decide_eq_false. intros [Hne Hl]. rewrite filter_cons, decide_False by done. auto.
Qed.

Section Promises.
Context `{Postgres} `{!PostgresOk}.

(** Writing the pair of entries of a transfer that has none. *)
Definition add_pair (d c : LedgerEntry.t) (t : tables) : tables := add_entry c (add_entry d t).

Lemma entries_of_add_pair d c tid t :
  c.(LedgerEntry.TransferID) = d.(LedgerEntry.TransferID) ->
  entries_of tid (add_pair d c t) =
    (entries_of tid t ++ if decide (d.(LedgerEntry.TransferID) = tid) then [d; c] else [])%list.
Proof.
  intros Hc. unfold add_pair. rewrite !entries_of_add, Hc. case_decide; by rewrite <- app_assoc.
Qed.

Lemma ledger_ok_add_pair d c t fromID toID a :
  ledger_ok t -> c.(LedgerEntry.TransferID) = d.(LedgerEntry.TransferID) ->
  entry_pair fromID toID a [d; c] -> entries_of d.(LedgerEntry.TransferID) t = [] ->
  ledger_ok (add_pair d c t).
Proof.
  intros [Hbal Hdbl Hcon Hun Hdis] Htid Hp Hn.
  assert (forall f g a' tid, entry_pair f g a' (entries_of tid t) ->
            entry_pair f g a' (entries_of tid (add_pair d c t))) as Hkeep.
  { intros f g a' tid Hp'. rewrite entries_of_add_pair by done. case_decide as Heq.
    - rewrite <- Heq, Hn in Hp'. by destruct Hp' as (? & ? & ? & _).
    - by rewrite app_nil_r. }
  split; simpl; [| | | done | done].
  - destruct Hp as (d' & c' & [= <- <-] & Hd & Hc & Hda & Hca & _).
    rewrite !sumZ_snoc, Hbal. unfold signed_amount. rewrite Hd, Hc. simpl. lia.
  - intros tid. destruct (Hdbl tid) as [He | (f & g & a' & Hp')]; [| by right; exists f, g, a'; apply Hkeep].
    rewrite entries_of_add_pair, He by done. case_decide; [right | by left]. by exists fromID, toID, a.
  - intros p r Hr Hs. destruct (Hcon p r Hr Hs) as (tid & ? & ?). exists tid. auto.
Qed.

(** Operations that leave entries and reservations alone keep the promise. *)
Lemma ledger_ok_frame t t' :
  ledger_entries t' = ledger_entries t -> reservations t' = reservations t ->
  ledger_ok t -> ledger_ok t'.
Proof.
  intros He Hr [Hbal Hdbl Hcon Hun Hdis].
  split; [| intros tid | intros p r | intros p r | intros p p' r r' tid];
    unfold entries_of in *; rewrite ?He, ?Hr; eauto.
Qed.

Lemma append_spec_inv x t u t' :
  append_spec x t = Ok (u, t') ->
  t' = t \/
  exists d c, t' = add_pair d c t /\
    d.(LedgerEntry.ID) = fresh t /\ c.(LedgerEntry.ID) = fresh (used t) /\
    0 < x.(LedgerTransfer.AmountCents) /\
    d.(LedgerEntry.TransferID) = x.(LedgerTransfer.TransferID) /\
    c.(LedgerEntry.TransferID) = x.(LedgerTransfer.TransferID) /\
    x.(LedgerTransfer.TransferID) ∈ Transfer.ID <$> transfers t /\
    existsb (fun e => bool_decide (e.(LedgerEntry.TransferID) = x.(LedgerTransfer.TransferID)))
      (ledger_entries t) = false /\
    entry_pair x.(LedgerTransfer.FromWalletID) x.(LedgerTransfer.ToWalletID)
      x.(LedgerTransfer.AmountCents) [d; c].
Proof.
  destruct x as [tid f g a cur]. unfold append_spec. simpl.
  destruct (Z.leb_spec a 0); [done |]. case_match; [done |]. case_match; [done |].
  destruct (existsb _ (ledger_entries t)) eqn:He; [intros [= _ <-]; by left |].
  destruct (pair_spec f g cur t) as [[from to] | e]; [| done].
  destruct (existsb _ (transfers t)) eqn:Hx; [| done]. simpl. intros [= _ <-]. right.
  do 2 eexists. split; [reflexivity |]. do 5 (split; [done |]). split.
  - apply existsb_exists in Hx as (y & Hy & Hid). apply bool_decide_eq_true in Hid. subst tid.
    apply list_elem_of_fmap. exists y. by rewrite list_elem_of_In.
  - split; [done |]. do 2 eexists. done.
Qed.

Lemma append_spec_wf x t u t' : wf t -> append_spec x t = Ok (u, t') -> wf t'.
Proof.
  intros Hwf [-> | (d & c & -> & Hd & Hc & Ha & Htd & Htc & Hx & He & d' & c' & Hp)]%append_spec_inv; [done |].
  destruct Hp as ([= <- <-] & ? & ? & Had & Hac & _).
  apply wf_add_entries; try done; rewrite ?Htd; [by rewrite Had | by rewrite Hac | done..].
Qed.

Lemma append_spec_ok x t u t' : ledger_ok t -> append_spec x t = Ok (u, t') -> ledger_ok t'.
Proof.
  intros Hok [-> | (d & c & -> & Hd & Hc & Ha & Htd & Htc & Hx & He & Hp)]%append_spec_inv; [done |].
  eapply ledger_ok_add_pair; [done | congruence | done |]. rewrite Htd. by apply entries_of_none.
Qed.
Lemma reserve_spec_inv cmd t a t' :
  reserve_spec cmd t = Ok (a, t') ->
  exists r, a = scanLedgerReservation r /\
    reservations t' !! cmd.(LedgerReserveCommand.PaymentID) = Some r /\
    (t' = t \/
     reservations t !! cmd.(LedgerReserveCommand.PaymentID) = None /\
     t' = used (set_reservation cmd.(LedgerReserveCommand.PaymentID) r t) /\
     r.(ReservationRow.id) = fresh t /\
     r.(ReservationRow.payment_id) = cmd.(LedgerReserveCommand.PaymentID) /\
     0 < r.(ReservationRow.amount_cents) /\
     r.(ReservationRow.status) = LedgerReservationReserved /\
     r.(ReservationRow.transfer_id) = None /\
     r.(ReservationRow.from_wallet_id) <> r.(ReservationRow.to_wallet_id)).
Proof.
  destruct cmd as [p key trace f g a0 cur]. unfold reserve_spec. simpl.
  case_match; [done |]. destruct (Z.leb_spec a0 0); [done |].
  destruct (bool_decide (f = g)) eqn:Hne; [done |]. apply bool_decide_eq_false in Hne.
  destruct (NormalizeCurrency cur) as [c|]; [| done].
  destruct (reservations t !! p) as [row|] eqn:Hr.
  - case_match; [| done]. intros [= <- <-]. exists row. auto.
  - destruct (pair_spec f g c t); [| done]. intros [= <- <-].
    eexists. split; [reflexivity |]. simpl. rewrite lookup_insert_eq. split; [done |]. by right.
Qed.

Lemma confirm_spec_inv cmd t a t' :
  wf t -> confirm_spec cmd t = Ok (a, t') ->
  exists r, reservations t' !! cmd.(LedgerConfirmCommand.PaymentID) = Some r /\
    r.(ReservationRow.status) = LedgerReservationConfirmed /\
    a = ledgerConfirmationFromReservation (scanLedgerReservation r) /\
    (t' = t \/
     exists r0 from to, reservations t !! cmd.(LedgerConfirmCommand.PaymentID) = Some r0 /\
       r0.(ReservationRow.status) = LedgerReservationReserved /\
       r0.(ReservationRow.id) = cmd.(LedgerConfirmCommand.LedgerReservationID) /\
       r = confirmed_row r0 (settlement r0 t) cmd.(LedgerConfirmCommand.WalletDebitID) (now t) /\
       t' = set_reservation cmd.(LedgerConfirmCommand.PaymentID) r
              (settle (settlement r0 t) from to t)).
Proof.
  intros Hwf. destruct cmd as [p key trace rid debitID]. unfold confirm_spec. cbv beta iota. cbn [LedgerConfirmCommand.PaymentID LedgerConfirmCommand.LedgerReservationID LedgerConfirmCommand.WalletDebitID].
  case_match; [done |]. destruct (reservations t !! p) as [r0|] eqn:Hr; [| done].
  destruct (bool_decide (ReservationRow.id r0 = rid)) eqn:Hid; [| done]. apply bool_decide_eq_true in Hid.
  cbn [negb].
  destruct (String.eqb_spec (ReservationRow.status r0) LedgerReservationConfirmed) as [Hc | Hnc].
  - intros [= <- <-]. exists r0. auto.
  - destruct (String.eqb_spec (ReservationRow.status r0) LedgerReservationCanceled) as [Hx | Hnx]; [done |].
    destruct (pair_spec _ _ _ t) as [[from to]|]; [| done]. intros [= <- <-].
    eexists. split; [apply lookup_insert_eq |]. split; [done |]. split; [done |]. right.
    exists r0, from, to. split; [done |]. split; [| done].
    pose proof (wf_reservation _ Hwf _ _ Hr) as (_ & _ & [? | [? | ?]] & _); done.
Qed.

Lemma cancel_spec_inv cmd t a t' :
  wf t -> cancel_spec cmd t = Ok (a, t') ->
  exists r, reservations t' !! cmd.(LedgerCancelCommand.PaymentID) = Some r /\
    r.(ReservationRow.status) = LedgerReservationCanceled /\
    a = scanLedgerReservation r /\
    (t' = t \/
     exists r0, reservations t !! cmd.(LedgerCancelCommand.PaymentID) = Some r0 /\
       r0.(ReservationRow.status) = LedgerReservationReserved /\
       r = canceled_row r0 cmd.(LedgerCancelCommand.Reason) (now t) /\
       t' = set_reservation cmd.(LedgerCancelCommand.PaymentID) r t).
Proof.
  intros Hwf. destruct cmd as [p key trace rid reason]. unfold cancel_spec. cbv beta iota.
  cbn [LedgerCancelCommand.PaymentID LedgerCancelCommand.Reason].
  case_match; [done |]. destruct (reservations t !! p) as [r0|] eqn:Hr; [| done].
  case_match; [done |].
  destruct (String.eqb_spec (ReservationRow.status r0) LedgerReservationCanceled) as [Hc | Hnc].
  - intros [= <- <-]. exists r0. auto.
  - destruct (String.eqb_spec (ReservationRow.status r0) LedgerReservationConfirmed) as [Hx | Hnx]; [done |].
    intros [= <- <-]. eexists. split; [apply lookup_insert_eq |]. split; [done |]. split; [done |]. right.
    exists r0. split; [done |]. split; [| done].
    pose proof (wf_reservation _ Hwf _ _ Hr) as (_ & _ & [? | [? | ?]] & _); done.
Qed.

Lemma reserve_spec_wf cmd t a t' : wf t -> reserve_spec cmd t = Ok (a, t') -> wf t'.
Proof.
  intros Hwf (r & _ & _ & [-> | (Hn & -> & Hid & Hp & Ha & Hs & _ & Hne)])%reserve_spec_inv; [done |].
  apply wf_insert_reservation; try done. by left.
Qed.

Lemma confirm_spec_wf cmd t a t' : wf t -> confirm_spec cmd t = Ok (a, t') -> wf t'.
Proof.
  intros Hwf (r & _ & _ & _ & [-> | (r0 & from & to & Hr & Hs & _ & -> & ->)])%confirm_spec_inv; [done | | done].
  pose proof (wf_reservation _ Hwf _ _ Hr) as (_ & Ha & _).
  eapply wf_update_reservation; [by apply settle_wf | done | done..| by right; left].
Qed.

Lemma cancel_spec_wf cmd t a t' : wf t -> cancel_spec cmd t = Ok (a, t') -> wf t'.
Proof.
  intros Hwf (r & _ & _ & _ & [-> | (r0 & Hr & Hs & -> & ->)])%cancel_spec_inv; [done | | done].
  eapply wf_update_reservation; [done | done | done.. | by right; right].
Qed.
Lemma reserve_spec_ok cmd t a t' : ledger_ok t -> reserve_spec cmd t = Ok (a, t') -> ledger_ok t'.
Proof.
  intros [Hbal Hdbl Hcon Hun Hdis]
    (r & _ & _ & [-> | (Hn & -> & Hid & Hp & Ha & Hs & Hx & Hne)])%reserve_spec_inv; [done |].
  split; simpl; [exact Hbal | exact Hdbl | | |].
  - intros p' r'. rewrite lookup_insert. case_decide; [| by apply Hcon]. intros [= <-]. by rewrite Hs.
  - intros p' r'. rewrite lookup_insert. case_decide; [| by apply Hun]. by intros [= <-].
  - intros q q' s s' tid. rewrite !lookup_insert.
    repeat case_decide; intros; simplify_eq; eauto; congruence.
Qed.

Lemma cancel_spec_ok cmd t a t' : wf t -> ledger_ok t -> cancel_spec cmd t = Ok (a, t') -> ledger_ok t'.
Proof.
  intros Hwf [Hbal Hdbl Hcon Hun Hdis]
    (r & _ & _ & _ & [-> | (r0 & Hr & Hs & -> & ->)])%cancel_spec_inv; [done | | done].
  assert (r0.(ReservationRow.transfer_id) = None) as Hx by (apply (Hun _ _ Hr); by rewrite Hs).
  split; simpl; [exact Hbal | exact Hdbl | | |].
  - intros p' r'. rewrite lookup_insert. case_decide; [| by apply Hcon]. by intros [= <-].
  - intros p' r'. rewrite lookup_insert. case_decide; [| by apply Hun]. by intros [= <-].
  - intros q q' s s' tid. rewrite !lookup_insert.
    repeat case_decide; intros; simplify_eq; eauto; simpl in *; congruence.
Qed.

(** The entries of a settled transfer. *)
Lemma entries_of_settle x from to tid t :
  wf t -> x.(Transfer.ID) = fresh t ->
  (tid <> fresh t -> entries_of tid (settle x from to t) = entries_of tid t) /\
  entry_pair x.(Transfer.FromWalletID) x.(Transfer.ToWalletID) x.(Transfer.Amount)
    (entries_of (fresh t) (settle x from to t)).
Proof.
  intros Hwf Hid. unfold settle. change (add_entry ?c (add_entry ?d ?t)) with (add_pair d c t).
  rewrite !entries_of_add_pair by done. cbn [LedgerEntry.TransferID]. rewrite Hid. split.
  - intros Hne. rewrite decide_False by done. by rewrite app_nil_r.
  - rewrite decide_True by done. change (entries_of (fresh t) (add_transfer x t)) with (entries_of (fresh t) t).
    rewrite (entries_of_none _ t) by (by apply no_entries_fresh). do 2 eexists. done.
Qed.

(** The transfers of confirmed reservations have entries, so a new transfer is none of them. *)
Lemma confirmed_not_fresh t p r tid :
  wf t -> ledger_ok t -> reservations t !! p = Some r ->
  r.(ReservationRow.transfer_id) = Some tid -> tid <> fresh t.
Proof.
  intros Hwf Hok Hr Htid ->.
  assert (r.(ReservationRow.status) = LedgerReservationConfirmed) as Hs.
  { destruct (decide (r.(ReservationRow.status) = LedgerReservationConfirmed)) as [|Hns]; [done |].
    apply (ok_unconfirmed _ Hok _ _ Hr) in Hns. congruence. }
  destruct (ok_confirmed _ Hok _ _ Hr Hs) as (tid & Htid' & d & c & He & _). simplify_eq.
  by rewrite entries_of_none in He by (by apply no_entries_fresh).
Qed.

Lemma confirm_spec_ok cmd t a t' : wf t -> ledger_ok t -> confirm_spec cmd t = Ok (a, t') -> ledger_ok t'.
Proof.
  intros Hwf Hok
    (r & _ & _ & _ & [-> | (r0 & from & to & Hr & Hs & _ & -> & ->)])%confirm_spec_inv; [done | | done].
  set (p := LedgerConfirmCommand.PaymentID cmd) in *. set (x := settlement r0 t).
  assert (forall tid, tid <> fresh t -> entries_of tid (settle x from to t) = entries_of tid t) as Hold
    by (intros tid; by apply entries_of_settle).
  pose proof (proj2 (entries_of_settle x from to (fresh t) t Hwf eq_refl)) as Hnew.
  pose proof Hok as [Hbal Hdbl Hcon Hun Hdis].
  split; simpl.
  - rewrite !sumZ_snoc, Hbal. unfold signed_amount. simpl. lia.
  - intros tid. change (entries_of tid (set_reservation _ _ ?u)) with (entries_of tid u).
    destruct (decide (tid = fresh t)) as [-> | Hne]; [right; eauto |]. rewrite Hold by done. apply Hdbl.
  - intros q r'. change (entries_of ?tid (set_reservation _ _ ?u)) with (entries_of tid u).
    rewrite lookup_insert. case_decide as Hq.
    + intros [= <-] _. exists (fresh t). split; [done |]. exact Hnew.
    + intros Hr' Hs'. destruct (Hcon _ _ Hr' Hs') as (tid & Htid & Hp). exists tid. split; [done |].
      rewrite Hold; [done |]. by apply (confirmed_not_fresh t q r').
  - intros q r'. rewrite lookup_insert. case_decide; [| by apply Hun]. by intros [= <-].
  - intros q q' s s' tid. rewrite !lookup_insert.
    repeat case_decide; intros Hq Hq' Ht Ht'; simplify_eq; [done | | | eauto]; simpl in *; simplify_eq; exfalso.
    + by apply (confirmed_not_fresh t q' s' (fresh t) Hwf Hok).
    + by apply (confirmed_not_fresh t q s (fresh t) Hwf Hok).
Qed.
End Promises.

Section Stability.
Context `{Postgres} `{!PostgresOk}.

(** Rows that are new, or changed only by a legal step. *)
Lemma rows_step_frame t t' : reservations t' = reservations t -> rows_step t t'.
Proof. intros Hr p r Hp. rewrite Hr. exists r. split; [done | constructor]. Qed.

Lemma rows_step_set p r r' t u :
  reservations t !! p = Some r -> row_step r r' -> reservations u = <[p := r']> (reservations t) ->
  rows_step t u.
Proof.
  intros Hr Hs Hu q s Hq. rewrite Hu, lookup_insert. case_decide; [naive_solver |].
  exists s. split; [done | constructor].
Qed.

Lemma append_spec_rows x t u t' : append_spec x t = Ok (u, t') -> rows_step t t'.
Proof. intros [-> | (d & c & -> & _)]%append_spec_inv; by apply rows_step_frame. Qed.

Lemma reserve_spec_rows cmd t a t' : reserve_spec cmd t = Ok (a, t') -> rows_step t t'.
Proof.
  intros (r & _ & _ & [-> | (Hn & -> & _)])%reserve_spec_inv; [reflexivity |].
  intros q s Hq. simpl. rewrite lookup_insert. case_decide; [congruence |].
  exists s. split; [done | constructor].
Qed.

Lemma confirm_spec_rows cmd t a t' : wf t -> confirm_spec cmd t = Ok (a, t') -> rows_step t t'.
Proof.
  intros Hwf (r & _ & _ & _ & [-> | (r0 & from & to & Hr & Hs & _ & -> & ->)])%confirm_spec_inv;
    [reflexivity | | done].
  eapply rows_step_set; [done | by apply row_confirm | done].
Qed.

Lemma cancel_spec_rows cmd t a t' : wf t -> cancel_spec cmd t = Ok (a, t') -> rows_step t t'.
Proof.
  intros Hwf (r & _ & _ & _ & [-> | (r0 & Hr & Hs & -> & ->)])%cancel_spec_inv; [reflexivity | | done].
  eapply rows_step_set; [done | by apply row_cancel | done].
Qed.

Lemma append_spec_idempotent x : idempotent (append_spec x).
Proof.
  destruct x as [tid f g a cur]. intros t u t'. unfold append_spec.
  case_match; [done |]. case_match; [done |]. case_match; [done |].
  destruct (existsb _ (ledger_entries t)) eqn:He; [by intros [= <- <-]; rewrite He |].
  destruct (pair_spec f g cur t) as [[from to] | e]; [| done].
  case_match; [done |]. intros [= <- <-]. simpl. rewrite <- app_assoc, existsb_app, He. simpl.
  by rewrite bool_decide_eq_true_2.
Qed.

Lemma reserve_spec_idempotent cmd : idempotent (reserve_spec cmd).
Proof.
  destruct cmd as [p key trace f g a cur]. intros t u t'. unfold reserve_spec.
  case_match; [done |]. case_match; [done |]. case_match; [done |].
  destruct (NormalizeCurrency cur) as [c|]; [| done].
  destruct (reservations t !! p) as [row|] eqn:Hr.
  - case_match eqn:Hsame; [| done]. intros [= <- <-]. by rewrite Hr, Hsame.
  - destruct (pair_spec f g c t); [| done]. intros [= <- <-]. simpl. rewrite lookup_insert_eq.
    unfold sameReservationPayload. simpl.
    by rewrite !bool_decide_eq_true_2, !String.eqb_refl, Z.eqb_refl.
Qed.

(** Confirming twice, whatever the second debit identifier, confirms once. *)
Lemma confirm_spec_again cmd cmd' t a t' :
  wf t -> confirm_spec cmd t = Ok (a, t') ->
  cmd'.(LedgerConfirmCommand.PaymentID) = cmd.(LedgerConfirmCommand.PaymentID) ->
  cmd'.(LedgerConfirmCommand.LedgerReservationID) = cmd.(LedgerConfirmCommand.LedgerReservationID) ->
  cmd'.(LedgerConfirmCommand.WalletDebitID) <> uuid_Nil ->
  cmd'.(LedgerConfirmCommand.IdempotencyKey) <> "" ->
  confirm_spec cmd' t' = Ok (a, t').
Proof.
  intros Hwf Hs Hp Hrid Hd Hk. pose proof Hs as Hs'.
  apply confirm_spec_inv in Hs as (r & Hr & Hst & -> & Hcase); [| done].
  assert (cmd.(LedgerConfirmCommand.PaymentID) <> uuid_Nil /\
          cmd.(LedgerConfirmCommand.LedgerReservationID) <> uuid_Nil /\
          r.(ReservationRow.id) = cmd.(LedgerConfirmCommand.LedgerReservationID)) as (Hpn & Hrn & Hid).
  { destruct cmd as [p key trace rid debitID]. unfold confirm_spec in Hs'. simpl in *.
    destruct (bool_decide (p = uuid_Nil)) eqn:?; [done |].
    destruct (bool_decide (rid = uuid_Nil)) eqn:?; [done |].
    rewrite bool_decide_eq_false in *. do 2 (split; [done |]).
    destruct Hcase as [-> | (r0 & from & to & Hr0 & _ & Hid & -> & _)]; [| done].
    rewrite Hr in Hs'. case_match; [done |].
    destruct (bool_decide (ReservationRow.id r = rid)) eqn:Hb; [| done].
    by apply bool_decide_eq_true in Hb. }
  destruct cmd' as [p' key' trace' rid' debitID']. simpl in *. subst p' rid'. unfold confirm_spec.
  rewrite !(proj2 (bool_decide_eq_false _)), (proj2 (String.eqb_neq _ _)) by done. simpl.
  by rewrite Hr, bool_decide_eq_true_2, Hst by done.
Qed.

Lemma cancel_spec_again cmd cmd' t a t' :
  wf t -> cancel_spec cmd t = Ok (a, t') ->
  cmd'.(LedgerCancelCommand.PaymentID) = cmd.(LedgerCancelCommand.PaymentID) ->
  cmd'.(LedgerCancelCommand.LedgerReservationID) = cmd.(LedgerCancelCommand.LedgerReservationID) ->
  cmd'.(LedgerCancelCommand.IdempotencyKey) <> "" ->
  cancel_spec cmd' t' = Ok (a, t').
Proof.
  intros Hwf Hs Hp Hrid Hk. pose proof Hs as Hs'.
  apply cancel_spec_inv in Hs as (r & Hr & Hst & -> & Hcase); [| done].
  assert (cmd.(LedgerCancelCommand.PaymentID) <> uuid_Nil /\
          cmd.(LedgerCancelCommand.LedgerReservationID) <> uuid_Nil /\
          r.(ReservationRow.id) = cmd.(LedgerCancelCommand.LedgerReservationID)) as (Hpn & Hrn & Hid).
  { destruct cmd as [p key trace rid reason]. unfold cancel_spec in Hs'. simpl in *.
    destruct (bool_decide (p = uuid_Nil)) eqn:?; [done |].
    destruct (bool_decide (rid = uuid_Nil)) eqn:?; [done |].
    rewrite bool_decide_eq_false in *. do 2 (split; [done |]).
    revert Hs'. case_match; [done |].
    destruct (reservations t !! p) as [r0|] eqn:Hr0; [| done].
    destruct (bool_decide (ReservationRow.id r0 = rid)) eqn:Hb; [| done]. intros _.
    apply bool_decide_eq_true in Hb. destruct Hcase as [-> | (r1 & Hr1 & _ & -> & _)]; by simplify_eq. }
  destruct cmd' as [p' key' trace' rid' reason']. simpl in *. subst p' rid'. unfold cancel_spec.
  rewrite !(proj2 (bool_decide_eq_false _)), (proj2 (String.eqb_neq _ _)) by done. simpl.
  by rewrite Hr, bool_decide_eq_true_2, Hst by done.
Qed.
End Stability.

(** ** Properties *)

Section Properties.
Context `{Postgres} `{!PostgresOk}.

(** [ReserveTransfer] is atomic under every fault schedule: a payment gets
    at most one reservation, the same command again is answered with it, a
    different one is refused with [ErrAlreadyExists], and a failed run leaves
    no row. *)
Theorem reserve_atomic cmd : refines wf (ReserveTransfer cmd) (reserve_spec cmd).
Proof. apply reserve_refines. Qed.

(** C9: [ConfirmTransfer] is atomic under every fault schedule: the transfer,
    its debit entry, its credit entry and the reservation's CONFIRMED state are
    written together or not at all, a second confirmation is answered from the
    row, and a canceled or unknown reservation is refused. *)
Theorem confirm_atomic cmd : refines wf (ConfirmTransfer cmd) (confirm_spec cmd).
Proof. apply confirm_refines. Qed.

(** [CancelReservation] is atomic under every fault schedule, answers a
    repeated cancellation from the row and refuses a confirmed one. *)
Theorem cancel_atomic cmd : refines wf (CancelReservation cmd) (cancel_spec cmd).
Proof. apply cancel_refines. Qed.

(** [AppendTransferEntries] writes both entries of a transfer or none under
    every fault schedule, and writes nothing for a transfer that has entries:
    an event delivered twice is recorded once. *)
Theorem append_atomic x :
  refines wf (AppendTransferEntries x) (append_spec x) /\ idempotent (append_spec x).
Proof. split; [apply append_refines | apply append_spec_idempotent]. Qed.

(** A confirmation that succeeds leaves a CONFIRMED reservation whose
    transfer has exactly one debit of the sender and one credit of the
    recipient, both of the reserved amount; it changes no wallet balance. *)
Theorem confirm_settles cmd t s a c' :
  wf t -> ledger_ok t -> ConfirmTransfer cmd (Conn t None s) = (Ok a, c') ->
  wallets (committed c') = wallets t /\
  exists r tid,
    reservations (committed c') !! cmd.(LedgerConfirmCommand.PaymentID) = Some r /\
    r.(ReservationRow.status) = LedgerReservationConfirmed /\
    r.(ReservationRow.transfer_id) = Some tid /\ a.(LedgerConfirmation.TransferID) = tid /\
    entry_pair r.(ReservationRow.from_wallet_id) r.(ReservationRow.to_wallet_id)
      r.(ReservationRow.amount_cents) (entries_of tid (committed c')).
Proof.
  intros Hwf Hok Hrun. pose proof (confirm_refines cmd t s Hwf) as Hr.
  unfold wp in Hr. rewrite Hrun in Hr. destruct Hr as [_ Ho].
  inversion Ho as [a' t' Hs | | |]; subst. clear Ho Hrun.
  pose proof (confirm_spec_ok _ _ _ _ Hwf Hok Hs) as Hok'.
  apply confirm_spec_inv in Hs as (r & Hr & Hst & -> & Hcase); [| done]. split.
  - destruct Hcase as [-> | (r0 & from & to & _ & _ & _ & _ & ->)]; done.
  - destruct (ok_confirmed _ Hok' _ _ Hr Hst) as (tid & Htid & Hp).
    exists r, tid. do 3 (split; [done |]). split; [| done]. simpl. by rewrite Htid.
Qed.
End Properties.

(** ** The properties at work *)

Definition demo_reserve : LedgerReserveCommand.t :=
  LedgerReserveCommand.mk 50%N "50:reserve" "trace" 1%N 2%N 300 "usd".

Definition after_reserve : tables :=
  match reserve_spec demo_reserve two_wallets with Ok (_, t) => t | Err _ => two_wallets end.

Definition demo_confirm : LedgerConfirmCommand.t := LedgerConfirmCommand.mk 50%N "50:confirm" "trace" 3%N 9%N.
Definition demo_cancel : LedgerCancelCommand.t := LedgerCancelCommand.mk 50%N "50:cancel" "trace" 3%N "declined".

Lemma two_wallets_ledger_ok : ledger_ok two_wallets.
Proof. split; [done | by left | by intros ? ? ?..]. Qed.

Lemma after_reserve_ok : wf after_reserve /\ ledger_ok after_reserve.
Proof.
  unfold after_reserve. destruct (reserve_spec demo_reserve two_wallets) as [[r t]|] eqn:Hd.
  - split; [by eapply reserve_spec_wf, Hd; apply two_wallets_wf |].
    by eapply reserve_spec_ok, Hd; apply two_wallets_ledger_ok.
  - split; [apply two_wallets_wf | apply two_wallets_ledger_ok].
Qed.

Lemma reserve_atomic_witness :
  let run := ReserveTransfer demo_reserve (Conn two_wallets None []) in
  is_Ok (fst run) = true /\
  outcome (reserve_spec demo_reserve two_wallets) (~ quiet []) two_wallets (fst run) (committed (snd run)).
Proof.
  intros run. split; [by vm_compute |].
  exact (proj2 (wp_elim _ _ _ (reserve_atomic demo_reserve two_wallets [] two_wallets_wf))).
Defined.

Lemma confirm_atomic_witness :
  let s := [NoFault; NoFault; NoFault; NoFault; NoFault; FailBefore] in
  let run := ConfirmTransfer demo_confirm (Conn after_reserve None s) in
  fst run = Err PgUnavailable /\ ledger_entries (committed (snd run)) = [] /\
  outcome (confirm_spec demo_confirm after_reserve) (~ quiet s) after_reserve (fst run) (committed (snd run)).
Proof.
  intros s run. split; [by vm_compute |]. split; [by vm_compute |].
  exact (proj2 (wp_elim _ _ _ (confirm_atomic demo_confirm after_reserve s (proj1 after_reserve_ok)))).
Defined.

Lemma cancel_atomic_witness :
  let run := CancelReservation demo_cancel (Conn after_reserve None []) in
  is_Ok (fst run) = true /\
  outcome (cancel_spec demo_cancel after_reserve) (~ quiet []) after_reserve (fst run) (committed (snd run)).
Proof.
  intros run. split; [by vm_compute |].
  exact (proj2 (wp_elim _ _ _ (cancel_atomic demo_cancel after_reserve [] (proj1 after_reserve_ok)))).
Defined.

Definition demo_transfer : LedgerTransfer.t := LedgerTransfer.mk 3%N 1%N 2%N 400 "USD".

Definition after_transfer : tables :=
  match transfer_spec "" background alice 1%N 2%N 400 two_wallets with Ok (_, t) => t | Err _ => two_wallets end.

Lemma after_transfer_wf : wf after_transfer.
Proof.
  unfold after_transfer. destruct (transfer_spec _ _ _ _ _ _ _) as [[x t]|] eqn:Ht; [| apply two_wallets_wf].
  eapply transfer_spec_wf; [apply two_wallets_wf | exact Ht].
Qed.

Lemma append_atomic_witness :
  let run := AppendTransferEntries demo_transfer (Conn after_transfer None []) in
  LedgerEntry.Direction <$> ledger_entries (committed (snd run)) = ["debit"; "credit"] /\
  outcome (append_spec demo_transfer after_transfer) (~ quiet []) after_transfer (fst run) (committed (snd run)).
Proof.
  intros run. split; [by vm_compute |].
  exact (proj2 (wp_elim _ _ _ (proj1 (append_atomic demo_transfer) after_transfer [] after_transfer_wf))).
Defined.

Lemma confirm_settles_witness :
  exists a c', ConfirmTransfer demo_confirm (Conn after_reserve None []) = (Ok a, c') /\
    wallets (committed c') = wallets after_reserve /\
    LedgerEntry.Amount <$> ledger_entries (committed c') = [300; 300].
Proof.
  destruct (ConfirmTransfer demo_confirm (Conn after_reserve None [])) as [r c'] eqn:Hrun.
  destruct r as [a | e]; [| exfalso; revert Hrun; vm_compute; discriminate].
  pose proof (confirm_settles demo_confirm after_reserve [] a c' (proj1 after_reserve_ok)
                (proj2 after_reserve_ok) Hrun) as [Hw _].
  exists a, c'. split; [done |]. split; [exact Hw |]. revert Hrun. vm_compute. by intros [= _ <-].
Defined.
