(* ===== verification/LedgerPages.v ===== *)
(** * LedgerPages: reading a wallet's entries page by page.

    [ListLedgerEntries] of [internal/repo/wallets.go] with its keyset query.
    Following the cursors it returns reads every entry of the wallet once,
    newest first. *)

From stdpp Require Import sorting.
From S2P Require Import Prelude GoStrings Domain Json Database Outbox Fixtures WalletRepo LedgerRepo.

#[local] Open Scope string_scope.
#[local] Open Scope Z_scope.

(** ** The query

    [ORDER BY created_at DESC, id DESC] and the row comparison
    [(created_at, id) < (cursor_created_at, cursor_id)]. *)

Definition before (t1 : time) (i1 : uuid) (t2 : time) (i2 : uuid) : Prop :=
  t1 < t2 \/ t1 = t2 /\ (i1 < i2)%N.

Definition newest_first (e1 e2 : LedgerEntry.t) : Prop :=
  ~ before e1.(LedgerEntry.CreatedAt) e1.(LedgerEntry.ID) e2.(LedgerEntry.CreatedAt) e2.(LedgerEntry.ID).

#[export] Instance before_dec t1 i1 t2 i2 : Decision (before t1 i1 t2 i2).
Proof. unfold before. apply _. Defined.
#[export] Instance newest_first_dec e1 e2 : Decision (newest_first e1 e2).
Proof. unfold newest_first. apply _. Defined.

Definition after_cursor (cursor : LedgerCursor.t) (e : LedgerEntry.t) : Prop :=
  cursor.(LedgerCursor.Valid) = false \/
  before e.(LedgerEntry.CreatedAt) e.(LedgerEntry.ID) cursor.(LedgerCursor.CreatedAt) cursor.(LedgerCursor.ID).

#[export] Instance after_cursor_dec c e : Decision (after_cursor c e).
Proof. unfold after_cursor. apply _. Defined.

Definition of_wallet (walletID : uuid) (t : tables) : list LedgerEntry.t :=
  filter (fun e => e.(LedgerEntry.WalletID) = walletID) (ledger_entries t).

Definition q_ListLedgerEntries (walletID : uuid) (limit : Z) (cursor : LedgerCursor.t) (t : tables)
    : res error (list LedgerEntry.t) :=
  if limit <? 0 then Err PgInvalidLimit
  else Ok (take (Z.to_nat limit)
             (merge_sort newest_first (filter (after_cursor cursor) (of_wallet walletID t)))).

Definition ListLedgerEntries (walletID : uuid) (cursor : LedgerCursor.t) (limit : Z)
    : db (list LedgerEntry.t * LedgerCursor.t) :=
  guard (limit <? 1) ErrInvalidAmount ;!
  let queryLimit := wrap64 (limit + 1) in
  let! entries := query (q_ListLedgerEntries walletID (wrap32 queryLimit) cursor) in
  if limit <? Z.of_nat (length entries) then
    let entries := take (Z.to_nat limit) entries in
    match list.last entries with
    | Some e => ret (entries, LedgerCursor.mk e.(LedgerEntry.CreatedAt) e.(LedgerEntry.ID) true)
    | None => ret (entries, LedgerCursor.zero)
    end
  else ret (entries, LedgerCursor.zero).

(** ** Reading on: the client follows the cursors until there is none *)

Fixpoint read_pages (fuel : nat) (walletID : uuid) (cursor : LedgerCursor.t) (limit : Z)
    : db (list LedgerEntry.t) :=
  match fuel with
  | O => throw ErrInvalidCursor
  | S fuel =>
      let! page := ListLedgerEntries walletID cursor limit in
      let '(entries, next) := page in
      if next.(LedgerCursor.Valid)
      then let! rest := read_pages fuel walletID next limit in ret (entries ++ rest)%list
      else ret entries
  end.

(** ** Order *)

#[export] Instance newest_first_total : Total newest_first.
Proof. intros e1 e2. unfold newest_first, before. lia. Qed.

#[export] Instance newest_first_trans : Transitive newest_first.
Proof. intros e1 e2 e3. unfold newest_first, before. lia. Qed.

Definition sorted_entries (walletID : uuid) (t : tables) : list LedgerEntry.t :=
  merge_sort newest_first (of_wallet walletID t).

(** Entries are told apart by their identifiers. *)
Definition distinct_ids (l : list LedgerEntry.t) : Prop := NoDup (LedgerEntry.ID <$> l).

Lemma distinct_ids_eq l e1 e2 :
  distinct_ids l -> e1 ∈ l -> e2 ∈ l -> e1.(LedgerEntry.ID) = e2.(LedgerEntry.ID) -> e1 = e2.
Proof.
  unfold distinct_ids. intros Hnd H1 H2 Heq.
  apply list_elem_of_lookup in H1 as [i Hi]. apply list_elem_of_lookup in H2 as [j Hj].
  assert (i = j) as ->; [| congruence].
  apply (NoDup_lookup _ i j (LedgerEntry.ID e1) Hnd); rewrite list_lookup_fmap, ?Hi, ?Hj; simpl; congruence.
Qed.

(** Selecting commutes with sorting, since no two entries tie. *)
Lemma filter_merge_sort (P : LedgerEntry.t -> Prop) `{!forall e, Decision (P e)} l :
  distinct_ids l -> merge_sort newest_first (filter P l) = filter P (merge_sort newest_first l).
Proof.
  intros Hnd. apply (StronglySorted_unique_strong newest_first).
  - intros e1 e2. rewrite merge_sort_Permutation, !list_elem_of_filter, merge_sort_Permutation.
    intros [_ H1] [_ H2]. unfold newest_first, before. intros.
    eapply distinct_ids_eq; [done | done | done | lia].
  - apply (StronglySorted_merge_sort newest_first).
  - assert (StronglySorted newest_first (merge_sort newest_first l)) as Hs
      by apply (StronglySorted_merge_sort newest_first).
    induction Hs as [|e l' Hl IH Hall]; [constructor |].
    rewrite filter_cons. case_decide; [| done]. constructor; [done |].
    rewrite list.Forall_forall in *. intros x Hx. apply list_elem_of_filter in Hx as [_ Hx]. auto.
  - by rewrite !merge_sort_Permutation.
Qed.

Lemma sorted_tail (l1 l2 : list LedgerEntry.t) e :
  StronglySorted newest_first (l1 ++ e :: l2)%list -> distinct_ids (l1 ++ e :: l2)%list ->
  filter (fun x => before x.(LedgerEntry.CreatedAt) x.(LedgerEntry.ID)
                     e.(LedgerEntry.CreatedAt) e.(LedgerEntry.ID)) (l1 ++ e :: l2)%list = l2.
Proof.
  intros Hs Hnd.
  assert (forall x, x ∈ l1 -> newest_first x e) as H1.
  { intros x Hx. eapply (StronglySorted_app_1_elem_of newest_first l1); [done | done | set_solver]. }
  apply StronglySorted_app_1_r in Hs. apply StronglySorted_inv in Hs as [_ H2].
  rewrite list.Forall_forall in H2.
  rewrite list.filter_app, filter_cons.
  rewrite decide_False by (unfold before; lia).
  rewrite (filter_none _ l1), filter_all.
  - done.
  - intros x Hx. apply H2 in Hx as Hn.
    assert (x.(LedgerEntry.ID) <> e.(LedgerEntry.ID)).
    { intros Heq. unfold distinct_ids in Hnd. rewrite fmap_app, fmap_cons in Hnd.
      apply list.NoDup_app in Hnd as (_ & _ & Hnd). apply list.NoDup_cons in Hnd as [Hnot _]. apply Hnot.
      rewrite <- Heq. apply list_elem_of_fmap. eauto. }
    unfold newest_first, before in *. lia.
  - intros x Hx. exact (H1 x Hx).
Qed.

(** ** Pages *)

Section Pages.
Context `{Postgres}.

(** [c] stands after [seen] in the sorted entries [seen ++ rest]. *)
Definition stands (c : LedgerCursor.t) (walletID : uuid) (t : tables) (seen rest : list LedgerEntry.t) : Prop :=
  sorted_entries walletID t = (seen ++ rest)%list /\
  filter (after_cursor c) (sorted_entries walletID t) = rest.

Lemma of_wallet_distinct walletID t : wf t -> distinct_ids (of_wallet walletID t).
Proof.
  intros Hwf. pose proof (wf_entry_ids _ Hwf) as Hnd. unfold distinct_ids, of_wallet.
  eapply sublist_NoDup; [exact Hnd |]. by apply fmap_sublist, sublist_filter.
Qed.

Lemma sorted_distinct walletID t : wf t -> distinct_ids (sorted_entries walletID t).
Proof.
  intros Hwf. unfold distinct_ids, sorted_entries. rewrite merge_sort_Permutation.
  by apply of_wallet_distinct.
Qed.

Lemma stands_start walletID t : stands LedgerCursor.zero walletID t [] (sorted_entries walletID t).
Proof. split; [done |]. apply filter_all. by left. Qed.

(** The cursor of the last entry read stands after it. *)
Lemma stands_next walletID t seen e rest :
  wf t -> sorted_entries walletID t = (seen ++ e :: rest)%list ->
  stands (LedgerCursor.mk e.(LedgerEntry.CreatedAt) e.(LedgerEntry.ID) true) walletID t
    (seen ++ [e])%list rest.
Proof.
  intros Hwf Heq. split; [by rewrite <- app_assoc |].
  etransitivity; [| apply (sorted_tail seen rest e)].
  - rewrite Heq. apply list_filter_iff. intros x. unfold after_cursor. simpl. naive_solver.
  - rewrite <- Heq. apply (StronglySorted_merge_sort newest_first).
  - rewrite <- Heq. by apply sorted_distinct.
Qed.

Lemma page_spec walletID c limit t seen rest s :
  wf t -> 1 <= limit < 2 ^ 31 - 1 -> stands c walletID t seen rest -> quiet s ->
  wp (ListLedgerEntries walletID c limit)
     (fun r c' => (exists s', quiet s' /\ c' = Conn t None s') /\
        exists next, r = Ok (take (Z.to_nat limit) rest, next) /\
          if decide (limit < Z.of_nat (length rest))
          then (exists e, e ∈ rest /\ next = LedgerCursor.mk e.(LedgerEntry.CreatedAt) e.(LedgerEntry.ID) true) /\
               stands next walletID t (seen ++ take (Z.to_nat limit) rest)%list (drop (Z.to_nat limit) rest)
          else next = LedgerCursor.zero)
     (Conn t None s).
Proof.
  intros Hwf Hl [Hsorted Hrest] Hq. unfold ListLedgerEntries. wp_step. wp_step; [lia |].
  wp_step. wp_step; [done |]. unfold q_ListLedgerEntries.
  rewrite wrap64_id, wrap32_id by (unfold int64, int32; lia). rewrite (proj2 (Z.ltb_ge _ _)) by lia.
  rewrite filter_merge_sort by (by apply of_wallet_distinct).
  change (merge_sort newest_first (of_wallet walletID t)) with (sorted_entries walletID t). rewrite Hrest.
  wp_beta. rewrite length_take.
  case_decide as Hlen.
  - rewrite (proj2 (Z.ltb_lt _ _)) by lia. rewrite take_take.
    replace (Nat.min (Z.to_nat limit) (Z.to_nat (limit + 1))) with (Z.to_nat limit) by lia.
    destruct (list.last (take (Z.to_nat limit) rest)) as [e|] eqn:He.
    2: { apply last_None in He. apply (f_equal length) in He. rewrite length_take in He. simpl in He. lia. }
    apply last_Some in He as [l1 He]. wp_step. split; [eauto |]. eexists. split; [done |].
    split; [exists e; split; [| done]; rewrite <- (take_drop (Z.to_nat limit) rest), He; set_solver |].
    rewrite He, app_assoc. apply stands_next; [done |].
    rewrite Hsorted, <- (take_drop (Z.to_nat limit) rest) at 1. rewrite He. by rewrite <- !app_assoc.
  - rewrite (proj2 (Z.ltb_ge _ _)) by lia. wp_step. split; [eauto |]. exists LedgerCursor.zero. split; [| done].
    rewrite !take_ge by lia. done.
Qed.

Lemma read_pages_from walletID limit t fuel : forall c seen rest s,
  wf t -> 1 <= limit < 2 ^ 31 - 1 -> stands c walletID t seen rest -> quiet s ->
  (length rest < fuel)%nat ->
  wp (read_pages fuel walletID c limit)
     (fun r c' => r = Ok rest /\ committed c' = t /\ working c' = None) (Conn t None s).
Proof.
  induction fuel as [|fuel IH]; intros c seen rest s Hwf Hl Hst Hq Hfuel; [lia |]. simpl.
  wp_step. eapply wp_mono; [by apply (page_spec walletID c limit t seen rest) |].
  intros r c' [(s' & Hq' & ->) (next & -> & Hnext)]. wp_beta.
  case_decide as Hlen.
  - destruct Hnext as [(e & _ & ->) Hst']. cbn [LedgerCursor.Valid]. wp_step. eapply wp_mono.
    + eapply (IH _ _ (drop (Z.to_nat limit) rest)); [done | done | exact Hst' | done |]. rewrite length_drop. lia.
    + intros r c' (-> & ? & ?). wp_step. by rewrite take_drop.
  - subst next. cbn [LedgerCursor.Valid LedgerCursor.zero]. wp_step. by rewrite take_ge by lia.
Qed.
End Pages.

(** Following the cursors of [ListLedgerEntries] from the first page reads
    every entry of the wallet exactly once, newest first, for every page size
    that fits an [int32] limit, and it ends within as many pages as there are
    entries. *)
Theorem pages_read_everything `{Postgres} walletID limit t s :
  wf t -> 1 <= limit < 2 ^ 31 - 1 -> quiet s ->
  let run := read_pages (S (length (ledger_entries t))) walletID LedgerCursor.zero limit (Conn t None s) in
  fst run = Ok (sorted_entries walletID t) /\ committed (snd run) = t /\
  sorted_entries walletID t ≡ₚ of_wallet walletID t.
Proof.
  intros Hwf Hl Hq run.
  assert (sorted_entries walletID t ≡ₚ of_wallet walletID t) as Hp by apply merge_sort_Permutation.
  assert (length (sorted_entries walletID t) < S (length (ledger_entries t)))%nat as Hlen.
  { rewrite (Permutation_length Hp). unfold of_wallet. apply Nat.lt_succ_r, sublist_length, sublist_filter. }
  pose proof (wp_elim _ _ _ (read_pages_from walletID limit t (S (length (ledger_entries t)))
    LedgerCursor.zero [] (sorted_entries walletID t) s Hwf Hl (stands_start walletID t) Hq Hlen))
    as (? & ? & _). done.
Qed.

(** Two transfers from Alice, read one entry at a time. *)
Definition busy : tables :=
  let t1 := played two_wallets (transfer_spec "" background alice 1%N 2%N 400) in
  let t2 := played t1 (append_spec (LedgerTransfer.mk 3%N 1%N 2%N 400 "USD")) in
  let t3 := played t2 (transfer_spec "" background alice 1%N 2%N 50) in
  played t3 (append_spec (LedgerTransfer.mk 7%N 1%N 2%N 50 "USD")).

Lemma busy_wf : wf busy.
Proof.
  unfold busy. cbv zeta.
  apply played_wf; [| intros ? ? Hw Hs; exact (append_spec_wf _ _ _ _ Hw Hs)]. apply played_wf; [| intros ? ? Hw Hs; exact (transfer_spec_wf _ _ _ _ _ _ _ _ _ Hw Hs)].
  apply played_wf; [| intros ? ? Hw Hs; exact (append_spec_wf _ _ _ _ Hw Hs)]. apply played_wf; [| intros ? ? Hw Hs; exact (transfer_spec_wf _ _ _ _ _ _ _ _ _ Hw Hs)].
  apply two_wallets_wf.
Qed.

Lemma pages_read_everything_witness :
  let run := read_pages (S (length (ledger_entries busy))) 1%N LedgerCursor.zero 1 (Conn busy None []) in
  fst run = Ok (sorted_entries 1%N busy) /\
  LedgerEntry.Amount <$> sorted_entries 1%N busy = [50; 400].
Proof.
  intros run. split; [| by vm_compute].
  exact (proj1 (pages_read_everything 1%N 1 busy [] busy_wf ltac:(lia) ltac:(by constructor))).
Defined.
