(* ===== verification/LedgerConsumer.v ===== *)
(** * LedgerConsumer: from the wallet's events to ledger entries.

    [internal/ledgerconsumer]: decoding and validation of [tx.initiated], the record
    handler, and the way of a transfer from the wallet service through the outbox
    and the broker to its two ledger entries. *)

From S2P Require Import Prelude GoStrings Domain GoTime Json Database Outbox Kafka DeadLetter Consumer.
From S2P Require Import WalletRepo LedgerRepo.
From S2P Require Import Publisher.

#[local] Open Scope string_scope.
#[local] Open Scope Z_scope.

(** [event.TransactionInitiated] *)
Module TransactionInitiated.
Record t := mk {
  TransferID : string;
  FromWalletID : string;
  ToWalletID : string;
  AmountCents : Z;
  Currency : string;
  InitiatedAt : time
}.

Definition of_json (document : option json) : res json_error t :=
  let? fields := json_object document in
  let? transfer_id := get_string "transfer_id" fields in
  let? from_wallet_id := get_string "from_wallet_id" fields in
  let? to_wallet_id := get_string "to_wallet_id" fields in
  let? amount_cents := get_int64 "amount_cents" fields in
  let? currency := get_string "currency" fields in
  let? initiated_at := get_time "initiated_at" fields in
  Ok (mk transfer_id from_wallet_id to_wallet_id amount_cents currency initiated_at).
End TransactionInitiated.

Section Decode.
Context `{JsonText} `{Uuid}.

(** Errors are kept as their texts, which is what a parked record shows of them. *)
Definition parseRequiredUUID (raw field : string) : res string uuid :=
  match uuid_Parse raw with
  | Some id => Ok id
  | None => Err (field ++ " must be a valid UUID")
  end.

Definition decodeTransfer (payload : string) : res string LedgerTransfer.t :=
  match TransactionInitiated.of_json (json_Unmarshal payload) with
  | Err e => Err ("decode json: " ++ json_Error e)
  | Ok initiated =>
      let? transferID := parseRequiredUUID initiated.(TransactionInitiated.TransferID) "transfer_id" in
      let? fromWalletID := parseRequiredUUID initiated.(TransactionInitiated.FromWalletID) "from_wallet_id" in
      let? toWalletID := parseRequiredUUID initiated.(TransactionInitiated.ToWalletID) "to_wallet_id" in
      if bool_decide (fromWalletID = toWalletID) then Err "from_wallet_id and to_wallet_id must differ"
      else if initiated.(TransactionInitiated.AmountCents) <=? 0 then Err "amount_cents must be positive"
      else
        match NormalizeCurrency initiated.(TransactionInitiated.Currency) with
        | Err _ => Err "unsupported currency"
        | Ok currency =>
            if IsZero initiated.(TransactionInitiated.InitiatedAt) then Err "initiated_at is required"
            else Ok (LedgerTransfer.mk transferID fromWalletID toWalletID
                       initiated.(TransactionInitiated.AmountCents) currency)
        end
  end.
End Decode.

Section Handler.
Context `{Postgres} `{Uuid} `{Broker} `{JsonText}.

Definition HandleRecord (now : time) (record : KafkaRecord.t) : prog (reader tables) error unit :=
  match decodeTransfer record.(KafkaRecord.Value) with
  | Err cause => deadLetter id now record cause
  | Ok transfer => run_app (AppendTransferEntries transfer) ;! CommitRecord record
  end.
End Handler.

(** ** Soundness *)

Section Soundness.
Context `{Postgres} `{!PostgresOk} `{Uuid} `{Broker} `{JsonText}.

Definition has_entries (tid : uuid) (t : tables) : Prop := entries_of tid t <> [].

(** A record is handled when its transfer has entries, or it is parked with its
    bytes and the reason. *)
Definition handled (r : KafkaRecord.t) (t : tables) (l : log) : Prop :=
  match decodeTransfer r.(KafkaRecord.Value) with
  | Ok x => has_entries x.(LedgerTransfer.TransferID) t
  | Err cause => exists parked now, parked ∈ l /\
      parked.(KafkaRecord.Topic) = TopicFor r.(KafkaRecord.Topic) /\
      parked.(KafkaRecord.Key) = r.(KafkaRecord.Key) /\
      parked.(KafkaRecord.Value) = Encode (FromKafka r cause) now
  end.

Definition ledger_inv (t : tables) : Prop := wf t /\ ledger_ok t.

Lemma handled_log r t l l' : handled r t l -> l `prefix_of` l' -> handled r t l'.
Proof.
  unfold handled. destruct (decodeTransfer _); [done |]. intros (parked & now & Hin & Hrest) [k ->].
  exists parked, now. split; [set_solver | done].
Qed.

Lemma has_entries_append x t u t' tid :
  append_spec x t = Ok (u, t') -> has_entries tid t -> has_entries tid t'.
Proof.
  unfold has_entries. intros [-> | (d & c & -> & _ & _ & _ & Hd & Hc & _)]%append_spec_inv; [done |].
  rewrite entries_of_add_pair by congruence. by destruct (entries_of tid t).
Qed.

Lemma append_has_entries x t u t' :
  append_spec x t = Ok (u, t') -> has_entries x.(LedgerTransfer.TransferID) t'.
Proof.
  destruct x as [tid f g a cur]. unfold append_spec, has_entries. simpl.
  case_match; [done |]. case_match; [done |]. case_match; [done |].
  destruct (existsb _ (ledger_entries t)) eqn:He.
  - intros [= _ <-]. apply existsb_exists in He as (e & Hin%list_elem_of_In & Heq%bool_decide_eq_true).
    intros Hnil. assert (e ∈ entries_of tid t) as Hf by by apply list_elem_of_filter.
    rewrite Hnil in Hf. set_solver.
  - destruct (pair_spec f g cur t) as [[from to] | e]; [| done]. case_match; [done |]. intros [= _ <-].
    rewrite !entries_of_add. simpl. rewrite decide_True by done. by destruct (entries_of tid t).
Qed.

Lemma handle_record_sound now : sound_handler ledger_inv handled (HandleRecord now).
Proof.
  intros record w s [Hwf Hok]. unfold HandleRecord. destruct (decodeTransfer record.(KafkaRecord.Value)) as [x | cause] eqn:Hd.
  - wp_step. apply wp_run_app. eapply wp_mono; [by apply append_refines |]. intros r c1 [_ Ho].
    assert (forall u t', append_spec x (app w) = Ok (u, t') ->
      let w1 := Reader t' (topics w) (offsets w) in ledger_inv t' /\ onward handled w w1 /\ handled record t' (topics w)) as Hstep.
    { intros u t' Hs. split; [split; [by eapply append_spec_wf | by eapply append_spec_ok] |]. split.
      - split; [| done]. intros r'. unfold handled. simpl. destruct (decodeTransfer r'.(KafkaRecord.Value)); [| done].
        by apply (has_entries_append x _ u).
      - unfold handled. rewrite Hd. by eapply append_has_entries. }
    inversion Ho as [u t' Hs | e Hs | Hl | u t' Hl Hs]; subst.
    + destruct (Hstep _ _ Hs) as (Hi & Hon & Hh). by apply commit_sound.
    + by apply sound_error.
    + by apply sound_error.
    + destruct (Hstep _ _ Hs) as (Hi & Hon & Hh). by apply sound_error.
  - apply dead_letter_sound; [by apply handled_log | done |]. intros l r Ht Hk Hv Hin. unfold handled. rewrite Hd.
    by exists r, now.
Qed.

(** C20: what the ledger consumer acknowledges is done: over what any
    polls return until the run is cancelled, under any loss of round trips to the
    database and the broker, each record whose handling answered without error has, at the end, exactly one debit
    and one credit entry of its transfer, or lies in the dead-letter topic with its
    key, its bytes and the reason when it cannot be decoded; the ledger keeps its
    double entry whatever happens. *)
Theorem acknowledged_records_are_kept now polls w s :
  wf (app w) -> ledger_ok (app w) ->
  let run := Run (HandleRecord now) polls (Conn w None s) in
  let w' := committed (snd run) in
  ledger_ok (app w') /\
  exists answers, fst run = Ok answers /\
    Forall2 (fun record answer => answer = Ok tt ->
      match decodeTransfer record.(KafkaRecord.Value) with
      | Ok x => exists from to amount, entry_pair from to amount (entries_of x.(LedgerTransfer.TransferID) (app w'))
      | Err cause => exists parked at_, parked ∈ topics w' /\
          parked.(KafkaRecord.Topic) = TopicFor record.(KafkaRecord.Topic) /\
          parked.(KafkaRecord.Key) = record.(KafkaRecord.Key) /\
          parked.(KafkaRecord.Value) = Encode (FromKafka record cause) at_
      end) (before_end polls) answers.
Proof.
  intros Hwf Hok run w'.
  pose proof (wp_run _ polls _ _ (each_record_handled ledger_inv handled (HandleRecord now) (before_end polls)
                (handle_record_sound now) w s (conj Hwf Hok))) as Hrun.
  apply wp_elim in Hrun as (_ & [_ Hok'] & _ & answers & Hr & Hall). fold run in Hok', Hr, Hall. fold w' in Hok', Hall.
  split; [exact Hok' |]. exists answers. split; [exact Hr |]. eapply list.Forall2_impl; [exact Hall |].
  intros record answer Hh Hans. specialize (Hh Hans). unfold handled in Hh.
  destruct (decodeTransfer record.(KafkaRecord.Value)) as [x | cause]; [| exact Hh].
  by destruct (ok_double_entry _ Hok' x.(LedgerTransfer.TransferID)).
Qed.
End Soundness.

(** ** The way of a transfer *)

Section Pipeline.
Context `{Postgres} `{!PostgresOk} `{Uuid} `{!UuidOk} `{Broker} `{JsonTextOk}.

Lemma initiated_fields fields (a b c d e f : json) :
  fields = [("transfer_id", a); ("from_wallet_id", b); ("to_wallet_id", c); ("amount_cents", d);
            ("currency", e); ("initiated_at", f)] ->
  json_field "transfer_id" fields = Some a /\ json_field "from_wallet_id" fields = Some b /\
  json_field "to_wallet_id" fields = Some c /\ json_field "amount_cents" fields = Some d /\
  json_field "currency" fields = Some e /\ json_field "initiated_at" fields = Some f.
Proof. intros ->. vm_compute. repeat split. Qed.

Lemma initiated_round_trip x currency :
  int64 x.(Transfer.Amount) ->
  TransactionInitiated.of_json (Some (MarshalTransactionInitiated x currency)) =
    Ok (TransactionInitiated.mk (uuid_String x.(Transfer.ID)) (uuid_String x.(Transfer.FromWalletID))
          (uuid_String x.(Transfer.ToWalletID)) x.(Transfer.Amount) currency x.(Transfer.CreatedAt)).
Proof.
  unfold int64. intros Ha. unfold TransactionInitiated.of_json, MarshalTransactionInitiated. cbn [json_object res_bind].
  set (fields := cons _ _). destruct (initiated_fields fields _ _ _ _ _ _ eq_refl) as (E1 & E2 & E3 & E4 & E5 & E6).
  unfold get_string, get_int64, get_int, get_time. rewrite E1, E2, E3, E4, E5, E6.
  by rewrite (proj2 (Z.leb_le (- 2 ^ 63) x.(Transfer.Amount))), (proj2 (Z.ltb_lt x.(Transfer.Amount) (2 ^ 63))) by lia.
Qed.

Lemma decode_initiated x currency c :
  x.(Transfer.FromWalletID) <> x.(Transfer.ToWalletID) -> 0 < x.(Transfer.Amount) < 2 ^ 63 ->
  x.(Transfer.CreatedAt) <> zero_time -> NormalizeCurrency currency = Ok c ->
  json_ok (MarshalTransactionInitiated x currency) = true ->
  decodeTransfer (json_Marshal (MarshalTransactionInitiated x currency)) =
    Ok (LedgerTransfer.mk x.(Transfer.ID) x.(Transfer.FromWalletID) x.(Transfer.ToWalletID) x.(Transfer.Amount) c).
Proof.
  intros Hne Ha Ht Hc Hok. unfold decodeTransfer. rewrite json_Unmarshal_Marshal by exact Hok.
  rewrite initiated_round_trip by (unfold int64; lia). unfold parseRequiredUUID. simpl. rewrite !uuid_Parse_String. simpl.
  rewrite bool_decide_eq_false_2 by done. rewrite (proj2 (Z.leb_gt _ _)) by lia. rewrite Hc.
  unfold IsZero. by rewrite (proj2 (Z.eqb_neq _ _)).
Qed.

(** What a granted transfer leaves to the ledger: the event, whose payload is the
    transfer, and tables in which the entries can be written. *)
Lemma transfer_spec_pays topic ctx user fromID toID amount t x t' :
  wf t -> transfer_spec topic ctx user fromID toID amount t = Ok (x, t') ->
  exists e from,
    outbox_events t' = (outbox_events t ++ [e])%list /\ wallets t !! fromID = Some from /\
    e.(OutboxEvent.Payload) = MarshalTransactionInitiated x from.(Wallet.Currency) /\
    x.(Transfer.FromWalletID) = fromID /\ x.(Transfer.ToWalletID) = toID /\ x.(Transfer.Amount) = amount /\
    x.(Transfer.CreatedAt) = now t /\ fromID <> toID /\ 0 < amount < 2 ^ 63 /\
    (is_Ok (NormalizeCurrency from.(Wallet.Currency)) = true ->
     exists d c, append_spec (LedgerTransfer.mk x.(Transfer.ID) fromID toID amount from.(Wallet.Currency)) t'
       = Ok (tt, add_entry c (add_entry d t')) /\
       entry_pair fromID toID amount (entries_of x.(Transfer.ID) (add_entry c (add_entry d t')))).
Proof.
  intros Hwf Hs. unfold transfer_spec in Hs. case_match eqn:Ha; [done |]. case_match; [done |].
  destruct (wallets t !! fromID) as [from |] eqn:Hf; [| done]. destruct (wallets t !! toID) as [to |] eqn:Ht; [| done].
  case_match; [done |]. case_match eqn:Hcur; [done |]. case_match eqn:Hbal; [done |]. case_match; [done |].
  injection Hs as <- <-. apply negb_false_iff, String.eqb_eq in Hcur. apply Z.leb_gt in Ha. apply Z.ltb_ge in Hbal.
  destruct (wf_wallet _ Hwf _ _ Hf) as (_ & _ & Hrange & _).
  eexists _, from. split; [simpl; autorewrite with tables; reflexivity |]. do 6 (split; [done |]). split; [done |].
  split; [lia |]. intros Hc. unfold append_spec. rewrite (proj2 (Z.leb_gt _ _)) by lia. rewrite bool_decide_eq_false_2 by done.
  rewrite Hc. cbn [negb Transfer.ID Transfer.with_ToBalance Transfer.with_FromBalance].
  set (t' := add_outbox _ _). assert (ledger_entries t' = ledger_entries t) as He by (simpl; by autorewrite with tables).
  rewrite He, (no_entries_fresh t Hwf). unfold pair_spec.
  assert (wallets t' !! fromID = Some (Wallet.with_UpdatedAt (now t) (Wallet.with_Balance (from.(Wallet.Balance) - amount) from)))
    as -> by (simpl; rewrite (moved_lookup _ _ _ _ from to) by done; by rewrite decide_False, decide_True).
  assert (wallets t' !! toID = Some (Wallet.with_UpdatedAt (now t) (Wallet.with_Balance (to.(Wallet.Balance) + amount) to)))
    as -> by (simpl; rewrite (moved_lookup _ _ _ _ from to) by done; by rewrite decide_True).
  simpl. rewrite Hcur, String.eqb_refl. simpl.
  rewrite existsb_app. simpl. rewrite bool_decide_eq_true_2 by done. rewrite orb_true_r. simpl.
  set (d := LedgerEntry.mk (fresh t') fromID (fresh t) "debit" amount (from.(Wallet.Balance) - amount) (now t')).
  exists d, (LedgerEntry.mk (fresh (add_entry d t')) toID (fresh t) "credit" amount (to.(Wallet.Balance) + amount) (now t')).
  split; [reflexivity |]. rewrite !entries_of_add. unfold d. cbn [LedgerEntry.TransferID]. rewrite !decide_True by done.
  unfold entries_of at 1. rewrite He. fold (entries_of (fresh t) t). rewrite entries_of_none by (by apply no_entries_fresh).
  simpl. eexists _, _. split; [reflexivity |]. by repeat split.
Qed.

(** C21: a transfer ends up in the ledger: after a transfer is granted, the outbox holds
    its event, and consuming any record that carries the event, with no further loss,
    leaves the transfer with one debit entry of the sender and one credit entry of
    the recipient, both of the amount. *)
Theorem transfer_reaches_ledger topic ctx user fromID toID amount t s x c' :
  wf t -> ledger_ok t -> now t <> zero_time ->
  (forall w, wallets t !! fromID = Some w -> w.(Wallet.Currency) = DefaultCurrency) ->
  CreateTransfer topic ctx user fromID toID amount (Conn t None s) = (Ok x, c') ->
  exists e, outbox_events (committed c') = (outbox_events t ++ [e])%list /\
    forall r at_ l o quiet_s, carries r e -> json_ok e.(OutboxEvent.Payload) = true -> quiet quiet_s ->
      let w' := committed (snd (HandleRecord at_ r (Conn (Reader (committed c') l o) None quiet_s))) in
      entry_pair fromID toID amount (entries_of x.(Transfer.ID) (app w')).
Proof.
  intros Hwf Hok Hnow Hcur Hrun. pose proof (transfer_refines topic ctx user fromID toID amount t s Hwf) as Hr.
  unfold wp in Hr. rewrite Hrun in Hr. destruct Hr as [_ Ho]. inversion Ho as [a t' Hs Ha Heq | | |]. subst a t'. clear Ho Hrun.
  pose proof (transfer_spec_wf _ _ _ _ _ _ _ _ _ Hwf Hs) as Hwf'.
  destruct (transfer_spec_pays _ _ _ _ _ _ _ _ _ Hwf Hs)
    as (e & from & Hout & Hfrom & Hpay & Hxf & Hxt & Hxa & Hxc & Hne & Hamt & Hentries).
  exists e. split; [exact Hout |]. intros r at_ l o sq (_ & _ & Hv) Hjson Hq.
  rewrite Hpay in Hv, Hjson. rewrite (Hcur from Hfrom) in *. unfold HandleRecord.
  rewrite Hv, (decode_initiated x DefaultCurrency DefaultCurrency) by (try done; congruence || lia).
  destruct (Hentries eq_refl) as (d & c & Happ & Hpair). rewrite Hxf, Hxt, Hxa.
  assert (forall w s', wp (CommitRecord r) (fun _ (c : conn (reader tables)) => app (committed c) = app w) (Conn w None s')) as Hcommit.
  { intros w s'. unfold CommitRecord. by wp_step. }
  cbv zeta. enough (wp (run_app (AppendTransferEntries (LedgerTransfer.mk x.(Transfer.ID) fromID toID amount DefaultCurrency)) ;! CommitRecord r)
    (fun _ c => entry_pair fromID toID amount (entries_of x.(Transfer.ID) (app (committed c))))
    (Conn (Reader (committed c') l o) None sq)) as Hwp by exact (wp_elim _ _ _ Hwp).
  wp_step. apply wp_run_app. eapply wp_mono; [by apply append_refines |]. intros ans c1 [_ Ho]. cbn [app] in Ho. rewrite Happ in Ho.
  inversion Ho as [u t1 Hs1 Hu Ht1 | ? Hbad | Hl | ? ? Hl _]; [| done | done | done].
  injection Hs1 as _ Hs1. subst ans. eapply wp_mono; [apply Hcommit |]. intros ? c2 Hc2. cbv beta in Hc2. rewrite Hc2. cbn [app].
  congruence.
Qed.
End Pipeline.
