(* ===== verification/WalletService.v ===== *)
(** * WalletService: [internal/wallet/service.go].

    The application layer of the wallet service: it validates, normalises the
    currency, checks that the caller owns the wallet, and calls the repository.
    Its [Store] interface is instantiated by [WalletRepo] and [LedgerPages], as
    [cmd/wallet] does. *)

From S2P Require Import Prelude GoStrings Domain Json Database Outbox WalletRepo LedgerRepo LedgerPages.

#[local] Open Scope string_scope.
#[local] Open Scope Z_scope.

Module Service.

Definition defaultLedgerLimit : Z := 50.
Definition maxLedgerLimit : Z := 100.

Section Operations.
Context `{Postgres} `{Uuid}.

Definition CreateWallet (userID : uuid) (currency : string) : db Wallet.t :=
  let! normalized := lift (NormalizeCurrency currency) in
  WalletRepo.CreateWallet userID normalized.

Definition GetWallet (userID walletID : uuid) : db Wallet.t :=
  let! wallet := WalletRepo.GetWallet walletID in
  guard (negb (bool_decide (wallet.(Wallet.UserID) = userID))) ErrNotFound ;!
  ret wallet.

Definition GetBalance (userID walletID : uuid) : db Wallet.t := GetWallet userID walletID.

Definition CreateTransfer (outboxTopic : string) (ctx : context) (userID fromWalletID toWalletID : uuid)
    (amount : Z) : db Transfer.t :=
  guard (amount <=? 0) ErrInvalidAmount ;!
  guard (bool_decide (fromWalletID = toWalletID)) ErrInvalidTransfer ;!
  WalletRepo.CreateTransfer outboxTopic ctx userID fromWalletID toWalletID amount.

Definition DebitForSaga (userID : uuid) (cmd : SagaDebitCommand.t) : db SagaWalletOperation.t :=
  guard (bool_decide (cmd.(SagaDebitCommand.PaymentID) = uuid_Nil)
         || bool_decide (cmd.(SagaDebitCommand.FromWalletID) = uuid_Nil)
         || (cmd.(SagaDebitCommand.IdempotencyKey) =s "")) ErrInvalidTransfer ;!
  guard (cmd.(SagaDebitCommand.AmountCents) <=? 0) ErrInvalidAmount ;!
  let! currency := lift (NormalizeCurrency cmd.(SagaDebitCommand.Currency)) in
  let cmd := SagaDebitCommand.with_Currency currency cmd in
  (if bool_decide (userID = uuid_Nil) then ret tt
   else let! wallet := GetWallet userID cmd.(SagaDebitCommand.FromWalletID) in
        guard (negb (wallet.(Wallet.Currency) =s cmd.(SagaDebitCommand.Currency))) ErrCurrencyMismatch) ;!
  WalletRepo.DebitForSaga cmd.

Definition CompensateDebit (cmd : SagaCompensationCommand.t) : db SagaWalletOperation.t :=
  guard (bool_decide (cmd.(SagaCompensationCommand.PaymentID) = uuid_Nil)
         || bool_decide (cmd.(SagaCompensationCommand.FromWalletID) = uuid_Nil)
         || (cmd.(SagaCompensationCommand.IdempotencyKey) =s "")) ErrInvalidTransfer ;!
  guard (cmd.(SagaCompensationCommand.AmountCents) <? 0) ErrInvalidAmount ;!
  let! cmd :=
    if cmd.(SagaCompensationCommand.Currency) =s "" then ret cmd
    else let! currency := lift (NormalizeCurrency cmd.(SagaCompensationCommand.Currency)) in
         ret (SagaCompensationCommand.with_Currency currency cmd) in
  WalletRepo.CompensateDebit cmd.

Definition ListLedger (userID walletID : uuid) (cursor : LedgerCursor.t) (limit : Z)
    : db (list LedgerEntry.t * LedgerCursor.t) :=
  let limit := if limit =? 0 then defaultLedgerLimit else limit in
  guard ((limit <? 1) || (maxLedgerLimit <? limit)) ErrInvalidAmount ;!
  let! wallet := GetWallet userID walletID in
  ListLedgerEntries wallet.(Wallet.ID) cursor limit.
End Operations.

(** ** Contracts *)

Section Contracts.
Context `{Postgres} `{Uuid}.

Definition owned_spec (userID walletID : uuid) (t : tables) : res error Wallet.t :=
  match wallets t !! walletID with
  | Some w => if bool_decide (w.(Wallet.UserID) = userID) then Ok w else Err ErrNotFound
  | None => Err ErrNotFound
  end.

Definition create_spec (userID : uuid) (currency : string) (t : tables) : res error (Wallet.t * tables) :=
  match NormalizeCurrency currency with
  | Err e => Err e
  | Ok c => stmt_CreateWallet userID c t
  end.

Definition debit_service_spec (userID : uuid) (cmd : SagaDebitCommand.t) (t : tables)
    : res error (SagaWalletOperation.t * tables) :=
  let '(SagaDebitCommand.mk paymentID walletID amount currency key) := cmd in
  if bool_decide (paymentID = uuid_Nil) || bool_decide (walletID = uuid_Nil) || (key =s "")
  then Err ErrInvalidTransfer
  else if amount <=? 0 then Err ErrInvalidAmount
  else match NormalizeCurrency currency with
       | Err e => Err e
       | Ok c =>
           let cmd := SagaDebitCommand.mk paymentID walletID amount c key in
           if bool_decide (userID = uuid_Nil) then debit_spec cmd t
           else match owned_spec userID walletID t with
                | Err e => Err e
                | Ok w => if w.(Wallet.Currency) =s c then debit_spec cmd t else Err ErrCurrencyMismatch
                end
       end.

Definition compensate_service_spec (cmd : SagaCompensationCommand.t) (t : tables)
    : res error (SagaWalletOperation.t * tables) :=
  let '(SagaCompensationCommand.mk paymentID walletID debitID amount currency key reason) := cmd in
  if bool_decide (paymentID = uuid_Nil) || bool_decide (walletID = uuid_Nil) || (key =s "")
  then Err ErrInvalidTransfer
  else if amount <? 0 then Err ErrInvalidAmount
  else if currency =s "" then compensate_spec cmd t
  else match NormalizeCurrency currency with
       | Err e => Err e
       | Ok c => compensate_spec (SagaCompensationCommand.mk paymentID walletID debitID amount c key reason) t
       end.
End Contracts.

(** ** Refinement *)

Section Refinement.
Context `{Postgres} `{!PostgresOk} `{Uuid}.

(** The ownership check reads and does not write. *)
Lemma GetWallet_spec userID walletID (Q : res error Wallet.t -> conn tables -> Prop) t s :
  (forall s', (quiet s -> quiet s') -> ~ quiet s -> Q (Err unavailable) (Conn t None s')) ->
  (forall s', (quiet s -> quiet s') -> Q (owned_spec userID walletID t) (Conn t None s')) ->
  wp (GetWallet userID walletID) Q (Conn t None s).
Proof.
  intros Hf Hn. unfold GetWallet, WalletRepo.GetWallet. wp_step. wp_step. wp_step. wp_step.
  - simpl. wp_step. by apply Hf.
  - unfold q_GetWallet. unfold owned_spec in Hn. specialize (Hn s').
    destruct (wallets t !! walletID) as [w|]; simpl; wp_step; [| by apply Hn].
    destruct (bool_decide (Wallet.UserID w = userID)); wp_step; wp_step; [done | | |]; by try apply Hn.
Qed.

Lemma create_wallet_refines userID currency : refines wf (CreateWallet userID currency) (create_spec userID currency).
Proof.
  intros t s Hwf. unfold CreateWallet, create_spec, WalletRepo.CreateWallet. wp_step. wp_step.
  destruct (NormalizeCurrency currency) as [c|]; [| by finish_outcome].
  wp_step; [finish_outcome |]. simpl. split; [by finish_outcome |]. intros. split; [done |].
  by eapply outcome_lost_after.
Qed.

Lemma service_transfer_refines topic ctx user fromID toID amount :
  refines wf (CreateTransfer topic ctx user fromID toID amount)
             (transfer_spec topic ctx user fromID toID amount).
Proof.
  intros t s Hwf. unfold CreateTransfer.
  wp_step. wp_step; [finish_outcome; unfold transfer_spec; by rewrite H2 |].
  wp_step. wp_step.
  { finish_outcome. unfold transfer_spec. rewrite H2. apply bool_decide_eq_true in H3. by rewrite decide_True. }
  by apply transfer_refines.
Qed.

(** Reads that lose a round trip leave the same obligation as before them. *)
Lemma refines_after {A} (p : db A) (sp : tables -> res error (A * tables)) t s s' :
  refines wf p sp -> wf t -> (quiet s -> quiet s') ->
  wp p (fun r c' => working c' = None /\ outcome (sp t) (~ quiet s) t r (committed c')) (Conn t None s').
Proof.
  intros Hr Hwf Hq. eapply wp_mono; [by apply Hr |]. intros r c' [Hw Ho]. split; [done |].
  eapply outcome_weaken; [done |]. tauto.
Qed.

Lemma service_debit_refines userID cmd :
  refines wf (DebitForSaga userID cmd) (debit_service_spec userID cmd).
Proof.
  intros t s Hwf. destruct cmd as [p w a cur key]. unfold DebitForSaga, debit_service_spec.
  cbn -[NormalizeCurrency String.eqb Z.leb WalletRepo.DebitForSaga debit_spec].
  wp_step. wp_step; [finish_outcome; by rewrite H2 |]. rewrite H2.
  wp_step. wp_step; [finish_outcome; by rewrite H3 |]. rewrite H3.
  wp_step. wp_step. destruct (NormalizeCurrency cur) as [c|]; [| by finish_outcome].
  cbn -[String.eqb WalletRepo.DebitForSaga debit_spec]. wp_step.
  destruct (bool_decide (userID = uuid_Nil)).
  { wp_step. apply refines_after; [apply debit_refines | done | done]. }
  wp_step. apply GetWallet_spec; [intros; finish_outcome |]. intros s1 Hq1.
  destruct (owned_spec userID w t) as [wal|]; [| by finish_outcome].
  destruct (Wallet.Currency wal =s c); wp_step; try done; [| by finish_outcome].
  apply refines_after; [apply debit_refines | done | done].
Qed.

Lemma service_compensate_refines cmd :
  refines wf (CompensateDebit cmd) (compensate_service_spec cmd).
Proof.
  intros t s Hwf. destruct cmd as [p w d a cur key reason]. unfold CompensateDebit, compensate_service_spec.
  cbn -[NormalizeCurrency String.eqb Z.ltb WalletRepo.CompensateDebit compensate_spec].
  wp_step. wp_step; [finish_outcome; by rewrite H2 |]. rewrite H2.
  wp_step. wp_step; [finish_outcome; by rewrite H3 |]. rewrite H3.
  wp_step. destruct (cur =s "").
  { wp_step. apply refines_after; [apply compensate_refines | done | done]. }
  wp_step. wp_step. destruct (NormalizeCurrency cur) as [c|]; [| by finish_outcome]. wp_step.
  apply refines_after; [apply compensate_refines | done | done].
Qed.

Lemma owned_spec_inv userID walletID t w :
  owned_spec userID walletID t = Ok w -> wallets t !! walletID = Some w /\ w.(Wallet.UserID) = userID.
Proof.
  unfold owned_spec. destruct (wallets t !! walletID); [| done]. case_match eqn:Hb; [| done].
  intros [= <-]. by apply bool_decide_eq_true in Hb.
Qed.

(** A service debit is a repository debit in the default currency, of a wallet
    the caller owns when it names itself. *)
Lemma debit_service_spec_inv userID p w a cur key t o t' :
  debit_service_spec userID (SagaDebitCommand.mk p w a cur key) t = Ok (o, t') ->
  debit_spec (SagaDebitCommand.mk p w a DefaultCurrency key) t = Ok (o, t') /\
  (userID <> uuid_Nil -> exists wal, wallets t !! w = Some wal /\ wal.(Wallet.UserID) = userID).
Proof.
  unfold debit_service_spec. case_match; [done |]. case_match; [done |].
  destruct (NormalizeCurrency cur) as [c|] eqn:Hc; [| done]. apply NormalizeCurrency_inv in Hc as ->.
  destruct (bool_decide (userID = uuid_Nil)) eqn:Hu.
  - apply bool_decide_eq_true in Hu. done.
  - destruct (owned_spec userID w t) as [wal|] eqn:Ho; [| done]. case_match; [| done].
    apply owned_spec_inv in Ho as [? ?]. intros. split; [done |]. eauto.
Qed.

Lemma compensate_service_spec_inv cmd t o t' :
  compensate_service_spec cmd t = Ok (o, t') ->
  exists cur, compensate_spec (SagaCompensationCommand.with_Currency cur cmd) t = Ok (o, t').
Proof.
  destruct cmd as [p w d a cur key reason]. unfold compensate_service_spec.
  case_match; [done |]. case_match; [done |]. case_match; [by eexists |].
  destruct (NormalizeCurrency cur) as [c|]; [| done]. by exists c.
Qed.
End Refinement.

End Service.
