(* ===== verification/Accounts.v ===== *)
(** * Accounts: the wallet and ledger services over one database.

    The requests the two services serve, run in any order and under any fault
    schedule while the clock moves.  What they keep: the invariant of the tables,
    the money of the system, the double entry of the ledger and the one-way life
    of a reservation. *)

From S2P Require Import Prelude GoStrings Domain Json Database Outbox Fixtures.
From S2P Require Import WalletRepo LedgerRepo LedgerPages WalletService.

#[local] Open Scope string_scope.
#[local] Open Scope Z_scope.

Inductive request :=
| RCreateWallet (userID : uuid) (currency : string)
| RCreateTransfer (topic : string) (ctx : context) (userID fromID toID : uuid) (amount : Z)
| RDebitForSaga (userID : uuid) (cmd : SagaDebitCommand.t)
| RCompensateDebit (cmd : SagaCompensationCommand.t)
| RAppendTransferEntries (x : LedgerTransfer.t)
| RReserveTransfer (cmd : LedgerReserveCommand.t)
| RConfirmTransfer (cmd : LedgerConfirmCommand.t)
| RCancelReservation (cmd : LedgerCancelCommand.t).

Section Requests.
Context `{Postgres} `{Uuid}.

Definition serve (q : request) : db unit :=
  match q with
  | RCreateWallet u c => Service.CreateWallet u c ;! ret tt
  | RCreateTransfer topic ctx u f g a => Service.CreateTransfer topic ctx u f g a ;! ret tt
  | RDebitForSaga u cmd => Service.DebitForSaga u cmd ;! ret tt
  | RCompensateDebit cmd => Service.CompensateDebit cmd ;! ret tt
  | RAppendTransferEntries x => AppendTransferEntries x
  | RReserveTransfer cmd => ReserveTransfer cmd ;! ret tt
  | RConfirmTransfer cmd => ConfirmTransfer cmd ;! ret tt
  | RCancelReservation cmd => CancelReservation cmd ;! ret tt
  end.

Definition forget {A} (r : res error (A * tables)) : res error (unit * tables) :=
  match r with Ok (_, t) => Ok (tt, t) | Err e => Err e end.

Definition serve_spec (q : request) (t : tables) : res error (unit * tables) :=
  match q with
  | RCreateWallet u c => forget (Service.create_spec u c t)
  | RCreateTransfer topic ctx u f g a => forget (transfer_spec topic ctx u f g a t)
  | RDebitForSaga u cmd => forget (Service.debit_service_spec u cmd t)
  | RCompensateDebit cmd => forget (Service.compensate_service_spec cmd t)
  | RAppendTransferEntries x => append_spec x t
  | RReserveTransfer cmd => forget (reserve_spec cmd t)
  | RConfirmTransfer cmd => forget (confirm_spec cmd t)
  | RCancelReservation cmd => forget (cancel_spec cmd t)
  end.

(** Any sequence of requests, each under its own fault schedule, between ticks
    of the clock. *)
Inductive reaches (t0 : tables) : tables -> Prop :=
| reaches_refl : reaches t0 t0
| reaches_serve t q s : reaches t0 t -> reaches t0 (committed (snd (serve q (Conn t None s))))
| reaches_tick t n : reaches t0 t -> reaches t0 (with_now n t).
End Requests.

Section Facts.
Context `{Postgres} `{!PostgresOk} `{Uuid}.

Lemma refines_forget {A} (p : db A) (sp : tables -> res error (A * tables)) :
  refines wf p sp -> refines wf (p ;! ret tt) (fun t => forget (sp t)).
Proof.
  intros Hr t s Hwf. wp_step. eapply wp_mono; [by apply Hr |]. intros r c' [Hw Ho].
  inversion Ho as [a t' Hs | e Hs | Hl | a t' Hl Hs]; subst; simpl.
  - wp_step. split; [done |]. apply outcome_done. by rewrite Hs.
  - split; [done |]. apply outcome_refused. by rewrite Hs.
  - split; [done |]. by apply outcome_lost_before.
  - split; [done |]. eapply outcome_lost_after; [done |]. by rewrite Hs.
Qed.

Lemma serve_refines q : refines wf (serve q) (serve_spec q).
Proof.
  destruct q; simpl.
  - apply refines_forget, Service.create_wallet_refines.
  - apply refines_forget, Service.service_transfer_refines.
  - apply refines_forget, Service.service_debit_refines.
  - apply refines_forget, Service.service_compensate_refines.
  - apply append_refines.
  - apply refines_forget, reserve_refines.
  - apply refines_forget, confirm_refines.
  - apply refines_forget, cancel_refines.
Qed.

Lemma forget_inv {A} (r : res error (A * tables)) u t' :
  forget r = Ok (u, t') -> exists a, r = Ok (a, t').
Proof. destruct r as [[a t] |]; simpl; [intros [= _ <-]; eauto | done]. Qed.

(** What a request that is granted does to the tables. *)
Inductive granted (t t' : tables) : Prop :=
| granted_wallet w : w.(Wallet.ID) = fresh t -> w.(Wallet.Balance) = 0 ->
    t' = used (with_wallets (<[fresh t := w]> (wallets t)) t) -> granted t t'
| granted_transfer topic ctx u f g a x : transfer_spec topic ctx u f g a t = Ok (x, t') -> granted t t'
| granted_debit cmd o : debit_spec cmd t = Ok (o, t') -> granted t t'
| granted_compensate cmd o : compensate_spec cmd t = Ok (o, t') -> granted t t'
| granted_append x : append_spec x t = Ok (tt, t') -> granted t t'
| granted_reserve cmd r : reserve_spec cmd t = Ok (r, t') -> granted t t'
| granted_confirm cmd r : confirm_spec cmd t = Ok (r, t') -> granted t t'
| granted_cancel cmd r : cancel_spec cmd t = Ok (r, t') -> granted t t'.

Lemma serve_granted q t t' : serve_spec q t = Ok (tt, t') -> granted t t'.
Proof.
  destruct q; simpl; try (intros [? Hs]%forget_inv).
  - unfold Service.create_spec in Hs. destruct (NormalizeCurrency currency); [| done].
    injection Hs as <- <-. eapply granted_wallet; [| | reflexivity]; done.
  - by eapply granted_transfer.
  - destruct cmd. apply Service.debit_service_spec_inv in Hs as [Hs _]. by eapply granted_debit.
  - apply Service.compensate_service_spec_inv in Hs as [? Hs]. by eapply granted_compensate.
  - by apply granted_append.
  - by eapply granted_reserve.
  - by eapply granted_confirm.
  - by eapply granted_cancel.
Qed.

Lemma granted_wf t t' : wf t -> granted t t' -> wf t'.
Proof.
  intros Hwf [w Hid Hb -> | | | | | | |]; eauto using wf_add_wallet, transfer_spec_wf, debit_spec_wf,
    compensate_spec_wf, append_spec_wf, reserve_spec_wf, confirm_spec_wf, cancel_spec_wf.
Qed.

(** The wallet side leaves the ledger's tables alone. *)
Lemma transfer_spec_ledger topic ctx u f g a t x t' :
  transfer_spec topic ctx u f g a t = Ok (x, t') ->
  ledger_entries t' = ledger_entries t /\ reservations t' = reservations t.
Proof.
  intros (from & to & e & x0 & -> & _)%transfer_spec_inv. simpl. by autorewrite with tables.
Qed.
Lemma debit_spec_ledger cmd t o t' : debit_spec cmd t = Ok (o, t') ->
  ledger_entries t' = ledger_entries t /\ reservations t' = reservations t.
Proof.
  destruct cmd. intros [[_ ->] | (w & _ & _ & _ & _ & -> & ->)]%debit_spec_inv; [done |].
  simpl. by autorewrite with tables.
Qed.
Lemma compensate_spec_ledger cmd t o t' : compensate_spec cmd t = Ok (o, t') ->
  ledger_entries t' = ledger_entries t /\ reservations t' = reservations t.
Proof.
  destruct cmd. intros [[_ ->] | (d & w & _ & _ & _ & _ & _ & -> & ->)]%compensate_spec_inv; [done |].
  simpl. by autorewrite with tables.
Qed.

Lemma granted_ledger_ok t t' : wf t -> ledger_ok t -> granted t t' -> ledger_ok t'.
Proof.
  intros Hwf Hok [w _ _ -> | ? ? ? ? ? ? ? Hs | ? ? Hs | ? ? Hs | | | |];
    eauto using append_spec_ok, reserve_spec_ok, confirm_spec_ok, cancel_spec_ok.
  - by eapply (ledger_ok_frame t).
  - apply transfer_spec_ledger in Hs as [? ?]. by apply (ledger_ok_frame t).
  - apply debit_spec_ledger in Hs as [? ?]. by apply (ledger_ok_frame t).
  - apply compensate_spec_ledger in Hs as [? ?]. by apply (ledger_ok_frame t).
Qed.

Lemma granted_rows t t' : wf t -> granted t t' -> rows_step t t'.
Proof.
  intros Hwf [w _ _ -> | ? ? ? ? ? ? ? Hs | ? ? Hs | ? ? Hs | | | |];
    eauto using append_spec_rows, reserve_spec_rows, confirm_spec_rows, cancel_spec_rows.
  - by apply rows_step_frame.
  - apply transfer_spec_ledger in Hs as [? ?]. by apply rows_step_frame.
  - apply debit_spec_ledger in Hs as [? ?]. by apply rows_step_frame.
  - apply compensate_spec_ledger in Hs as [? ?]. by apply rows_step_frame.
Qed.

(** The ledger side leaves balances and saga operations alone. *)
Lemma funds_frame t t' :
  wallets t' = wallets t -> saga_wallet_operations t' = saga_wallet_operations t -> funds t' = funds t.
Proof. intros Hw Ho. unfold funds, total_balance, outstanding. by rewrite Hw, Ho. Qed.

Lemma granted_funds t t' : wf t -> granted t t' -> funds t' = funds t.
Proof.
  intros Hwf [w Hid Hb -> | | | | ? Hs | ? ? Hs | ? ? Hs | ? ? Hs];
    eauto using transfer_spec_funds, debit_spec_funds, compensate_spec_funds.
  - unfold funds, total_balance, outstanding. simpl. rewrite map_sum_insert_fresh, Hb; [lia |].
    destruct (wallets t !! fresh t) as [w'|] eqn:Hw; [| done].
    apply (wf_wallet _ Hwf) in Hw as (_ & _ & _ & Hi). by apply fresh_not_issued in Hi.
  - apply append_spec_inv in Hs as [-> | (? & ? & -> & _)]; by apply funds_frame.
  - apply reserve_spec_inv in Hs as (? & _ & _ & [-> | (_ & -> & _)]); by apply funds_frame.
  - apply confirm_spec_inv in Hs as (? & _ & _ & _ & [-> | (? & ? & ? & _ & _ & _ & -> & ->)]);
      [by apply funds_frame.. | done].
  - apply cancel_spec_inv in Hs as (? & _ & _ & _ & [-> | (? & _ & _ & -> & ->)]);
      [by apply funds_frame.. | done].
Qed.

(** The shape shared by the invariants: kept by what is granted and by the clock. *)
Lemma reaches_ind_granted (P : tables -> Prop) t0 :
  wf t0 -> P t0 ->
  (forall t t', wf t -> P t -> granted t t' -> P t') ->
  (forall t n, P t -> P (with_now n t)) ->
  forall t, reaches t0 t -> wf t /\ P t.
Proof.
  intros Hwf0 HP0 Hg Hn t. induction 1 as [| t q s Hr [Hwf IH] | t n Hr [Hwf IH]].
  - done.
  - pose proof (serve_refines q t s Hwf) as Hq. unfold wp in Hq.
    destruct (serve q _) as [r c']. destruct Hq as [_ Ho]. simpl.
    split; eapply outcome_preserves; try done; intros [] t' Hs; apply serve_granted in Hs;
      eauto using granted_wf.
  - split; [by apply wf_with_now | by apply Hn].
Qed.
End Facts.

(** ** Properties *)

Section Properties.
Context `{Postgres} `{!PostgresOk} `{Uuid}.

(** C1: money is conserved: over any sequence of requests to the wallet and the
    ledger service, under any lost round trips, the balances of all wallets plus
    what sagas have debited and not given back stay the same. *)
Theorem money_is_conserved t0 t : wf t0 -> reaches t0 t -> funds t = funds t0.
Proof.
  intros Hwf Hr. apply (reaches_ind_granted (fun t => funds t = funds t0) t0); [done | done | | done | done].
  intros t1 t2 Hwf1 Hf Hg. rewrite (granted_funds t1 t2); done.
Qed.


(** What a payment owes is settled at most once each way: at every moment
    the payment has taken its debit exactly, or nothing, from the wallet side. *)
Theorem payment_is_all_or_nothing t0 t p :
  wf t0 -> reaches t0 t ->
  outstanding_of p t =
    match find_operation p SagaWalletOperationDebit t, find_operation p SagaWalletOperationCompensation t with
    | Some d, None => d.(SagaWalletOperation.AmountCents)
    | _, _ => 0
    end.
Proof.
  intros Hwf Hr. destruct (reaches_ind_granted (fun _ => True) t0 Hwf I ltac:(done) ltac:(done) t Hr) as [Hwf' _].
  by apply outstanding_of_wf.
Qed.

(** C11: the ledger keeps double entry: debits and credits always add up to
    zero, every transfer has no entries or one debit and one credit of the same
    amount, and every confirmed reservation has its own such pair. *)
Theorem ledger_keeps_double_entry t0 t : wf t0 -> ledger_ok t0 -> reaches t0 t -> ledger_ok t.
Proof.
  intros Hwf Hok Hr. apply (reaches_ind_granted ledger_ok t0); [done | done | | | done].
  - intros t1 t2 Hwf1 Hok1 Hg. by apply (granted_ledger_ok t1 t2).
  - intros t1 n Hok1. by apply (ledger_ok_frame t1).
Qed.

(** C12: a reservation moves at most once, from RESERVED to CONFIRMED or to
    CANCELED: a row that is confirmed or canceled is the same row ever after,
    and none is removed. *)
Theorem reservation_settles_once t0 t p r :
  wf t0 -> reaches t0 t -> reservations t0 !! p = Some r ->
  exists r', reservations t !! p = Some r' /\
    (r.(ReservationRow.status) <> LedgerReservationReserved -> r' = r) /\
    (r' <> r -> r'.(ReservationRow.status) = LedgerReservationConfirmed \/
                r'.(ReservationRow.status) = LedgerReservationCanceled).
Proof.
  intros Hwf Hr Hp.
  destruct (reaches_ind_granted (rows_step t0) t0 Hwf (reflexivity t0)
              ltac:(intros t1 t2 Hwf1 Hs Hg; transitivity t1; [done | by apply granted_rows])
              ltac:(intros t1 n Hs; transitivity t1; [done | by apply rows_step_frame]) t Hr) as [_ Hs].
  destruct (Hs p r Hp) as (r' & Hr' & Hstep). exists r'. split; [done |].
  destruct Hstep as [| x d at_ Hres | reason at_ Hres]; split; intros; try done; [by left | by right].
Qed.
End Properties.

(** ** The properties at work *)

(** A debit that loses its commit, the reservation, a confirmation cut in the
    middle and the confirmation repeated. *)
Definition demo_requests : list (request * list fault) := [
  (RDebitForSaga uuid_Nil demo_debit, repeat NoFault 6 ++ [FailAfter])%list;
  (RReserveTransfer demo_reserve, []);
  (RConfirmTransfer (LedgerConfirmCommand.mk 50%N "50:confirm" "trace" 4%N 3%N), repeat NoFault 4 ++ [FailBefore])%list;
  (RConfirmTransfer (LedgerConfirmCommand.mk 50%N "50:confirm" "trace" 4%N 3%N), [])].

Definition served (t : tables) (l : list (request * list fault)) : tables :=
  foldl (fun t qs => committed (snd (serve qs.1 (Conn t None qs.2)))) t l.

Lemma served_reaches t0 l : reaches t0 (served t0 l).
Proof.
  unfold served. assert (forall t, reaches t0 t -> reaches t0
    (foldl (fun t qs => committed (snd (serve qs.1 (Conn t None qs.2)))) t l)) as Hl; [| apply Hl; constructor].
  induction l as [|q l IH]; intros t Ht; simpl; [done |]. apply IH. by constructor.
Qed.

Definition after_requests : tables := served two_wallets demo_requests.

Lemma money_is_conserved_witness :
  funds after_requests = 1000 /\ total_balance after_requests = 700.
Proof.
  split; [| by vm_compute].
  rewrite (money_is_conserved two_wallets after_requests two_wallets_wf (served_reaches _ _)). by vm_compute.
Defined.


Lemma payment_is_all_or_nothing_witness : outstanding_of 50%N after_requests = 300.
Proof.
  rewrite (payment_is_all_or_nothing two_wallets after_requests 50%N two_wallets_wf (served_reaches _ _)).
  by vm_compute.
Defined.

Lemma ledger_keeps_double_entry_witness :
  ledger_ok after_requests /\ length (ledger_entries after_requests) = 2%nat.
Proof.
  split; [| by vm_compute].
  exact (ledger_keeps_double_entry two_wallets after_requests two_wallets_wf two_wallets_ledger_ok
           (served_reaches _ _)).
Defined.

Lemma reservation_settles_once_witness :
  exists r r', reservations after_reserve !! 50%N = Some r /\
    reservations (served after_reserve [(RCancelReservation demo_cancel, [])]) !! 50%N = Some r' /\
    r'.(ReservationRow.status) = LedgerReservationCanceled.
Proof.
  destruct (reservations after_reserve !! 50%N) as [r|] eqn:Hr; [| exfalso; revert Hr; vm_compute; discriminate].
  destruct (reservation_settles_once after_reserve _ 50%N r (proj1 after_reserve_ok)
              (served_reaches _ [(RCancelReservation demo_cancel, [])]) Hr) as (r' & Hr' & _ & _).
  exists r, r'. split; [done |]. split; [done |]. revert Hr'. vm_compute. by intros [= <-].
Defined.
