(* ===== verification/Delivery.v ===== *)
(** * Delivery: the wallet and ledger database with its publisher.

    [cmd/wallet/main.go] runs the wallet service and the outbox publisher on one
    database.  The database implements the publisher's [OutboxTable], and every
    request only adds events to it, so the joint runs are runs of [Publisher]. *)

From S2P Require Import Prelude GoStrings Domain Json Database Outbox Kafka Publisher.
From S2P Require Import WalletRepo LedgerRepo WalletService Accounts.

#[local] Open Scope string_scope.
#[local] Open Scope Z_scope.

#[export] Instance tables_outbox : OutboxTable tables := {
  outbox_rows := outbox_events;
  set_outbox_rows := with_outbox_events;
  outbox_clock := now
}.

#[export] Instance tables_outbox_ok : OutboxTableOk tables.
Proof. by split. Qed.

Section Delivery.
Context `{Postgres} `{!PostgresOk} `{Uuid} `{Returning} `{Broker} `{Tracing} `{JsonText}.

(** Events bear identifiers the server handed out, each its own. *)
Definition events_issued (t : tables) : Prop :=
  NoDup (OutboxEvent.ID <$> outbox_events t) /\ forall e, e ∈ outbox_events t -> issued t e.(OutboxEvent.ID).

(** A request adds at most one event, under an identifier of its own. *)
Definition announces (t t' : tables) : Prop :=
  (uuids_used t <= uuids_used t')%nat /\
  (outbox_events t' = outbox_events t \/
   exists e n, outbox_events t' = (outbox_events t ++ [e])%list /\ unpublished e /\
     e.(OutboxEvent.ID) = gen_random_uuid n /\ (uuids_used t <= n < uuids_used t')%nat).

Lemma quiet_announces t t' :
  (uuids_used t <= uuids_used t')%nat -> outbox_events t' = outbox_events t -> announces t t'.
Proof. intros Hn He. split; [done | by left]. Qed.

Lemma transfer_announces topic ctx u f g a t x t' :
  transfer_spec topic ctx u f g a t = Ok (x, t') -> announces t t'.
Proof.
  unfold transfer_spec. intros Hs. repeat (case_match; try done; []). injection Hs as _ <-.
  split; [simpl; autorewrite with tables; lia |]. right. eexists _, (S (uuids_used t)).
  split; [simpl; autorewrite with tables; reflexivity |]. split; [done |]. split; [done |].
  simpl. autorewrite with tables. lia.
Qed.

Lemma granted_announces t t' : wf t -> granted t t' -> announces t t'.
Proof.
  intros Hwf [w Hid Hb -> | ? ? ? ? ? ? ? Hs | [] ? Hs | [] ? Hs | ? Hs | ? ? Hs | ? ? Hs | ? ? Hs].
  - apply quiet_announces; simpl; [lia | done].
  - by eapply transfer_announces.
  - apply debit_spec_inv in Hs as [[_ ->] | (? & _ & _ & _ & _ & _ & ->)];
      apply quiet_announces; simpl; by autorewrite with tables; lia || done.
  - apply compensate_spec_inv in Hs as [[_ ->] | (? & ? & _ & _ & _ & _ & _ & _ & ->)];
      apply quiet_announces; simpl; by autorewrite with tables; lia || done.
  - apply append_spec_inv in Hs as [-> | (? & ? & -> & _)]; apply quiet_announces; simpl; done || lia.
  - apply reserve_spec_inv in Hs as (? & _ & _ & [-> | (_ & -> & _)]); apply quiet_announces; simpl; done || lia.
  - apply confirm_spec_inv in Hs as (? & _ & _ & _ & [-> | (? & ? & ? & _ & _ & _ & -> & ->)]);
      [apply quiet_announces; simpl; done || lia.. | done].
  - apply cancel_spec_inv in Hs as (? & _ & _ & _ & [-> | (? & _ & _ & -> & ->)]);
      [apply quiet_announces; simpl; done || lia.. | done].
Qed.

Lemma announces_appends t t' : events_issued t -> announces t t' -> appends t t' /\ events_issued t'.
Proof.
  intros [Hnd Hi] [Hn [He | (e & n & He & Hu & Hid & Hr)]].
  - assert (events_issued t') as Hev.
    { split; rewrite He; [done |]. intros e' Hin. eapply issued_used; [exact Hn | by apply Hi]. }
    split; [| done]. exists []. rewrite app_nil_r. split; [done |]. split; [by apply list.Forall_nil |]. apply Hev.
  - assert (e.(OutboxEvent.ID) ∉ OutboxEvent.ID <$> outbox_events t) as Hfresh.
    { intros (e' & Heq & Hin)%list_elem_of_fmap. destruct (Hi e' Hin) as (m & Hm & Hem).
      rewrite Hid, Hem in Heq. apply gen_random_uuid_inj in Heq. lia. }
    assert (events_issued t') as Hev.
    { split; rewrite He.
      - rewrite fmap_app. apply list.NoDup_app. split; [done |]. split; [set_solver | apply NoDup_singleton].
      - intros e' [Hin | ->%list_elem_of_singleton]%elem_of_app; [eapply issued_used; [exact Hn | by apply Hi] |].
        exists n. split; [lia | done]. }
    split; [| done]. exists [e]. split; [done |]. split; [by apply list.Forall_singleton | apply Hev].
Qed.

(** The wallet and ledger services and the publisher on one database. *)
Inductive joint (w0 : station tables) : station tables -> Prop :=
| joint_start : joint w0 w0
| joint_serve w q s : joint w0 w -> joint w0 (Station (committed (snd (serve q (Conn (store w) None s)))) (broker w))
| joint_tick w n : joint w0 w -> joint w0 (Station (with_now n (store w)) (broker w))
| joint_batch w ctx batch s : joint w0 w -> joint w0 (committed (snd (PublishBatch ctx batch (Conn w None s)))).

Lemma joint_batches w0 ctx batch schedules : forall w, joint w0 w -> joint w0 (run_batches ctx batch schedules w).
Proof. induction schedules as [|s rest IH]; intros w Hj; [done |]. by apply IH, joint_batch. Qed.

(** Joint runs are runs of the publisher with a service that adds events. *)
Lemma joint_publishing w0 w :
  wf (store w0) -> events_issued (store w0) -> joint w0 w ->
  publishing w0 w /\ wf (store w) /\ events_issued (store w).
Proof.
  intros Hwf0 He0. induction 1 as [| w q s _ (Hp & Hwf & He) | w n _ (Hp & Hwf & He) | w ctx batch s _ (Hp & Hwf & He)].
  - split; [constructor | done].
  - pose proof (serve_refines q (store w) s Hwf) as Hq. unfold wp in Hq. destruct (serve q _) as [r c']. destruct Hq as [_ Ho].
    assert (forall t', committed c' = t' -> t' = store w \/ granted (store w) t') as Hcase.
    { intros t' <-. inversion Ho as [[] t' Hs | | | [] t' Hl Hs]; subst; auto; right; by eapply serve_granted. }
    cbn [snd store]. destruct (Hcase _ eq_refl) as [-> | Hg]; [by destruct w |].
    destruct (announces_appends _ _ He (granted_announces _ _ Hwf Hg)) as [Ha He'].
    split; [by apply publishing_write |]. split; [by eapply granted_wf | done].
  - destruct (announces_appends (store w) (with_now n (store w)) He) as [Ha He']; [by apply quiet_announces |].
    split; [by apply publishing_write |]. split; [by apply wf_with_now | done].
  - split; [by apply publishing_batch |].
    assert (triple (fun w => wf (store w) /\ events_issued (store w)) (PublishBatch ctx batch)
      (fun _ w => wf (store w) /\ events_issued (store w)) (fun w => wf (store w) /\ events_issued (store w))) as Ht.
    { apply (batch_keeps (fun t => wf t /\ events_issued t)). intros t l [Hw [Hnd Hi]] Hl. split; [destruct Hw; by split |].
      split; simpl; [by rewrite (ident_ids _ _ Hl) |]. intros e Hin. destruct (ident_elem _ _ e Hl Hin) as (e' & Hin' & Hid).
      injection Hid as <- _ _ _ _ _. by apply Hi. }
    destruct (wp_elim _ _ _ (Ht w s (conj Hwf He))) as [_ Hr]. by destruct (fst _).
Qed.

(** C22: the wallet's events reach the broker: in every run of the wallet and ledger
    services and of the publisher on their database, under any loss of round trips,
    the rows marked as published are at the broker with their topic, key and
    payload, the broker holds nothing that the table does not, and the identifiers
    of the events stay distinct, so that a redelivery can be told apart. *)
Theorem wallet_events_are_delivered w0 w :
  wf (store w0) -> events_issued (store w0) -> delivered w0 -> joint w0 w ->
  NoDup (OutboxEvent.ID <$> outbox_events (store w)) /\ delivered w /\ progress w0 w.
Proof.
  intros Hwf He Hd Hj. destruct (joint_publishing w0 w Hwf He Hj) as (Hp & _ & Hnd & _).
  destruct (publishing_keeps w0 w Hd Hp). done.
Qed.
End Delivery.
