(* ===== verification/Verification.v ===== *)
(** * Verification: [internal/verification].

    The identity checks the saga asks for before it moves money: the service
    ([service.go]) with its Postgres store ([postgres_store.go]).  A user has one
    row, which a submission or an administrator's decision moves from pending to
    verified or rejected, and which nothing moves further.  The announcement goes
    to the outbox in a statement of its own after the transaction.  The clock's
    reading and the random hex digits of new identifiers are arguments. *)

From S2P Require Import Prelude GoStrings Domain GoTime Json Database Outbox Fixtures.

#[local] Open Scope string_scope.
#[local] Open Scope Z_scope.

Module Verification.

Definition StatusUnverified : string := "unverified".
Definition StatusPending : string := "pending".
Definition StatusVerified : string := "verified".
Definition StatusRejected : string := "rejected".

Definition ModeAuto : string := "auto".
Definition ModeManual : string := "manual".
Definition ModeRules : string := "rules".

Definition DecisionApprove : string := "approve".
Definition DecisionReject : string := "reject".
Definition DecisionPending : string := "pending".

Definition UserVerifiedTopic : string := "user.verified".
Definition UserRejectedTopic : string := "user.rejected".

Inductive verification_error :=
| ErrInvalidArgument
| ErrNotFound
| ErrFailedPrecondition
| ErrIdempotencyKeyConflict
| ErrDatabase (e : error).

#[global] Instance verification_error_eq_dec : EqDecision verification_error.
Proof. solve_decision. Defined.
#[global] Instance verification_infra : Infra verification_error := ErrDatabase PgUnavailable.

Module SubmitCommand.
Record t := mk {
  PaymentID : string;
  IdempotencyKey : string;
  TraceID : string;
  UserID : string;
  VerificationID : string;
  Decision : string;
  Reason : string
}.
End SubmitCommand.

Module Decision.
Record t := mk { Status : string; Reason : string }.
End Decision.

Module DecisionCommand.
Record t := mk { UserID : string; TraceID : string; Decision : string; Reason : string }.
End DecisionCommand.

Module Record_.
Record t := mk {
  VerificationID : string;
  UserID : string;
  Status : string;
  Reason : string;
  TraceID : string;
  CreatedAt : time;
  UpdatedAt : time;
  DecidedAt : time
}.
End Record_.

Module SubmitResult.
Record t := mk { Record_ : Record_.t; Transitioned : bool; TransitionedFrom : string }.
End SubmitResult.

(** A row of [verifications]; [user_id] is the key of the table below. *)
Module Row.
Record t := mk {
  verification_id : string;
  user_id : string;
  idempotency_key : string;
  payment_id : string;
  trace_id : string;
  status : string;
  reason : string;
  decided_at : option time;
  created_at : time;
  updated_at : time
}.
End Row.

(** The service's tables. *)
Record vtables := VTables {
  verifications : gmap string Row.t;
  announcements : list OutboxEvent.t;
  events_written : nat;
  vnow : time
}.

Definition isTerminalEventStatus (status : string) : bool :=
  (status =s StatusVerified) || (status =s StatusRejected).

(** ** The SQL *)

Section Statements.
Context `{Postgres}.

Definition with_verifications (m : gmap string Row.t) (t : vtables) : vtables :=
  VTables m (announcements t) (events_written t) (vnow t).

Definition q_row (user_id : string) (t : vtables) : res verification_error Row.t :=
  match verifications t !! user_id with Some r => Ok r | None => Err (ErrDatabase PgNoRows) end.

(** The row that holds an idempotency key, which a unique index covers. *)
Definition key_row (key : string) (t : vtables) : option Row.t :=
  snd <$> List.find (fun kr => kr.2.(Row.idempotency_key) =s key) (map_to_list (verifications t)).

Definition q_key_owner (key : string) (t : vtables) : res verification_error string :=
  match key_row key t with Some r => Ok r.(Row.user_id) | None => Err (ErrDatabase PgNoRows) end.

Definition taken_id (verification_id : string) (t : vtables) : bool :=
  existsb (fun kr => kr.2.(Row.verification_id) =s verification_id) (map_to_list (verifications t)).

Definition stmt_insert_row (r : Row.t) (t : vtables) : res verification_error (Row.t * vtables) :=
  match verifications t !! r.(Row.user_id), key_row r.(Row.idempotency_key) t with
  | None, None =>
      if taken_id r.(Row.verification_id) t then Err (ErrDatabase PgUniqueViolation)
      else Ok (r, with_verifications (<[r.(Row.user_id) := r]> (verifications t)) t)
  | _, _ => Err (ErrDatabase PgUniqueViolation)
  end.

(** [UPDATE verifications SET ... WHERE user_id = $1 RETURNING ...] *)
Definition stmt_update_row (user_id : string) (f : Row.t -> Row.t) (t : vtables)
    : res verification_error (Row.t * vtables) :=
  match verifications t !! user_id with
  | None => Err (ErrDatabase PgNoRows)
  | Some r =>
      let r' := f r in
      match key_row r'.(Row.idempotency_key) t with
      | Some other => if other.(Row.user_id) =s user_id
                      then Ok (r', with_verifications (<[user_id := r']> (verifications t)) t)
                      else Err (ErrDatabase PgUniqueViolation)
      | None => Ok (r', with_verifications (<[user_id := r']> (verifications t)) t)
      end
  end.

Definition stmt_announce (topic key : string) (payload : json) (ctx : context) (t : vtables)
    : res verification_error (unit * vtables) :=
  let e := OutboxEvent.mk (gen_random_uuid (events_written t)) topic key payload
             (ctx_traceparent ctx) (ctx_tracestate ctx) None None (vnow t) in
  Ok (tt, VTables (verifications t) (announcements t ++ [e])%list (S (events_written t)) (vnow t)).
End Statements.

(** ** The store and the service *)

Abbreviation vdb A := (prog vtables verification_error A).

Definition scan_record (r : Row.t) : Record_.t :=
  Record_.mk r.(Row.verification_id) r.(Row.user_id) r.(Row.status) r.(Row.reason) r.(Row.trace_id)
    r.(Row.created_at) r.(Row.updated_at) (default zero_time r.(Row.decided_at)).

(** The errors [scanVerification] and [idempotencyKeyOwner] pass on. *)
Definition no_row (e : verification_error) : verification_error :=
  if bool_decide (e = ErrDatabase PgNoRows) then ErrNotFound else e.

Definition scanVerification (p : vdb Row.t) : vdb Row.t :=
  let! r := attempt p in
  match r with Ok row => ret row | Err e => throw (no_row e) end.

Definition selectVerificationForUpdate (userID : string) : vdb Row.t := scanVerification (query (q_row userID)).

Definition idempotencyKeyOwner (key : string) : vdb string :=
  let! r := attempt (query (q_key_owner key)) in
  match r with Ok owner => ret owner | Err e => throw (no_row e) end.

Definition unique_conflict (e : verification_error) : verification_error :=
  if bool_decide (e = ErrDatabase PgUniqueViolation) then ErrIdempotencyKeyConflict else e.

Definition decidedAtForStatus (status : string) (now : time) : option time :=
  if isTerminalEventStatus status then Some now else None.

Section Service.
Context `{Postgres}.

(** [randomHex(16)] as the call drew it. *)
Definition newVerificationID (randomHex : string) : string := "ver_" ++ randomHex.
Definition newEventID (randomHex : string) : string := "evt_" ++ randomHex.

Definition inserted_row (cmd : SubmitCommand.t) (decision : Decision.t) (now : time) (randomHex : string) : Row.t :=
  let verificationID :=
    if cmd.(SubmitCommand.VerificationID) =s "" then newVerificationID randomHex
    else cmd.(SubmitCommand.VerificationID) in
  Row.mk verificationID cmd.(SubmitCommand.UserID) cmd.(SubmitCommand.IdempotencyKey)
    cmd.(SubmitCommand.PaymentID) cmd.(SubmitCommand.TraceID) decision.(Decision.Status)
    decision.(Decision.Reason)
    (pg_timestamp <$> decidedAtForStatus decision.(Decision.Status) now)
    (pg_timestamp now) (pg_timestamp now).

Definition insertVerification (cmd : SubmitCommand.t) (decision : Decision.t) (now : time) (randomHex : string)
    : vdb SubmitResult.t :=
  let! row := scanVerification (exec (stmt_insert_row (inserted_row cmd decision now randomHex))) in
  ret (SubmitResult.mk (scan_record row)
         (negb (row.(Row.status) =s StatusPending) || (decision.(Decision.Status) =s StatusPending))
         StatusUnverified).

(** [decided_at] is set from a [time.Time]: a row without a decision gets the zero
    time, not NULL. *)
Definition resubmitted (existing : Row.t) (cmd : SubmitCommand.t) (decision : Decision.t) (now : time)
    (r : Row.t) : Row.t :=
  let decidedAt :=
    if negb (isTerminalEventStatus existing.(Row.status)) && isTerminalEventStatus decision.(Decision.Status)
    then now else default zero_time existing.(Row.decided_at) in
  Row.mk r.(Row.verification_id) r.(Row.user_id) cmd.(SubmitCommand.IdempotencyKey)
    cmd.(SubmitCommand.PaymentID) cmd.(SubmitCommand.TraceID) decision.(Decision.Status)
    decision.(Decision.Reason) (Some (pg_timestamp decidedAt)) r.(Row.created_at) (pg_timestamp now).

Definition updateExistingVerification (existing : Row.t) (cmd : SubmitCommand.t) (decision : Decision.t)
    (now : time) : vdb SubmitResult.t :=
  if (existing.(Row.idempotency_key) =s cmd.(SubmitCommand.IdempotencyKey))
     || (existing.(Row.status) =s StatusVerified) || (existing.(Row.status) =s StatusRejected)
  then ret (SubmitResult.mk (scan_record existing) false "")
  else
    let! r := attempt (scanVerification (exec (stmt_update_row cmd.(SubmitCommand.UserID)
                (resubmitted existing cmd decision now)))) in
    match r with
    | Err e => throw (unique_conflict e)
    | Ok row => ret (SubmitResult.mk (scan_record row)
                       (negb (existing.(Row.status) =s row.(Row.status))) existing.(Row.status))
    end.

Definition store_Submit (cmd : SubmitCommand.t) (decision : Decision.t) (now : time) (randomHex : string)
    : vdb SubmitResult.t :=
  begin ;!
  deferred_rollback (
    let! owner := attempt (idempotencyKeyOwner cmd.(SubmitCommand.IdempotencyKey)) in
    (match owner with
     | Ok owner => guard (negb (owner =s cmd.(SubmitCommand.UserID))) ErrIdempotencyKeyConflict
     | Err e => if bool_decide (e = ErrNotFound) then ret tt else throw e
     end) ;!
    let! found := attempt (selectVerificationForUpdate cmd.(SubmitCommand.UserID)) in
    match found with
    | Ok existing =>
        let! result := updateExistingVerification existing cmd decision now in
        commit ;! ret result
    | Err e =>
        if bool_decide (e = ErrNotFound) then
          let! inserted := attempt (insertVerification cmd decision now randomHex) in
          match inserted with
          | Err e => throw (unique_conflict e)
          | Ok result => commit ;! ret result
          end
        else throw e
    end).

Definition store_GetStatus (userID : string) : vdb Record_.t :=
  let! row := scanVerification (query (q_row userID)) in
  ret (scan_record row).

Definition decided (cmd : DecisionCommand.t) (decision : Decision.t) (now : time) (r : Row.t) : Row.t :=
  Row.mk r.(Row.verification_id) r.(Row.user_id) r.(Row.idempotency_key) r.(Row.payment_id)
    cmd.(DecisionCommand.TraceID) decision.(Decision.Status) decision.(Decision.Reason)
    (Some (pg_timestamp now)) r.(Row.created_at) (pg_timestamp now).

Definition store_Decide (cmd : DecisionCommand.t) (decision : Decision.t) (now : time) : vdb SubmitResult.t :=
  begin ;!
  deferred_rollback (
    let! existing := selectVerificationForUpdate cmd.(DecisionCommand.UserID) in
    if (existing.(Row.status) =s StatusVerified) || (existing.(Row.status) =s StatusRejected)
    then commit ;! ret (SubmitResult.mk (scan_record existing) false "")
    else
      let! row := scanVerification (exec (stmt_update_row cmd.(DecisionCommand.UserID)
                    (decided cmd decision now))) in
      commit ;!
      ret (SubmitResult.mk (scan_record row)
             (negb (existing.(Row.status) =s row.(Row.status))) existing.(Row.status))).

(** [service.decide] for the configured mode. *)
Definition decide_submission (mode : string) (cmd : SubmitCommand.t) : res verification_error Decision.t :=
  let mode := ToLower mode in
  if (mode =s "") || (mode =s ModeAuto) then Ok (Decision.mk StatusVerified "")
  else if mode =s ModeManual then Ok (Decision.mk StatusPending cmd.(SubmitCommand.Reason))
  else if mode =s ModeRules then
    let asked := cmd.(SubmitCommand.Decision) in
    if (asked =s "") || (asked =s DecisionPending) then Ok (Decision.mk StatusPending cmd.(SubmitCommand.Reason))
    else if (asked =s DecisionApprove) || (asked =s StatusVerified)
         then Ok (Decision.mk StatusVerified cmd.(SubmitCommand.Reason))
    else if (asked =s DecisionReject) || (asked =s StatusRejected)
         then Ok (Decision.mk StatusRejected cmd.(SubmitCommand.Reason))
    else Err ErrInvalidArgument
  else Err ErrInvalidArgument.

Definition decisionFromAdminCommand (cmd : DecisionCommand.t) : res verification_error Decision.t :=
  let asked := cmd.(DecisionCommand.Decision) in
  if (asked =s DecisionApprove) || (asked =s StatusVerified)
  then Ok (Decision.mk StatusVerified cmd.(DecisionCommand.Reason))
  else if (asked =s DecisionReject) || (asked =s StatusRejected)
       then Ok (Decision.mk StatusRejected cmd.(DecisionCommand.Reason))
  else Err ErrInvalidArgument.

Variable ctx : context.

(** A Go map is marshalled with its keys in order. *)
Definition announcement (record : Record_.t) (eventID : string) : string * json :=
  let rejected := record.(Record_.Status) =s StatusRejected in
  let occurredAt := if IsZero record.(Record_.DecidedAt) then record.(Record_.UpdatedAt)
                    else record.(Record_.DecidedAt) in
  (if rejected then UserRejectedTopic else UserVerifiedTopic,
   JObject ([("event_id", JString eventID); ("occurred_at", JTime occurredAt)]
     ++ (if rejected then [("reason", JString record.(Record_.Reason)); ("rejected_at", JTime occurredAt)] else [])
     ++ [("trace_id", JString record.(Record_.TraceID)); ("user_id", JString record.(Record_.UserID));
         ("verification_id", JString record.(Record_.VerificationID))]
     ++ (if rejected then [] else [("verified_at", JTime occurredAt)]))%list).

Definition publish (record : Record_.t) (randomHex : string) : vdb unit :=
  let '(topic, payload) := announcement record (newEventID randomHex) in
  exec (stmt_announce topic record.(Record_.UserID) payload ctx).

(** The end of [Submit] and of [Decide]. *)
Definition announce_transition (result : SubmitResult.t) (randomHex : string) : vdb Record_.t :=
  (if result.(SubmitResult.Transitioned)
      && isTerminalEventStatus result.(SubmitResult.Record_).(Record_.Status)
   then publish result.(SubmitResult.Record_) randomHex else ret tt) ;!
  ret result.(SubmitResult.Record_).

Definition trim_submission (cmd : SubmitCommand.t) : SubmitCommand.t :=
  SubmitCommand.mk cmd.(SubmitCommand.PaymentID) (TrimSpace cmd.(SubmitCommand.IdempotencyKey))
    cmd.(SubmitCommand.TraceID) (TrimSpace cmd.(SubmitCommand.UserID))
    cmd.(SubmitCommand.VerificationID) (TrimSpace (ToLower cmd.(SubmitCommand.Decision)))
    cmd.(SubmitCommand.Reason).

Definition trim_decision (cmd : DecisionCommand.t) : DecisionCommand.t :=
  DecisionCommand.mk (TrimSpace cmd.(DecisionCommand.UserID)) cmd.(DecisionCommand.TraceID)
    (TrimSpace (ToLower cmd.(DecisionCommand.Decision))) cmd.(DecisionCommand.Reason).

Definition Submit (mode : string) (cmd : SubmitCommand.t) (now : time) (idHex eventHex : string) : vdb Record_.t :=
  let cmd := trim_submission cmd in
  guard ((cmd.(SubmitCommand.UserID) =s "") || (cmd.(SubmitCommand.IdempotencyKey) =s "")) ErrInvalidArgument ;!
  let! decision := lift (decide_submission mode cmd) in
  let! result := store_Submit cmd decision now idHex in
  announce_transition result eventHex.

Definition GetStatus (userID : string) : vdb Record_.t :=
  let userID := TrimSpace userID in
  guard (userID =s "") ErrInvalidArgument ;!
  store_GetStatus userID.

Definition Decide (cmd : DecisionCommand.t) (now : time) (eventHex : string) : vdb Record_.t :=
  let cmd := trim_decision cmd in
  guard (cmd.(DecisionCommand.UserID) =s "") ErrInvalidArgument ;!
  let! decision := lift (decisionFromAdminCommand cmd) in
  let! result := store_Decide cmd decision now in
  announce_transition result eventHex.
End Service.

(** ** What a request does to the tables *)

Section Contracts.
Context `{Postgres}.

Definition submit_spec (cmd : SubmitCommand.t) (decision : Decision.t) (now : time) (randomHex : string)
    (t : vtables) : res verification_error (SubmitResult.t * vtables) :=
  let user := cmd.(SubmitCommand.UserID) in
  let conflict := match key_row cmd.(SubmitCommand.IdempotencyKey) t with
                  | Some r => negb (r.(Row.user_id) =s user) | None => false end in
  if conflict then Err ErrIdempotencyKeyConflict
  else match verifications t !! user with
       | Some existing =>
           if (existing.(Row.idempotency_key) =s cmd.(SubmitCommand.IdempotencyKey))
              || isTerminalEventStatus existing.(Row.status)
           then Ok (SubmitResult.mk (scan_record existing) false "", t)
           else
             let row := resubmitted existing cmd decision now existing in
             Ok (SubmitResult.mk (scan_record row)
                   (negb (existing.(Row.status) =s row.(Row.status))) existing.(Row.status),
                 with_verifications (<[user := row]> (verifications t)) t)
       | None =>
           let row := inserted_row cmd decision now randomHex in
           if taken_id row.(Row.verification_id) t then Err ErrIdempotencyKeyConflict
           else match key_row cmd.(SubmitCommand.IdempotencyKey) t with
                | Some _ => Err ErrIdempotencyKeyConflict
                | None => Ok (SubmitResult.mk (scan_record row) true StatusUnverified,
                              with_verifications (<[user := row]> (verifications t)) t)
                end
       end.

Definition decide_spec (cmd : DecisionCommand.t) (decision : Decision.t) (now : time) (t : vtables)
    : res verification_error (SubmitResult.t * vtables) :=
  match verifications t !! cmd.(DecisionCommand.UserID) with
  | None => Err ErrNotFound
  | Some existing =>
      if isTerminalEventStatus existing.(Row.status)
      then Ok (SubmitResult.mk (scan_record existing) false "", t)
      else
        let row := decided cmd decision now existing in
        Ok (SubmitResult.mk (scan_record row)
              (negb (existing.(Row.status) =s row.(Row.status))) existing.(Row.status),
            with_verifications (<[cmd.(DecisionCommand.UserID) := row]> (verifications t)) t)
  end.

Definition get_spec (userID : string) (t : vtables) : res verification_error (Record_.t * vtables) :=
  let user := TrimSpace userID in
  if user =s "" then Err ErrInvalidArgument
  else match verifications t !! user with
       | Some r => Ok (scan_record r, t)
       | None => Err ErrNotFound
       end.

(** Rows are stored under their user, and an idempotency key belongs to one user. *)
Record vwf (t : vtables) : Prop := {
  vwf_user u r : verifications t !! u = Some r -> r.(Row.user_id) = u;
  vwf_key u u' r r' : verifications t !! u = Some r -> verifications t !! u' = Some r' ->
    r.(Row.idempotency_key) = r'.(Row.idempotency_key) -> u = u'
}.

Lemma key_row_Some key t r :
  key_row key t = Some r -> exists u, verifications t !! u = Some r /\ r.(Row.idempotency_key) = key.
Proof.
  unfold key_row. destruct (List.find _ _) as [[u r'] |] eqn:Hf; [| done]. intros [= <-].
  apply find_Some_elem in Hf as [Hin Hk]. apply elem_of_map_to_list in Hin. simpl in Hk.
  apply String.eqb_eq in Hk. eauto.
Qed.

Lemma key_row_None key t u r :
  key_row key t = None -> verifications t !! u = Some r -> r.(Row.idempotency_key) <> key.
Proof.
  unfold key_row. destruct (List.find _ _) as [|] eqn:Hf; [done |]. intros _ Hu Hk.
  apply elem_of_map_to_list, (find_None_elem _ _ _ Hf) in Hu. simpl in Hu. by apply String.eqb_neq in Hu.
Qed.

(** The key of a user's own row. *)
Lemma key_row_own t u r : vwf t -> verifications t !! u = Some r -> key_row r.(Row.idempotency_key) t = Some r.
Proof.
  intros Hwf Hu. destruct (key_row (Row.idempotency_key r) t) as [r'|] eqn:Hk.
  - apply key_row_Some in Hk as (u' & Hu' & Hkey). assert (u' = u) as -> by by eapply vwf_key. congruence.
  - by apply (key_row_None _ _ _ _ Hk) in Hu.
Qed.
End Contracts.

(** ** Refinement *)

Section Refinement.
Context `{Postgres}.

Lemma owner_spec key (Q : res verification_error string -> conn vtables -> Prop) cm t s :
  (forall s', (quiet s -> quiet s') -> ~ quiet s -> Q (Err unavailable) (Conn cm (Some t) s')) ->
  (forall s', (quiet s -> quiet s') ->
     Q (match key_row key t with Some r => Ok r.(Row.user_id) | None => Err ErrNotFound end)
       (Conn cm (Some t) s')) ->
  wp (idempotencyKeyOwner key) Q (Conn cm (Some t) s).
Proof.
  intros Hf Hn. unfold idempotencyKeyOwner. wp_step. wp_step. wp_step; [by apply Hf |].
  specialize (Hn s'). unfold q_key_owner. destruct (key_row key t); simpl; wp_step; auto.
Qed.

Lemma select_spec user (Q : res verification_error Row.t -> conn vtables -> Prop) cm t s :
  (forall s', (quiet s -> quiet s') -> ~ quiet s -> Q (Err unavailable) (Conn cm (Some t) s')) ->
  (forall s', (quiet s -> quiet s') ->
     Q (match verifications t !! user with Some r => Ok r | None => Err ErrNotFound end)
       (Conn cm (Some t) s')) ->
  wp (selectVerificationForUpdate user) Q (Conn cm (Some t) s).
Proof.
  intros Hf Hn. unfold selectVerificationForUpdate, scanVerification. wp_step. wp_step. wp_step; [by apply Hf |].
  specialize (Hn s'). unfold q_row. destruct (verifications t !! user); simpl; wp_step; auto.
Qed.

(** A statement whose answer [scanVerification] reads. *)
Lemma scan_exec_spec stmt (Q : res verification_error Row.t -> conn vtables -> Prop) cm t s :
  (forall s' t', (quiet s -> quiet s') -> ~ quiet s -> Q (Err unavailable) (Conn cm (Some t') s')) ->
  (forall s', (quiet s -> quiet s') ->
     match stmt t with
     | Ok (r, t') => Q (Ok r) (Conn cm (Some t') s')
     | Err e => Q (Err (no_row e)) (Conn cm (Some t) s')
     end) ->
  wp (scanVerification (exec stmt)) Q (Conn cm (Some t) s).
Proof.
  intros Hf Hn. unfold scanVerification. wp_step. wp_step. wp_step; [by apply Hf |].
  specialize (Hn s'). destruct (stmt t) as [[r t'] | e]; wp_step; auto.
Qed.

Lemma update_row_own user f t r :
  vwf t -> verifications t !! user = Some r ->
  (match key_row (f r).(Row.idempotency_key) t with Some o => o.(Row.user_id) = user | None => True end) ->
  stmt_update_row user f t = Ok (f r, with_verifications (<[user := f r]> (verifications t)) t).
Proof.
  intros Hwf Hu Hk. unfold stmt_update_row. rewrite Hu. destruct (key_row _ t); [| done].
  by rewrite Hk, String.eqb_refl.
Qed.

Lemma status_refuted (st : string) (b : bool) :
  b || (st =s StatusVerified) || (st =s StatusRejected) = b || isTerminalEventStatus st.
Proof. unfold isTerminalEventStatus. by rewrite orb_assoc. Qed.

Lemma submit_refines cmd decision now hex :
  refines vwf (store_Submit cmd decision now hex) (submit_spec cmd decision now hex).
Proof.
  intros t s Hwf. unfold store_Submit. set (user := SubmitCommand.UserID cmd).
  set (key := SubmitCommand.IdempotencyKey cmd).
  wp_step. wp_step; [finish_outcome |]. wp_step. wp_step. wp_step.
  apply owner_spec; [intros s1 ??; wp_step; simpl; wp_step; finish_outcome |]. intros s1 Hq1. wp_step.
  assert (forall s2, (quiet s -> quiet s2) ->
    (match key_row key t with Some r => r.(Row.user_id) = user | None => True end) ->
    wp (let! found := attempt (selectVerificationForUpdate user) in
        match found with
        | Ok existing => let! result := updateExistingVerification existing cmd decision now in commit ;! ret result
        | Err e => if bool_decide (e = ErrNotFound) then
              let! inserted := attempt (insertVerification cmd decision now hex) in
              match inserted with Err e => throw (unique_conflict e) | Ok result => commit ;! ret result end
            else throw e
        end)
      (fun r c' => working (Conn (committed c') None (schedule c')) = None /\
         outcome (submit_spec cmd decision now hex t) (~ quiet s) t r
           (committed (Conn (committed c') None (schedule c'))))
      (Conn t (Some t) s2)) as Hrest.
  { intros s2 Hq2 Hown. wp_step. wp_step. apply select_spec; [intros s3 ??; simpl; wp_step; finish_outcome |].
    intros s3 Hq3. unfold submit_spec. fold user key.
    replace (match key_row key t with Some r => negb (r.(Row.user_id) =s user) | None => false end) with false
      by (destruct (key_row key t); [by rewrite Hown, String.eqb_refl | done]).
    destruct (verifications t !! user) as [ex|] eqn:Hu; simpl.
    - unfold updateExistingVerification. fold key. rewrite status_refuted. wp_step.
      destruct ((Row.idempotency_key ex =s key) || _) eqn:Hb.
      + wp_step. apply commit_ret_outcome; [auto | done].
      + wp_step. wp_step. apply scan_exec_spec; [intros s4 t' ??; wp_step; finish_outcome |].
        intros s4 Hq4. fold user. rewrite (update_row_own user _ t ex); [| done | done | done].
        wp_step. apply commit_ret_outcome; [auto 8 | done].
    - unfold insertVerification. wp_step. wp_step. wp_step.
      apply scan_exec_spec; [intros s4 t' ??; wp_step; finish_outcome |].
      intros s4 Hq4. unfold stmt_insert_row. simpl. fold user key. rewrite Hu.
      destruct (key_row key t) as [r|] eqn:Hk; simpl.
      + wp_step. split; [done |]. apply outcome_refused. by destruct (taken_id _ t).
      + destruct (taken_id _ t); simpl; [wp_step; by finish_outcome |]. wp_step.
        apply commit_ret_outcome; [auto 8 |]. do 2 f_equal. f_equal. by destruct (_ =s _). }
  destruct (key_row key t) as [r|] eqn:Hk; simpl.
  - destruct (String.eqb_spec (Row.user_id r) user) as [Hr | Hr]; simpl; wp_step; try done.
    + by apply Hrest; auto.
    + finish_outcome. unfold submit_spec. fold user key. rewrite Hk. by apply String.eqb_neq in Hr as ->.
  - wp_step. by apply Hrest; auto.
Qed.

Lemma decide_refines cmd decision now : refines vwf (store_Decide cmd decision now) (decide_spec cmd decision now).
Proof.
  intros t s Hwf. unfold store_Decide, decide_spec. set (user := DecisionCommand.UserID cmd).
  wp_step. wp_step; [finish_outcome |]. wp_step. wp_step.
  apply select_spec; [intros; finish_outcome |]. intros s1 Hq1.
  destruct (verifications t !! user) as [ex|] eqn:Hu; [| by finish_outcome].
  change ((Row.status ex =s StatusVerified) || (Row.status ex =s StatusRejected))
    with (isTerminalEventStatus (Row.status ex)).
  destruct (isTerminalEventStatus (Row.status ex)); [apply commit_ret_outcome; auto |].
  wp_step. apply scan_exec_spec; [intros; finish_outcome |]. intros s2 Hq2.
  rewrite (update_row_own user _ t ex); [| done | done |].
  - apply commit_ret_outcome; [auto | done].
  - simpl. rewrite (key_row_own t user ex) by done. by eapply vwf_user.
Qed.

Lemma status_query_refines userID : refines anywhere (GetStatus userID) (get_spec userID).
Proof.
  intros t s _. unfold GetStatus, get_spec, store_GetStatus, scanVerification. set (user := TrimSpace userID).
  wp_step. destruct (user =s "") eqn:Hu; (wp_step; try done; []); [by finish_outcome |].
  wp_step. wp_step. wp_step. wp_step; [wp_step; finish_outcome |]. unfold q_row.
  destruct (verifications t !! user); wp_step; [wp_step |]; by finish_outcome.
Qed.
End Refinement.

(** ** Every run of the service *)

Inductive request :=
| ReqSubmit (mode : string) (cmd : SubmitCommand.t) (now : time) (idHex eventHex : string)
| ReqDecide (cmd : DecisionCommand.t) (now : time) (eventHex : string)
| ReqStatus (userID : string).

Section Runs.
Context `{Postgres}.
Variable ctx : context.

Definition serve (q : request) : vdb unit :=
  match q with
  | ReqSubmit mode cmd now idHex eventHex => Submit ctx mode cmd now idHex eventHex ;! ret tt
  | ReqDecide cmd now eventHex => Decide ctx cmd now eventHex ;! ret tt
  | ReqStatus userID => GetStatus userID ;! ret tt
  end.

Definition with_vnow (n : time) (t : vtables) : vtables :=
  VTables (verifications t) (announcements t) (events_written t) n.

(** The requests in [allowed] are served in any order, each losing any of its round trips. *)
Inductive reaches (allowed : request -> Prop) (t0 : vtables) : vtables -> Prop :=
| reaches_start : reaches allowed t0 t0
| reaches_serve t q s : reaches allowed t0 t -> allowed q ->
    reaches allowed t0 (committed (snd (serve q (Conn t None s))))
| reaches_time t n : reaches allowed t0 t -> reaches allowed t0 (with_vnow n t).

(** No decision was taken about a user. *)
Definition undecided (u : string) (t : vtables) : Prop :=
  forall r, verifications t !! u = Some r -> isTerminalEventStatus r.(Row.status) = false.

Definition topic_of (status : string) : string :=
  if status =s StatusRejected then UserRejectedTopic else UserVerifiedTopic.

(** One request writes at most the row of one undecided user, to the status [st],
    and announces at most that. *)
Inductive vstep (statuses : string -> Prop) (t t' : vtables) : Prop :=
| vstep_same : verifications t' = verifications t -> announcements t' = announcements t ->
    vstep statuses t t'
| vstep_write u row new :
    undecided u t -> row.(Row.user_id) = u -> statuses row.(Row.status) ->
    verifications t' = <[u := row]> (verifications t) -> vwf t' ->
    announcements t' = (announcements t ++ new)%list ->
    (new = [] \/ exists e, new = [e] /\ e.(OutboxEvent.PartitionKey) = u /\
       isTerminalEventStatus row.(Row.status) = true /\
       e.(OutboxEvent.Topic) = topic_of row.(Row.status)) ->
    vstep statuses t t'.

Lemma vstep_wf P t t' : vwf t -> vstep P t t' -> vwf t'.
Proof. intros [Hu Hk] [Hv _ | ]; [| done]. split; rewrite Hv; done. Qed.

(** What the store changed, when it changed something. *)
Definition wrote (u : string) (st : string) (res : SubmitResult.t) (t t' : vtables) : Prop :=
  (t' = t /\ res.(SubmitResult.Transitioned) = false) \/
  exists row, undecided u t /\ row.(Row.user_id) = u /\ row.(Row.status) = st /\
    t' = with_verifications (<[u := row]> (verifications t)) t /\ vwf t' /\
    res.(SubmitResult.Record_) = scan_record row.

Lemma wrote_wf t u row :
  vwf t -> row.(Row.user_id) = u ->
  (forall u' r', verifications t !! u' = Some r' -> r'.(Row.idempotency_key) = row.(Row.idempotency_key) -> u' = u) ->
  vwf (with_verifications (<[u := row]> (verifications t)) t).
Proof.
  intros Hwf Hrow Hkey. split; simpl.
  - intros u' r'. rewrite lookup_insert. case_decide; [intros [= <-]; congruence | by apply vwf_user].
  - intros u1 u2 r1 r2. rewrite !lookup_insert. repeat case_decide; intros; simplify_eq; try done.
    + symmetry. eauto.
    + eauto.
    + by eapply vwf_key.
Qed.

Lemma submit_wrote cmd decision now hex t res t' :
  vwf t -> submit_spec cmd decision now hex t = Ok (res, t') ->
  wrote cmd.(SubmitCommand.UserID) decision.(Decision.Status) res t t'.
Proof.
  intros Hwf. unfold submit_spec. set (user := SubmitCommand.UserID cmd). set (key := SubmitCommand.IdempotencyKey cmd).
  case_match eqn:Hc; [done |].
  assert (forall u' r', verifications t !! u' = Some r' -> r'.(Row.idempotency_key) = key -> u' = user) as Hkey.
  { intros u' r' Hu' Hk. rewrite <- Hk, (key_row_own t u' r') in Hc by done.
    apply negb_false_iff, String.eqb_eq in Hc. rewrite <- Hc. symmetry. by eapply vwf_user. }
  destruct (verifications t !! user) as [ex|] eqn:Hu.
  - destruct (_ || _) eqn:Hb; intros [= <- <-]; [by left | right]. apply orb_false_iff in Hb as [_ Hb].
    exists (resubmitted ex cmd decision now ex). split; [intros r Hr; congruence |]. split; [simpl; by eapply vwf_user |].
    split; [done |]. split; [done |]. split; [| done]. apply wrote_wf; [done | simpl; by eapply vwf_user | done].
  - destruct (taken_id _ t); [done |]. destruct (key_row key t); [done |]. intros [= <- <-]. right.
    exists (inserted_row cmd decision now hex). split; [intros r Hr; congruence |]. split; [done |].
    split; [done |]. split; [done |]. split; [| done]. by apply wrote_wf.
Qed.

Lemma decide_wrote cmd decision now t res t' :
  vwf t -> decide_spec cmd decision now t = Ok (res, t') ->
  wrote cmd.(DecisionCommand.UserID) decision.(Decision.Status) res t t'.
Proof.
  intros Hwf. unfold decide_spec. set (user := DecisionCommand.UserID cmd).
  destruct (verifications t !! user) as [ex|] eqn:Hu; [| done].
  destruct (isTerminalEventStatus _) eqn:Hb; intros [= <- <-]; [by left | right].
  exists (decided cmd decision now ex). split; [intros r Hr; congruence |]. split; [simpl; by eapply vwf_user |].
  split; [done |]. split; [done |]. split; [| done]. apply wrote_wf; [done | simpl; by eapply vwf_user |].
  simpl. intros u' r' Hu' Hk. by eapply vwf_key.
Qed.

Lemma wrote_vstep u st res t t' : wrote u st res t t' -> vstep (eq st) t t'.
Proof.
  intros [[-> _] | (row & Hun & Hr & Hst & -> & Hwf & _)]; [by apply vstep_same |].
  eapply (vstep_write _ _ _ u row []); try done; [by simpl; rewrite app_nil_r | by left].
Qed.

(** The announcement of a transition, written or lost. *)
Lemma announce_vstep u st res hex t t' s :
  wrote u st res t t' ->
  wp (announce_transition ctx res hex) (fun _ c' => working c' = None /\ vstep (eq st) t (committed c'))
     (Conn t' None s).
Proof.
  intros Hw. unfold announce_transition. wp_step.
  destruct (SubmitResult.Transitioned res && _) eqn:Hb; [| wp_step; wp_step; by eauto using wrote_vstep].
  apply andb_true_iff in Hb as [Htr Hterm].
  assert (vstep (eq st) t t') as Hst by by eapply wrote_vstep.
  destruct Hw as [[_ Hf] | (row & Hun & Hr & Hrow & -> & Hwf & Hrec)]; [congruence |].
  unfold publish, announcement. rewrite Hrec in *. simpl in *.
  wp_step; [done |]. simpl. split; [wp_step; split; [done |] | intros _; split; [done |]].
  all: eapply (vstep_write _ _ _ u row [_]); simpl; try done;
    [by destruct Hwf as [Hw1 Hw2]; split | right; eexists; by rewrite Hr].
Qed.
(** The status a request asks for. *)
Definition sets (q : request) (st : string) : Prop :=
  match q with
  | ReqSubmit mode cmd _ _ _ => exists d, decide_submission mode (trim_submission cmd) = Ok d /\ d.(Decision.Status) = st
  | ReqDecide cmd _ _ => exists d, decisionFromAdminCommand (trim_decision cmd) = Ok d /\ d.(Decision.Status) = st
  | ReqStatus _ => False
  end.

Lemma vstep_mono (P Q : string -> Prop) t t' : (forall st, P st -> Q st) -> vstep P t t' -> vstep Q t t'.
Proof. intros HPQ [| u row new]; [by apply vstep_same | eapply (vstep_write _ _ _ u row new); eauto]. Qed.

(** A store operation followed by its announcement. *)
Lemma served_vstep u (st : string) (P : string -> Prop) (p : vdb SubmitResult.t) spec hex t s :
  refines vwf p spec -> (forall res t', spec t = Ok (res, t') -> wrote u st res t t') ->
  vwf t -> P st ->
  wp (let! result := p in announce_transition ctx result hex)
     (fun _ c' => working c' = None /\ vstep P t (committed c')) (Conn t None s).
Proof.
  intros Hr Hw Hwf HP. wp_step. eapply wp_mono; [by apply Hr |].
  assert (forall t', vstep (eq st) t t' -> vstep P t t') as Hmono
    by (intros t'; apply vstep_mono; by intros ? <-).
  intros r [cm wk s'] [Hwk Ho]; simpl in *; subst wk.
  inversion Ho as [res t' Hs | e Hs | Hl | res t' Hl Hs]; subst.
  - eapply wp_mono; [by eapply announce_vstep, Hw |]. simpl. intuition.
  - split; [done |]. by apply vstep_same.
  - split; [done |]. by apply vstep_same.
  - split; [done |]. by eapply Hmono, wrote_vstep, Hw.
Qed.

Lemma serve_vstep q t s :
  vwf t -> wp (serve q) (fun _ c' => working c' = None /\ vstep (sets q) t (committed c')) (Conn t None s).
Proof.
  intros Hwf. destruct q as [mode cmd now idHex eventHex | cmd now eventHex | user]; simpl; wp_step.
  - unfold Submit. wp_step. wp_step; [split; [done | by apply vstep_same] |].
    wp_step. wp_step. destruct (decide_submission _ _) as [d|] eqn:Hd; [| split; [done | by apply vstep_same]].
    eapply wp_mono; [eapply (served_vstep _ d.(Decision.Status) (sets (ReqSubmit mode cmd now idHex eventHex))); [apply submit_refines | | done | by exists d] |].
    { intros res t' Hs. by eapply submit_wrote. }
    by intros [] c' [? ?].
  - unfold Decide. wp_step. wp_step; [split; [done | by apply vstep_same] |].
    wp_step. wp_step. destruct (decisionFromAdminCommand _) as [d|] eqn:Hd; [| split; [done | by apply vstep_same]].
    eapply wp_mono; [eapply (served_vstep _ d.(Decision.Status) (sets (ReqDecide cmd now eventHex))); [apply decide_refines | | done | by exists d] |].
    { intros res t' Hs. by eapply decide_wrote. }
    by intros [] c' [? ?].
  - unfold GetStatus, store_GetStatus, scanVerification. wp_step. wp_step; [split; [done | by apply vstep_same] |].
    wp_step. wp_step. wp_step. wp_step; [wp_step; split; [done | by apply vstep_same] |].
    destruct (q_row _ t); wp_step; [wp_step; wp_step |]; (split; [done | by apply vstep_same]).
Qed.

(** Runs by their steps. *)
Lemma reaches_vstep (allowed : request -> Prop) (I : vtables -> Prop) t0 t :
  vwf t0 -> I t0 ->
  (forall t t' q, vwf t -> I t -> allowed q -> vstep (sets q) t t' -> I t') ->
  (forall t n, I t -> I (with_vnow n t)) ->
  reaches allowed t0 t -> vwf t /\ I t.
Proof.
  intros Hwf HI Hstep Htime Hr. induction Hr as [| t q s Hr [IHw IH] Hq | t n Hr [IHw IH]]; [done | |].
  - destruct (wp_elim _ _ _ (serve_vstep q t s IHw)) as [_ Hv]. split; [by eapply vstep_wf | by eapply Hstep].
  - split; [by destruct IHw; split | by apply Htime].
Qed.

Lemma reaches_wf allowed t0 t : vwf t0 -> reaches allowed t0 t -> vwf t.
Proof. intros Hwf Hr. by apply (reaches_vstep allowed (fun _ => True) t0). Qed.

(** The announcements about a user. *)
Definition announced (u : string) (t : vtables) : list OutboxEvent.t :=
  filter (fun e => e.(OutboxEvent.PartitionKey) = u) (announcements t).

Definition new_service (n : time) : vtables := VTables ∅ [] 0 n.

Lemma new_service_wf n : vwf (new_service n).
Proof. by split. Qed.

(** At most one announcement per user, and it tells the user's status. *)
Definition told (t : vtables) : Prop :=
  forall u, announced u t = [] \/
    exists e r, announced u t = [e] /\ verifications t !! u = Some r /\
      isTerminalEventStatus r.(Row.status) = true /\ e.(OutboxEvent.Topic) = topic_of r.(Row.status).

Lemma told_step P t t' : told t -> vstep P t t' -> told t'.
Proof.
  intros Ht [Hv Ha | u row new Hun Hrow _ Hv _ Ha Hnew] v; unfold announced; rewrite Ha, Hv; [apply Ht |].
  rewrite list.filter_app. rewrite lookup_insert. specialize (Ht v). fold (announced v t). case_decide as Heq.
  - subst v. destruct Ht as [-> | (e & r & -> & Hr & Hterm & _)].
    + destruct Hnew as [-> | (e & -> & Hk & Hterm & Htop)]; [by left | right]. exists e, row.
      by rewrite filter_cons_True.
    + apply Hun in Hr. congruence.
  - replace (filter _ new) with (@nil OutboxEvent.t); [by rewrite app_nil_r |].
    destruct Hnew as [-> | (e & -> & Hk & _)]; [done |]. by rewrite filter_cons_False by congruence.
Qed.

(** Submissions are transactions: whatever round trips are lost, [PostgresStore.Submit]
    ends outside a transaction and either does what [submit_spec] says of the
    committed rows or, when a round trip was lost, reports the failure having
    written all of it or nothing. *)
Theorem submit_atomic cmd decision now hex :
  refines vwf (store_Submit cmd decision now hex) (submit_spec cmd decision now hex).
Proof. apply submit_refines. Qed.

(** C5: a decision is final: once a user is verified or rejected, no submission and no
    decision, in any order and however their round trips are lost, changes the row. *)
Theorem decision_is_final allowed t0 t u r :
  vwf t0 -> reaches allowed t0 t -> verifications t0 !! u = Some r ->
  isTerminalEventStatus r.(Row.status) = true -> verifications t !! u = Some r.
Proof.
  intros Hwf Hr Hu Hterm.
  apply (reaches_vstep allowed (fun t => verifications t !! u = Some r) t0 t); try done.
  intros t1 t2 q _ H1 _ [Hv _ | v row new Hun _ _ Hv _ _ _]; rewrite Hv; [done |].
  rewrite lookup_insert_ne; [done |]. intros ->. apply Hun in H1. congruence.
Qed.


(** In the manual mode, requests other than approvals. *)
Definition unapproved (q : request) : Prop :=
  match q with
  | ReqSubmit mode _ _ _ _ => ToLower mode = ModeManual
  | ReqDecide cmd _ _ => forall d, decisionFromAdminCommand (trim_decision cmd) = Ok d -> d.(Decision.Status) <> StatusVerified
  | ReqStatus _ => True
  end.

(** With the manual mode configured nobody is verified without an administrator's
    approval: submissions, rejections and queries leave every user unverified. *)
Theorem manual_mode_needs_approval n t u r :
  reaches unapproved (new_service n) t -> verifications t !! u = Some r -> r.(Row.status) <> StatusVerified.
Proof.
  intros Hr. revert u r.
  apply (reaches_vstep unapproved (fun t => forall u r, verifications t !! u = Some r -> r.(Row.status) <> StatusVerified)
           (new_service n) t (new_service_wf n)); try done.
  intros t1 t2 q _ H1 Hq [Hv _ | v row new _ _ Hst Hv _ _ _] u' r'; rewrite Hv; [apply H1 |].
  rewrite lookup_insert. case_decide; [| apply H1]. intros [= <-].
  destruct q as [mode cmd ? ? ? | cmd ? ? | ?]; simpl in Hst, Hq; [| | done].
  - destruct Hst as (d & Hd & <-). unfold decide_submission in Hd. rewrite Hq in Hd. by injection Hd as <-.
  - destruct Hst as (d & Hd & <-). by apply Hq.
Qed.
End Runs.

(** ** On concrete rows *)

Definition demo_submission : SubmitCommand.t := SubmitCommand.mk "" "key-1" "trace" " alice " "" "" "passport".
Definition demo_rejection : DecisionCommand.t := DecisionCommand.mk "alice" "trace" "Reject" "expired".
Definition demo_approval : DecisionCommand.t := DecisionCommand.mk "alice" "trace" "approve" "checked".

(** A run: each request with the fate of its round trips. *)
Definition served `{Postgres} (t : vtables) (l : list (request * list fault)) : vtables :=
  foldl (fun t qs => committed (snd (serve background qs.1 (Conn t None qs.2)))) t l.

Lemma decisions_reach `{Postgres} (allowed : request -> Prop) t0 l :
  Forall (fun qs => allowed qs.1) l -> reaches background allowed t0 (served t0 l).
Proof.
  unfold served. intros Hl. assert (reaches background allowed t0 t0) as Hr by constructor. revert Hr.
  generalize t0 at 2 4. induction Hl as [| [q s] l Hq Hl IH]; intros t Hr; [done |]. simpl. apply IH.
  by apply reaches_serve.
Qed.

Definition demo_requests : list (request * list fault) := [
  (ReqSubmit "Manual" demo_submission 7 "aa" "bb", []);
  (ReqDecide demo_rejection 9 "cc", [])].

Definition after_rejection : vtables := served (new_service 5) demo_requests.

(** Approvals after the rejection, the second losing its commit. *)
Definition late_requests : list (request * list fault) := [
  (ReqDecide demo_approval 11 "dd", []);
  (ReqSubmit "auto" demo_submission 12 "ee" "ff", [NoFault; NoFault; NoFault; FailAfter])].

Definition status_of (u : string) (t : vtables) : option string := Row.status <$> verifications t !! u.

Lemma after_rejection_reaches : reaches background unapproved (new_service 5) after_rejection.
Proof.
  apply decisions_reach. constructor; [by vm_compute |]. constructor; [| constructor].
  simpl. intros d. vm_compute. by intros [= <-].
Qed.

Lemma submit_atomic_witness :
  wp (store_Submit (trim_submission demo_submission) (Decision.mk StatusPending "passport") 7 "aa")
     (fun r c' => working c' = None /\
        outcome (submit_spec (trim_submission demo_submission) (Decision.mk StatusPending "passport") 7 "aa" (new_service 5))
          (~ quiet [NoFault; FailAfter]) (new_service 5) r (committed c'))
     (Conn (new_service 5) None [NoFault; FailAfter]).
Proof. apply submit_atomic. apply new_service_wf. Defined.

Lemma decision_is_final_witness :
  status_of "alice" after_rejection = Some StatusRejected /\
  status_of "alice" (served after_rejection late_requests) = Some StatusRejected.
Proof.
  split; [by vm_compute |].
  destruct (verifications after_rejection !! "alice") as [r|] eqn:Hr; [| by vm_compute in Hr].
  unfold status_of. rewrite (decision_is_final background (fun _ => True) after_rejection _ "alice" r).
  - vm_compute in Hr. injection Hr as <-. reflexivity.
  - exact (reaches_wf background _ _ _ (new_service_wf 5) after_rejection_reaches).
  - apply decisions_reach. constructor; [exact I |]. constructor; [exact I | constructor].
  - exact Hr.
  - vm_compute in Hr. injection Hr as <-. reflexivity.
Defined.


Lemma manual_mode_needs_approval_witness :
  exists r, verifications after_rejection !! "alice" = Some r /\ r.(Row.status) <> StatusVerified.
Proof.
  destruct (verifications after_rejection !! "alice") as [r|] eqn:Hr; [| by vm_compute in Hr].
  exists r. split; [done |].
  exact (manual_mode_needs_approval background 5 after_rejection "alice" r after_rejection_reaches Hr).
Defined.

End Verification.
