(* ===== verification/Grpc.v ===== *)
(** * Grpc: what the gRPC servers share.

    A status is a code with a message.  A handler is a program whose errors are
    statuses; [served_by] runs the application behind it and maps its errors.
    Incoming metadata is what [metadata.FromIncomingContext] finds: nothing, or
    the values under [x-user-id]. *)

From S2P Require Import Prelude GoStrings Domain Json Database.

#[local] Open Scope string_scope.
#[local] Open Scope Z_scope.

Inductive code :=
| InvalidArgument | NotFound | AlreadyExists | FailedPrecondition | Internal.

Record status := Status { Code : code; Message : string }.

#[export] Instance code_eq_dec : EqDecision code.
Proof. solve_decision. Defined.
#[export] Instance status_eq_dec : EqDecision status.
Proof. solve_decision. Defined.

(** The status of every error the tables of [statusFromDomain] do not name. *)
Definition internal_error : status := Status Internal "internal server error".
#[export] Instance status_infra : Infra status := internal_error.

Abbreviation rpc A := (prog tables status A).

(** The value a handler needs, or the status it refuses with. *)
Definition required {T A} (o : option A) (e : status) : prog T status A :=
  match o with Some a => ret a | None => throw e end.

Definition request_required : status := Status InvalidArgument "request is required".

(** The application's answer with its error mapped. *)
Definition served_by {T E A} (f : E -> status) (p : prog T E A) : prog T status A := fun c =>
  match p c with
  | (Ok a, c') => (Ok a, c')
  | (Err e, c') => (Err (f e), c')
  end.

Definition incoming : Type := option (list string).
Definition userIDMetadataKey : string := "x-user-id".

Definition invalid_uuid (field : string) : status := Status InvalidArgument (field ++ " must be a valid UUID").

Section Uuids.
Context {T : Type} `{Uuid}.

Definition parseUUID (raw field : string) : prog T status uuid :=
  required (uuid_Parse raw) (invalid_uuid field).

Definition userIDFromMetadata (md : incoming) : prog T status uuid :=
  match md with
  | Some (v :: _) => if v =s "" then throw (Status InvalidArgument "x-user-id metadata is required")
                     else parseUUID v userIDMetadataKey
  | _ => throw (Status InvalidArgument "x-user-id metadata is required")
  end.

Definition optionalUserIDFromMetadata (md : incoming) : prog T status uuid :=
  match md with
  | Some (v :: _) => if v =s "" then ret uuid_Nil else parseUUID v userIDMetadataKey
  | _ => ret uuid_Nil
  end.
End Uuids.

(** ** Handlers and their contracts *)

Definition map_status {E A T} (f : E -> status) (r : res E (A * T)) : res status (A * T) :=
  match r with Ok x => Ok x | Err e => Err (f e) end.

Definition map_answer {E A B T} (f : A -> B) (r : res E (A * T)) : res E (B * T) :=
  match r with Ok (a, t) => Ok (f a, t) | Err e => Err e end.

Lemma answered_inv {E A B T} (f : A -> B) (h : E -> status) (o : res E (A * T)) b t :
  map_answer f (map_status h o) = Ok (b, t) -> exists a, o = Ok (a, t) /\ b = f a.
Proof. destruct o as [[a t'] |]; simpl; [| done]. intros [= <- <-]. eauto. Qed.

Lemma served_by_refines {T E A} `{Infra E} (f : E -> status) (p : prog T E A) spec (Inv : T -> Prop) :
  f unavailable = unavailable -> refines Inv p spec ->
  refines Inv (served_by f p) (fun t => map_status f (spec t)).
Proof.
  intros Hf Hr t s Hi. specialize (Hr t s Hi). revert Hr. unfold wp, served_by.
  destruct (p (Conn t None s)) as [r c']. intros [Hw Ho].
  inversion Ho as [a t' Hs | e Hs | Hl | a t' Hl Hs]; subst; (split; [done |]); rewrite ?Hs; simpl.
  - by apply outcome_done.
  - by apply outcome_refused.
  - rewrite Hf. by apply outcome_lost_before.
  - rewrite Hf. by eapply outcome_lost_after.
Qed.

Lemma answered_refines {T E A B} `{Infra E} (f : A -> B) (p : prog T E A) spec (Inv : T -> Prop) :
  refines Inv p spec -> refines Inv (let! a := p in ret (f a)) (fun t => map_answer f (spec t)).
Proof.
  intros Hr t s Hi. wp_step. eapply wp_mono; [by apply Hr |]. intros r c' [Hw Ho].
  inversion Ho as [a t' Hs | e Hs | Hl | a t' Hl Hs]; subst; rewrite ?Hs; simpl; [wp_step | | |]; (split; [done |]).
  - by apply outcome_done.
  - by apply outcome_refused.
  - by apply outcome_lost_before.
  - by eapply outcome_lost_after.
Qed.

(** The checks of a handler before it calls the application. *)
Lemma required_refines {T A B} (o : option A) e (k : A -> prog T status B) spec (Inv : T -> Prop) :
  (forall a, o = Some a -> refines Inv (k a) (spec a)) ->
  refines Inv (let! a := required o e in k a)
    (fun t => match o with Some a => spec a t | None => Err e end).
Proof.
  intros Hk t s Hi. wp_step. unfold required. destruct o as [a|]; wp_step; [by apply Hk | by finish_outcome].
Qed.

Lemma guard_refines {T B} (b : bool) e (k : prog T status B) spec (Inv : T -> Prop) :
  (b = false -> refines Inv k spec) ->
  refines Inv (guard b e ;! k) (fun t => if b then Err e else spec t).
Proof. intros Hk t s Hi. wp_step. destruct b; wp_step; try done; [by finish_outcome | by apply Hk]. Qed.
