(* ===== verification/WalletServer.v ===== *)
(** * WalletServer: [internal/walletgrpc/server.go].

    The wallet service as its clients reach it: every handler parses the texts of
    the request, calls [wallet.Service] and renders the answer.  The saga's two
    commands come with their contracts, which the orchestrator's client relies
    on. *)

From S2P Require Import Prelude GoStrings Domain Json Database Outbox Fixtures.
From S2P Require Import WalletRepo LedgerRepo LedgerPages WalletService Grpc.

#[local] Open Scope string_scope.
#[local] Open Scope Z_scope.

Module WalletServer.

Module CreateWalletRequest.
Record t := mk { UserId : string; Currency : string }.
End CreateWalletRequest.

Module WalletMessage.
Record t := mk {
  Id : string; UserId : string; BalanceCents : Z; Currency : string; CreatedAt : time; UpdatedAt : time
}.
End WalletMessage.

Module GetBalanceResponse.
Record t := mk { WalletId : string; BalanceCents : Z; Currency : string }.
End GetBalanceResponse.

Module InitiateTransferRequest.
Record t := mk { FromWalletId : string; ToWalletId : string; AmountCents : Z }.
End InitiateTransferRequest.

Module InitiateTransferResponse.
Record t := mk { TransferId : string; Status : string; FromBalanceCents : Z; ToBalanceCents : Z }.
End InitiateTransferResponse.

Module DebitForSagaRequest.
Record t := mk {
  PaymentId : string; IdempotencyKey : string; TraceId : string; FromWalletId : string;
  AmountCents : Z; Currency : string
}.
End DebitForSagaRequest.

Module DebitForSagaResponse.
Record t := mk { PaymentId : string; WalletDebitId : string; Status : string; BalanceAfterCents : Z }.
End DebitForSagaResponse.

Module CompensateDebitRequest.
Record t := mk {
  PaymentId : string; IdempotencyKey : string; TraceId : string; FromWalletId : string;
  WalletDebitId : string; AmountCents : Z; Currency : string; Reason : string
}.
End CompensateDebitRequest.

Module CompensateDebitResponse.
Record t := mk { PaymentId : string; CompensationId : string; Status : string; BalanceAfterCents : Z }.
End CompensateDebitResponse.

Definition statusFromDomain (e : error) : status :=
  match e with
  | ErrNotFound => Status NotFound "wallet not found"
  | ErrUnsupportedCurrency => Status InvalidArgument "currency is unsupported"
  | ErrInvalidAmount => Status InvalidArgument "amount is invalid"
  | ErrInvalidTransfer => Status InvalidArgument "transfer is invalid"
  | ErrCurrencyMismatch => Status InvalidArgument "currency mismatch"
  | ErrInsufficientFunds => Status FailedPrecondition "insufficient funds"
  | ErrDebitNotFound => Status FailedPrecondition "debit not found"
  | _ => internal_error
  end.

Section Handlers.
Context `{Postgres} `{Uuid}.

Definition walletMessage (wallet : Wallet.t) : WalletMessage.t :=
  WalletMessage.mk (uuid_String wallet.(Wallet.ID)) (uuid_String wallet.(Wallet.UserID)) wallet.(Wallet.Balance)
    wallet.(Wallet.Currency) wallet.(Wallet.CreatedAt) wallet.(Wallet.UpdatedAt).

Definition CreateWallet (req : option CreateWalletRequest.t) : rpc WalletMessage.t :=
  let! req := required req request_required in
  let! userID := parseUUID req.(CreateWalletRequest.UserId) "user_id" in
  let! wallet := served_by statusFromDomain (Service.CreateWallet userID req.(CreateWalletRequest.Currency)) in
  ret (walletMessage wallet).

Definition GetWallet (md : incoming) (wallet_id : option string) : rpc WalletMessage.t :=
  let! wallet_id := required wallet_id request_required in
  let! userID := userIDFromMetadata md in
  let! walletID := parseUUID wallet_id "wallet_id" in
  let! wallet := served_by statusFromDomain (Service.GetWallet userID walletID) in
  ret (walletMessage wallet).

Definition GetBalance (md : incoming) (wallet_id : option string) : rpc GetBalanceResponse.t :=
  let! wallet_id := required wallet_id request_required in
  let! userID := userIDFromMetadata md in
  let! walletID := parseUUID wallet_id "wallet_id" in
  let! wallet := served_by statusFromDomain (Service.GetBalance userID walletID) in
  ret (GetBalanceResponse.mk (uuid_String wallet.(Wallet.ID)) wallet.(Wallet.Balance) wallet.(Wallet.Currency)).

Definition InitiateTransfer (outboxTopic : string) (ctx : context) (md : incoming)
    (req : option InitiateTransferRequest.t) : rpc InitiateTransferResponse.t :=
  let! req := required req request_required in
  let! userID := userIDFromMetadata md in
  let! fromWalletID := parseUUID req.(InitiateTransferRequest.FromWalletId) "from_wallet_id" in
  let! toWalletID := parseUUID req.(InitiateTransferRequest.ToWalletId) "to_wallet_id" in
  guard (req.(InitiateTransferRequest.AmountCents) <=? 0)
    (Status InvalidArgument "amount_cents must be positive") ;!
  guard (bool_decide (fromWalletID = toWalletID))
    (Status InvalidArgument "from_wallet_id and to_wallet_id must differ") ;!
  let! transfer := served_by statusFromDomain
    (Service.CreateTransfer outboxTopic ctx userID fromWalletID toWalletID req.(InitiateTransferRequest.AmountCents)) in
  ret (InitiateTransferResponse.mk (uuid_String transfer.(Transfer.ID)) transfer.(Transfer.Status)
         transfer.(Transfer.FromBalance) transfer.(Transfer.ToBalance)).

Definition debit_response (op : SagaWalletOperation.t) : DebitForSagaResponse.t :=
  DebitForSagaResponse.mk (uuid_String op.(SagaWalletOperation.PaymentID)) (uuid_String op.(SagaWalletOperation.ID))
    op.(SagaWalletOperation.Status) op.(SagaWalletOperation.BalanceAfterCents).

Definition DebitForSaga (md : incoming) (req : option DebitForSagaRequest.t) : rpc DebitForSagaResponse.t :=
  let! req := required req request_required in
  let! paymentID := parseUUID req.(DebitForSagaRequest.PaymentId) "payment_id" in
  let! fromWalletID := parseUUID req.(DebitForSagaRequest.FromWalletId) "from_wallet_id" in
  guard (req.(DebitForSagaRequest.IdempotencyKey) =s "")
    (Status InvalidArgument "idempotency_key is required") ;!
  guard (req.(DebitForSagaRequest.AmountCents) <=? 0)
    (Status InvalidArgument "amount_cents must be positive") ;!
  guard (req.(DebitForSagaRequest.Currency) =s "") (Status InvalidArgument "currency is required") ;!
  let! userID := optionalUserIDFromMetadata md in
  let! op := served_by statusFromDomain (Service.DebitForSaga userID
    (SagaDebitCommand.mk paymentID fromWalletID req.(DebitForSagaRequest.AmountCents)
       req.(DebitForSagaRequest.Currency) req.(DebitForSagaRequest.IdempotencyKey))) in
  ret (debit_response op).

Definition compensate_response (op : SagaWalletOperation.t) : CompensateDebitResponse.t :=
  CompensateDebitResponse.mk (uuid_String op.(SagaWalletOperation.PaymentID))
    (uuid_String op.(SagaWalletOperation.ID)) op.(SagaWalletOperation.Status)
    op.(SagaWalletOperation.BalanceAfterCents).

Definition optional_debit_id (raw : string) : rpc uuid :=
  if raw =s "" then ret uuid_Nil else parseUUID raw "wallet_debit_id".

Definition CompensateDebit (req : option CompensateDebitRequest.t) : rpc CompensateDebitResponse.t :=
  let! req := required req request_required in
  let! paymentID := parseUUID req.(CompensateDebitRequest.PaymentId) "payment_id" in
  let! fromWalletID := parseUUID req.(CompensateDebitRequest.FromWalletId) "from_wallet_id" in
  guard (req.(CompensateDebitRequest.IdempotencyKey) =s "")
    (Status InvalidArgument "idempotency_key is required") ;!
  let! walletDebitID := optional_debit_id req.(CompensateDebitRequest.WalletDebitId) in
  let! op := served_by statusFromDomain (Service.CompensateDebit
    (SagaCompensationCommand.mk paymentID fromWalletID walletDebitID req.(CompensateDebitRequest.AmountCents)
       req.(CompensateDebitRequest.Currency) req.(CompensateDebitRequest.IdempotencyKey)
       req.(CompensateDebitRequest.Reason))) in
  ret (compensate_response op).

(** ** Contracts of the saga's commands

    The orchestrator's client sends no metadata. *)

Definition debit_rpc_spec (req : DebitForSagaRequest.t) (t : tables) : res status (DebitForSagaResponse.t * tables) :=
  match uuid_Parse req.(DebitForSagaRequest.PaymentId) with
  | None => Err (invalid_uuid "payment_id")
  | Some paymentID =>
  match uuid_Parse req.(DebitForSagaRequest.FromWalletId) with
  | None => Err (invalid_uuid "from_wallet_id")
  | Some fromWalletID =>
  if req.(DebitForSagaRequest.IdempotencyKey) =s "" then Err (Status InvalidArgument "idempotency_key is required")
  else if req.(DebitForSagaRequest.AmountCents) <=? 0 then Err (Status InvalidArgument "amount_cents must be positive")
  else if req.(DebitForSagaRequest.Currency) =s "" then Err (Status InvalidArgument "currency is required")
  else map_answer debit_response (map_status statusFromDomain
         (Service.debit_service_spec uuid_Nil
            (SagaDebitCommand.mk paymentID fromWalletID req.(DebitForSagaRequest.AmountCents)
               req.(DebitForSagaRequest.Currency) req.(DebitForSagaRequest.IdempotencyKey)) t))
  end end.

Definition compensate_rpc_spec (req : CompensateDebitRequest.t) (t : tables)
    : res status (CompensateDebitResponse.t * tables) :=
  match uuid_Parse req.(CompensateDebitRequest.PaymentId) with
  | None => Err (invalid_uuid "payment_id")
  | Some paymentID =>
  match uuid_Parse req.(CompensateDebitRequest.FromWalletId) with
  | None => Err (invalid_uuid "from_wallet_id")
  | Some fromWalletID =>
  if req.(CompensateDebitRequest.IdempotencyKey) =s "" then Err (Status InvalidArgument "idempotency_key is required")
  else match (if req.(CompensateDebitRequest.WalletDebitId) =s "" then Some uuid_Nil
              else uuid_Parse req.(CompensateDebitRequest.WalletDebitId)) with
       | None => Err (invalid_uuid "wallet_debit_id")
       | Some walletDebitID =>
           map_answer compensate_response (map_status statusFromDomain
             (Service.compensate_service_spec
                (SagaCompensationCommand.mk paymentID fromWalletID walletDebitID
                   req.(CompensateDebitRequest.AmountCents) req.(CompensateDebitRequest.Currency)
                   req.(CompensateDebitRequest.IdempotencyKey) req.(CompensateDebitRequest.Reason)) t))
       end
  end end.
End Handlers.

Section Refinement.
Context `{Postgres} `{!PostgresOk} `{Uuid}.

Lemma debit_rpc_refines req : refines wf (DebitForSaga None (Some req)) (debit_rpc_spec req).
Proof.
  unfold DebitForSaga, debit_rpc_spec. apply (required_refines (Some req) _ _ debit_rpc_spec). intros ? [= <-].
  apply required_refines. intros p _. apply required_refines. intros w _.
  apply guard_refines. intros _. apply guard_refines. intros _. apply guard_refines. intros _.
  apply (required_refines (Some uuid_Nil) request_required _ (fun u t => map_answer debit_response
    (map_status statusFromDomain (Service.debit_service_spec u _ t)))). intros ? [= <-].
  apply answered_refines, served_by_refines; [done |]. apply Service.service_debit_refines.
Qed.

Lemma compensate_rpc_refines req : refines wf (CompensateDebit (Some req)) (compensate_rpc_spec req).
Proof.
  unfold CompensateDebit, compensate_rpc_spec. apply (required_refines (Some req) _ _ compensate_rpc_spec). intros ? [= <-].
  apply required_refines. intros p _. apply required_refines. intros w _.
  apply guard_refines. intros _. unfold optional_debit_id, parseUUID.
  replace (if _ =s "" then ret uuid_Nil else required (uuid_Parse _) _)
    with (required (T := tables) (if CompensateDebitRequest.WalletDebitId req =s "" then Some uuid_Nil
            else uuid_Parse (CompensateDebitRequest.WalletDebitId req)) (invalid_uuid "wallet_debit_id"))
    by (by case_match).
  apply required_refines. intros d _.
  apply answered_refines, served_by_refines; [done |]. apply Service.service_compensate_refines.
Qed.

(** A granted command carries the parsed payment. *)
Lemma debit_rpc_inv req t resp t' :
  debit_rpc_spec req t = Ok (resp, t') ->
  exists cmd o, uuid_Parse req.(DebitForSagaRequest.PaymentId) = Some cmd.(SagaDebitCommand.PaymentID) /\
    Service.debit_service_spec uuid_Nil cmd t = Ok (o, t') /\ resp = debit_response o.
Proof.
  unfold debit_rpc_spec. destruct (uuid_Parse _) as [p|]; [| done]. destruct (uuid_Parse _) as [w|]; [| done].
  do 3 (case_match; [done |]). intros (o & Hs & ->)%answered_inv. eexists _, o. split; [| by split; [exact Hs |]]. done.
Qed.

Lemma compensate_rpc_inv req t resp t' :
  compensate_rpc_spec req t = Ok (resp, t') ->
  exists cmd o, uuid_Parse req.(CompensateDebitRequest.PaymentId) = Some cmd.(SagaCompensationCommand.PaymentID) /\
    Service.compensate_service_spec cmd t = Ok (o, t') /\ resp = compensate_response o.
Proof.
  unfold compensate_rpc_spec. destruct (uuid_Parse (_ req)) as [p|]; [| done].
  destruct (uuid_Parse (_ req)) as [w|]; [| done]. case_match; [done |].
  destruct (if _ =s "" then _ else _) as [d|]; [| done].
  intros (o & Hs & ->)%answered_inv. eexists _, o. split; [| by split; [exact Hs |]]. done.
Qed.

(** Only the owner moves money out of a wallet: when a call of [InitiateTransfer]
    changes the tables, the caller's [x-user-id] parses to the user who owns the
    wallet the money leaves, whatever round trips are lost. *)
Theorem transfer_needs_owner topic ctx md req t s :
  wf t -> committed (snd (InitiateTransfer topic ctx md (Some req) (Conn t None s))) <> t ->
  exists v rest user fromID wallet,
    md = Some (v :: rest) /\ uuid_Parse v = Some user /\
    uuid_Parse req.(InitiateTransferRequest.FromWalletId) = Some fromID /\
    wallets t !! fromID = Some wallet /\ wallet.(Wallet.UserID) = user.
Proof.
  intros Hwf Hch.
  enough (wp (InitiateTransfer topic ctx md (Some req)) (fun _ c' => committed c' = t \/
    exists v rest user fromID wallet, md = Some (v :: rest) /\ uuid_Parse v = Some user /\
      uuid_Parse req.(InitiateTransferRequest.FromWalletId) = Some fromID /\
      wallets t !! fromID = Some wallet /\ wallet.(Wallet.UserID) = user) (Conn t None s)) as Hw.
  { apply wp_elim in Hw. by destruct Hw as [Hw | Hw]. }
  clear Hch. unfold InitiateTransfer, userIDFromMetadata, parseUUID, required. wp_step. wp_step. wp_step.
  destruct md as [[|v rest]|]; [wp_step; by left | | wp_step; by left].
  case_match; [wp_step; by left |].
  destruct (uuid_Parse v) as [user|] eqn:Hv; wp_step; [| by left].
  wp_step. destruct (uuid_Parse (InitiateTransferRequest.FromWalletId req)) as [fromID|] eqn:Hf;
    wp_step; [| by left].
  wp_step. destruct (uuid_Parse (InitiateTransferRequest.ToWalletId req)) as [toID|]; wp_step; [| by left].
  wp_step. wp_step; [by left |]. wp_step. wp_step; [by left |]. wp_step.
  eapply wp_mono; [eapply served_by_refines, Hwf; [done | apply Service.service_transfer_refines] |].
  intros r c' [_ Ho].
  assert (committed c' = t \/ exists x, transfer_spec topic ctx user fromID toID
            (InitiateTransferRequest.AmountCents req) t = Ok (x, committed c')) as Hc.
  { destruct (transfer_spec topic ctx user fromID toID _ t) as [[x t'] | e] eqn:Hs; simpl in Ho;
      inversion Ho; simplify_eq; eauto. }
  destruct r as [x|]; [wp_step |];
    (destruct Hc as [Hc | [x' Hc]]; [by left | right];
     apply transfer_spec_inv in Hc as (from & to & e' & x0 & _ & _ & Hfrom & _ & Huser & _);
     by exists v, rest, user, fromID, from).
Qed.
End Refinement.

(** ** On concrete tables *)

Definition demo_transfer_request : InitiateTransferRequest.t := InitiateTransferRequest.mk "1" "2" 400.
(** Bob asks for money out of Alice's wallet, and Alice does. *)
Definition as_user (u : string) : incoming := Some [u].

Lemma transfer_needs_owner_witness :
  let run u := InitiateTransfer "" background (as_user u) (Some demo_transfer_request) (Conn two_wallets None []) in
  fst (run "33") = Err (Status NotFound "wallet not found") /\
  exists v rest user fromID wallet,
    as_user "32" = Some (v :: rest) /\ uuid_Parse v = Some user /\
    uuid_Parse demo_transfer_request.(InitiateTransferRequest.FromWalletId) = Some fromID /\
    wallets two_wallets !! fromID = Some wallet /\ wallet.(Wallet.UserID) = user.
Proof.
  intros run. split; [by vm_compute |].
  apply (transfer_needs_owner "" background (as_user "32") demo_transfer_request two_wallets [] two_wallets_wf).
  intros Heq. apply (f_equal (balance_of 1%N)) in Heq. by vm_compute in Heq.
Defined.
End WalletServer.
