(* ===== verification/LedgerServer.v ===== *)
(** * LedgerServer: the saga's commands of [internal/ledgergrpc/server.go].

    The reservation, the confirmation and the cancellation as the orchestrator
    reaches them.  [cmd/ledger] gives the server the repository itself for these
    operations. *)

From S2P Require Import Prelude GoStrings Domain Json Database Outbox Fixtures.
From S2P Require Import WalletRepo LedgerRepo Grpc.

#[local] Open Scope string_scope.
#[local] Open Scope Z_scope.

Module LedgerServer.

Module ReserveTransferRequest.
Record t := mk {
  PaymentId : string; IdempotencyKey : string; TraceId : string; FromWalletId : string;
  ToWalletId : string; AmountCents : Z; Currency : string
}.
End ReserveTransferRequest.

Module ReservationResponse.
Record t := mk { PaymentId : string; LedgerReservationId : string; Status : string }.
End ReservationResponse.

Module ConfirmTransferRequest.
Record t := mk {
  PaymentId : string; IdempotencyKey : string; TraceId : string; LedgerReservationId : string;
  WalletDebitId : string
}.
End ConfirmTransferRequest.

Module ConfirmTransferResponse.
Record t := mk { PaymentId : string; TransferId : string; Status : string; CompletedAt : time }.
End ConfirmTransferResponse.

Module CancelReservationRequest.
Record t := mk {
  PaymentId : string; IdempotencyKey : string; TraceId : string; LedgerReservationId : string;
  Reason : string
}.
End CancelReservationRequest.

Definition statusFromDomain (e : error) : status :=
  match e with
  | ErrAlreadyExists => Status AlreadyExists "reservation conflicts with existing payload"
  | ErrFailedPrecondition => Status FailedPrecondition "reservation state does not allow this operation"
  | ErrNotFound => Status NotFound "wallet not found"
  | ErrInvalidAmount => Status InvalidArgument "amount or pagination is invalid"
  | ErrInvalidTransfer => Status InvalidArgument "transfer is invalid"
  | ErrUnsupportedCurrency => Status InvalidArgument "currency is unsupported"
  | ErrCurrencyMismatch => Status InvalidArgument "currency mismatch"
  | _ => internal_error
  end.

Section Handlers.
Context `{Postgres} `{Uuid}.

Definition reservation_response (r : LedgerReservation.t) : ReservationResponse.t :=
  ReservationResponse.mk (uuid_String r.(LedgerReservation.PaymentID)) (uuid_String r.(LedgerReservation.ID))
    r.(LedgerReservation.Status).

Definition confirm_response (c : LedgerConfirmation.t) : ConfirmTransferResponse.t :=
  ConfirmTransferResponse.mk (uuid_String c.(LedgerConfirmation.PaymentID))
    (uuid_String c.(LedgerConfirmation.TransferID)) c.(LedgerConfirmation.Status)
    c.(LedgerConfirmation.CompletedAt).

Definition ReserveTransfer (req : option ReserveTransferRequest.t) : rpc ReservationResponse.t :=
  let! req := required req request_required in
  let! paymentID := parseUUID req.(ReserveTransferRequest.PaymentId) "payment_id" in
  let! fromWalletID := parseUUID req.(ReserveTransferRequest.FromWalletId) "from_wallet_id" in
  let! toWalletID := parseUUID req.(ReserveTransferRequest.ToWalletId) "to_wallet_id" in
  guard (req.(ReserveTransferRequest.IdempotencyKey) =s "")
    (Status InvalidArgument "idempotency_key is required") ;!
  guard (req.(ReserveTransferRequest.AmountCents) <=? 0)
    (Status InvalidArgument "amount_cents must be positive") ;!
  guard (req.(ReserveTransferRequest.Currency) =s "") (Status InvalidArgument "currency is required") ;!
  guard (bool_decide (fromWalletID = toWalletID))
    (Status InvalidArgument "from_wallet_id and to_wallet_id must differ") ;!
  let! reservation := served_by statusFromDomain (LedgerRepo.ReserveTransfer
    (LedgerReserveCommand.mk paymentID req.(ReserveTransferRequest.IdempotencyKey)
       req.(ReserveTransferRequest.TraceId) fromWalletID toWalletID
       req.(ReserveTransferRequest.AmountCents) req.(ReserveTransferRequest.Currency))) in
  ret (reservation_response reservation).

Definition ConfirmTransfer (req : option ConfirmTransferRequest.t) : rpc ConfirmTransferResponse.t :=
  let! req := required req request_required in
  let! paymentID := parseUUID req.(ConfirmTransferRequest.PaymentId) "payment_id" in
  let! reservationID := parseUUID req.(ConfirmTransferRequest.LedgerReservationId) "ledger_reservation_id" in
  let! walletDebitID := parseUUID req.(ConfirmTransferRequest.WalletDebitId) "wallet_debit_id" in
  guard (req.(ConfirmTransferRequest.IdempotencyKey) =s "")
    (Status InvalidArgument "idempotency_key is required") ;!
  let! confirmation := served_by statusFromDomain (LedgerRepo.ConfirmTransfer
    (LedgerConfirmCommand.mk paymentID req.(ConfirmTransferRequest.IdempotencyKey)
       req.(ConfirmTransferRequest.TraceId) reservationID walletDebitID)) in
  ret (confirm_response confirmation).

Definition CancelReservation (req : option CancelReservationRequest.t) : rpc ReservationResponse.t :=
  let! req := required req request_required in
  let! paymentID := parseUUID req.(CancelReservationRequest.PaymentId) "payment_id" in
  let! reservationID := parseUUID req.(CancelReservationRequest.LedgerReservationId) "ledger_reservation_id" in
  guard (req.(CancelReservationRequest.IdempotencyKey) =s "")
    (Status InvalidArgument "idempotency_key is required") ;!
  let! reservation := served_by statusFromDomain (LedgerRepo.CancelReservation
    (LedgerCancelCommand.mk paymentID req.(CancelReservationRequest.IdempotencyKey)
       req.(CancelReservationRequest.TraceId) reservationID req.(CancelReservationRequest.Reason))) in
  ret (reservation_response reservation).

(** ** Contracts *)

Definition reserve_rpc_spec (req : ReserveTransferRequest.t) (t : tables) : res status (ReservationResponse.t * tables) :=
  match uuid_Parse req.(ReserveTransferRequest.PaymentId) with
  | None => Err (invalid_uuid "payment_id")
  | Some paymentID =>
  match uuid_Parse req.(ReserveTransferRequest.FromWalletId) with
  | None => Err (invalid_uuid "from_wallet_id")
  | Some fromWalletID =>
  match uuid_Parse req.(ReserveTransferRequest.ToWalletId) with
  | None => Err (invalid_uuid "to_wallet_id")
  | Some toWalletID =>
  if req.(ReserveTransferRequest.IdempotencyKey) =s "" then Err (Status InvalidArgument "idempotency_key is required")
  else if req.(ReserveTransferRequest.AmountCents) <=? 0 then Err (Status InvalidArgument "amount_cents must be positive")
  else if req.(ReserveTransferRequest.Currency) =s "" then Err (Status InvalidArgument "currency is required")
  else if bool_decide (fromWalletID = toWalletID)
       then Err (Status InvalidArgument "from_wallet_id and to_wallet_id must differ")
  else map_answer reservation_response (map_status statusFromDomain (reserve_spec
         (LedgerReserveCommand.mk paymentID req.(ReserveTransferRequest.IdempotencyKey)
            req.(ReserveTransferRequest.TraceId) fromWalletID toWalletID
            req.(ReserveTransferRequest.AmountCents) req.(ReserveTransferRequest.Currency)) t))
  end end end.

Definition confirm_rpc_spec (req : ConfirmTransferRequest.t) (t : tables)
    : res status (ConfirmTransferResponse.t * tables) :=
  match uuid_Parse req.(ConfirmTransferRequest.PaymentId) with
  | None => Err (invalid_uuid "payment_id")
  | Some paymentID =>
  match uuid_Parse req.(ConfirmTransferRequest.LedgerReservationId) with
  | None => Err (invalid_uuid "ledger_reservation_id")
  | Some reservationID =>
  match uuid_Parse req.(ConfirmTransferRequest.WalletDebitId) with
  | None => Err (invalid_uuid "wallet_debit_id")
  | Some walletDebitID =>
  if req.(ConfirmTransferRequest.IdempotencyKey) =s "" then Err (Status InvalidArgument "idempotency_key is required")
  else map_answer confirm_response (map_status statusFromDomain (confirm_spec
         (LedgerConfirmCommand.mk paymentID req.(ConfirmTransferRequest.IdempotencyKey)
            req.(ConfirmTransferRequest.TraceId) reservationID walletDebitID) t))
  end end end.

Definition cancel_rpc_spec (req : CancelReservationRequest.t) (t : tables)
    : res status (ReservationResponse.t * tables) :=
  match uuid_Parse req.(CancelReservationRequest.PaymentId) with
  | None => Err (invalid_uuid "payment_id")
  | Some paymentID =>
  match uuid_Parse req.(CancelReservationRequest.LedgerReservationId) with
  | None => Err (invalid_uuid "ledger_reservation_id")
  | Some reservationID =>
  if req.(CancelReservationRequest.IdempotencyKey) =s "" then Err (Status InvalidArgument "idempotency_key is required")
  else map_answer reservation_response (map_status statusFromDomain (cancel_spec
         (LedgerCancelCommand.mk paymentID req.(CancelReservationRequest.IdempotencyKey)
            req.(CancelReservationRequest.TraceId) reservationID req.(CancelReservationRequest.Reason)) t))
  end end.
End Handlers.

Section Refinement.
Context `{Postgres} `{!PostgresOk} `{Uuid}.

(** The tail of every handler. *)
Lemma app_refines {A B} (f : A -> B) (p : db A) spec :
  refines wf p spec ->
  refines wf (let! a := served_by statusFromDomain p in ret (f a))
    (fun t => map_answer f (map_status statusFromDomain (spec t))).
Proof. intros Hr. by apply answered_refines, served_by_refines. Qed.

Lemma reserve_rpc_refines req : refines wf (ReserveTransfer (Some req)) (reserve_rpc_spec req).
Proof.
  unfold ReserveTransfer, reserve_rpc_spec. apply (required_refines (Some req) _ _ reserve_rpc_spec). intros ? [= <-].
  do 3 (apply required_refines; intros ? _). do 4 (apply guard_refines; intros _).
  apply app_refines, reserve_refines.
Qed.

Lemma confirm_rpc_refines req : refines wf (ConfirmTransfer (Some req)) (confirm_rpc_spec req).
Proof.
  unfold ConfirmTransfer, confirm_rpc_spec. apply (required_refines (Some req) _ _ confirm_rpc_spec). intros ? [= <-].
  do 3 (apply required_refines; intros ? _). apply guard_refines. intros _.
  apply app_refines, confirm_refines.
Qed.

Lemma cancel_rpc_refines req : refines wf (CancelReservation (Some req)) (cancel_rpc_spec req).
Proof.
  unfold CancelReservation, cancel_rpc_spec. apply (required_refines (Some req) _ _ cancel_rpc_spec). intros ? [= <-].
  do 2 (apply required_refines; intros ? _). apply guard_refines. intros _.
  apply app_refines, cancel_refines.
Qed.

(** A granted command carries the parsed payment. *)
Lemma reserve_rpc_inv req t resp t' :
  reserve_rpc_spec req t = Ok (resp, t') ->
  exists cmd o, uuid_Parse req.(ReserveTransferRequest.PaymentId) = Some cmd.(LedgerReserveCommand.PaymentID) /\
    reserve_spec cmd t = Ok (o, t') /\ resp = reservation_response o.
Proof.
  unfold reserve_rpc_spec. do 3 (destruct (uuid_Parse (_ req)); [| done]). do 4 (case_match; [done |]).
  intros (o & Hs & ->)%answered_inv. eexists _, o. split; [| by split; [exact Hs |]]. done.
Qed.

Lemma confirm_rpc_inv req t resp t' :
  confirm_rpc_spec req t = Ok (resp, t') ->
  exists cmd o, uuid_Parse req.(ConfirmTransferRequest.PaymentId) = Some cmd.(LedgerConfirmCommand.PaymentID) /\
    confirm_spec cmd t = Ok (o, t') /\ resp = confirm_response o.
Proof.
  unfold confirm_rpc_spec. do 3 (destruct (uuid_Parse (_ req)); [| done]). case_match; [done |].
  intros (o & Hs & ->)%answered_inv. eexists _, o. split; [| by split; [exact Hs |]]. done.
Qed.

Lemma cancel_rpc_inv req t resp t' :
  cancel_rpc_spec req t = Ok (resp, t') ->
  exists cmd o, uuid_Parse req.(CancelReservationRequest.PaymentId) = Some cmd.(LedgerCancelCommand.PaymentID) /\
    cancel_spec cmd t = Ok (o, t') /\ resp = reservation_response o.
Proof.
  unfold cancel_rpc_spec. do 2 (destruct (uuid_Parse (_ req)); [| done]). case_match; [done |].
  intros (o & Hs & ->)%answered_inv. eexists _, o. split; [| by split; [exact Hs |]]. done.
Qed.
End Refinement.
End LedgerServer.
