(* ===== verification/VerificationServer.v ===== *)
(** * VerificationServer: [internal/verificationgrpc/server.go]. *)

From S2P Require Import Prelude GoStrings Domain GoTime Json Database Outbox Fixtures Verification Grpc.

#[local] Open Scope string_scope.
#[local] Open Scope Z_scope.

Module VerificationServer.

Module SubmitVerificationRequest.
Record t := mk {
  PaymentId : string; IdempotencyKey : string; TraceId : string; UserId : string;
  VerificationId : string; Decision : string; Reason : string
}.
End SubmitVerificationRequest.

Module SubmitVerificationResponse.
Record t := mk { VerificationId : string; UserId : string; Status : string; DecidedAt : option time }.
End SubmitVerificationResponse.

Module GetStatusResponse.
Record t := mk {
  UserId : string; Status : string; VerificationId : string; Reason : string; UpdatedAt : option time
}.
End GetStatusResponse.

Definition statusFromVerification (e : Verification.verification_error) : status :=
  match e with
  | Verification.ErrInvalidArgument => Status InvalidArgument "verification request is invalid"
  | Verification.ErrNotFound => Status NotFound "verification not found"
  | Verification.ErrFailedPrecondition => Status FailedPrecondition "verification state transition is not allowed"
  | Verification.ErrIdempotencyKeyConflict =>
      Status AlreadyExists "idempotency key conflicts with another verification request"
  | Verification.ErrDatabase _ => internal_error
  end.

Definition timestampOrNil (value : time) : option time := if IsZero value then None else Some value.

Abbreviation vrpc A := (prog Verification.vtables status A).

Section Handlers.
Context `{Postgres}.

Definition SubmitVerification (ctx : context) (mode : string) (now : time) (idHex eventHex : string)
    (req : option SubmitVerificationRequest.t) : vrpc SubmitVerificationResponse.t :=
  let missing := Status InvalidArgument "user_id and idempotency_key are required" in
  let! req := required req missing in
  guard ((req.(SubmitVerificationRequest.UserId) =s "")
         || (req.(SubmitVerificationRequest.IdempotencyKey) =s "")) missing ;!
  let! record := served_by statusFromVerification
    (Verification.Submit ctx mode
       (Verification.SubmitCommand.mk req.(SubmitVerificationRequest.PaymentId)
          req.(SubmitVerificationRequest.IdempotencyKey) req.(SubmitVerificationRequest.TraceId)
          req.(SubmitVerificationRequest.UserId) req.(SubmitVerificationRequest.VerificationId)
          req.(SubmitVerificationRequest.Decision) req.(SubmitVerificationRequest.Reason))
       now idHex eventHex) in
  ret (SubmitVerificationResponse.mk record.(Verification.Record_.VerificationID)
         record.(Verification.Record_.UserID) record.(Verification.Record_.Status)
         (timestampOrNil record.(Verification.Record_.DecidedAt))).

Definition status_response (record : Verification.Record_.t) : GetStatusResponse.t :=
  GetStatusResponse.mk record.(Verification.Record_.UserID) record.(Verification.Record_.Status)
    record.(Verification.Record_.VerificationID) record.(Verification.Record_.Reason)
    (timestampOrNil record.(Verification.Record_.UpdatedAt)).

Definition GetStatus (user_id : option string) : vrpc GetStatusResponse.t :=
  let missing := Status InvalidArgument "user_id is required" in
  let! user_id := required user_id missing in
  guard (user_id =s "") missing ;!
  let! record := served_by statusFromVerification (Verification.GetStatus user_id) in
  ret (status_response record).

(** What [GetStatus] answers about the committed rows. *)
Definition status_spec (user_id : string) (t : Verification.vtables)
    : res status (GetStatusResponse.t * Verification.vtables) :=
  if user_id =s "" then Err (Status InvalidArgument "user_id is required")
  else map_answer status_response (map_status statusFromVerification (Verification.get_spec user_id t)).

Lemma status_refines user_id : refines anywhere (GetStatus (Some user_id)) (status_spec user_id).
Proof.
  unfold GetStatus. apply (required_refines (Some user_id) _ _ status_spec). intros ? [= <-].
  apply guard_refines. intros _. apply answered_refines, served_by_refines; [done |].
  apply Verification.status_query_refines.
Qed.
End Handlers.
End VerificationServer.
