(* ===== verification/LedgerReads.v ===== *)
(** * LedgerReads: what the ledger tells.

    The reading side of [internal/ledgergrpc/server.go] with the repository's fraud
    queries, the cursors of a listing as texts, and the gateway's client of it,
    [internal/gateway/client/ledger.go].  A client error that is no gRPC status is
    kept as an internal one, which the gateway answers the same way. *)

From stdpp Require Import sorting.
From S2P Require Import Prelude GoStrings Domain Base64 GoTime Decimal Rfc3339 Json Database Outbox.
From S2P Require Import WalletRepo LedgerRepo LedgerPages WalletService Grpc LedgerServer.

#[local] Open Scope string_scope.
#[local] Open Scope Z_scope.

(** ** Fraud queries *)

Module FraudTransactionSummary.
Record t := mk { Direction : string; AmountCents : Z; Currency : string; OccurredAt : time }.
End FraudTransactionSummary.

Module FraudVelocityMetrics.
Record t := mk {
  TransactionsLastHour : Z;
  AmountLastHourCents : Z;
  AverageAmount30dCents : Z;
  DistinctRecipients30d : Z
}.
End FraudVelocityMetrics.

Definition summary (currency : string) (e : LedgerEntry.t) : FraudTransactionSummary.t :=
  FraudTransactionSummary.mk e.(LedgerEntry.Direction) e.(LedgerEntry.Amount) currency e.(LedgerEntry.CreatedAt).

(** The join with [wallets] gives every entry its wallet's currency. *)
Definition q_ListFraudTransactionHistory (walletID : uuid) (limit : Z) (t : tables)
    : res error (list FraudTransactionSummary.t) :=
  if limit <? 0 then Err PgInvalidLimit
  else match wallets t !! walletID with
       | None => Ok []
       | Some w => Ok (take (Z.to_nat limit) (summary w.(Wallet.Currency) <$> sorted_entries walletID t))
       end.

(** The casts to [int] and to [bigint]. *)
Definition pg_int (z : Z) : res error Z := if bool_decide (int32 z) then Ok z else Err PgOutOfRange.
Definition pg_bigint (z : Z) : res error Z := if bool_decide (int64 z) then Ok z else Err PgOutOfRange.

(** [avg(amount)::bigint]: rounded to the nearest integer, halves away from zero. *)
Definition pg_average (l : list Z) : Z :=
  match l with
  | [] => 0
  | _ => let s := foldr Z.add 0 l in let n := Z.of_nat (length l) in
         Z.sgn s * ((2 * Z.abs s + n) / (2 * n))
  end.

Definition within (asOf span : Z) (e : LedgerEntry.t) : Prop :=
  asOf - span <= e.(LedgerEntry.CreatedAt) <= asOf.

#[export] Instance within_dec asOf span e : Decision (within asOf span e).
Proof. unfold within. apply _. Defined.

Definition recent (walletID : uuid) (asOf span : Z) (t : tables) : list LedgerEntry.t :=
  filter (within asOf span) (of_wallet walletID t).

(** The other side of the transfer an entry belongs to. *)
Definition counterparty (t : tables) (e : LedgerEntry.t) : option uuid :=
  x ← List.find (fun x => bool_decide (x.(Transfer.ID) = e.(LedgerEntry.TransferID))) (transfers t);
  Some (if bool_decide (e.(LedgerEntry.WalletID) = x.(Transfer.FromWalletID))
        then x.(Transfer.ToWalletID) else x.(Transfer.FromWalletID)).

Definition thirty_day (walletID : uuid) (asOf : time) (t : tables) : list (Z * uuid) :=
  omap (fun e => other ← counterparty t e; Some (e.(LedgerEntry.Amount), other))
    (recent walletID asOf (30 * 24 * Hour) t).

Definition q_GetFraudVelocityMetrics (walletID : uuid) (asOf : time) (t : tables)
    : res error FraudVelocityMetrics.t :=
  let asOf := pg_timestamp asOf in
  let hour := recent walletID asOf Hour t in
  let month := thirty_day walletID asOf t in
  let? transactions := pg_int (Z.of_nat (length hour)) in
  let? amount := pg_bigint (foldr Z.add 0 (LedgerEntry.Amount <$> hour)) in
  let? average := pg_bigint (pg_average month.*1) in
  let? recipients := pg_int (Z.of_nat (length (remove_dups month.*2))) in
  Ok (FraudVelocityMetrics.mk transactions amount average recipients).

Definition GetFraudTransactionHistory (walletID : uuid) (limit : Z) : db (list FraudTransactionSummary.t) :=
  guard ((limit <? 1) || (100 <? limit)) ErrInvalidAmount ;!
  GetWallet walletID ;!
  query (q_ListFraudTransactionHistory walletID (wrap32 limit)).

Definition GetFraudVelocityMetrics (walletID : uuid) (asOf : time) : db FraudVelocityMetrics.t :=
  GetWallet walletID ;!
  query (q_GetFraudVelocityMetrics walletID asOf).

(** ** Cursors *)

Section Cursors.
Context `{Uuid} `{JsonText}.

(** The map with the keys [created_at] and [id], marshalled; [created_at] is the time
    in RFC 3339 with nanoseconds. *)
Definition cursor_payload (cursor : LedgerCursor.t) : string :=
  json_Marshal (JObject [("created_at", JTime cursor.(LedgerCursor.CreatedAt));
                         ("id", JString (uuid_String cursor.(LedgerCursor.ID)))]).

Definition EncodeCursor (cursor : LedgerCursor.t) : string :=
  if negb cursor.(LedgerCursor.Valid) then ""
  else RawURLEncoding_EncodeToString (cursor_payload cursor).

Definition decoded_cursor (document : option json) : res json_error (string * string) :=
  let? fields := json_object document in
  let? created_at := get_string "created_at" fields in
  let? id := get_string "id" fields in
  Ok (created_at, id).

Definition DecodeCursor (raw : string) : option LedgerCursor.t :=
  if raw =s "" then Some LedgerCursor.zero
  else
    payload ← RawURLEncoding_DecodeString raw;
    match decoded_cursor (json_Unmarshal payload) with
    | Err _ => None
    | Ok (created_at, id) =>
        createdAt ← ParseRFC3339Nano created_at;
        id ← uuid_Parse id;
        Some (LedgerCursor.mk createdAt id true)
    end.

(** The client's pair of functions is the same code. *)
Definition EncodeLedgerCursor (cursor : LedgerCursor.t) : string := EncodeCursor cursor.
Definition DecodeLedgerCursor (raw : string) : option LedgerCursor.t := DecodeCursor raw.
End Cursors.

(** ** The server *)

Module GetEntriesRequest.
Record t := mk { WalletId : string; Limit : Z; Cursor : string }.
End GetEntriesRequest.

Module EntryMessage.
Record t := mk {
  Id : string; TransferId : string; Direction : string; AmountCents : Z; BalanceAfterCents : Z;
  CreatedAt : option time
}.
End EntryMessage.

Module GetEntriesResponse.
Record t := mk { WalletId : string; Entries : list EntryMessage.t; NextCursor : string }.
End GetEntriesResponse.

Module FraudHistoryRequest.
Record t := mk { WalletId : string; Limit : Z; TraceId : string }.
End FraudHistoryRequest.

Module VelocityRequest.
Record t := mk { WalletId : string; TraceId : string }.
End VelocityRequest.

(** A [FraudTransactionHistoryEntry] and a [GetFraudVelocityMetricsResponse] carry the
    fields of the domain structs. *)
Section Server.
Context `{Postgres} `{Uuid} `{JsonText}.

Definition entryMessage (e : LedgerEntry.t) : EntryMessage.t :=
  EntryMessage.mk (uuid_String e.(LedgerEntry.ID)) (uuid_String e.(LedgerEntry.TransferID))
    e.(LedgerEntry.Direction) e.(LedgerEntry.Amount) e.(LedgerEntry.BalanceAfter) (Some e.(LedgerEntry.CreatedAt)).

Definition GetEntries (md : incoming) (req : option GetEntriesRequest.t) : rpc GetEntriesResponse.t :=
  let! req := required req request_required in
  let! userID := userIDFromMetadata md in
  let! walletID := parseUUID req.(GetEntriesRequest.WalletId) "wallet_id" in
  guard ((req.(GetEntriesRequest.Limit) <? 0) || (100 <? req.(GetEntriesRequest.Limit)))
    (Status InvalidArgument "limit is invalid") ;!
  let! cursor := required (DecodeCursor req.(GetEntriesRequest.Cursor)) (Status InvalidArgument "cursor is invalid") in
  let! page := served_by LedgerServer.statusFromDomain
    (Service.ListLedger userID walletID cursor req.(GetEntriesRequest.Limit)) in
  ret (GetEntriesResponse.mk (uuid_String walletID) (entryMessage <$> page.1) (EncodeCursor page.2)).

Definition FraudTransactionHistory (req : option FraudHistoryRequest.t) : rpc (list FraudTransactionSummary.t) :=
  let! req := required req request_required in
  let! walletID := parseUUID req.(FraudHistoryRequest.WalletId) "wallet_id" in
  guard ((req.(FraudHistoryRequest.Limit) <? 1) || (100 <? req.(FraudHistoryRequest.Limit)))
    (Status InvalidArgument "limit is invalid") ;!
  served_by LedgerServer.statusFromDomain (GetFraudTransactionHistory walletID req.(FraudHistoryRequest.Limit)).

Definition FraudVelocity (asOf : time) (req : option VelocityRequest.t) : rpc FraudVelocityMetrics.t :=
  let! req := required req request_required in
  let! walletID := parseUUID req.(VelocityRequest.WalletId) "wallet_id" in
  served_by LedgerServer.statusFromDomain (GetFraudVelocityMetrics walletID asOf).

(** ** The gateway's client *)

Definition client_error (text : string) : status := Status Internal text.

Definition ledgerEntryFromMessage (walletIDRaw : string) (message : EntryMessage.t) : res status LedgerEntry.t :=
  match uuid_Parse walletIDRaw, uuid_Parse message.(EntryMessage.Id), uuid_Parse message.(EntryMessage.TransferId) with
  | None, _, _ => Err (client_error "ledger grpc wallet_id is invalid")
  | _, None, _ => Err (client_error "ledger grpc id is invalid")
  | _, _, None => Err (client_error "ledger grpc transfer_id is invalid")
  | Some walletID, Some id, Some transferID =>
      Ok (LedgerEntry.mk id walletID transferID message.(EntryMessage.Direction) message.(EntryMessage.AmountCents)
            message.(EntryMessage.BalanceAfterCents) (default zero_time message.(EntryMessage.CreatedAt)))
  end.

Fixpoint entries_from_messages (walletIDRaw : string) (messages : list EntryMessage.t)
    : res status (list LedgerEntry.t) :=
  match messages with
  | [] => Ok []
  | message :: rest =>
      let? entry := ledgerEntryFromMessage walletIDRaw message in
      let? entries := entries_from_messages walletIDRaw rest in
      Ok (entry :: entries)
  end.

(** [contextWithUserID] *)
Definition contextWithUserID (userID : uuid) : incoming := Some [uuid_String userID].

Definition LedgerClient_ListLedger (userID walletID : uuid) (cursor : LedgerCursor.t) (limit : Z)
    : rpc (list LedgerEntry.t * LedgerCursor.t) :=
  let! resp := GetEntries (contextWithUserID userID)
    (Some (GetEntriesRequest.mk (uuid_String walletID) (wrap32 limit) (EncodeLedgerCursor cursor))) in
  let! next := required (DecodeLedgerCursor resp.(GetEntriesResponse.NextCursor)) (client_error "cursor") in
  let! entries := lift (entries_from_messages resp.(GetEntriesResponse.WalletId) resp.(GetEntriesResponse.Entries)) in
  ret (entries, next).
End Server.

(** ** Cursors read back *)

(** What [google/uuid] documents of a UUID's text: 36 hexadecimal digits and hyphens,
    so that it is written to JSON as it is. *)
Class UuidText `{Uuid} : Prop := {
  uuid_plain : forall u, json_ok (JString (uuid_String u)) = true;
  uuid_nonempty : forall u, uuid_String u <> ""
}.

(** A cursor that comes from a page: none, or one at a time of the years 1 to 9999. *)
Definition legible (c : LedgerCursor.t) : Prop :=
  c = LedgerCursor.zero \/
  c.(LedgerCursor.Valid) = true /\ 0 <= c.(LedgerCursor.CreatedAt) < 3652059 * (24 * Hour).

Section CursorTexts.
Context `{Uuid} `{!UuidOk} `{!UuidText} `{JsonText} `{!JsonTextOk}.

Lemma cursor_document (a b : json) fields :
  fields = [("created_at", a); ("id", b)] ->
  json_field "created_at" fields = Some a /\ json_field "id" fields = Some b.
Proof. intros ->. vm_compute. done. Qed.

(** A cursor survives its text. *)
Lemma cursor_round_trip c : legible c -> DecodeCursor (EncodeCursor c) = Some c.
Proof.
  intros [-> | [Hv Ht]]; [done |]. unfold EncodeCursor. rewrite Hv. cbn [negb].
  set (document := JObject [("created_at", JTime c.(LedgerCursor.CreatedAt)); ("id", JString (uuid_String c.(LedgerCursor.ID)))]).
  assert (json_Unmarshal (cursor_payload c) = Some document) as Hdoc.
  { apply json_Unmarshal_Marshal. pose proof (uuid_plain c.(LedgerCursor.ID)) as Hu. simpl in Hu |- *. rewrite Hu.
    rewrite (proj2 (Z.leb_le _ _)), (proj2 (Z.ltb_lt _ _)) by (unfold Hour, Minute, Second in *; lia). done. }
  unfold DecodeCursor. destruct (_ =s "") eqn:Hne.
  { apply String.eqb_eq in Hne. pose proof (raw_url_round_trip (cursor_payload c)) as Hb. rewrite Hne in Hb.
    change (RawURLEncoding_DecodeString "") with (Some "") in Hb. injection Hb as Hb. rewrite <- Hb in Hdoc. by rewrite json_Unmarshal_empty in Hdoc. }
  rewrite raw_url_round_trip. cbn [mbind option_bind]. rewrite Hdoc. unfold decoded_cursor, document. cbn [json_object res_bind].
  set (fields := cons _ _). destruct (cursor_document _ _ fields eq_refl) as [E1 E2]. unfold get_string. rewrite E1, E2. cbn [res_bind].
  rewrite parse_format by done. cbn [mbind option_bind]. rewrite uuid_Parse_String. simpl. destruct c. simpl in Hv. by subst.
Qed.
End CursorTexts.

(** ** Pages through the server and the client *)

Section Pages.
Context `{Postgres} `{Uuid} `{!UuidOk} `{!UuidText} `{JsonText} `{!JsonTextOk}.

(** The times of a wallet's entries are in the years 1 to 9999. *)
Definition dated (walletID : uuid) (t : tables) : Prop :=
  Forall (fun e => 0 <= e.(LedgerEntry.CreatedAt) < 3652059 * (24 * Hour)) (of_wallet walletID t).

(** What a page of at most [limit] entries answers: the first of the entries that are
    left, and a cursor to the others if there are any. *)
Definition page_of (walletID : uuid) (limit : Z) (t : tables) (seen rest : list LedgerEntry.t)
    (page : list LedgerEntry.t * LedgerCursor.t) : Prop :=
  page.1 = take (Z.to_nat limit) rest /\
  if decide (limit < Z.of_nat (length rest))
  then page.2.(LedgerCursor.Valid) = true /\ legible page.2 /\
       stands page.2 walletID t (seen ++ take (Z.to_nat limit) rest)%list (drop (Z.to_nat limit) rest)
  else page.2 = LedgerCursor.zero.

Lemma page_legible walletID limit t seen rest page :
  page_of walletID limit t seen rest page -> legible page.2.
Proof. intros [_ Hp]. case_decide; [apply Hp | by left]. Qed.

Lemma rest_dated walletID t seen rest :
  dated walletID t -> sorted_entries walletID t = (seen ++ rest)%list ->
  Forall (fun e => 0 <= e.(LedgerEntry.CreatedAt) < 3652059 * (24 * Hour) /\ e.(LedgerEntry.WalletID) = walletID) rest.
Proof.
  intros Hd Heq. apply list.Forall_forall. intros e He.
  assert (e ∈ of_wallet walletID t) as Hin
    by (rewrite <- (merge_sort_Permutation newest_first (of_wallet walletID t)); unfold sorted_entries in Heq; rewrite Heq; set_solver).
  unfold dated in Hd. rewrite list.Forall_forall in Hd. split; [by apply Hd |].
  by apply list_elem_of_filter in Hin as [? _].
Qed.

(** Reads end in [Conn t None s'] with nothing lost. *)
Definition reads_page {A} (t : tables) (Q : A -> Prop) (r : res status A) (c' : conn tables) : Prop :=
  (exists s', quiet s' /\ c' = Conn t None s') /\ exists a, r = Ok a /\ Q a.

(** The page size of a request that may leave it out. *)
Definition page_size (limit : Z) : Z := if limit =? 0 then Service.defaultLedgerLimit else limit.

Lemma service_page userID walletID c limit w t seen rest s :
  wf t -> dated walletID t -> wallets t !! walletID = Some w -> w.(Wallet.UserID) = userID ->
  0 <= limit <= 100 -> stands c walletID t seen rest -> quiet s ->
  wp (served_by LedgerServer.statusFromDomain (Service.ListLedger userID walletID c limit))
    (reads_page t (page_of walletID (page_size limit) t seen rest)) (Conn t None s).
Proof.
  intros Hwf Hd Hw Hu Hl Hst Hq.
  enough (wp (Service.ListLedger userID walletID c limit) (fun r c' =>
    (exists s', quiet s' /\ c' = Conn t None s') /\ exists a, r = Ok a /\ page_of walletID (page_size limit) t seen rest a) (Conn t None s)) as Hs.
  { revert Hs. unfold wp, served_by. destruct (Service.ListLedger _ _ _ _ _) as [r c']. intros [Hc (a & -> & Ha)].
    split; [done | by exists a]. }
  unfold Service.ListLedger. fold (page_size limit).
  assert (1 <= page_size limit <= 100) as Hps by (unfold page_size, Service.defaultLedgerLimit; case_match; lia).
  generalize dependent (page_size limit). intros size Hsize. wp_step.
  wp_step; [unfold Service.maxLedgerLimit in *; lia |]. wp_step.
  unfold Service.GetWallet, WalletRepo.GetWallet. wp_step. wp_step. wp_step. wp_step; [done |].
  unfold q_GetWallet. rewrite Hw. wp_step. wp_step. wp_step; [| wp_step].
  { by rewrite bool_decide_eq_true_2 in * by done. }
  destruct (wf_wallet _ Hwf _ _ Hw) as [Hid _]. rewrite Hid.
  eapply wp_mono; [apply (page_spec walletID c size t seen rest); [done | lia | done | auto] |].
  intros r c' [Hc (next & -> & Hn)]. split; [exact Hc |]. eexists. split; [done |]. split; [done |]. simpl.
  case_decide; [| done]. destruct Hn as [(e & He & ->) Hst']. split; [done |]. split; [| done]. right. split; [done |].
  pose proof (rest_dated walletID t seen rest Hd (proj1 Hst)) as Hr. rewrite list.Forall_forall in Hr. by apply Hr.
Qed.

Lemma entries_read_back walletID l :
  Forall (fun e => e.(LedgerEntry.WalletID) = walletID) l ->
  entries_from_messages (uuid_String walletID) (entryMessage <$> l) = Ok l.
Proof.
  induction 1 as [|e l He _ IH]; [done |]. cbn [fmap list_fmap entries_from_messages]. unfold ledgerEntryFromMessage. simpl.
  rewrite !uuid_Parse_String. cbn [res_bind]. rewrite IH. cbn [res_bind]. destruct e. simpl in He. by subst.
Qed.

(** The page the gateway's client is answered with. *)
Lemma client_page userID walletID c limit w t seen rest s :
  wf t -> dated walletID t -> wallets t !! walletID = Some w -> w.(Wallet.UserID) = userID ->
  0 <= limit <= 100 -> legible c -> stands c walletID t seen rest -> quiet s ->
  wp (LedgerClient_ListLedger userID walletID c limit)
    (reads_page t (page_of walletID (page_size limit) t seen rest)) (Conn t None s).
Proof.
  intros Hwf Hd Hw Hu Hl Hc Hst Hq. unfold LedgerClient_ListLedger, GetEntries, contextWithUserID, userIDFromMetadata.
  rewrite wrap32_id by (unfold int32; lia). wp_step. wp_step. unfold required at 1. wp_step. wp_step.
  rewrite (proj2 (String.eqb_neq _ _)) by apply uuid_nonempty. unfold parseUUID, required.
  cbn [GetEntriesRequest.WalletId GetEntriesRequest.Limit GetEntriesRequest.Cursor]. rewrite !uuid_Parse_String.
  wp_step. wp_step. wp_step. wp_step. wp_step; [lia |]. wp_step. unfold EncodeLedgerCursor. rewrite cursor_round_trip by done.
  wp_step. wp_step. eapply wp_mono; [by apply (service_page userID walletID c limit w t seen rest) |].
  intros r c' [[s' [Hq' ->]] (page & -> & Hp)]. wp_step. wp_step. unfold DecodeLedgerCursor. simpl.
  rewrite cursor_round_trip by by eapply page_legible. wp_step. wp_step. rewrite entries_read_back.
  - wp_step. wp_step. split; [by eexists |]. eexists. split; [done |]. by destruct page.
  - rewrite (proj1 Hp). apply list.Forall_take. eapply list.Forall_impl; [by apply (rest_dated _ _ _ _ Hd (proj1 Hst)) |].
    by intros e [_ He].
Qed.
End Pages.
