(* ===== verification/SagaTypes.v ===== *)
(** * SagaTypes: the data of the payment saga.

    [internal/saga/types.go] and the fraud events of [internal/event/fraud.go]:
    states, the saga and audit structs, the requests to the other services, the
    events with their JSON documents, and [Validate].  A text column or field
    that holds a JSON document is an [option json], with [None] for the empty
    string. *)

From Stdlib Require Import SpecFloat.
From S2P Require Import Prelude GoStrings Domain GoTime Json Database Grpc.

#[local] Set Warnings "-register-all".
#[local] Open Scope string_scope.
#[local] Open Scope Z_scope.

Definition StateStarted : string := "STARTED".
Definition StateVerificationChecked : string := "VERIFICATION_CHECKED".
Definition StateWalletDebited : string := "WALLET_DEBITED".
Definition StateLedgerReserved : string := "LEDGER_RESERVED".
Definition StatePaymentProcessing : string := "PAYMENT_PROCESSING".
Definition StateFraudReview : string := "FRAUD_REVIEW".
Definition StateLedgerConfirmed : string := "LEDGER_CONFIRMED".
Definition StateCompleted : string := "COMPLETED".
Definition StateCompensatingLedger : string := "COMPENSATING_LEDGER".
Definition StateCompensatingWallet : string := "COMPENSATING_WALLET".
Definition StateFailed : string := "FAILED".

Definition VerificationVerified : string := "verified".

Definition TopicPaymentExecute : string := "payment.execute".
Definition TopicPaymentCompleted : string := "payment.completed".
Definition TopicPaymentFailed : string := "payment.failed".
Definition TopicTxCompleted : string := "tx.completed".
Definition TopicTxFailed : string := "tx.failed".
Definition FailureCodeFraudRejected : string := "fraud_rejected".
Definition defaultRejectReason : string := "rejected in fraud review".

Definition FraudAuditKindOrphan : string := "orphan".
Definition FraudAuditKindIgnored : string := "ignored".
Definition FraudAuditKindTransition : string := "transition".
Definition FraudAuditKindDeferredTerminal : string := "deferred_terminal".
Definition FraudAuditKindInvariantViolation : string := "invariant_violation".
Definition FraudAuditKindDuplicate : string := "duplicate".
Definition FraudAuditKindReviewResumed : string := "review_resumed".
Definition FraudAuditKindReviewRejected : string := "review_rejected".

(** A JSON text: [None] is the empty string. *)
Definition document : Type := option json.

(** The errors the orchestrator returns.  [ErrRemote] wraps what a remote service
    answered; [ErrStore] what the database reports. *)
Inductive saga_error :=
| ErrSagaAlreadyExists
| ErrSagaNotFound
| ErrUnverified
| ErrVerificationNotFound
| ErrNotUnderReview
| ErrUnknownDeferredResult
| ErrInvalidFraudEvent
| ErrReviewTTL
| ErrJSON (e : json_error)
| ErrRemote (s : status)
| ErrStore (e : error).

#[export] Instance json_error_eq_dec : EqDecision json_error.
Proof. solve_decision. Defined.
#[export] Instance saga_error_eq_dec : EqDecision saga_error.
Proof. solve_decision. Defined.
#[export] Instance saga_error_infra : Infra saga_error := ErrStore PgUnavailable.

Module Saga.
Record t := mk {
  ID : string;
  PaymentID : string;
  IdempotencyKey : string;
  UserID : string;
  FromWalletID : string;
  ToWalletID : string;
  AmountCents : Z;
  Currency : string;
  State : string;
  LastError : string;
  TraceID : string;
  WalletDebitID : string;
  LedgerReservationID : string;
  TransferID : string;
  FailureCode : string;
  FraudSessionID : string;
  FraudAction : string;
  FraudRiskScore : float64;
  FraudReason : string;
  FraudFlaggedAt : time;
  DeferredPaymentJSON : document;
  CreatedAt : time;
  UpdatedAt : time
}.
Definition eta (x : t) : t :=
  mk (ID x) (PaymentID x) (IdempotencyKey x) (UserID x) (FromWalletID x) (ToWalletID x) (AmountCents x)
     (Currency x) (State x) (LastError x) (TraceID x) (WalletDebitID x) (LedgerReservationID x)
     (TransferID x) (FailureCode x) (FraudSessionID x) (FraudAction x) (FraudRiskScore x)
     (FraudReason x) (FraudFlaggedAt x) (DeferredPaymentJSON x) (CreatedAt x) (UpdatedAt x).
Definition with_State : string -> t -> t := ltac:(derive_setter eta State).
Definition with_LastError : string -> t -> t := ltac:(derive_setter eta LastError).
Definition with_WalletDebitID : string -> t -> t := ltac:(derive_setter eta WalletDebitID).
Definition with_LedgerReservationID : string -> t -> t := ltac:(derive_setter eta LedgerReservationID).
Definition with_TransferID : string -> t -> t := ltac:(derive_setter eta TransferID).
Definition with_FailureCode : string -> t -> t := ltac:(derive_setter eta FailureCode).
Definition with_FraudSessionID : string -> t -> t := ltac:(derive_setter eta FraudSessionID).
Definition with_FraudAction : string -> t -> t := ltac:(derive_setter eta FraudAction).
Definition with_FraudRiskScore : float64 -> t -> t := ltac:(derive_setter eta FraudRiskScore).
Definition with_FraudReason : string -> t -> t := ltac:(derive_setter eta FraudReason).
Definition with_FraudFlaggedAt : time -> t -> t := ltac:(derive_setter eta FraudFlaggedAt).
Definition with_DeferredPaymentJSON : document -> t -> t := ltac:(derive_setter eta DeferredPaymentJSON).
Definition with_UpdatedAt : time -> t -> t := ltac:(derive_setter eta UpdatedAt).
End Saga.

Module FraudAuditRecord.
Record t := mk {
  EventID : string;
  PaymentID : string;
  Kind : string;
  SagaState : string;
  DetailsJSON : document;
  CreatedAt : time
}.
(** [FraudAuditRecord{}] *)
Definition zero : t := mk "" "" "" "" None zero_time.
End FraudAuditRecord.

Module StartRequest.
Record t := mk {
  PaymentID : string;
  IdempotencyKey : string;
  TraceID : string;
  UserID : string;
  FromWalletID : string;
  ToWalletID : string;
  AmountCents : Z;
  Currency : string
}.
End StartRequest.

Module VerificationRequest.
Record t := mk { UserID : string; TraceID : string }.
End VerificationRequest.

Module WalletDebitRequest.
Record t := mk {
  PaymentID : string;
  IdempotencyKey : string;
  TraceID : string;
  FromWalletID : string;
  AmountCents : Z;
  Currency : string
}.
End WalletDebitRequest.

Module WalletCompensateRequest.
Record t := mk {
  PaymentID : string;
  IdempotencyKey : string;
  TraceID : string;
  FromWalletID : string;
  WalletDebitID : string;
  AmountCents : Z;
  Currency : string;
  Reason : string
}.
End WalletCompensateRequest.

Module LedgerReserveRequest.
Record t := mk {
  PaymentID : string;
  IdempotencyKey : string;
  TraceID : string;
  FromWalletID : string;
  ToWalletID : string;
  AmountCents : Z;
  Currency : string
}.
End LedgerReserveRequest.

Module LedgerConfirmRequest.
Record t := mk {
  PaymentID : string;
  IdempotencyKey : string;
  TraceID : string;
  LedgerReservationID : string;
  WalletDebitID : string
}.
End LedgerConfirmRequest.

Module LedgerConfirmResult.
Record t := mk { TransferID : string; CompletedAt : time }.
End LedgerConfirmResult.

Module LedgerCancelRequest.
Record t := mk {
  PaymentID : string;
  IdempotencyKey : string;
  TraceID : string;
  LedgerReservationID : string;
  Reason : string
}.
End LedgerCancelRequest.

(** ** Events *)

Module PaymentCompleted.
Record t := mk {
  EventID : string;
  PaymentID : string;
  IdempotencyKey : string;
  TraceID : string;
  ProcessorPaymentID : string;
  Status : string;
  CompletedAt : time;
  OccurredAt : time
}.
Definition eta (x : t) : t :=
  mk (EventID x) (PaymentID x) (IdempotencyKey x) (TraceID x) (ProcessorPaymentID x) (Status x)
     (CompletedAt x) (OccurredAt x).
Definition with_TraceID : string -> t -> t := ltac:(derive_setter eta TraceID).

Definition to_json (x : t) : json :=
  JObject [
    ("event_id", JString (EventID x));
    ("payment_id", JString (PaymentID x));
    ("idempotency_key", JString (IdempotencyKey x));
    ("trace_id", JString (TraceID x));
    ("processor_payment_id", JString (ProcessorPaymentID x));
    ("status", JString (Status x));
    ("completed_at", JTime (CompletedAt x));
    ("occurred_at", JTime (OccurredAt x))].

Definition of_json (payload : document) : res json_error t :=
  let? fields := json_object payload in
  let? event_id := get_string "event_id" fields in
  let? payment_id := get_string "payment_id" fields in
  let? idempotency_key := get_string "idempotency_key" fields in
  let? trace_id := get_string "trace_id" fields in
  let? processor_payment_id := get_string "processor_payment_id" fields in
  let? status := get_string "status" fields in
  let? completed_at := get_time "completed_at" fields in
  let? occurred_at := get_time "occurred_at" fields in
  Ok (mk event_id payment_id idempotency_key trace_id processor_payment_id status completed_at occurred_at).
End PaymentCompleted.

Module PaymentFailed.
Record t := mk {
  EventID : string;
  PaymentID : string;
  IdempotencyKey : string;
  TraceID : string;
  FailureCode : string;
  FailureMessage : string;
  FailedAt : time;
  OccurredAt : time
}.
Definition eta (x : t) : t :=
  mk (EventID x) (PaymentID x) (IdempotencyKey x) (TraceID x) (FailureCode x) (FailureMessage x)
     (FailedAt x) (OccurredAt x).
Definition with_TraceID : string -> t -> t := ltac:(derive_setter eta TraceID).

Definition to_json (x : t) : json :=
  JObject [
    ("event_id", JString (EventID x));
    ("payment_id", JString (PaymentID x));
    ("idempotency_key", JString (IdempotencyKey x));
    ("trace_id", JString (TraceID x));
    ("failure_code", JString (FailureCode x));
    ("failure_message", JString (FailureMessage x));
    ("failed_at", JTime (FailedAt x));
    ("occurred_at", JTime (OccurredAt x))].

Definition of_json (payload : document) : res json_error t :=
  let? fields := json_object payload in
  let? event_id := get_string "event_id" fields in
  let? payment_id := get_string "payment_id" fields in
  let? idempotency_key := get_string "idempotency_key" fields in
  let? trace_id := get_string "trace_id" fields in
  let? failure_code := get_string "failure_code" fields in
  let? failure_message := get_string "failure_message" fields in
  let? failed_at := get_time "failed_at" fields in
  let? occurred_at := get_time "occurred_at" fields in
  Ok (mk event_id payment_id idempotency_key trace_id failure_code failure_message failed_at occurred_at).
End PaymentFailed.

Module PaymentExecute.
Record t := mk {
  EventID : string;
  PaymentID : string;
  IdempotencyKey : string;
  TraceID : string;
  FromWalletID : string;
  ToWalletID : string;
  AmountCents : Z;
  Currency : string;
  LedgerReservationID : string;
  WalletDebitID : string;
  OccurredAt : time
}.
Definition to_json (x : t) : json :=
  JObject [
    ("event_id", JString (EventID x));
    ("payment_id", JString (PaymentID x));
    ("idempotency_key", JString (IdempotencyKey x));
    ("trace_id", JString (TraceID x));
    ("from_wallet_id", JString (FromWalletID x));
    ("to_wallet_id", JString (ToWalletID x));
    ("amount_cents", JInt (AmountCents x));
    ("currency", JString (Currency x));
    ("ledger_reservation_id", JString (LedgerReservationID x));
    ("wallet_debit_id", JString (WalletDebitID x));
    ("occurred_at", JTime (OccurredAt x))].

Definition of_json (payload : document) : res json_error t :=
  let? fields := json_object payload in
  let? event_id := get_string "event_id" fields in
  let? payment_id := get_string "payment_id" fields in
  let? idempotency_key := get_string "idempotency_key" fields in
  let? trace_id := get_string "trace_id" fields in
  let? from_wallet_id := get_string "from_wallet_id" fields in
  let? to_wallet_id := get_string "to_wallet_id" fields in
  let? amount_cents := get_int64 "amount_cents" fields in
  let? currency := get_string "currency" fields in
  let? ledger_reservation_id := get_string "ledger_reservation_id" fields in
  let? wallet_debit_id := get_string "wallet_debit_id" fields in
  let? occurred_at := get_time "occurred_at" fields in
  Ok (mk event_id payment_id idempotency_key trace_id from_wallet_id to_wallet_id amount_cents currency
        ledger_reservation_id wallet_debit_id occurred_at).
End PaymentExecute.

Module TxCompleted.
Record t := mk {
  EventID : string;
  PaymentID : string;
  TraceID : string;
  FromWalletID : string;
  ToWalletID : string;
  AmountCents : Z;
  Currency : string;
  TransferID : string;
  CompletedAt : time;
  OccurredAt : time
}.
Definition to_json (x : t) : json :=
  JObject [
    ("event_id", JString (EventID x));
    ("payment_id", JString (PaymentID x));
    ("trace_id", JString (TraceID x));
    ("from_wallet_id", JString (FromWalletID x));
    ("to_wallet_id", JString (ToWalletID x));
    ("amount_cents", JInt (AmountCents x));
    ("currency", JString (Currency x));
    ("transfer_id", JString (TransferID x));
    ("completed_at", JTime (CompletedAt x));
    ("occurred_at", JTime (OccurredAt x))].
End TxCompleted.

Module TxFailed.
Record t := mk {
  EventID : string;
  PaymentID : string;
  TraceID : string;
  FromWalletID : string;
  ToWalletID : string;
  AmountCents : Z;
  Currency : string;
  FailureCode : string;
  FailureMessage : string;
  FailedAt : time;
  OccurredAt : time
}.
Definition to_json (x : t) : json :=
  JObject [
    ("event_id", JString (EventID x));
    ("payment_id", JString (PaymentID x));
    ("trace_id", JString (TraceID x));
    ("from_wallet_id", JString (FromWalletID x));
    ("to_wallet_id", JString (ToWalletID x));
    ("amount_cents", JInt (AmountCents x));
    ("currency", JString (Currency x));
    ("failure_code", JString (FailureCode x));
    ("failure_message", JString (FailureMessage x));
    ("failed_at", JTime (FailedAt x));
    ("occurred_at", JTime (OccurredAt x))].
End TxFailed.

(** ** [internal/event/fraud.go] *)

Definition FraudScoreRequestedTopic : string := "fraud.score.requested".
Definition FraudFlaggedTopic : string := "fraud.flagged".
Definition TxPausedTopic : string := "tx.paused".
Definition FraudActionFlag : string := "flag".
Definition FraudActionBlock : string := "block".

Definition FraudScoreRequestedEventID (paymentID : string) : string :=
  FraudScoreRequestedTopic ++ ":" ++ paymentID.
Definition FraudFlaggedEventID (sourceEventID : string) : string := FraudFlaggedTopic ++ ":" ++ sourceEventID.
Definition TxPausedEventID (paymentID : string) : string := TxPausedTopic ++ ":" ++ paymentID.

(** Every time the model builds is in UTC. *)
Definition validUTCTime (value : time) : bool := negb (IsZero value).

(** [risk < 0 || risk > 1] on floats. *)
Definition score_out_of_range (x : float64) : bool :=
  IsNaN x || SFltb x float_zero || SFltb float_one x.

Module FraudScoreRequested.
Record t := mk {
  SchemaVersion : Z;
  EventID : string;
  PaymentID : string;
  UserID : string;
  FromWalletID : string;
  ToWalletID : string;
  AmountCents : Z;
  Currency : string;
  OccurredAt : time;
  TraceID : string
}.
Definition to_json (x : t) : json :=
  JObject [
    ("schema_version", JInt (SchemaVersion x));
    ("event_id", JString (EventID x));
    ("payment_id", JString (PaymentID x));
    ("user_id", JString (UserID x));
    ("from_wallet_id", JString (FromWalletID x));
    ("to_wallet_id", JString (ToWalletID x));
    ("amount_cents", JInt (AmountCents x));
    ("currency", JString (Currency x));
    ("occurred_at", JTime (OccurredAt x));
    ("trace_id", JString (TraceID x))].
Definition Validate (e : t) : res saga_error unit :=
  if negb (SchemaVersion e =? 1) || negb (EventID e =s FraudScoreRequestedEventID (PaymentID e)) || (PaymentID e =s "")
     || (UserID e =s "") || (FromWalletID e =s "") || (ToWalletID e =s "")
     || (AmountCents e <=? 0) || (Currency e =s "") || negb (validUTCTime (OccurredAt e))
     || (TraceID e =s "")
  then Err ErrInvalidFraudEvent
  else Ok tt.
End FraudScoreRequested.

Module FraudFlagged.
Record t := mk {
  SchemaVersion : Z;
  EventID : string;
  SourceEventID : string;
  PaymentID : string;
  SessionID : string;
  Action : string;
  RiskScore : float64;
  Reason : string;
  ProviderID : string;
  ModelID : string;
  OccurredAt : time;
  TraceID : string
}.
Definition Validate (e : t) : res saga_error unit :=
  if negb (SchemaVersion e =? 1) || negb (EventID e =s FraudFlaggedEventID (SourceEventID e))
     || (SourceEventID e =s "") || (PaymentID e =s "") || (SessionID e =s "")
     || (negb (Action e =s FraudActionFlag) && negb (Action e =s FraudActionBlock))
     || score_out_of_range (RiskScore e)
     || (Reason e =s "") || (ProviderID e =s "") || (ModelID e =s "")
     || negb (validUTCTime (OccurredAt e)) || (TraceID e =s "")
  then Err ErrInvalidFraudEvent
  else Ok tt.
End FraudFlagged.

Module TxPaused.
Record t := mk {
  SchemaVersion : Z;
  EventID : string;
  PaymentID : string;
  SessionID : string;
  Action : string;
  RiskScore : float64;
  Reason : string;
  PausedAt : time;
  OccurredAt : time;
  TraceID : string
}.
Definition to_json (x : t) : json :=
  JObject [
    ("schema_version", JInt (SchemaVersion x));
    ("event_id", JString (EventID x));
    ("payment_id", JString (PaymentID x));
    ("session_id", JString (SessionID x));
    ("action", JString (Action x));
    ("risk_score", JFloat (RiskScore x));
    ("reason", JString (Reason x));
    ("paused_at", JTime (PausedAt x));
    ("occurred_at", JTime (OccurredAt x));
    ("trace_id", JString (TraceID x))].
Definition Validate (e : t) : res saga_error unit :=
  if negb (SchemaVersion e =? 1) || negb (EventID e =s TxPausedEventID (PaymentID e))
     || (PaymentID e =s "") || (SessionID e =s "")
     || (negb (Action e =s FraudActionFlag) && negb (Action e =s FraudActionBlock))
     || score_out_of_range (RiskScore e)
     || (Reason e =s "") || negb (validUTCTime (PausedAt e))
     || negb (validUTCTime (OccurredAt e)) || (TraceID e =s "")
  then Err ErrInvalidFraudEvent
  else Ok tt.
End TxPaused.

(** ** Lemmas *)

(** The events that wait in a review read back as they were written. *)
Lemma PaymentCompleted_of_to_json x : PaymentCompleted.of_json (Some (PaymentCompleted.to_json x)) = Ok x.
Proof. by destruct x. Qed.

Lemma PaymentFailed_of_to_json x : PaymentFailed.of_json (Some (PaymentFailed.to_json x)) = Ok x.
Proof. by destruct x. Qed.
