(* ===== verification/SagaStore.v ===== *)
(** * SagaStore: [internal/saga/postgres_store.go].

    The saga service's database ([sagas], [saga_fraud_audit_records] and its
    outbox), the SQL of the store as functions on it, and the operations of
    [PostgresStore].  [W] is what the remote services hold; the store never
    touches it.  The orchestrator's clock is a parameter that gives the time of
    every reading.  [timestamptz] columns keep microseconds. *)

From Stdlib Require Import SpecFloat.
From stdpp Require Import sorting.
From S2P Require Import Prelude GoStrings Domain GoTime Json Database Outbox SagaTypes.

#[local] Set Warnings "-register-all".
#[local] Open Scope string_scope.
#[local] Open Scope Z_scope.

(** The [n]-th reading of the orchestrator's clock. *)
Class Clock := clock_at : nat -> time.

(** A row of [sagas]: the fraud columns are nullable. *)
Module SagaRow.
Record t := mk {
  id : uuid;
  payment_id : string;
  idempotency_key : string;
  user_id : string;
  from_wallet_id : string;
  to_wallet_id : string;
  amount_cents : Z;
  currency : string;
  state : string;
  last_error : string;
  trace_id : string;
  wallet_debit_id : string;
  ledger_reservation_id : string;
  transfer_id : string;
  failure_code : string;
  fraud_session_id : option string;
  fraud_action : option string;
  fraud_risk_score : option float64;
  fraud_reason : option string;
  fraud_flagged_at : option time;
  deferred_payment_json : document;
  created_at : time;
  updated_at : time
}.
End SagaRow.

(** A row of [saga_fraud_audit_records]. *)
Module AuditRow.
Record t := mk { id : uuid; record : FraudAuditRecord.t }.
End AuditRow.

Record world (W : Type) := World {
  sagas : gmap string SagaRow.t;  (* by payment_id, which is UNIQUE *)
  audits : list AuditRow.t;
  events : list OutboxEvent.t;
  ids_used : nat;
  db_now : time;
  clock_reads : nat;
  remote : W
}.
Arguments World {W} _ _ _ _ _ _ _.
Arguments sagas {W} _.
Arguments audits {W} _.
Arguments events {W} _.
Arguments ids_used {W} _.
Arguments db_now {W} _.
Arguments clock_reads {W} _.
Arguments remote {W} _.

Definition textToPG (value : string) : option string := if value =s "" then None else Some value.
Definition textFromPG (value : option string) : string := default "" value.
Definition floatToPG (value : float64) (valid : bool) : option float64 := if valid then Some value else None.
Definition floatFromPG (value : option float64) : float64 := default float_zero value.

Definition timeToPG (value : time) : option time := if IsZero value then None else Some (pg_timestamp value).
Definition timeFromPG (value : option time) : time := default zero_time value.

Definition hasFraudMetadata (saga : Saga.t) : bool :=
  negb (saga.(Saga.FraudSessionID) =s "") || negb (saga.(Saga.FraudAction) =s "")
  || negb (saga.(Saga.FraudReason) =s "") || negb (IsZero saga.(Saga.FraudFlaggedAt))
  || negb (SFeqb saga.(Saga.FraudRiskScore) float_zero).

Definition sameStartPayload (left right : Saga.t) : bool :=
  (left.(Saga.PaymentID) =s right.(Saga.PaymentID))
  && (left.(Saga.IdempotencyKey) =s right.(Saga.IdempotencyKey))
  && (left.(Saga.UserID) =s right.(Saga.UserID))
  && (left.(Saga.FromWalletID) =s right.(Saga.FromWalletID))
  && (left.(Saga.ToWalletID) =s right.(Saga.ToWalletID))
  && (left.(Saga.AmountCents) =? right.(Saga.AmountCents))
  && (left.(Saga.Currency) =s right.(Saga.Currency)).

Section Scan.
Context `{Uuid}.

Definition scanSaga (row : SagaRow.t) : Saga.t :=
  Saga.mk
    (uuid_String row.(SagaRow.id))
    row.(SagaRow.payment_id)
    row.(SagaRow.idempotency_key)
    row.(SagaRow.user_id)
    row.(SagaRow.from_wallet_id)
    row.(SagaRow.to_wallet_id)
    row.(SagaRow.amount_cents)
    row.(SagaRow.currency)
    row.(SagaRow.state)
    row.(SagaRow.last_error)
    row.(SagaRow.trace_id)
    row.(SagaRow.wallet_debit_id)
    row.(SagaRow.ledger_reservation_id)
    row.(SagaRow.transfer_id)
    row.(SagaRow.failure_code)
    (textFromPG row.(SagaRow.fraud_session_id))
    (textFromPG row.(SagaRow.fraud_action))
    (floatFromPG row.(SagaRow.fraud_risk_score))
    (textFromPG row.(SagaRow.fraud_reason))
    (timeFromPG row.(SagaRow.fraud_flagged_at))
    row.(SagaRow.deferred_payment_json)
    row.(SagaRow.created_at)
    row.(SagaRow.updated_at).
End Scan.

Section Statements.
Context {W : Type} `{Postgres}.
Implicit Types w : world W.

Definition with_sagas (m : gmap string SagaRow.t) w : world W :=
  World m (audits w) (events w) (ids_used w) (db_now w) (clock_reads w) (remote w).
Definition with_audits (l : list AuditRow.t) w : world W :=
  World (sagas w) l (events w) (ids_used w) (db_now w) (clock_reads w) (remote w).
Definition with_events (l : list OutboxEvent.t) w : world W :=
  World (sagas w) (audits w) l (ids_used w) (db_now w) (clock_reads w) (remote w).
Definition next_id w : world W :=
  World (sagas w) (audits w) (events w) (S (ids_used w)) (db_now w) (clock_reads w) (remote w).
Definition with_remote (r : W) w : world W :=
  World (sagas w) (audits w) (events w) (ids_used w) (db_now w) (clock_reads w) r.
Definition tick w : world W :=
  World (sagas w) (audits w) (events w) (ids_used w) (db_now w) (S (clock_reads w)) (remote w).

(** [COALESCE(NULLIF($n::timestamptz, '0001-01-01 00:00:00+00'), now())] *)
Definition coalesce_now (t : time) w : time :=
  if IsZero (pg_timestamp t) then db_now w else pg_timestamp t.

Definition same_key (user_id idempotency_key : string) (row : SagaRow.t) : bool :=
  (row.(SagaRow.user_id) =s user_id) && (row.(SagaRow.idempotency_key) =s idempotency_key).

Definition find_key (user_id idempotency_key : string) w : option SagaRow.t :=
  snd <$> List.find (fun kr => same_key user_id idempotency_key kr.2) (map_to_list (sagas w)).

Definition stmt_insert_saga (saga : Saga.t) w : res saga_error (SagaRow.t * world W) :=
  if saga.(Saga.AmountCents) <=? 0 then Err (ErrStore PgCheckViolation)
  else match sagas w !! saga.(Saga.PaymentID), find_key saga.(Saga.UserID) saga.(Saga.IdempotencyKey) w with
       | None, None =>
           let row := SagaRow.mk (gen_random_uuid (ids_used w))
                        saga.(Saga.PaymentID) saga.(Saga.IdempotencyKey) saga.(Saga.UserID)
                        saga.(Saga.FromWalletID) saga.(Saga.ToWalletID) saga.(Saga.AmountCents)
                        saga.(Saga.Currency) saga.(Saga.State) saga.(Saga.LastError) saga.(Saga.TraceID)
                        saga.(Saga.WalletDebitID) saga.(Saga.LedgerReservationID) saga.(Saga.TransferID)
                        saga.(Saga.FailureCode)
                        (textToPG saga.(Saga.FraudSessionID))
                        (textToPG saga.(Saga.FraudAction))
                        (floatToPG saga.(Saga.FraudRiskScore) (hasFraudMetadata saga))
                        (textToPG saga.(Saga.FraudReason))
                        (timeToPG saga.(Saga.FraudFlaggedAt))
                        saga.(Saga.DeferredPaymentJSON)
                        (coalesce_now saga.(Saga.CreatedAt) w)
                        (coalesce_now saga.(Saga.UpdatedAt) w) in
           Ok (row, next_id (with_sagas (<[saga.(Saga.PaymentID) := row]> (sagas w)) w))
       | _, _ => Err (ErrStore PgUniqueViolation)
       end.

Definition q_saga (payment_id : string) w : res saga_error SagaRow.t :=
  match sagas w !! payment_id with Some row => Ok row | None => Err (ErrStore PgNoRows) end.

Definition q_saga_by_key (user_id idempotency_key : string) w : res saga_error SagaRow.t :=
  match find_key user_id idempotency_key w with Some row => Ok row | None => Err (ErrStore PgNoRows) end.

(** The columns [updateSaga] sets, on the row it finds. *)
Definition updated_row (saga : Saga.t) (row : SagaRow.t) w : SagaRow.t :=
  SagaRow.mk row.(SagaRow.id) row.(SagaRow.payment_id) row.(SagaRow.idempotency_key) row.(SagaRow.user_id)
    row.(SagaRow.from_wallet_id) row.(SagaRow.to_wallet_id) row.(SagaRow.amount_cents) row.(SagaRow.currency)
    saga.(Saga.State) saga.(Saga.LastError) saga.(Saga.TraceID) saga.(Saga.WalletDebitID)
    saga.(Saga.LedgerReservationID) saga.(Saga.TransferID) saga.(Saga.FailureCode)
    (textToPG saga.(Saga.FraudSessionID))
    (textToPG saga.(Saga.FraudAction))
    (floatToPG saga.(Saga.FraudRiskScore) (hasFraudMetadata saga))
    (textToPG saga.(Saga.FraudReason))
    (timeToPG saga.(Saga.FraudFlaggedAt))
    saga.(Saga.DeferredPaymentJSON)
    row.(SagaRow.created_at)
    (coalesce_now saga.(Saga.UpdatedAt) w).

Definition stmt_update_saga (saga : Saga.t) w : res saga_error (SagaRow.t * world W) :=
  match sagas w !! saga.(Saga.PaymentID) with
  | None => Err (ErrStore PgNoRows)
  | Some row =>
      let row' := updated_row saga row w in
      Ok (row', with_sagas (<[saga.(Saga.PaymentID) := row']> (sagas w)) w)
  end.

Definition audit_is (event_id : string) (a : AuditRow.t) : bool :=
  a.(AuditRow.record).(FraudAuditRecord.EventID) =s event_id.

(** [ON CONFLICT (event_id) DO NOTHING] *)
Definition stmt_insert_audit (audit : FraudAuditRecord.t) w : res saga_error (unit * world W) :=
  if existsb (audit_is audit.(FraudAuditRecord.EventID)) (audits w) then Ok (tt, next_id w)
  else
    let row := AuditRow.mk (gen_random_uuid (ids_used w))
                 (FraudAuditRecord.mk audit.(FraudAuditRecord.EventID) audit.(FraudAuditRecord.PaymentID)
                    audit.(FraudAuditRecord.Kind) audit.(FraudAuditRecord.SagaState)
                    audit.(FraudAuditRecord.DetailsJSON)
                    (coalesce_now audit.(FraudAuditRecord.CreatedAt) w)) in
    Ok (tt, next_id (with_audits (audits w ++ [row])%list w)).

Definition stmt_insert_event (topic partition_key : string) (payload : json)
    (traceparent tracestate : string) w : res saga_error (OutboxEvent.t * world W) :=
  let e := OutboxEvent.mk (gen_random_uuid (ids_used w)) topic partition_key payload traceparent tracestate
             None None (db_now w) in
  Ok (e, next_id (with_events (events w ++ [e])%list w)).

Definition terminal (state : string) : bool := (state =s StateCompleted) || (state =s StateFailed).

(** [ORDER BY updated_at, id] and [ORDER BY fraud_flagged_at, id], nulls last. *)
Definition updated_before (r1 r2 : SagaRow.t) : Prop :=
  r1.(SagaRow.updated_at) < r2.(SagaRow.updated_at) \/
  r1.(SagaRow.updated_at) = r2.(SagaRow.updated_at) /\ (r1.(SagaRow.id) <= r2.(SagaRow.id))%N.

Definition flagged_before (r1 r2 : SagaRow.t) : Prop :=
  match r1.(SagaRow.fraud_flagged_at), r2.(SagaRow.fraud_flagged_at) with
  | Some t1, Some t2 => t1 < t2 \/ t1 = t2 /\ (r1.(SagaRow.id) <= r2.(SagaRow.id))%N
  | Some _, None => True
  | None, Some _ => False
  | None, None => (r1.(SagaRow.id) <= r2.(SagaRow.id))%N
  end.

#[export] Instance updated_before_dec r1 r2 : Decision (updated_before r1 r2).
Proof. unfold updated_before. apply _. Defined.
#[export] Instance flagged_before_dec r1 r2 : Decision (flagged_before r1 r2).
Proof. unfold flagged_before. repeat case_match; apply _. Defined.

Definition saga_rows w : list SagaRow.t := snd <$> map_to_list (sagas w).

Definition q_non_terminal w : res saga_error (list SagaRow.t) :=
  Ok (merge_sort updated_before (filter (fun r => terminal r.(SagaRow.state) = false) (saga_rows w))).

Definition q_fraud_review w : res saga_error (list SagaRow.t) :=
  Ok (merge_sort flagged_before (filter (fun r => r.(SagaRow.state) = StateFraudReview) (saga_rows w))).

(** [ORDER BY created_at, id] *)
Definition audit_before (a b : AuditRow.t) : Prop :=
  a.(AuditRow.record).(FraudAuditRecord.CreatedAt) < b.(AuditRow.record).(FraudAuditRecord.CreatedAt) \/
  a.(AuditRow.record).(FraudAuditRecord.CreatedAt) = b.(AuditRow.record).(FraudAuditRecord.CreatedAt) /\
  (a.(AuditRow.id) <= b.(AuditRow.id))%N.

#[export] Instance audit_before_dec a b : Decision (audit_before a b).
Proof. unfold audit_before. apply _. Defined.

Definition q_audits (payment_id : string) w : res saga_error (list FraudAuditRecord.t) :=
  Ok (AuditRow.record <$> merge_sort audit_before
        (filter (fun a => a.(AuditRow.record).(FraudAuditRecord.PaymentID) = payment_id) (audits w))).

(** The rows [DeleteFraudAuditBefore] may remove: old enough, and of a payment
    without a saga or whose saga has ended. *)
Definition expired_audit (before : time) w (a : AuditRow.t) : Prop :=
  a.(AuditRow.record).(FraudAuditRecord.CreatedAt) < pg_timestamp before /\
  match sagas w !! a.(AuditRow.record).(FraudAuditRecord.PaymentID) with
  | None => True
  | Some row => terminal row.(SagaRow.state) = true
  end.

#[export] Instance expired_audit_dec before w a : Decision (expired_audit before w a).
Proof. unfold expired_audit. case_match; apply _. Defined.

Definition created_before (a b : AuditRow.t) : Prop :=
  a.(AuditRow.record).(FraudAuditRecord.CreatedAt) <= b.(AuditRow.record).(FraudAuditRecord.CreatedAt).

#[export] Instance created_before_dec a b : Decision (created_before a b).
Proof. unfold created_before. apply _. Defined.

(** The ids the subquery selects; rows written at the same instant are taken in
    the order of the table. *)
Definition doomed (before : time) (limit : Z) w : list uuid :=
  AuditRow.id <$> take (Z.to_nat limit) (merge_sort created_before (filter (expired_audit before w) (audits w))).

Definition stmt_delete_audits (before : time) (limit : Z) w : res saga_error (Z * world W) :=
  if limit <? 0 then Err (ErrStore PgInvalidLimit)
  else
    let kept := filter (fun a => a.(AuditRow.id) ∉ doomed before limit w) (audits w) in
    Ok (Z.of_nat (length (audits w)) - Z.of_nat (length kept), with_audits kept w).
End Statements.

(** ** The store *)

Abbreviation sdb W A := (prog (world W) saga_error A).

(** An [OutboxRecord] to write with the saga's new state. *)
Module OutboxRecord.
Record t := mk { Topic : string; PartitionKey : string; Payload : json }.
End OutboxRecord.

Section Store.
Context {W : Type} `{Postgres} `{Uuid}.
Variable ctx : context.

Definition store_no_rows (e : saga_error) : bool := bool_decide (e = ErrStore PgNoRows).
Definition store_unique_violation (e : saga_error) : bool := bool_decide (e = ErrStore PgUniqueViolation).

(** [scanSaga(row)] with [pgx.ErrNoRows] turned into [ErrNotFound]. *)
Definition scan_row (p : sdb W SagaRow.t) : sdb W Saga.t :=
  let! r := attempt p in
  match r with
  | Ok row => ret (scanSaga row)
  | Err e => throw (if store_no_rows e then ErrSagaNotFound else e)
  end.

Definition GetByPaymentID (paymentID : string) : sdb W Saga.t := scan_row (query (q_saga paymentID)).

Definition findDuplicate (saga : Saga.t) : sdb W Saga.t :=
  let by_key := scan_row (query (q_saga_by_key saga.(Saga.UserID) saga.(Saga.IdempotencyKey))) in
  if saga.(Saga.PaymentID) =s "" then by_key
  else
    let! r := attempt (GetByPaymentID saga.(Saga.PaymentID)) in
    match r with
    | Ok existing => ret existing
    | Err e => if bool_decide (e = ErrSagaNotFound) then by_key else throw e
    end.

Definition Create (saga : Saga.t) : sdb W Saga.t :=
  let! r := attempt (scan_row (exec (stmt_insert_saga saga))) in
  match r with
  | Ok created => ret created
  | Err e =>
      if store_unique_violation e then
        let! existing := findDuplicate saga in
        if sameStartPayload existing saga then ret existing else throw ErrSagaAlreadyExists
      else throw e
  end.

Definition listSagas (q : world W -> res saga_error (list SagaRow.t)) : sdb W (list Saga.t) :=
  let! rows := query q in ret (scanSaga <$> rows).

Definition ListNonTerminal : sdb W (list Saga.t) := listSagas q_non_terminal.
Definition ListFraudReview : sdb W (list Saga.t) := listSagas q_fraud_review.

Definition updateSaga (saga : Saga.t) : sdb W Saga.t := scan_row (exec (stmt_update_saga saga)).

Definition Update (saga : Saga.t) : sdb W Saga.t := updateSaga saga.

Definition insertFraudAudit (audit : FraudAuditRecord.t) : sdb W unit :=
  if audit.(FraudAuditRecord.EventID) =s "" then ret tt else exec (stmt_insert_audit audit).

Definition UpdateWithAudit (saga : Saga.t) (audit : FraudAuditRecord.t) : sdb W Saga.t :=
  begin ;!
  deferred_rollback (
    let! updated := updateSaga saga in
    insertFraudAudit audit ;!
    commit ;!
    ret updated).

(** [for _, record := range events { tx.Exec(...) }] *)
Fixpoint insert_events (records : list OutboxRecord.t) : sdb W unit :=
  match records with
  | [] => ret tt
  | record :: rest =>
      exec (stmt_insert_event record.(OutboxRecord.Topic) record.(OutboxRecord.PartitionKey)
              record.(OutboxRecord.Payload) (ctx_traceparent ctx) (ctx_tracestate ctx)) ;!
      insert_events rest
  end.

Definition UpdateWithOutboxAndAudit (saga : Saga.t) (records : list OutboxRecord.t)
    (audit : FraudAuditRecord.t) : sdb W Saga.t :=
  begin ;!
  deferred_rollback (
    insert_events records ;!
    insertFraudAudit audit ;!
    let! updated := updateSaga saga in
    commit ;!
    ret updated).

Definition UpdateWithOutbox (saga : Saga.t) (records : list OutboxRecord.t) : sdb W Saga.t :=
  UpdateWithOutboxAndAudit saga records FraudAuditRecord.zero.

Definition RecordFraudAudit (audit : FraudAuditRecord.t) : sdb W unit := insertFraudAudit audit.

Definition ListFraudAudit (paymentID : string) : sdb W (list FraudAuditRecord.t) := query (q_audits paymentID).

Definition DeleteFraudAuditBefore (before : time) (limit : Z) : sdb W Z :=
  exec (stmt_delete_audits before limit).

(** [outbox.Repository.Enqueue] on the saga service's database. *)
Definition EnqueueEvent (topic partitionKey : string) (payload : json) : sdb W unit :=
  exec (stmt_insert_event topic partitionKey payload (ctx_traceparent ctx) (ctx_tracestate ctx)) ;! ret tt.
End Store.

(** ** Contracts

    What each operation of the store does to the world, as a pure function. *)

Section Contracts.
Context {W : Type} `{Postgres} `{Uuid}.
Implicit Types w : world W.

Definition get_spec (paymentID : string) w : res saga_error (Saga.t * world W) :=
  match sagas w !! paymentID with
  | Some row => Ok (scanSaga row, w)
  | None => Err ErrSagaNotFound
  end.

Definition set_saga (saga : Saga.t) (row : SagaRow.t) w : world W :=
  with_sagas (<[saga.(Saga.PaymentID) := updated_row saga row w]> (sagas w)) w.

Definition update_spec (saga : Saga.t) w : res saga_error (Saga.t * world W) :=
  match sagas w !! saga.(Saga.PaymentID) with
  | None => Err ErrSagaNotFound
  | Some row => Ok (scanSaga (updated_row saga row w), set_saga saga row w)
  end.

Definition put_audit (audit : FraudAuditRecord.t) w : world W :=
  if audit.(FraudAuditRecord.EventID) =s "" then w
  else match stmt_insert_audit audit w with Ok (_, w') => w' | Err _ => w end.

Definition put_event (ctx : context) (topic key : string) (payload : json) w : world W :=
  let e := OutboxEvent.mk (gen_random_uuid (ids_used w)) topic key payload
             (ctx_traceparent ctx) (ctx_tracestate ctx) None None (db_now w) in
  next_id (with_events (events w ++ [e])%list w).

Fixpoint put_events (ctx : context) (records : list OutboxRecord.t) w : world W :=
  match records with
  | [] => w
  | r :: rest => put_events ctx rest
      (put_event ctx r.(OutboxRecord.Topic) r.(OutboxRecord.PartitionKey) r.(OutboxRecord.Payload) w)
  end.

Definition update_audit_spec (saga : Saga.t) (audit : FraudAuditRecord.t) w : res saga_error (Saga.t * world W) :=
  match update_spec saga w with
  | Err e => Err e
  | Ok (u, w1) => Ok (u, put_audit audit w1)
  end.

Definition update_outbox_spec (ctx : context) (saga : Saga.t) (records : list OutboxRecord.t)
    (audit : FraudAuditRecord.t) w : res saga_error (Saga.t * world W) :=
  update_spec saga (put_audit audit (put_events ctx records w)).

Definition create_spec (saga : Saga.t) w : res saga_error (Saga.t * world W) :=
  match stmt_insert_saga saga w with
  | Ok (row, w') => Ok (scanSaga row, w')
  | Err e =>
      if store_unique_violation e then
        match (if saga.(Saga.PaymentID) =s "" then None else sagas w !! saga.(Saga.PaymentID)),
              find_key saga.(Saga.UserID) saga.(Saga.IdempotencyKey) w with
        | Some row, _ | None, Some row =>
            if sameStartPayload (scanSaga row) saga then Ok (scanSaga row, w) else Err ErrSagaAlreadyExists
        | None, None => Err ErrSagaNotFound
        end
      else Err e
  end.
End Contracts.

Section Refinement.
Context {W : Type} `{Postgres} `{Uuid}.
Implicit Types w : world W.

(** Replacing a contract by an equal one. *)
Lemma refines_ext {A} (p : sdb W A) (sp sp' : world W -> res saga_error (A * world W)) :
  refines anywhere p sp -> (forall w, sp w = sp' w) -> refines anywhere p sp'.
Proof. intros Hr He t s Hi. rewrite <- He. by apply Hr. Qed.

Lemma get_refines paymentID : refines (T := world W) anywhere (GetByPaymentID paymentID) (get_spec paymentID).
Proof.
  eapply refines_ext.
  - unfold GetByPaymentID, scan_row. eapply (refines_map _ _ scanSaga
      (fun e => if store_no_rows e then ErrSagaNotFound else e)); [done | apply refines_query].
  - intros w. unfold q_saga, get_spec. by destruct (sagas w !! paymentID).
Qed.

Lemma update_refines saga : refines (T := world W) anywhere (Update saga) (update_spec saga).
Proof.
  eapply refines_ext.
  - unfold Update, updateSaga, scan_row. eapply (refines_map _ _ scanSaga
      (fun e => if store_no_rows e then ErrSagaNotFound else e)); [done | apply refines_exec].
  - intros w. unfold stmt_update_saga, update_spec. by destruct (sagas w !! _).
Qed.

Lemma audit_refines audit : refines (T := world W) anywhere (RecordFraudAudit audit) (fun w => Ok (tt, put_audit audit w)).
Proof.
  unfold RecordFraudAudit, insertFraudAudit, put_audit.
  destruct (FraudAuditRecord.EventID audit =s "").
  - intros t s Hi. wp_step. by finish_outcome.
  - eapply (refines_ext _ (stmt_insert_audit audit)); [apply refines_exec |].
    intros w. unfold stmt_insert_audit. by destruct (existsb _ _).
Qed.

Lemma event_refines ctx topic key payload :
  refines (T := world W) anywhere (EnqueueEvent ctx topic key payload) (fun w => Ok (tt, put_event ctx topic key payload w)).
Proof.
  intros t s Hi. unfold EnqueueEvent. wp_step. wp_step; [finish_outcome |]. simpl. split.
  - wp_step. by finish_outcome.
  - intros. split; [done |]. by eapply outcome_lost_after.
Qed.

(** The statements inside a transaction. *)
Lemma updateSaga_tx saga (Q : res saga_error Saga.t -> conn (world W) -> Prop) cm w s :
  (forall wk s', (quiet s -> quiet s') -> ~ quiet s -> Q (Err unavailable) (Conn cm wk s')) ->
  (forall s', (quiet s -> quiet s') ->
     match update_spec saga w with
     | Ok (u, w') => Q (Ok u) (Conn cm (Some w') s')
     | Err e => Q (Err e) (Conn cm (Some w) s')
     end) ->
  wp (updateSaga saga) Q (Conn cm (Some w) s).
Proof.
  intros Hf Hn. unfold updateSaga, scan_row. wp_step. wp_step. wp_step.
  - simpl. wp_step. by apply Hf.
  - unfold stmt_update_saga, update_spec in *. specialize (Hn s').
    destruct (sagas w !! _); simpl; wp_step; by apply Hn.
Qed.

Lemma insertFraudAudit_tx audit (Q : res saga_error unit -> conn (world W) -> Prop) cm w s :
  (forall wk s', (quiet s -> quiet s') -> ~ quiet s -> Q (Err unavailable) (Conn cm wk s')) ->
  (forall s', (quiet s -> quiet s') -> Q (Ok tt) (Conn cm (Some (put_audit audit w)) s')) ->
  wp (insertFraudAudit audit) Q (Conn cm (Some w) s).
Proof.
  intros Hf Hn. unfold insertFraudAudit, put_audit in *.
  destruct (FraudAuditRecord.EventID audit =s ""); [wp_step; by apply Hn |].
  wp_step; [by apply Hf |]. specialize (Hn s').
  unfold stmt_insert_audit in *. destruct (existsb _ _); by apply Hn.
Qed.

Lemma insert_events_tx ctx records (Q : res saga_error unit -> conn (world W) -> Prop) cm : forall w s,
  (forall wk s', (quiet s -> quiet s') -> ~ quiet s -> Q (Err unavailable) (Conn cm wk s')) ->
  (forall s', (quiet s -> quiet s') -> Q (Ok tt) (Conn cm (Some (put_events ctx records w)) s')) ->
  wp (insert_events ctx records) Q (Conn cm (Some w) s).
Proof.
  induction records as [|r rest IH]; intros w s Hf Hn; simpl; [wp_step; by apply Hn |].
  wp_step. wp_step; [by apply Hf |]. simpl. apply IH.
  - intros wk s1 Hq Hnq. apply Hf; [auto | not_quiet].
  - intros s1 Hq. apply Hn. auto.
Qed.

Lemma update_audit_refines saga audit :
  refines (T := world W) anywhere (UpdateWithAudit saga audit) (update_audit_spec saga audit).
Proof.
  intros t s Hi. unfold UpdateWithAudit, update_audit_spec. wp_step. wp_step; [finish_outcome |]. wp_step.
  wp_step. apply updateSaga_tx; [intros; finish_outcome |]. intros s1 Hq1.
  destruct (update_spec saga t) as [[u w1] | e]; [| by finish_outcome].
  wp_step. apply insertFraudAudit_tx; [intros; finish_outcome |]. intros s2 Hq2.
  apply commit_ret_outcome; auto 15.
Qed.

Lemma update_outbox_refines ctx saga records audit :
  refines (T := world W) anywhere (UpdateWithOutboxAndAudit ctx saga records audit) (update_outbox_spec ctx saga records audit).
Proof.
  intros t s Hi. unfold UpdateWithOutboxAndAudit, update_outbox_spec. wp_step. wp_step; [finish_outcome |]. wp_step.
  wp_step. apply insert_events_tx; [intros; finish_outcome |]. intros s1 Hq1.
  wp_step. apply insertFraudAudit_tx; [intros; finish_outcome |]. intros s2 Hq2.
  wp_step. apply updateSaga_tx; [intros; finish_outcome |]. intros s3 Hq3.
  destruct (update_spec saga _) as [[u w1] | e]; [| by finish_outcome].
  apply commit_ret_outcome; auto 15.
Qed.

(** Reading a row: the scan of what the query finds. *)
Lemma scan_query (q : world W -> res saga_error SagaRow.t) (Q : res saga_error Saga.t -> conn (world W) -> Prop) w s :
  (forall s', (quiet s -> quiet s') -> ~ quiet s -> Q (Err unavailable) (Conn w None s')) ->
  (forall s', (quiet s -> quiet s') ->
     match q w with
     | Ok row => Q (Ok (scanSaga row)) (Conn w None s')
     | Err e => Q (Err (if store_no_rows e then ErrSagaNotFound else e)) (Conn w None s')
     end) ->
  wp (scan_row (query q)) Q (Conn w None s).
Proof.
  intros Hf Hn. unfold scan_row. wp_step. wp_step. wp_step; [simpl; wp_step; by apply Hf |].
  specialize (Hn s'). destruct (q w); wp_step; by apply Hn.
Qed.

Lemma findDuplicate_spec saga (Q : res saga_error Saga.t -> conn (world W) -> Prop) w s :
  (forall s', (quiet s -> quiet s') -> ~ quiet s -> Q (Err unavailable) (Conn w None s')) ->
  (forall s', (quiet s -> quiet s') ->
     match (if saga.(Saga.PaymentID) =s "" then None else sagas w !! saga.(Saga.PaymentID)),
           find_key saga.(Saga.UserID) saga.(Saga.IdempotencyKey) w with
     | Some row, _ | None, Some row => Q (Ok (scanSaga row)) (Conn w None s')
     | None, None => Q (Err ErrSagaNotFound) (Conn w None s')
     end) ->
  wp (findDuplicate saga) Q (Conn w None s).
Proof.
  intros Hf Hn. unfold findDuplicate.
  assert (forall s0, (quiet s -> quiet s0) ->
    (if saga.(Saga.PaymentID) =s "" then None else sagas w !! saga.(Saga.PaymentID)) = None ->
    wp (scan_row (query (q_saga_by_key saga.(Saga.UserID) saga.(Saga.IdempotencyKey)))) Q (Conn w None s0)) as Hkey.
  { intros s0 Hq0 Hnone. apply scan_query; [intros; apply Hf; [auto | not_quiet] |]. intros s1 Hq1.
    specialize (Hn s1 ltac:(auto)). rewrite Hnone in Hn. unfold q_saga_by_key.
    by destruct (find_key _ _ w). }
  destruct (Saga.PaymentID saga =s ""); [by apply Hkey |].
  wp_step. wp_step. apply scan_query; [intros; simpl; wp_step; by apply Hf |]. intros s1 Hq1. unfold q_saga.
  destruct (sagas w !! Saga.PaymentID saga) as [row|] eqn:Hr; simpl.
  - wp_step. by apply Hn.
  - by apply Hkey.
Qed.

Lemma create_refines saga : refines (T := world W) anywhere (Create saga) (create_spec saga).
Proof.
  intros w s Hi. unfold Create, create_spec. wp_step. wp_step. unfold scan_row at 1. wp_step. wp_step. wp_step.
  - simpl. wp_step. simpl. wp_step. finish_outcome.
  - destruct (stmt_insert_saga saga w) as [[row w'] | e] eqn:Hins.
    + split; [wp_step; wp_step; by finish_outcome |]. intros. simpl. wp_step. simpl. wp_step.
      split; [done |]. eapply outcome_lost_after; [done | done].
    + wp_step.
      assert (store_unique_violation (if store_no_rows e then ErrSagaNotFound else e) = store_unique_violation e /\
              (store_no_rows e = false)) as [-> Hnr].
      { unfold stmt_insert_saga in Hins. repeat case_match; simplify_eq; done. }
      destruct (store_unique_violation e); [| wp_step; rewrite Hnr; by finish_outcome].
      wp_step. apply findDuplicate_spec; [intros; finish_outcome |]. intros s2 Hq2.
      repeat case_match; wp_step || idtac; by finish_outcome.
Qed.
End Refinement.
