(* ===== verification/Orchestrator.v ===== *)
(** * Orchestrator: [internal/saga/orchestrator.go].

    The handlers of the payment saga as programs over the store and the remote
    services.  The client interfaces of the source ([VerificationClient],
    [WalletClient], [LedgerClient]) are the class [Remote]: what a call answers
    and how it changes the remote state; a call is one round trip, which may be
    lost before or after the service acted.  [NewOrchestrator] is given the
    Postgres store and the outbox repository, as [cmd/saga-orchestrator] does, so
    the optional store interfaces are all present.  Spans and metrics leave no
    trace in the model. *)

From S2P Require Import Prelude GoStrings Domain GoTime Json Database Outbox SagaTypes SagaStore.

#[local] Open Scope string_scope.
#[local] Open Scope Z_scope.

(** The services the orchestrator calls. *)
Class Remote (W : Type) := {
  remote_GetStatus : VerificationRequest.t -> W -> res saga_error string;
  remote_DebitForSaga : WalletDebitRequest.t -> W -> res saga_error (string * W);
  remote_CompensateDebit : WalletCompensateRequest.t -> W -> res saga_error (unit * W);
  remote_ReserveTransfer : LedgerReserveRequest.t -> W -> res saga_error (string * W);
  remote_ConfirmTransfer : LedgerConfirmRequest.t -> W -> res saga_error (LedgerConfirmResult.t * W);
  remote_CancelReservation : LedgerCancelRequest.t -> W -> res saga_error (unit * W)
}.

Definition stepKey (paymentID step : string) : string := paymentID ++ ":" ++ step.

Definition traceID (preferred fallback : string) : string :=
  if negb (preferred =s "") then preferred else fallback.

Definition nonZeroTime (value fallback : time) : time := if IsZero value then fallback else value.

Definition fraudFlaggedAuditKind (state : string) : string :=
  if state =s StatePaymentProcessing then FraudAuditKindTransition
  else if (state =s StateFraudReview) || (state =s StateCompleted) || (state =s StateFailed)
       then FraudAuditKindDuplicate
  else FraudAuditKindIgnored.

(** The [omitempty] string fields. *)
Definition optional (name value : string) : list (string * json) :=
  if value =s "" then [] else [(name, JString value)].

Definition fraudFlaggedAuditJSON (flagged : FraudFlagged.t) (state kind : string) : document :=
  Some (JObject [
    ("source_event_id", JString flagged.(FraudFlagged.SourceEventID));
    ("payment_id", JString flagged.(FraudFlagged.PaymentID));
    ("state", JString state);
    ("kind", JString kind);
    ("session_id", JString flagged.(FraudFlagged.SessionID));
    ("action", JString flagged.(FraudFlagged.Action));
    ("risk_score", JFloat flagged.(FraudFlagged.RiskScore));
    ("reason", JString flagged.(FraudFlagged.Reason))]).

Definition paymentResultAuditJSON (topic eventID state outcome status : string) (timestamp occurredAt : time)
    (traceID processorPaymentID failureCode failureMessage : string) : document :=
  Some (JObject (
    [("topic", JString topic); ("event_id", JString eventID); ("state", JString state);
     ("outcome", JString outcome)]
    ++ optional "status" status
    ++ [("timestamp", JTime timestamp); ("occurred_at", JTime occurredAt); ("trace_id", JString traceID)]
    ++ optional "processor_payment_id" processorPaymentID
    ++ optional "failure_code" failureCode
    ++ optional "failure_message" failureMessage)%list).

Definition deferredEventID (payload : document) : string :=
  match (let? fields := json_object payload in get_string "event_id" fields) with
  | Ok id => id
  | Err _ => ""
  end.

(** The audit records of a payment result, by its outcome. *)
Definition completed_audit (event : PaymentCompleted.t) (current : Saga.t) (kind outcome : string) (at_ : time)
    : FraudAuditRecord.t :=
  FraudAuditRecord.mk event.(PaymentCompleted.EventID) current.(Saga.PaymentID) kind current.(Saga.State)
    (paymentResultAuditJSON "payment.completed" event.(PaymentCompleted.EventID) current.(Saga.State) outcome
       event.(PaymentCompleted.Status) event.(PaymentCompleted.CompletedAt) event.(PaymentCompleted.OccurredAt)
       event.(PaymentCompleted.TraceID) event.(PaymentCompleted.ProcessorPaymentID) "" "") at_.

Definition failed_audit (event : PaymentFailed.t) (current : Saga.t) (kind outcome : string) (at_ : time)
    : FraudAuditRecord.t :=
  FraudAuditRecord.mk event.(PaymentFailed.EventID) current.(Saga.PaymentID) kind current.(Saga.State)
    (paymentResultAuditJSON "payment.failed" event.(PaymentFailed.EventID) current.(Saga.State) outcome
       "" event.(PaymentFailed.FailedAt) event.(PaymentFailed.OccurredAt)
       event.(PaymentFailed.TraceID) "" event.(PaymentFailed.FailureCode) event.(PaymentFailed.FailureMessage)) at_.

Section Handlers.
Context {W : Type} `{Remote W} `{Clock} `{Postgres} `{Uuid}.
Variable ctx : context.

(** [orchestrator.clock.Now()] *)
Definition Now : sdb W time := fun c =>
  (Ok (clock_at (clock_reads (current c))), put (tick (current c)) c).

(** One call of a remote service. *)
Definition call {A} (f : W -> res saga_error (A * W)) : sdb W A :=
  exec (fun w => match f (remote w) with Ok (a, r) => Ok (a, with_remote r w) | Err e => Err e end).

Definition updateWithOutbox (current : Saga.t) (records : list OutboxRecord.t) : sdb W Saga.t :=
  UpdateWithOutbox ctx current records.
Definition updateWithAudit (current : Saga.t) (audit : FraudAuditRecord.t) : sdb W Saga.t :=
  UpdateWithAudit current audit.
Definition updateWithOutboxAndAudit (current : Saga.t) (records : list OutboxRecord.t)
    (audit : FraudAuditRecord.t) : sdb W Saga.t :=
  UpdateWithOutboxAndAudit ctx current records audit.
Definition recordFraudAudit (audit : FraudAuditRecord.t) : sdb W unit := RecordFraudAudit audit.

Definition publishTxCompleted (current : Saga.t) (traceID : string) (completedAt : time) : sdb W unit :=
  let! occurredAt := Now in
  EnqueueEvent ctx TopicTxCompleted current.(Saga.FromWalletID)
    (TxCompleted.to_json
       (TxCompleted.mk ("tx.completed:" ++ current.(Saga.PaymentID)) current.(Saga.PaymentID) traceID
          current.(Saga.FromWalletID) current.(Saga.ToWalletID) current.(Saga.AmountCents)
          current.(Saga.Currency) current.(Saga.TransferID) completedAt occurredAt)).

Definition publishTxFailed (current : Saga.t) (traceID : string) (failedAt : time) : sdb W unit :=
  let! occurredAt := Now in
  EnqueueEvent ctx TopicTxFailed current.(Saga.FromWalletID)
    (TxFailed.to_json
       (TxFailed.mk ("tx.failed:" ++ current.(Saga.PaymentID)) current.(Saga.PaymentID) traceID
          current.(Saga.FromWalletID) current.(Saga.ToWalletID) current.(Saga.AmountCents)
          current.(Saga.Currency) current.(Saga.FailureCode) current.(Saga.LastError) failedAt occurredAt)).

(** The saga that [failUnverified] returns beside its error is read by no caller. *)
Definition failUnverified {A} (current : Saga.t) : sdb W A :=
  let! now := Now in
  Update (Saga.with_UpdatedAt now
         (Saga.with_LastError "user is not verified"
         (Saga.with_State StateFailed current))) ;!
  throw ErrUnverified.

(** The stages of [advance], each entered in its state. *)
Definition check_verification (current : Saga.t) : sdb W Saga.t :=
  let! r := attempt (query (fun w => remote_GetStatus
              (VerificationRequest.mk current.(Saga.UserID) current.(Saga.TraceID)) (remote w))) in
  match r with
  | Err e => if bool_decide (e = ErrVerificationNotFound) then failUnverified current else throw e
  | Ok status =>
      if negb (status =s VerificationVerified) then failUnverified current
      else
        let! now := Now in
        Update (Saga.with_UpdatedAt now (Saga.with_State StateVerificationChecked current))
  end.

Definition debit_wallet (current : Saga.t) : sdb W Saga.t :=
  let! debitID := call (remote_DebitForSaga
    (WalletDebitRequest.mk current.(Saga.PaymentID) (stepKey current.(Saga.PaymentID) "debit-wallet")
       current.(Saga.TraceID) current.(Saga.FromWalletID) current.(Saga.AmountCents)
       current.(Saga.Currency))) in
  let! now := Now in
  Update (Saga.with_UpdatedAt now
         (Saga.with_WalletDebitID debitID
         (Saga.with_State StateWalletDebited current))).

Definition reserve_ledger (current : Saga.t) : sdb W Saga.t :=
  let! reservationID := call (remote_ReserveTransfer
    (LedgerReserveRequest.mk current.(Saga.PaymentID) (stepKey current.(Saga.PaymentID) "reserve-ledger")
       current.(Saga.TraceID) current.(Saga.FromWalletID) current.(Saga.ToWalletID)
       current.(Saga.AmountCents) current.(Saga.Currency))) in
  let! now := Now in
  Update (Saga.with_UpdatedAt now
         (Saga.with_LedgerReservationID reservationID
         (Saga.with_State StateLedgerReserved current))).

Definition payment_payload (current : Saga.t) (now : time) : json :=
  PaymentExecute.to_json
    (PaymentExecute.mk ("payment.execute:" ++ current.(Saga.PaymentID)) current.(Saga.PaymentID)
       (stepKey current.(Saga.PaymentID) "execute-payment") current.(Saga.TraceID)
       current.(Saga.FromWalletID) current.(Saga.ToWalletID) current.(Saga.AmountCents)
       current.(Saga.Currency) current.(Saga.LedgerReservationID) current.(Saga.WalletDebitID) now).

Definition fraud_payload (current : Saga.t) (now : time) : json :=
  FraudScoreRequested.to_json
    (FraudScoreRequested.mk 1 (FraudScoreRequestedEventID current.(Saga.PaymentID)) current.(Saga.PaymentID)
       current.(Saga.UserID) current.(Saga.FromWalletID) current.(Saga.ToWalletID)
       current.(Saga.AmountCents) current.(Saga.Currency) now current.(Saga.TraceID)).

Definition execute_payment (current : Saga.t) : sdb W Saga.t :=
  let! now := Now in
  updateWithOutbox (Saga.with_UpdatedAt now (Saga.with_State StatePaymentProcessing current))
    [OutboxRecord.mk TopicPaymentExecute current.(Saga.PaymentID) (payment_payload current now);
     OutboxRecord.mk FraudScoreRequestedTopic current.(Saga.PaymentID) (fraud_payload current now)].

(** [if current.State == state { ... current = updated }] *)
Definition in_state (state : string) (stage : Saga.t -> sdb W Saga.t) (current : Saga.t) : sdb W Saga.t :=
  if current.(Saga.State) =s state then stage current else ret current.

Definition advance (current : Saga.t) : sdb W Saga.t :=
  let! current := in_state StateStarted check_verification current in
  let! current := in_state StateVerificationChecked debit_wallet current in
  let! current := in_state StateWalletDebited reserve_ledger current in
  in_state StateLedgerReserved execute_payment current.

Definition new_saga (req : StartRequest.t) (now : time) : Saga.t :=
  Saga.mk "" req.(StartRequest.PaymentID) req.(StartRequest.IdempotencyKey) req.(StartRequest.UserID)
    req.(StartRequest.FromWalletID) req.(StartRequest.ToWalletID) req.(StartRequest.AmountCents)
    req.(StartRequest.Currency) StateStarted "" req.(StartRequest.TraceID) "" "" "" ""
    "" "" float_zero "" zero_time None now now.

Definition StartPaymentSaga (req : StartRequest.t) : sdb W Saga.t :=
  let! now := Now in
  let! created := Create (new_saga req now) in
  if negb (created.(Saga.State) =s StateStarted) then ret created else advance created.

Definition GetPaymentSaga (paymentID : string) : sdb W Saga.t := GetByPaymentID paymentID.

Definition deferPaymentCompleted (current : Saga.t) (event : PaymentCompleted.t) : sdb W unit :=
  match current.(Saga.DeferredPaymentJSON) with
  | Some deferred =>
      let! now := Now in
      if deferredEventID (Some deferred) =s event.(PaymentCompleted.EventID)
      then recordFraudAudit (completed_audit event current FraudAuditKindDuplicate "duplicate" now)
      else recordFraudAudit (completed_audit event current FraudAuditKindInvariantViolation
                               "conflicting_terminal_result" now)
  | None =>
      let! now := Now in
      let current := Saga.with_UpdatedAt now
                    (Saga.with_DeferredPaymentJSON (Some (PaymentCompleted.to_json event)) current) in
      updateWithAudit current (completed_audit event current FraudAuditKindDeferredTerminal "deferred"
                                 current.(Saga.UpdatedAt)) ;!
      ret tt
  end.

Definition deferPaymentFailed (current : Saga.t) (event : PaymentFailed.t) : sdb W unit :=
  match current.(Saga.DeferredPaymentJSON) with
  | Some deferred =>
      let! now := Now in
      if deferredEventID (Some deferred) =s event.(PaymentFailed.EventID)
      then recordFraudAudit (failed_audit event current FraudAuditKindDuplicate "duplicate" now)
      else recordFraudAudit (failed_audit event current FraudAuditKindInvariantViolation
                               "conflicting_terminal_result" now)
  | None =>
      let! now := Now in
      let current := Saga.with_UpdatedAt now
                    (Saga.with_DeferredPaymentJSON (Some (PaymentFailed.to_json event)) current) in
      updateWithAudit current (failed_audit event current FraudAuditKindDeferredTerminal "deferred"
                                 current.(Saga.UpdatedAt)) ;!
      ret tt
  end.

Definition HandlePaymentCompleted (event : PaymentCompleted.t) : sdb W unit :=
  let! current := GetByPaymentID event.(PaymentCompleted.PaymentID) in
  if current.(Saga.State) =s StateCompleted then
    let! now := Now in
    recordFraudAudit (completed_audit event current FraudAuditKindDuplicate "duplicate" now)
  else if current.(Saga.State) =s StateFailed then
    let! now := Now in
    recordFraudAudit (completed_audit event current FraudAuditKindInvariantViolation
                        "terminal_state_mismatch" now)
  else if current.(Saga.State) =s StateFraudReview then deferPaymentCompleted current event
  else
    let! confirmed := call (remote_ConfirmTransfer
      (LedgerConfirmRequest.mk current.(Saga.PaymentID) (stepKey current.(Saga.PaymentID) "confirm-ledger")
         (traceID event.(PaymentCompleted.TraceID) current.(Saga.TraceID))
         current.(Saga.LedgerReservationID) current.(Saga.WalletDebitID))) in
    let! now := Now in
    let! current := Update (Saga.with_UpdatedAt now
                           (Saga.with_TransferID confirmed.(LedgerConfirmResult.TransferID)
                           (Saga.with_State StateLedgerConfirmed current))) in
    publishTxCompleted current (traceID event.(PaymentCompleted.TraceID) current.(Saga.TraceID))
      (nonZeroTime confirmed.(LedgerConfirmResult.CompletedAt) now) ;!
    Update (Saga.with_UpdatedAt now (Saga.with_State StateCompleted current)) ;!
    ret tt.

Definition cancel_request (current : Saga.t) (trace reason : string) : LedgerCancelRequest.t :=
  LedgerCancelRequest.mk current.(Saga.PaymentID) (stepKey current.(Saga.PaymentID) "cancel-ledger") trace
    current.(Saga.LedgerReservationID) reason.

Definition compensate_request (current : Saga.t) (trace reason : string) : WalletCompensateRequest.t :=
  WalletCompensateRequest.mk current.(Saga.PaymentID) (stepKey current.(Saga.PaymentID) "compensate-wallet")
    trace current.(Saga.FromWalletID) current.(Saga.WalletDebitID) current.(Saga.AmountCents)
    current.(Saga.Currency) reason.

Definition HandlePaymentFailed (event : PaymentFailed.t) : sdb W unit :=
  let! current := GetByPaymentID event.(PaymentFailed.PaymentID) in
  if current.(Saga.State) =s StateFailed then
    let! now := Now in
    recordFraudAudit (failed_audit event current FraudAuditKindDuplicate "duplicate" now)
  else if current.(Saga.State) =s StateCompleted then
    let! now := Now in
    recordFraudAudit (failed_audit event current FraudAuditKindInvariantViolation
                        "terminal_state_mismatch" now)
  else if current.(Saga.State) =s StateFraudReview then deferPaymentFailed current event
  else
    let! now := Now in
    let! current := Update (Saga.with_UpdatedAt now
                           (Saga.with_LastError event.(PaymentFailed.FailureMessage)
                           (Saga.with_FailureCode event.(PaymentFailed.FailureCode)
                           (Saga.with_State StateCompensatingLedger current)))) in
    call (remote_CancelReservation
            (cancel_request current (traceID event.(PaymentFailed.TraceID) current.(Saga.TraceID))
               event.(PaymentFailed.FailureMessage))) ;!
    let! current := Update (Saga.with_UpdatedAt now (Saga.with_State StateCompensatingWallet current)) in
    call (remote_CompensateDebit
            (compensate_request current (traceID event.(PaymentFailed.TraceID) current.(Saga.TraceID))
               event.(PaymentFailed.FailureMessage))) ;!
    let! current := Update (Saga.with_UpdatedAt now (Saga.with_State StateFailed current)) in
    publishTxFailed current (traceID event.(PaymentFailed.TraceID) current.(Saga.TraceID))
      (nonZeroTime event.(PaymentFailed.FailedAt) now).

Definition HandleFraudFlagged (flagged : FraudFlagged.t) : sdb W unit :=
  lift (FraudFlagged.Validate flagged) ;!
  let! r := attempt (GetByPaymentID flagged.(FraudFlagged.PaymentID)) in
  match r with
  | Err e =>
      if bool_decide (e = ErrSagaNotFound) then
        let! now := Now in
        recordFraudAudit (FraudAuditRecord.mk flagged.(FraudFlagged.EventID) flagged.(FraudFlagged.PaymentID)
          FraudAuditKindOrphan "" (fraudFlaggedAuditJSON flagged "" FraudAuditKindOrphan) now)
      else throw e
  | Ok current =>
      let! now := Now in
      let kind := fraudFlaggedAuditKind current.(Saga.State) in
      let audit := FraudAuditRecord.mk flagged.(FraudFlagged.EventID) current.(Saga.PaymentID) kind
                     current.(Saga.State) (fraudFlaggedAuditJSON flagged current.(Saga.State) kind) now in
      let current := Saga.with_FraudFlaggedAt (nonZeroTime flagged.(FraudFlagged.OccurredAt) now)
                    (Saga.with_FraudReason flagged.(FraudFlagged.Reason)
                    (Saga.with_FraudRiskScore flagged.(FraudFlagged.RiskScore)
                    (Saga.with_FraudAction flagged.(FraudFlagged.Action)
                    (Saga.with_FraudSessionID flagged.(FraudFlagged.SessionID) current)))) in
      if current.(Saga.State) =s StatePaymentProcessing then
        let current := Saga.with_UpdatedAt now (Saga.with_State StateFraudReview current) in
        let paused := TxPaused.mk 1 (TxPausedEventID current.(Saga.PaymentID)) current.(Saga.PaymentID)
                        current.(Saga.FraudSessionID) current.(Saga.FraudAction) current.(Saga.FraudRiskScore)
                        current.(Saga.FraudReason) now now
                        (traceID flagged.(FraudFlagged.TraceID) current.(Saga.TraceID)) in
        updateWithOutboxAndAudit current
          [OutboxRecord.mk TxPausedTopic current.(Saga.PaymentID) (TxPaused.to_json paused)] audit ;!
        ret tt
      else
        updateWithAudit (Saga.with_UpdatedAt now current) audit ;!
        ret tt
  end.

(** The second half of [resumeCompensation]: give the money back and fail. *)
Definition refund_and_fail (current : Saga.t) : sdb W unit :=
  call (remote_CompensateDebit
          (compensate_request current current.(Saga.TraceID) current.(Saga.LastError))) ;!
  let! now := Now in
  let! updated := Update (Saga.with_UpdatedAt now (Saga.with_State StateFailed current)) in
  let! failedAt := Now in
  publishTxFailed updated updated.(Saga.TraceID) failedAt.

Definition resumeCompensation (current : Saga.t) (cancelLedger : bool) : sdb W unit :=
  let! current :=
    if cancelLedger then
      call (remote_CancelReservation (cancel_request current current.(Saga.TraceID) current.(Saga.LastError))) ;!
      let! now := Now in
      Update (Saga.with_UpdatedAt now (Saga.with_State StateCompensatingWallet current))
    else ret current in
  refund_and_fail current.

Definition resumeOne (current : Saga.t) : sdb W unit :=
  if current.(Saga.State) =s StateLedgerConfirmed then
    let! completedAt := Now in
    publishTxCompleted current current.(Saga.TraceID) completedAt ;!
    let! now := Now in
    Update (Saga.with_UpdatedAt now (Saga.with_State StateCompleted current)) ;!
    ret tt
  else if current.(Saga.State) =s StateCompensatingLedger then resumeCompensation current true
  else if current.(Saga.State) =s StateCompensatingWallet then resumeCompensation current false
  else if current.(Saga.State) =s StatePaymentProcessing then ret tt
  else advance current ;! ret tt.

(** [for _, current := range sagas { if err := ...; err != nil { return err } }] *)
Fixpoint resume_all (l : list Saga.t) : sdb W unit :=
  match l with
  | [] => ret tt
  | current :: rest => resumeOne current ;! resume_all rest
  end.

Definition ResumeNonTerminal : sdb W unit :=
  let! l := ListNonTerminal in
  resume_all l.
End Handlers.
