(* ===== verification/FraudReview.v ===== *)
(** * FraudReview: the exits of FRAUD_REVIEW and the audit trail.

    [internal/saga/fraud_review.go], [fraud_review_queue.go], [review_reaper.go]
    and [retention.go]: the operator's decisions, the replay of a deferred
    payment result, the reaper that expires reviews, and the sweeper that ages
    out audit rows. *)

From S2P Require Import Prelude GoStrings Domain GoTime Json Database Outbox SagaTypes SagaStore Orchestrator.

#[local] Open Scope string_scope.
#[local] Open Scope Z_scope.

Module FraudReviewDecision.
Record t := mk { PaymentID : string; ActorID : string; Reason : string; TraceID : string }.
End FraudReviewDecision.

Definition ReviewReaperActorID : string := "system:fraud-review-reaper".

Definition reviewAuditEventID (action paymentID : string) (at_ : time) : string :=
  "review." ++ action ++ ":" ++ paymentID ++ ":" ++ FormatRFC3339Nano at_.

Definition reviewAuditJSON (action : string) (decision : FraudReviewDecision.t) (fromState toState : string)
    (deferred : document) : document :=
  Some (JObject (
    [("action", JString action); ("payment_id", JString decision.(FraudReviewDecision.PaymentID));
     ("actor_id", JString decision.(FraudReviewDecision.ActorID))]
    ++ optional "reason" (TrimSpace decision.(FraudReviewDecision.Reason))
    ++ [("from_state", JString fromState); ("to_state", JString toState)]
    ++ optional "trace_id" decision.(FraudReviewDecision.TraceID)
    ++ match deferred with None => [] | Some d => [("deferred_result", d)] end)%list).

(** [time.Time.Add] for the durations the services use, and [After]. *)
Definition time_Add (t d : time) : time := t + d.
Definition After (t u : time) : bool := u <? t.

Definition reviewStartedAt (current : Saga.t) : time :=
  if negb (IsZero current.(Saga.FraudFlaggedAt)) then current.(Saga.FraudFlaggedAt)
  else current.(Saga.UpdatedAt).

Section Review.
Context {W : Type} `{Remote W} `{Clock} `{Postgres} `{Uuid}.
Variable ctx : context.

(** A decoding error as the handler returns it. *)
Definition decoded {A} (r : res json_error A) : sdb W A :=
  lift (match r with Ok a => Ok a | Err e => Err (ErrJSON e) end).

Definition applyDeferredResult (payload : document) (fallbackTraceID : string) : sdb W unit :=
  let eventID := deferredEventID payload in
  if HasPrefix eventID (TopicPaymentCompleted ++ ":") then
    let! completed := decoded (PaymentCompleted.of_json payload) in
    HandlePaymentCompleted ctx
      (PaymentCompleted.with_TraceID (traceID completed.(PaymentCompleted.TraceID) fallbackTraceID) completed)
  else if HasPrefix eventID (TopicPaymentFailed ++ ":") then
    let! failed := decoded (PaymentFailed.of_json payload) in
    HandlePaymentFailed ctx
      (PaymentFailed.with_TraceID (traceID failed.(PaymentFailed.TraceID) fallbackTraceID) failed)
  else throw ErrUnknownDeferredResult.

Definition ResumeFraudReview (decision : FraudReviewDecision.t) : sdb W Saga.t :=
  let! current := GetByPaymentID decision.(FraudReviewDecision.PaymentID) in
  guard (negb (current.(Saga.State) =s StateFraudReview)) ErrNotUnderReview ;!
  let! now := Now in
  let deferred := current.(Saga.DeferredPaymentJSON) in
  let current := Saga.with_UpdatedAt now
                (Saga.with_DeferredPaymentJSON None
                (Saga.with_State StatePaymentProcessing current)) in
  let! updated := updateWithAudit current
    (FraudAuditRecord.mk (reviewAuditEventID "resume" current.(Saga.PaymentID) now) current.(Saga.PaymentID)
       FraudAuditKindReviewResumed StateFraudReview
       (reviewAuditJSON "resume" decision StateFraudReview StatePaymentProcessing deferred) now) in
  match deferred with
  | None => ret updated
  | Some _ =>
      applyDeferredResult deferred decision.(FraudReviewDecision.TraceID) ;!
      GetByPaymentID decision.(FraudReviewDecision.PaymentID)
  end.

Definition RejectFraudReview (decision : FraudReviewDecision.t) : sdb W Saga.t :=
  let! current := GetByPaymentID decision.(FraudReviewDecision.PaymentID) in
  guard (negb (current.(Saga.State) =s StateFraudReview)) ErrNotUnderReview ;!
  let! now := Now in
  let reason := TrimSpace decision.(FraudReviewDecision.Reason) in
  let reason := if reason =s "" then defaultRejectReason else reason in
  let current := Saga.with_UpdatedAt now
                (Saga.with_LastError reason
                (Saga.with_FailureCode FailureCodeFraudRejected
                (Saga.with_State StateCompensatingLedger current))) in
  let! updated := updateWithAudit current
    (FraudAuditRecord.mk (reviewAuditEventID "reject" current.(Saga.PaymentID) now) current.(Saga.PaymentID)
       FraudAuditKindReviewRejected StateFraudReview
       (reviewAuditJSON "reject" decision StateFraudReview StateCompensatingLedger
          current.(Saga.DeferredPaymentJSON)) now) in
  resumeCompensation ctx updated true ;!
  GetByPaymentID decision.(FraudReviewDecision.PaymentID).

(** [fraud_review_queue.go] *)
Definition ListFraudReviews : sdb W (list Saga.t) := ListFraudReview.

Definition GetFraudReview (paymentID : string) : sdb W (Saga.t * list FraudAuditRecord.t) :=
  let! current := GetByPaymentID paymentID in
  let! audit := ListFraudAudit paymentID in
  ret (current, audit).

(** [review_reaper.go]: the rejections of one pass and the failures it joins. *)
Definition reaper_decision (ttl : Z) (current : Saga.t) : FraudReviewDecision.t :=
  FraudReviewDecision.mk current.(Saga.PaymentID) ReviewReaperActorID
    ("fraud review deadline of " ++ Duration_String ttl ++ " exceeded") current.(Saga.TraceID).

Fixpoint expire_all (ttl deadline : Z) (l : list Saga.t) : sdb W (Z * list saga_error) :=
  match l with
  | [] => ret (0, [])
  | current :: rest =>
      if negb (current.(Saga.State) =s StateFraudReview) || After (reviewStartedAt current) deadline
      then expire_all ttl deadline rest
      else
        let! r := attempt (RejectFraudReview (reaper_decision ttl current)) in
        let! counted := expire_all ttl deadline rest in
        let '(expired, failures) := counted in
        match r with
        | Err e => if bool_decide (e = ErrNotUnderReview) then ret (expired, failures)
                   else ret (expired, e :: failures)
        | Ok _ => ret (1 + expired, failures)
        end
  end.

(** The count and the failures that [errors.Join] puts together. *)
Definition ExpireFraudReviews (ttl : Z) : sdb W (Z * list saga_error) :=
  guard (ttl <=? 0) ErrReviewTTL ;!
  let! l := ListNonTerminal in
  let! now := Now in
  expire_all ttl (time_Add now (- ttl)) l.

(** [retention.go]: one sweep with its batches.  The loop ends when a batch comes
    back short; [fuel] bounds the number of batches. *)
Fixpoint sweep_batches (fuel : nat) (cutoff : time) (batch : Z) (deleted : Z) : sdb W (option Z) :=
  match fuel with
  | O => ret None
  | S fuel =>
      let! count := DeleteFraudAuditBefore cutoff batch in
      let deleted := wrap64 (deleted + count) in
      if count <? batch then ret (Some deleted) else sweep_batches fuel cutoff batch deleted
  end.

Definition Sweep (fuel : nat) (retention batch : Z) : sdb W (option Z) :=
  if retention <=? 0 then ret (Some 0)
  else
    let! now := Now in
    sweep_batches fuel (time_Add now (- retention)) batch 0.
End Review.

(** [NewFraudAuditSweeper]'s defaults. *)
Definition defaultFraudAuditSweepBatch : Z := 1000.
Definition sweeper_batch (configured : Z) : Z :=
  if configured <=? 0 then defaultFraudAuditSweepBatch else configured.
