(* ===== verification/SagaSafety.v ===== *)
(** * SagaSafety: what every run of the saga keeps.

    The moves a saga's state can make, and the invariant that ties the state to
    what the wallet and the ledger did: money is given back only after the
    reservation was canceled, and a payment completes only after it was
    confirmed.  The remote services enter through [RemoteContract], which says
    what each of their operations promises; every handler is shown to keep the
    invariant under every fault schedule. *)

From S2P Require Import Prelude GoStrings Domain GoTime Json Database Outbox.
From S2P Require Import SagaTypes SagaStore Orchestrator FraudReview.

#[local] Open Scope string_scope.
#[local] Open Scope Z_scope.

(** ** Moves *)

(** The states in which a payment result is applied. *)
Definition open_state (st : string) : Prop :=
  st <> StateCompleted /\ st <> StateFailed /\ st <> StateFraudReview.

(** The transitions that leave the outbox's payment commands alone, and all of them. *)
Inductive inner_move : string -> string -> Prop :=
| move_verified : inner_move StateStarted StateVerificationChecked
| move_unverified : inner_move StateStarted StateFailed
| move_debited : inner_move StateVerificationChecked StateWalletDebited
| move_reserved : inner_move StateWalletDebited StateLedgerReserved
| move_flagged : inner_move StatePaymentProcessing StateFraudReview
| move_resumed : inner_move StateFraudReview StatePaymentProcessing
| move_rejected : inner_move StateFraudReview StateCompensatingLedger
| move_confirmed st : open_state st -> inner_move st StateLedgerConfirmed
| move_completed : inner_move StateLedgerConfirmed StateCompleted
| move_failed st : open_state st -> inner_move st StateCompensatingLedger
| move_canceled : inner_move StateCompensatingLedger StateCompensatingWallet
| move_refunded : inner_move StateCompensatingWallet StateFailed.

Inductive move : string -> string -> Prop :=
| move_inner st st' : inner_move st st' -> move st st'
| move_processing : move StateLedgerReserved StatePaymentProcessing.

Lemma no_move_from_terminal st st' : terminal st = true -> ~ move st st'.
Proof.
  unfold terminal. intros Ht Hmv. destruct Hmv as [st1 st2 Hm |]; [| by vm_compute in Ht].
  destruct Hm as [| | | | | | | st (Hc & Hf & _) | | st (Hc & Hf & _) | |]; try (by vm_compute in Ht);
    apply orb_true_iff in Ht as [Ht | Ht]; apply String.eqb_eq in Ht; congruence.
Qed.

(** How many payment commands a saga in a state has sent: none before PAYMENT_PROCESSING,
    one while its result is awaited, at most one ever. *)
Definition early (st : string) : bool :=
  (st =s StateStarted) || (st =s StateVerificationChecked) || (st =s StateWalletDebited) || (st =s StateLedgerReserved).
Definition awaiting (st : string) : bool := (st =s StatePaymentProcessing) || (st =s StateFraudReview).

Definition commands_ok (o : option string) (n : nat) : Prop :=
  match o with
  | None => n = 0%nat
  | Some st => if early st then n = 0%nat else if awaiting st then n = 1%nat else (n <= 1)%nat
  end.

Lemma commands_at_most_one o n : commands_ok o n -> (n <= 1)%nat.
Proof. unfold commands_ok. repeat case_match; lia. Qed.

Lemma inner_move_commands st st' n : inner_move st st' -> commands_ok (Some st) n -> commands_ok (Some st') n.
Proof.
  intros Hm Hn. pose proof (commands_at_most_one _ _ Hn). by destruct Hm.
Qed.

Lemma moves_from_terminal st st' : terminal st = true -> rtc move st st' -> st' = st.
Proof. intros Ht Hm. inversion Hm as [| ? y ? Hmy]; subst; [done |]. by apply no_move_from_terminal in Hmy. Qed.

(** What identifies the payment order of a row; no handler changes it. *)
Definition same_order (r r' : SagaRow.t) : Prop :=
  r'.(SagaRow.id) = r.(SagaRow.id) /\
  r'.(SagaRow.payment_id) = r.(SagaRow.payment_id) /\
  r'.(SagaRow.idempotency_key) = r.(SagaRow.idempotency_key) /\
  r'.(SagaRow.user_id) = r.(SagaRow.user_id) /\
  r'.(SagaRow.from_wallet_id) = r.(SagaRow.from_wallet_id) /\
  r'.(SagaRow.to_wallet_id) = r.(SagaRow.to_wallet_id) /\
  r'.(SagaRow.amount_cents) = r.(SagaRow.amount_cents) /\
  r'.(SagaRow.currency) = r.(SagaRow.currency) /\
  r'.(SagaRow.created_at) = r.(SagaRow.created_at).

#[export] Instance same_order_preorder : PreOrder same_order.
Proof. unfold same_order. split; [by intros r | intros r1 r2 r3; intuition congruence]. Qed.

(** ** What the remote services promise *)

Class RemoteContract (W : Type) `{Remote W} := {
  remote_ok : W -> Prop;
  canceled : string -> W -> Prop;
  confirmed : string -> W -> Prop;
  compensated : string -> W -> Prop;

  contract_exclusive p r : remote_ok r -> canceled p r -> confirmed p r -> False;

  contract_debit q r a r' : remote_ok r -> remote_DebitForSaga q r = Ok (a, r') ->
    remote_ok r' /\ (forall p, canceled p r -> canceled p r') /\ (forall p, confirmed p r -> confirmed p r') /\
    (forall p, compensated p r' -> compensated p r);
  contract_reserve q r a r' : remote_ok r -> remote_ReserveTransfer q r = Ok (a, r') ->
    remote_ok r' /\ (forall p, canceled p r -> canceled p r') /\ (forall p, confirmed p r -> confirmed p r') /\
    (forall p, compensated p r' -> compensated p r);
  contract_confirm q r a r' : remote_ok r -> remote_ConfirmTransfer q r = Ok (a, r') ->
    remote_ok r' /\ (forall p, canceled p r -> canceled p r') /\ (forall p, confirmed p r -> confirmed p r') /\
    (forall p, compensated p r' -> compensated p r) /\ confirmed q.(LedgerConfirmRequest.PaymentID) r';
  contract_cancel q r a r' : remote_ok r -> remote_CancelReservation q r = Ok (a, r') ->
    remote_ok r' /\ (forall p, canceled p r -> canceled p r') /\ (forall p, confirmed p r -> confirmed p r') /\
    (forall p, compensated p r' -> compensated p r) /\ canceled q.(LedgerCancelRequest.PaymentID) r';
  (** what others do to the services between the saga's calls *)
  remote_env : W -> W -> Prop;
  contract_env r r' : remote_ok r -> remote_env r r' ->
    remote_ok r' /\ (forall p, canceled p r -> canceled p r') /\ (forall p, confirmed p r -> confirmed p r') /\
    (forall p, compensated p r' -> compensated p r);
  (** only the payment of the command becomes compensated; two texts may name one payment *)
  contract_compensate q r a r' : remote_ok r -> remote_CompensateDebit q r = Ok (a, r') ->
    remote_ok r' /\ (forall p, canceled p r -> canceled p r') /\ (forall p, confirmed p r -> confirmed p r') /\
    (forall p, compensated p r' -> compensated p r \/
       (canceled q.(WalletCompensateRequest.PaymentID) r -> canceled p r))
}.

(** The services confirm a payment only when they are asked to; two texts may name one
    payment. *)
Class ConfirmsAsked (W : Type) `{RemoteContract W} := {
  same_payment : string -> string -> Prop;
  asked_debit q r a r' p : remote_ok r -> remote_DebitForSaga q r = Ok (a, r') -> confirmed p r' -> confirmed p r;
  asked_reserve q r a r' p : remote_ok r -> remote_ReserveTransfer q r = Ok (a, r') -> confirmed p r' -> confirmed p r;
  asked_cancel q r a r' p : remote_ok r -> remote_CancelReservation q r = Ok (a, r') -> confirmed p r' -> confirmed p r;
  asked_compensate q r a r' p : remote_ok r -> remote_CompensateDebit q r = Ok (a, r') -> confirmed p r' -> confirmed p r;
  asked_env r r' p : remote_ok r -> remote_env r r' -> confirmed p r' -> confirmed p r;
  asked_confirm q r a r' p : remote_ok r -> remote_ConfirmTransfer q r = Ok (a, r') -> confirmed p r' ->
    confirmed p r \/ same_payment p q.(LedgerConfirmRequest.PaymentID)
}.

(** ** The invariant *)

Section Safety.
Context {W : Type} `{HR : Remote W} `{!RemoteContract W} `{Clock} `{Postgres} `{Uuid}.
Implicit Types (w : world W) (r : W).

Definition state_ok (p st : string) r : Prop :=
  (st = StateCompensatingWallet -> canceled p r) /\
  (st = StateLedgerConfirmed \/ st = StateCompleted -> confirmed p r).

(** The payment commands written for [p]. *)
Definition commands (p : string) w : nat :=
  length (filter (fun e => e.(OutboxEvent.Topic) = TopicPaymentExecute /\ e.(OutboxEvent.PartitionKey) = p) (events w)).

Definition state_of (p : string) w : option string := SagaRow.state <$> sagas w !! p.

(** The command asks for what the saga of the row orders. *)
Definition asks (c : PaymentExecute.t) (row : SagaRow.t) : Prop :=
  c.(PaymentExecute.PaymentID) = row.(SagaRow.payment_id) /\
  c.(PaymentExecute.FromWalletID) = row.(SagaRow.from_wallet_id) /\
  c.(PaymentExecute.ToWalletID) = row.(SagaRow.to_wallet_id) /\
  c.(PaymentExecute.AmountCents) = row.(SagaRow.amount_cents) /\
  c.(PaymentExecute.Currency) = row.(SagaRow.currency).

Definition is_command (e : OutboxEvent.t) : Prop := e.(OutboxEvent.Topic) = TopicPaymentExecute.

(** A payment command in the outbox is the command of a saga. *)
Definition ordered (e : OutboxEvent.t) w : Prop :=
  exists row c, sagas w !! e.(OutboxEvent.PartitionKey) = Some row /\
    e.(OutboxEvent.Payload) = PaymentExecute.to_json c /\ asks c row.

(** Each saga is stored under its payment. *)
Definition keyed w : Prop := forall p row, sagas w !! p = Some row -> row.(SagaRow.payment_id) = p.

Record safe w : Prop := {
  safe_key p row : sagas w !! p = Some row -> row.(SagaRow.payment_id) = p;
  safe_remote : remote_ok (remote w);
  safe_refund p : compensated p (remote w) -> canceled p (remote w);
  safe_state p row : sagas w !! p = Some row -> state_ok p row.(SagaRow.state) (remote w);
  safe_commands p : commands_ok (state_of p w) (commands p w);
  safe_orders e : e ∈ events w -> is_command e -> ordered e w
}.

(** Every saga is still there, about the same order, in a state it can move to. *)
Definition evolves w w' : Prop :=
  forall p row, sagas w !! p = Some row ->
    exists row', sagas w' !! p = Some row' /\
      rtc move row.(SagaRow.state) row'.(SagaRow.state) /\ same_order row row'.

(** Only the saga of [p] changed. *)
Definition apart (p : string) w w' : Prop := forall q, q <> p -> sagas w' !! q = sagas w !! q.

Definition good w0 (p : string) w : Prop := safe w /\ evolves w0 w /\ apart p w0 w.

#[export] Instance evolves_preorder : PreOrder evolves.
Proof.
  split.
  - intros w p row Hr. exists row. split; [done |]. split; [apply rtc_refl | reflexivity].
  - intros w1 w2 w3 H12 H23 p row Hr. destruct (H12 p row Hr) as (r2 & Hr2 & Hm2 & Hs2).
    destruct (H23 p r2 Hr2) as (r3 & Hr3 & Hm3 & Hs3). exists r3. split; [done |].
    split; [by etrans | by etrans].
Qed.

Lemma ordered_evolves w w' e : evolves w w' -> ordered e w -> ordered e w'.
Proof.
  intros Hev (row & c & Hrow & Hp & Ha). destruct (Hev _ _ Hrow) as (row' & Hrow' & _ & Ho). exists row', c.
  split; [done |]. split; [done |]. unfold asks, same_order in *. intuition congruence.
Qed.

Lemma good_start w p : safe w -> good w p w.
Proof. intros Hs. split; [done |]. split; [reflexivity | done]. Qed.

(** A saga as the store holds it. *)
Definition held (s : Saga.t) w : Prop :=
  exists row, sagas w !! s.(Saga.PaymentID) = Some row /\ s = scanSaga row.

(** ** How the operations keep it *)

(** Changes that leave the sagas, the payment commands and the remote services alone. *)
Definition same_core w w' : Prop :=
  sagas w' = sagas w /\ remote w' = remote w /\ (forall p, commands p w' = commands p w) /\
  forall e, e ∈ events w' -> is_command e -> e ∈ events w.

Lemma safe_same_core w w' : same_core w w' -> safe w -> safe w'.
Proof.
  intros (Hs & Hr & Hc & He) [Hkey Hrem Href Hst Hcom Hord].
  split; unfold state_of, ordered; intros *; rewrite ?Hs, ?Hr, ?Hc; [eauto.. |].
  intros Hin Hcmd. by apply Hord; [apply He |].
Qed.

Lemma good_same_core w0 p w w' : same_core w w' -> good w0 p w -> good w0 p w'.
Proof.
  intros Hc (Hsafe & Hev & Hap). pose proof Hc as [Hs _]. split; [| split].
  - by apply (safe_same_core w).
  - intros q row Hq. rewrite Hs. by apply Hev.
  - intros q Hq. rewrite Hs. by apply Hap.
Qed.

Lemma held_same_core s w w' : same_core w w' -> held s w -> held s w'.
Proof. intros [Hs _] (row & Hr & Heq). exists row. by rewrite Hs. Qed.

Lemma put_audit_core audit w : same_core w (put_audit audit w).
Proof.
  unfold put_audit, stmt_insert_audit. destruct (_ =s ""); [done |]. by destruct (existsb _ _).
Qed.
Lemma commands_put_event ctx topic key payload p w :
  commands p (put_event ctx topic key payload w) =
    (commands p w + if (topic =s TopicPaymentExecute) && (key =s p) then 1 else 0)%nat.
Proof.
  unfold commands, put_event. cbn [events with_events next_id]. rewrite list.filter_app, length_app. f_equal.
  destruct (String.eqb_spec topic TopicPaymentExecute) as [Ht | Ht], (String.eqb_spec key p) as [Hk | Hk]; simpl;
    [by rewrite filter_cons_True | rewrite filter_cons_False; [done | by intros [? ?]]..].
Qed.
Lemma put_event_core ctx topic key payload w :
  topic <> TopicPaymentExecute -> same_core w (put_event ctx topic key payload w).
Proof.
  intros Ht. split; [done |]. split; [done |]. split.
  - intros p. rewrite commands_put_event. apply String.eqb_neq in Ht as ->. simpl. lia.
  - intros e. unfold put_event. simpl. intros [He | ->%list_elem_of_singleton]%elem_of_app Hc; done.
Qed.
Lemma tick_core w : same_core w (tick w).
Proof. done. Qed.

(** A new state for the saga of [p]. *)
Lemma good_set_saga w0 p w s row :
  good w0 p w -> s.(Saga.PaymentID) = p -> sagas w !! p = Some row ->
  (row.(SagaRow.state) = s.(Saga.State) \/ move row.(SagaRow.state) s.(Saga.State)) ->
  commands_ok (Some s.(Saga.State)) (commands p w) ->
  state_ok p s.(Saga.State) (remote w) ->
  good w0 p (set_saga s row w).
Proof.
  intros (Hsafe & Hev & Hap) Hp Hrow Hmove Hcmd Hok. unfold set_saga. rewrite Hp.
  assert (evolves w (with_sagas (<[p:=updated_row s row w]> (sagas w)) w)) as Hstep.
  { intros q row0 Hq. simpl. rewrite lookup_insert. case_decide as Heq.
    - subst q. simplify_eq. eexists. split; [done |]. split; [| done].
      destruct Hmove as [-> | Hm]; [apply rtc_refl | by apply rtc_once].
    - exists row0. split; [done |]. split; [apply rtc_refl | reflexivity]. }
  split; [| split].
  - destruct Hsafe as [Hkey Hrem Href Hst Hcom Hord]. split; simpl; [| done | done | | |].
    + intros q row'. rewrite lookup_insert. case_decide; [| by apply Hkey].
      intros [= <-]. subst q. simpl. by apply Hkey.
    + intros q row'. rewrite lookup_insert. case_decide; [| by apply Hst]. intros [= <-]. by subst q.
    + intros q. unfold state_of. simpl. rewrite lookup_insert. case_decide; [by subst q | apply Hcom].
    + intros e He Hc. by apply (ordered_evolves w), Hord.
  - by etrans.
  - intros q Hq. simpl. rewrite lookup_insert_ne by done. by apply Hap.
Qed.

Lemma held_set_saga w s row :
  safe w -> sagas w !! s.(Saga.PaymentID) = Some row ->
  held (scanSaga (updated_row s row w)) (set_saga s row w) /\
  (scanSaga (updated_row s row w)).(Saga.State) = s.(Saga.State) /\
  (scanSaga (updated_row s row w)).(Saga.PaymentID) = s.(Saga.PaymentID).
Proof.
  intros Hs Hr. pose proof (safe_key _ Hs _ _ Hr) as Hk. split; [| done].
  eexists. split; [| reflexivity]. simpl. rewrite Hk. apply lookup_insert_eq.
Qed.

(** A remote call that keeps what the invariant says of the remote services. *)
Lemma good_with_remote w0 p w r' :
  good w0 p w -> remote_ok r' ->
  (forall q, canceled q (remote w) -> canceled q r') -> (forall q, confirmed q (remote w) -> confirmed q r') ->
  (forall q, compensated q r' -> compensated q (remote w) \/ canceled q (remote w)) ->
  good w0 p (with_remote r' w).
Proof.
  intros ([Hkey Hrem Href Hst Hcom Hord] & Hev & Hap) Hok Hcan Hcon Hcomp. split; [| done]. split; simpl; try done.
  - intros q Hq. apply Hcan. destruct (Hcomp q Hq); auto.
  - intros q row Hq. destruct (Hst q row Hq) as [Hc Hd]. split; auto.
Qed.

(** ** Triples for the steps of a handler

    [at_saga w0 p F s w]: [s] is the stored saga of [p], and [F] holds of the
    remote services. *)

Definition at_saga w0 (p : string) (F : W -> Prop) (s : Saga.t) w : Prop :=
  good w0 p w /\ held s w /\ s.(Saga.PaymentID) = p /\ F (remote w).

Definition nothing : W -> Prop := fun _ => True.

Lemma triple_get w0 p :
  triple (good w0 p) (GetByPaymentID p) (fun s w => at_saga w0 p nothing s w) (good w0 p).
Proof.
  eapply triple_refines; [apply get_refines |]. intros w Hg. split; [done |]. split; [done |].
  intros s w' Hs. unfold get_spec in Hs. destruct (sagas w !! p) as [row|] eqn:Hr; [| done].
  injection Hs as <- <-. split; [| done]. split; [done |].
  pose proof (safe_key _ (proj1 Hg) _ _ Hr) as Hk. split; [| done]. exists row. by rewrite <- Hk in Hr.
Qed.

Lemma triple_now (P : world W -> Prop) :
  (forall w, P w -> P (tick w)) -> triple P (Now (W := W)) (fun _ w => P w) P.
Proof. intros HP w s Hw. split; [done |]. by apply HP. Qed.

Lemma at_saga_tick w0 p F s w : at_saga w0 p F s w -> at_saga w0 p F s (tick w).
Proof.
  intros (Hg & Hh & Hp & HF). split; [by apply (good_same_core _ _ w) |].
  split; [by apply (held_same_core _ w) | done].
Qed.

Lemma triple_now_at w0 p F s :
  triple (at_saga w0 p F s) (Now (W := W)) (fun _ w => at_saga w0 p F s w) (good w0 p).
Proof.
  eapply triple_conseq; [apply (triple_now (at_saga w0 p F s)) | done | done | by intros w (? & _)].
  intros w. apply at_saga_tick.
Qed.

(** The update from [s] to the state of [s']. *)
Lemma at_saga_update w0 p F s s' w row :
  at_saga w0 p F s w -> sagas w !! p = Some row -> s'.(Saga.PaymentID) = p ->
  (s.(Saga.State) = s'.(Saga.State) \/ inner_move s.(Saga.State) s'.(Saga.State)) ->
  (F (remote w) -> state_ok p s'.(Saga.State) (remote w)) ->
  at_saga w0 p F (scanSaga (updated_row s' row w)) (set_saga s' row w) /\
  (scanSaga (updated_row s' row w)).(Saga.State) = s'.(Saga.State).
Proof.
  intros (Hg & (row' & Hr' & Heq) & Hp & HF) Hr Hp' Hmove Hok.
  rewrite Hp in Hr'. assert (row' = row) as -> by congruence.
  assert (row.(SagaRow.state) = s.(Saga.State)) as Hrs by (by rewrite Heq).
  destruct (held_set_saga w s' row (proj1 Hg)) as (Hh & Hst & Hpid); [by rewrite Hp' |].
  split; [| done]. split; [| split; [done |]].
  - pose proof (safe_commands _ (proj1 Hg) p) as Hcmd. unfold state_of in Hcmd. rewrite Hr in Hcmd.
    simpl in Hcmd. rewrite Hrs in Hcmd.
    eapply good_set_saga; [done | done | done | rewrite Hrs | | auto].
    + destruct Hmove as [? | ?]; [by left | right; by constructor].
    + destruct Hmove as [<- | Hm]; [done | by eapply inner_move_commands].
  - split; [by rewrite Hpid | done].
Qed.

Lemma triple_update w0 p F s s' :
  s'.(Saga.PaymentID) = s.(Saga.PaymentID) ->
  (s.(Saga.State) = s'.(Saga.State) \/ inner_move s.(Saga.State) s'.(Saga.State)) ->
  (forall r, F r -> state_ok p s'.(Saga.State) r) ->
  triple (at_saga w0 p F s) (Update s')
    (fun u w => at_saga w0 p F u w /\ u.(Saga.State) = s'.(Saga.State)) (good w0 p).
Proof.
  intros Hp Hmove Hok. eapply triple_refines; [apply update_refines |]. intros w Hat.
  split; [done |]. split; [by apply Hat |]. intros u w' Hs. unfold update_spec in Hs.
  assert (s'.(Saga.PaymentID) = p) as Hp' by (rewrite Hp; by apply Hat). rewrite Hp' in Hs.
  destruct (sagas w !! p) as [row|] eqn:Hr; [| done]. injection Hs as <- <-.
  pose proof (at_saga_update w0 p F s s' w row Hat Hr Hp' Hmove (Hok _)) as Hu.
  split; [done | by apply Hu].
Qed.

Lemma triple_update_audit w0 p F s s' audit :
  s'.(Saga.PaymentID) = s.(Saga.PaymentID) ->
  (s.(Saga.State) = s'.(Saga.State) \/ inner_move s.(Saga.State) s'.(Saga.State)) ->
  (forall r, F r -> state_ok p s'.(Saga.State) r) ->
  triple (at_saga w0 p F s) (UpdateWithAudit s' audit)
    (fun u w => at_saga w0 p F u w /\ u.(Saga.State) = s'.(Saga.State)) (good w0 p).
Proof.
  intros Hp Hmove Hok. eapply triple_refines; [apply update_audit_refines |]. intros w Hat.
  split; [done |]. split; [by apply Hat |]. intros u w' Hs. unfold update_audit_spec, update_spec in Hs.
  assert (s'.(Saga.PaymentID) = p) as Hp' by (rewrite Hp; by apply Hat). rewrite Hp' in Hs.
  destruct (sagas w !! p) as [row|] eqn:Hr; [| done]. injection Hs as <- <-.
  pose proof (at_saga_update w0 p F s s' w row Hat Hr Hp' Hmove (Hok _)) as ((Hg & Hh & Hpu & HF) & Hst).
  pose proof (put_audit_core audit (set_saga s' row w)) as Hc.
  split; [split; [| done] |]; [split; [| split] |].
  - by apply (good_same_core _ _ (set_saga s' row w)).
  - by apply (held_same_core _ (set_saga s' row w)).
  - split; [done |]. destruct Hc as (_ & -> & _). done.
  - by apply (good_same_core _ _ (set_saga s' row w)).
Qed.

Lemma at_saga_core w0 p F s w w' : same_core w w' -> at_saga w0 p F s w -> at_saga w0 p F s w'.
Proof.
  intros Hc (Hg & Hh & Hp & HF). split; [by apply (good_same_core _ _ w) |].
  split; [by apply (held_same_core _ w) |]. split; [done |]. by destruct Hc as (_ & -> & _).
Qed.

Lemma put_events_core ctx records w :
  Forall (fun x : OutboxRecord.t => x.(OutboxRecord.Topic) <> TopicPaymentExecute) records ->
  same_core w (put_events ctx records w).
Proof.
  intros Hr. revert w. induction Hr as [| r rest Ht _ IH]; intros w; [done |]. simpl.
  destruct (IH (put_event ctx (OutboxRecord.Topic r) (OutboxRecord.PartitionKey r) (OutboxRecord.Payload r) w))
    as (Hs & Hrem & Hc & He).
  destruct (put_event_core ctx (OutboxRecord.Topic r) (OutboxRecord.PartitionKey r) (OutboxRecord.Payload r) w Ht)
    as (Hs' & Hrem' & Hc' & He').
  split; [by rewrite Hs | split; [by rewrite Hrem | split; [intros q; by rewrite Hc | auto]]].
Qed.

Lemma triple_update_outbox w0 p F s s' ctx records audit :
  Forall (fun x : OutboxRecord.t => x.(OutboxRecord.Topic) <> TopicPaymentExecute) records ->
  s'.(Saga.PaymentID) = s.(Saga.PaymentID) ->
  (s.(Saga.State) = s'.(Saga.State) \/ inner_move s.(Saga.State) s'.(Saga.State)) ->
  (forall r, F r -> state_ok p s'.(Saga.State) r) ->
  triple (at_saga w0 p F s) (UpdateWithOutboxAndAudit ctx s' records audit)
    (fun u w => at_saga w0 p F u w /\ u.(Saga.State) = s'.(Saga.State)) (good w0 p).
Proof.
  intros Hrec Hp Hmove Hok. eapply triple_refines; [apply update_outbox_refines |]. intros w0' Hat.
  split; [done |]. split; [by apply Hat |]. intros u w' Hs. unfold update_outbox_spec, update_spec in Hs.
  set (w := put_audit audit (put_events ctx records w0')) in *.
  assert (at_saga w0 p F s w) as Hat'.
  { apply (at_saga_core _ _ _ _ (put_events ctx records w0')); [apply put_audit_core |].
    by apply (at_saga_core _ _ _ _ w0'); [apply put_events_core |]. }
  assert (s'.(Saga.PaymentID) = p) as Hp' by (rewrite Hp; by apply Hat). rewrite Hp' in Hs.
  destruct (sagas w !! p) as [row|] eqn:Hr; [| done]. injection Hs as <- <-.
  pose proof (at_saga_update w0 p F s s' w row Hat' Hr Hp' Hmove (Hok _)) as Hu.
  split; [done | by apply Hu].
Qed.

Lemma triple_audit w0 p audit : triple (good w0 p) (RecordFraudAudit audit) (fun _ => good w0 p) (good w0 p).
Proof.
  eapply triple_refines; [apply audit_refines |]. intros w Hg. split; [done |]. split; [done |].
  intros [] w' [= <-]. split; (eapply good_same_core; [apply put_audit_core | done]).
Qed.

Lemma triple_event w0 p F s ctx topic key payload :
  topic <> TopicPaymentExecute ->
  triple (at_saga w0 p F s) (EnqueueEvent ctx topic key payload) (fun _ => at_saga w0 p F s) (good w0 p).
Proof.
  intros Ht. eapply triple_refines; [apply event_refines |]. intros w Hat. split; [done |]. split; [by apply Hat |].
  intros [] w' [= <-]. assert (at_saga w0 p F s (put_event ctx topic key payload w)) as Hat'
    by (by apply (at_saga_core _ _ _ _ w); [apply put_event_core |]). split; [done | by apply Hat'].
Qed.

(** A remote call [f] that grants [G] of the remote services it leaves. *)
Lemma triple_call {A} w0 p F (G : W -> Prop) s (f : W -> res saga_error (A * W)) :
  (forall r a r', remote_ok r -> F r -> (forall st, s.(Saga.State) = st -> state_ok p st r) ->
     f r = Ok (a, r') ->
     remote_ok r' /\ (forall q, canceled q r -> canceled q r') /\ (forall q, confirmed q r -> confirmed q r') /\
     (forall q, compensated q r' -> compensated q r \/ canceled q r) /\ G r') ->
  triple (at_saga w0 p F s) (call f) (fun _ => at_saga w0 p G s) (good w0 p).
Proof.
  intros Hf. eapply triple_refines; [apply refines_exec |]. intros w Hat.
  split; [done |]. split; [by apply Hat |]. intros a w' Hs.
  destruct (f (remote w)) as [[a' r'] | e] eqn:Hcall; [| done]. injection Hs as <- <-.
  destruct Hat as (Hg & (row & Hr & Heq) & Hp & HF).
  destruct (Hf (remote w) a' r') as (Hok & Hcan & Hcon & Hcomp & HG); [by apply Hg | done | | done |].
  { intros st <-. rewrite Heq. simpl. rewrite Hp in Hr. by apply Hg. }
  assert (good w0 p (with_remote r' w)) as Hg' by (by apply good_with_remote).
  split; [| done]. split; [done |]. split; [| done]. by exists row.
Qed.

(** ** The handlers keep it *)

Lemma at_saga_good w0 p F s w : at_saga w0 p F s w -> good w0 p w.
Proof. by intros (? & _). Qed.

Lemma at_saga_weaken w0 p (F G : W -> Prop) s w :
  (forall r, F r -> G r) -> at_saga w0 p F s w -> at_saga w0 p G s w.
Proof. intros HFG (Hg & Hh & Hp & HF). split; [done |]. split; [done |]. auto. Qed.

(** The stored saga's state is backed by the remote services. *)
Lemma at_saga_state w0 p F s w : at_saga w0 p F s w -> at_saga w0 p (state_ok p s.(Saga.State)) s w.
Proof.
  intros (Hg & Hh & Hp & _). split; [done |]. split; [done |]. split; [done |].
  destruct Hh as (row & Hrow & Heq). rewrite Heq at 1. simpl. rewrite Hp in Hrow. by apply Hg.
Qed.

Lemma nothing_ok p st :
  st <> StateCompensatingWallet -> st <> StateLedgerConfirmed -> st <> StateCompleted ->
  forall r, nothing r -> state_ok p st r.
Proof. intros Hw Hc Hd r _. split; [done | by intros [? | ?]]. Qed.

Section Handlers.
Variable ctx : context.

(** Keeping [good] for the payment [p], from a stored saga and from the start. *)
Abbreviation keeps_at w0 p F s prog := (triple (at_saga w0 p F s) prog (fun _ w => good w0 p w) (good w0 p)).
Abbreviation keeps w0 p prog := (triple (good w0 p) prog (fun _ w => good w0 p w) (good w0 p)).

Lemma keeps_audit_at w0 p F s (audit : time -> FraudAuditRecord.t) :
  keeps_at w0 p F s (let! now := Now in recordFraudAudit (audit now)).
Proof.
  eapply triple_bind; [apply triple_now_at |]. intros now.
  eapply triple_conseq; [apply triple_audit | apply at_saga_good | done | done].
Qed.

Lemma keeps_at_pid w0 p F s (prog : sdb W unit) :
  (s.(Saga.PaymentID) = p -> keeps_at w0 p F s prog) -> keeps_at w0 p F s prog.
Proof. intros Hp. apply (triple_pure (s.(Saga.PaymentID) = p)); [by intros w (_ & _ & ? & _) | done]. Qed.

Lemma confirm_call w0 p s trace key :
  s.(Saga.PaymentID) = p ->
  triple (at_saga w0 p nothing s)
    (call (remote_ConfirmTransfer (LedgerConfirmRequest.mk s.(Saga.PaymentID) key trace
       s.(Saga.LedgerReservationID) s.(Saga.WalletDebitID))))
    (fun _ => at_saga w0 p (confirmed p) s) (good w0 p).
Proof.
  intros Hp. apply triple_call. intros r a r' Hok _ _ Hs.
  apply contract_confirm in Hs as (? & ? & ? & ? & ?); [| done]. simpl in *. rewrite Hp in *. auto 10.
Qed.

Lemma cancel_call w0 p s trace reason :
  s.(Saga.PaymentID) = p ->
  triple (at_saga w0 p nothing s) (call (remote_CancelReservation (cancel_request s trace reason)))
    (fun _ => at_saga w0 p (canceled p) s) (good w0 p).
Proof.
  intros Hp. apply triple_call. intros r a r' Hok _ _ Hs.
  apply contract_cancel in Hs as (? & ? & ? & ? & ?); [| done]. simpl in *. rewrite Hp in *. auto 10.
Qed.

(** The refund, which the state COMPENSATING_WALLET allows. *)
Lemma compensate_call w0 p F s trace reason :
  s.(Saga.PaymentID) = p -> s.(Saga.State) = StateCompensatingWallet ->
  triple (at_saga w0 p F s) (call (remote_CompensateDebit (compensate_request s trace reason)))
    (fun _ => at_saga w0 p nothing s) (good w0 p).
Proof.
  intros Hp Hst. apply triple_call. intros r a r' Hok _ Hstate Hs.
  apply contract_compensate in Hs as (? & ? & ? & Hcomp); [| done]. simpl in *. rewrite Hp in *.
  destruct (Hstate _ Hst) as [Hcan _]. do 3 (split; [done |]). split; [| done].
  intros q Hq. destruct (Hcomp q Hq); auto.
Qed.

Lemma keeps_publish_completed w0 p F s trace at_ :
  triple (at_saga w0 p F s) (publishTxCompleted ctx s trace at_) (fun _ => at_saga w0 p F s) (good w0 p).
Proof. eapply triple_bind; [apply triple_now_at |]. intros now. by apply triple_event. Qed.

Lemma keeps_publish_failed w0 p F s trace at_ :
  triple (at_saga w0 p F s) (publishTxFailed ctx s trace at_) (fun _ => at_saga w0 p F s) (good w0 p).
Proof. eapply triple_bind; [apply triple_now_at |]. intros now. by apply triple_event. Qed.

Lemma keeps_defer w0 p s s' audit :
  s'.(Saga.PaymentID) = s.(Saga.PaymentID) -> s'.(Saga.State) = s.(Saga.State) ->
  s.(Saga.State) = StateFraudReview ->
  keeps_at w0 p nothing s (updateWithAudit s' audit ;! ret tt).
Proof.
  intros Hp Hs Hst. eapply triple_bind.
  - apply (triple_update_audit w0 p nothing s); [done | by left |]. rewrite Hs, Hst. by apply nothing_ok.
  - intros u. apply triple_ret. by intros w [Hat _]; apply Hat.
Qed.

Lemma keeps_defer_completed w0 p s e :
  s.(Saga.State) = StateFraudReview -> keeps_at w0 p nothing s (deferPaymentCompleted s e).
Proof.
  intros Hst. unfold deferPaymentCompleted. destruct (Saga.DeferredPaymentJSON s).
  - eapply triple_bind; [apply triple_now_at |]. intros now.
    eapply triple_conseq; [case_match; apply triple_audit | apply at_saga_good | done | done].
  - eapply triple_bind; [apply triple_now_at |]. intros now. by apply keeps_defer.
Qed.

Lemma keeps_defer_failed w0 p s e :
  s.(Saga.State) = StateFraudReview -> keeps_at w0 p nothing s (deferPaymentFailed s e).
Proof.
  intros Hst. unfold deferPaymentFailed. destruct (Saga.DeferredPaymentJSON s).
  - eapply triple_bind; [apply triple_now_at |]. intros now.
    eapply triple_conseq; [case_match; apply triple_audit | apply at_saga_good | done | done].
  - eapply triple_bind; [apply triple_now_at |]. intros now. by apply keeps_defer.
Qed.

Lemma completed_keeps w0 e : keeps w0 e.(PaymentCompleted.PaymentID) (HandlePaymentCompleted ctx e).
Proof.
  unfold HandlePaymentCompleted. set (p := PaymentCompleted.PaymentID e).
  eapply triple_bind; [apply triple_get |]. intros s. apply keeps_at_pid. intros Hp.
  destruct (String.eqb_spec (Saga.State s) StateCompleted) as [Hc | Hc];
    [apply (keeps_audit_at w0 p nothing s (completed_audit e s _ _)) |].
  destruct (String.eqb_spec (Saga.State s) StateFailed) as [Hf | Hf];
    [apply (keeps_audit_at w0 p nothing s (completed_audit e s _ _)) |].
  destruct (String.eqb_spec (Saga.State s) StateFraudReview) as [Hr | Hr]; [by apply keeps_defer_completed |].
  eapply triple_bind; [by apply confirm_call |]. intros c.
  eapply triple_bind; [apply triple_now_at |]. intros now.
  eapply triple_bind.
  { apply (triple_update w0 p (confirmed p) s); [done | right; by apply move_confirmed |]. simpl.
    intros r Hcon. by split. }
  intros u. apply (triple_pure (u.(Saga.State) = StateLedgerConfirmed)); [by intros w [_ ?] |]. intros Hu.
  eapply triple_bind.
  { eapply triple_conseq; [apply keeps_publish_completed | by intros w [? _] | done | done]. }
  intros []. eapply triple_bind.
  { apply (triple_update w0 p (confirmed p) u); [done | simpl; rewrite Hu; right; by constructor |].
    intros r Hcon. by split. }
  intros u'. apply triple_ret. by intros w [Hat _]; apply Hat.
Qed.

(** The update to [s'], with the state it leaves as a fact of the answer. *)
Lemma update_to {A} w0 p F s s' st (k : Saga.t -> sdb W A) (Q : A -> world W -> Prop) :
  s'.(Saga.PaymentID) = s.(Saga.PaymentID) -> s'.(Saga.State) = st ->
  (s.(Saga.State) = st \/ inner_move s.(Saga.State) st) -> (forall r, F r -> state_ok p st r) ->
  (forall u, u.(Saga.PaymentID) = p -> u.(Saga.State) = st ->
     triple (at_saga w0 p F u) (k u) Q (good w0 p)) ->
  triple (at_saga w0 p F s) (let! u := Update s' in k u) Q (good w0 p).
Proof.
  intros Hp Hst Hm Hok Hk. eapply triple_bind.
  - apply (triple_update w0 p F s); [done | by rewrite Hst | by rewrite Hst].
  - intros u. apply (triple_pure (u.(Saga.PaymentID) = p /\ u.(Saga.State) = st)).
    + intros w [(_ & _ & ? & _) ?]. by rewrite <- Hst.
    + intros [Hu1 Hu2]. eapply triple_conseq; [by apply Hk | by intros w [? _] | done | done].
Qed.

(** From COMPENSATING_LEDGER, or from COMPENSATING_WALLET, to FAILED. *)
Lemma refund_from w0 p F s s' trace reason (k : Saga.t -> sdb W unit) :
  s.(Saga.PaymentID) = p -> s.(Saga.State) = StateCompensatingWallet ->
  (forall now, (s' now).(Saga.PaymentID) = p /\ (s' now).(Saga.State) = StateFailed) ->
  (forall u, keeps_at w0 p nothing u (k u)) ->
  keeps_at w0 p F s (call (remote_CompensateDebit (compensate_request s trace reason)) ;!
                     let! now := Now in let! u := Update (s' now) in k u).
Proof.
  intros Hp Hst Hs' Hk. eapply triple_bind; [by apply compensate_call |]. intros [].
  eapply triple_bind; [apply triple_now_at |]. intros now. destruct (Hs' now) as [Hp' Hst'].
  eapply update_to; [congruence | done | rewrite Hst; right; by constructor | by apply nothing_ok |].
  intros u _ _. apply Hk.
Qed.

Lemma failed_keeps w0 e : keeps w0 e.(PaymentFailed.PaymentID) (HandlePaymentFailed ctx e).
Proof.
  unfold HandlePaymentFailed. set (p := PaymentFailed.PaymentID e).
  eapply triple_bind; [apply triple_get |]. intros s. apply keeps_at_pid. intros Hp.
  destruct (String.eqb_spec (Saga.State s) StateFailed) as [Hf | Hf];
    [apply (keeps_audit_at w0 p nothing s (failed_audit e s _ _)) |].
  destruct (String.eqb_spec (Saga.State s) StateCompleted) as [Hc | Hc];
    [apply (keeps_audit_at w0 p nothing s (failed_audit e s _ _)) |].
  destruct (String.eqb_spec (Saga.State s) StateFraudReview) as [Hr | Hr]; [by apply keeps_defer_failed |].
  eapply triple_bind; [apply triple_now_at |]. intros now.
  eapply update_to; [done | done | right; by apply move_failed | by apply nothing_ok |]. intros u1 Hp1 Hs1.
  eapply triple_bind; [by apply cancel_call |]. intros [].
  eapply update_to; [done | done | rewrite Hs1; right; by constructor | |].
  { intros r Hcan. by split; [| intros [? | ?]]. }
  intros u2 Hp2 Hs2. eapply triple_bind; [by apply compensate_call |]. intros [].
  eapply update_to; [done | done | rewrite Hs2; right; by constructor | by apply nothing_ok |]. intros u3 Hp3 Hs3.
  eapply triple_conseq; [apply keeps_publish_failed | done | intros [] w; apply at_saga_good | done].
Qed.

Lemma flagged_keeps w0 e : keeps w0 e.(FraudFlagged.PaymentID) (HandleFraudFlagged ctx e).
Proof.
  unfold HandleFraudFlagged. set (p := FraudFlagged.PaymentID e).
  eapply triple_bind; [apply (triple_lift _ _ (fun _ => good w0 p)); auto |]. intros [].
  eapply triple_bind; [eapply (triple_attempt _ _ _ _ (good w0 p)), triple_get |]. intros [s | er].
  2: { case_match; [| by apply triple_throw].
       eapply triple_bind; [apply triple_now; intros w; by apply good_same_core |]. intros now. apply triple_audit. }
  apply keeps_at_pid. intros Hp. eapply triple_bind; [apply triple_now_at |]. intros now. cbv zeta.
  cbn [Saga.State Saga.with_FraudFlaggedAt Saga.with_FraudReason Saga.with_FraudRiskScore Saga.with_FraudAction
       Saga.with_FraudSessionID].
  destruct (String.eqb_spec (Saga.State s) StatePaymentProcessing) as [Hpp | Hpp].
  - eapply triple_bind.
    + apply (triple_update_outbox w0 p nothing s);
        [by repeat constructor | done | rewrite Hpp; right; by constructor | by apply nothing_ok].
    + intros u. apply triple_ret. by intros w [Hat _]; apply Hat.
  - apply (triple_conseq _ (at_saga w0 p (state_ok p s.(Saga.State)) s) _ (fun _ => good w0 p) _ (good w0 p));
      [| apply at_saga_state | done | done].
    eapply triple_bind.
    + apply (triple_update_audit w0 p (state_ok p s.(Saga.State)) s); [done | by left | done].
    + intros u. apply triple_ret. by intros w [Hat _]; apply Hat.
Qed.

(** ** Starting and advancing *)

Abbreviation advances_at w0 p s prog :=
  (triple (at_saga w0 p nothing s) prog (fun u w => at_saga w0 p nothing u w) (good w0 p)).

Lemma unverified_keeps w0 p s :
  s.(Saga.PaymentID) = p -> s.(Saga.State) = StateStarted ->
  advances_at w0 p s (failUnverified s).
Proof.
  intros Hp Hst. unfold failUnverified. eapply triple_bind; [apply triple_now_at |]. intros now.
  eapply update_to; [done | done | rewrite Hst; right; by constructor | by apply nothing_ok |].
  intros u _ _. apply triple_throw. intros w. apply at_saga_good.
Qed.

Lemma update_advances w0 p s s' st :
  s'.(Saga.PaymentID) = s.(Saga.PaymentID) -> s'.(Saga.State) = st -> inner_move s.(Saga.State) st ->
  (forall r, nothing r -> state_ok p st r) -> advances_at w0 p s (Update s').
Proof.
  intros Hp Hst Hm Hok. eapply triple_conseq.
  - apply (triple_update w0 p nothing s); [done | right; by rewrite Hst | by rewrite Hst].
  - done.
  - by intros u w [? _].
  - done.
Qed.

Lemma check_verification_keeps w0 p s :
  s.(Saga.PaymentID) = p -> s.(Saga.State) = StateStarted -> advances_at w0 p s (check_verification s).
Proof.
  intros Hp Hst. unfold check_verification. eapply triple_bind.
  - apply (triple_attempt _ _ (fun _ => at_saga w0 p nothing s) (at_saga w0 p nothing s) (good w0 p)).
    eapply triple_refines; [apply (refines_query _ anywhere) |].
    intros w Hat. split; [done |]. split; [done |]. intros a w' Hq.
    destruct (remote_GetStatus _ (remote w)); [| done]. injection Hq as <- <-. done.
  - intros [status | er].
    + case_match; [by apply unverified_keeps |].
      eapply triple_bind; [apply triple_now_at |]. intros now.
      eapply update_advances; [done | done | rewrite Hst; constructor | by apply nothing_ok].
    + case_match; [by apply unverified_keeps | apply triple_throw; intros w; apply at_saga_good].
Qed.

Lemma debit_wallet_keeps w0 p s :
  s.(Saga.State) = StateVerificationChecked -> advances_at w0 p s (debit_wallet s).
Proof.
  intros Hst. unfold debit_wallet. eapply triple_bind.
  - apply (triple_call w0 p nothing nothing). intros r a r' Hok _ _ Hs.
    apply contract_debit in Hs as (? & ? & ? & ?); [| done].
    do 3 (split; [done |]). split; [auto | done].
  - intros debitID. eapply triple_bind; [apply triple_now_at |]. intros now.
    eapply update_advances; [done | done | rewrite Hst; constructor | by apply nothing_ok].
Qed.

Lemma reserve_ledger_keeps w0 p s :
  s.(Saga.State) = StateWalletDebited -> advances_at w0 p s (reserve_ledger s).
Proof.
  intros Hst. unfold reserve_ledger. eapply triple_bind.
  - apply (triple_call w0 p nothing nothing). intros r a r' Hok _ _ Hs.
    apply contract_reserve in Hs as (? & ? & ? & ?); [| done].
    do 3 (split; [done |]). split; [auto | done].
  - intros debitID. eapply triple_bind; [apply triple_now_at |]. intros now.
    eapply update_advances; [done | done | rewrite Hst; constructor | by apply nothing_ok].
Qed.

(** The payment command and the state PAYMENT_PROCESSING, written together. *)
Lemma execute_good w0 p w w1 s row :
  good w0 p w -> s.(Saga.PaymentID) = p -> s.(Saga.State) = StatePaymentProcessing ->
  sagas w !! p = Some row -> row.(SagaRow.state) = StateLedgerReserved ->
  sagas w1 = sagas w -> remote w1 = remote w ->
  (forall q, commands q w1 = commands q w + if decide (q = p) then 1 else 0)%nat ->
  (forall e, e ∈ events w1 -> is_command e -> e ∈ events w \/ ordered e w) ->
  at_saga w0 p nothing (scanSaga (updated_row s row w1)) (set_saga s row w1) /\ good w0 p (set_saga s row w1).
Proof.
  intros ([Hkey Hrem Href Hst Hcom Hord] & Hev & Hap) Hp Hs Hrow Hrst Hs1 Hr1 Hc1 He1.
  assert (evolves w (set_saga s row w1)) as Hstep.
  { intros q row0 Hq. unfold set_saga. simpl. rewrite Hp, Hs1, lookup_insert. case_decide as Heq.
    - subst q. simplify_eq. eexists. split; [done |]. split; [| done]. rewrite Hrst. simpl. rewrite Hs. apply rtc_once, move_processing.
    - exists row0. split; [done |]. split; [apply rtc_refl | reflexivity]. }
  assert (good w0 p (set_saga s row w1)) as Hg; [| split; [| done]].
  - split; [| split; [by etrans |]]; [split; [| | | | | intros e He Hc; apply (ordered_evolves w); [done |]; destruct (He1 e He Hc); auto] |];
      unfold set_saga; rewrite Hp, Hs1; simpl.
    + intros q row'. rewrite lookup_insert. case_decide; [| by apply Hkey].
      intros [= <-]. subst q. simpl. by apply Hkey.
    + by rewrite Hr1.
    + rewrite Hr1. apply Href.
    + intros q row'. rewrite Hr1, lookup_insert. case_decide; [| by apply Hst]. intros [= <-].
      simpl. rewrite Hs. by apply nothing_ok.
    + intros q. unfold state_of. simpl. change (commands q (with_sagas _ w1)) with (commands q w1).
      rewrite Hc1. specialize (Hcom q). unfold state_of in Hcom. destruct (decide (q = p)) as [-> | Hne].
      * rewrite lookup_insert_eq. simpl. rewrite Hrow in Hcom. simpl in Hcom. rewrite Hrst in Hcom.
        rewrite Hs. simpl in *. by rewrite Hcom.
      * rewrite lookup_insert_ne by done. by rewrite <- plus_n_O.
    + intros q Hq. simpl. rewrite lookup_insert_ne by done. by apply Hap.
  - split; [done |]. split; [| split; [simpl; by apply Hkey | done]].
    exists (updated_row s row w1). split; [| done]. simpl. rewrite (Hkey _ _ Hrow). unfold set_saga.
    rewrite Hp. simpl. apply lookup_insert_eq.
Qed.

Lemma execute_payment_keeps w0 p s :
  s.(Saga.State) = StateLedgerReserved -> advances_at w0 p s (execute_payment ctx s).
Proof.
  intros Hst. unfold execute_payment. eapply triple_bind; [apply triple_now_at |]. intros now.
  eapply triple_refines; [apply update_outbox_refines |]. intros w Hat. split; [done |].
  split; [by apply Hat |]. intros u w' Hs. unfold update_outbox_spec, update_spec in Hs.
  destruct Hat as (Hg & (row & Hrow & Heq) & Hp & _). rewrite Hp in Hrow.
  assert (row.(SagaRow.state) = StateLedgerReserved) as Hrst by (by rewrite <- Hst, Heq).
  set (w1 := put_audit _ (put_events _ _ _)) in Hs.
  assert (sagas w1 = sagas w /\ remote w1 = remote w /\ (forall q, commands q w1 =
    (commands q w + if decide (q = p) then 1 else 0)%nat) /\
    (forall e, e ∈ events w1 -> is_command e -> e ∈ events w \/ ordered e w)) as (Hs1 & Hr1 & Hc1 & He1).
  { destruct (put_audit_core _ _ : same_core (put_events ctx
        [OutboxRecord.mk TopicPaymentExecute (Saga.PaymentID s) (payment_payload s now);
         OutboxRecord.mk FraudScoreRequestedTopic (Saga.PaymentID s) (fraud_payload s now)] w) w1) as (Hsa & Hr & Hc & He).
    split; [by rewrite Hsa |]. split; [by rewrite Hr |]. split.
    - intros q. rewrite Hc. simpl. rewrite !commands_put_event, Hp. simpl. rewrite <- plus_n_O. f_equal.
      destruct (String.eqb_spec p q); case_decide; done.
    - intros e Hin Hcmd. apply (He e Hin) in Hcmd as Hin'. simpl in Hin'.
      apply elem_of_app in Hin' as [[? | ->%list_elem_of_singleton]%elem_of_app | ->%list_elem_of_singleton]; [by left | | done].
      right. exists row. eexists. simpl. rewrite Hp. split; [done |]. split; [reflexivity |]. by rewrite Heq. }
  clearbody w1. simpl in Hs. rewrite Hp, Hs1, Hrow in Hs. injection Hs as <- <-.
  by apply (execute_good w0 p w).
Qed.

Lemma in_state_keeps w0 p st (stage : Saga.t -> sdb W Saga.t) s :
  (s.(Saga.PaymentID) = p -> s.(Saga.State) = st -> advances_at w0 p s (stage s)) ->
  advances_at w0 p s (in_state st stage s).
Proof.
  intros Hstage. unfold in_state. destruct (String.eqb_spec (Saga.State s) st); [| by apply triple_ret].
  apply (triple_pure (s.(Saga.PaymentID) = p)); [by intros w (_ & _ & ? & _) | auto].
Qed.

Lemma advance_keeps w0 p s : advances_at w0 p s (advance ctx s).
Proof.
  unfold advance.
  eapply triple_bind; [apply in_state_keeps; intros; by apply check_verification_keeps |]. intros s1.
  eapply triple_bind; [apply in_state_keeps; intros; by apply debit_wallet_keeps |]. intros s2.
  eapply triple_bind; [apply in_state_keeps; intros; by apply reserve_ledger_keeps |]. intros s3.
  apply in_state_keeps. intros. by apply execute_payment_keeps.
Qed.

Lemma find_key_elem user key w row :
  find_key user key w = Some row -> exists q, sagas w !! q = Some row.
Proof.
  unfold find_key. destruct (List.find _ _) as [[q row']|] eqn:Hf; [| done]. intros [= <-].
  apply find_Some_elem in Hf as [Hin _]. exists q. by apply elem_of_map_to_list in Hin.
Qed.

Lemma sameStartPayload_pid s s' : sameStartPayload s s' = true -> s.(Saga.PaymentID) = s'.(Saga.PaymentID).
Proof. unfold sameStartPayload. intros Hs. repeat apply andb_true_iff in Hs as [Hs _]. by apply String.eqb_eq. Qed.

(** The saga that a start finds or inserts. *)
Lemma create_spec_good w0 req now u w w' :
  good w0 req.(StartRequest.PaymentID) w -> create_spec (new_saga req now) w = Ok (u, w') ->
  at_saga w0 req.(StartRequest.PaymentID) nothing u w'.
Proof.
  set (p := StartRequest.PaymentID req). intros Hg Hs. unfold create_spec in Hs.
  assert (forall row q, sagas w !! q = Some row -> sameStartPayload (scanSaga row) (new_saga req now) = true ->
            at_saga w0 p nothing (scanSaga row) w) as Hfound.
  { intros row q Hq Hsame. pose proof (safe_key _ (proj1 Hg) _ _ Hq) as Hk.
    pose proof (sameStartPayload_pid _ _ Hsame) as Hpid. simpl in Hpid.
    split; [done |]. split; [| done]. exists row. split; [| done]. simpl. by rewrite Hk. }
  destruct (stmt_insert_saga (new_saga req now) w) as [[row w1] | e] eqn:Hins.
  - injection Hs as <- <-. unfold stmt_insert_saga in Hins. case_match; [done |].
    destruct (sagas w !! Saga.PaymentID (new_saga req now)) eqn:Hn; [done |].
    destruct (find_key _ _ w); [done |]. injection Hins as <- <-. simpl in Hn. fold p in Hn.
    split; [| split; [eexists; split; [apply lookup_insert_eq | reflexivity] | done]].
    destruct Hg as ([Hkey Hrem Href Hst Hcom Hord] & Hev & Hap).
    match goal with |- good _ _ ?w1 => assert (evolves w w1) as Hstep end.
    { intros q row0 Hq. simpl. fold p. rewrite lookup_insert_ne by (intros <-; congruence).
      exists row0. split; [done |]. split; [apply rtc_refl | reflexivity]. }
    split; [| split; [by etrans |]].
    + split; simpl; [| done | done | | | intros e He Hc; by apply (ordered_evolves w), Hord].
      * intros q row'. rewrite lookup_insert. case_decide; [by intros [= <-] | by apply Hkey].
      * intros q row'. rewrite lookup_insert. case_decide; [| by apply Hst].
        intros [= <-]. by apply nothing_ok.
      * intros q. change (commands q (next_id _)) with (commands q w). specialize (Hcom q).
        unfold state_of in *. simpl. rewrite lookup_insert. case_decide as Heq; [| done].
        subst q. fold p in Hcom. by rewrite Hn in Hcom.
    + intros q Hq. simpl. rewrite lookup_insert_ne by done. by apply Hap.
  - case_match; [| done].
    destruct (if _ =s "" then None else sagas w !! _) as [row|] eqn:Hr.
    + case_match; [| done]. injection Hs as <- <-. case_match; [done |]. by eapply Hfound.
    + destruct (find_key _ _ w) as [row|] eqn:Hk; [| done]. case_match; [| done]. injection Hs as <- <-.
      destruct (find_key_elem _ _ _ _ Hk) as [q Hq]. by eapply Hfound.
Qed.

Lemma start_keeps w0 req :
  triple (good w0 req.(StartRequest.PaymentID)) (StartPaymentSaga ctx req)
    (fun u w => at_saga w0 req.(StartRequest.PaymentID) nothing u w) (good w0 req.(StartRequest.PaymentID)).
Proof.
  set (p := StartRequest.PaymentID req). unfold StartPaymentSaga.
  eapply triple_bind; [apply triple_now; intros w; by apply good_same_core |]. intros now.
  eapply triple_bind.
  - eapply (triple_refines _ _ _ _ (fun u w => at_saga w0 p nothing u w)); [apply create_refines |].
    intros w Hg. split; [done |]. split; [done |]. intros u w' Hs.
    apply (create_spec_good w0 req now) in Hs; [| done]. split; [done | by apply Hs].
  - intros u. case_match; [by apply triple_ret | apply advance_keeps].
Qed.

(** ** Recovery and review *)

Lemma compensation_keeps w0 p s (cancelLedger : bool) :
  s.(Saga.State) = (if cancelLedger then StateCompensatingLedger else StateCompensatingWallet) ->
  keeps_at w0 p nothing s (resumeCompensation ctx s cancelLedger).
Proof.
  intros Hst. apply keeps_at_pid. intros Hp. unfold resumeCompensation.
  assert (forall F u, u.(Saga.PaymentID) = p -> u.(Saga.State) = StateCompensatingWallet ->
    keeps_at w0 p F u (refund_and_fail ctx u)) as Hrefund.
  { intros F u Hpu Hsu.
    apply (refund_from w0 p F u (fun now => Saga.with_UpdatedAt now (Saga.with_State StateFailed u))); try done.
    intros v. eapply triple_bind; [apply triple_now_at |]. intros failedAt.
    eapply triple_conseq; [apply keeps_publish_failed | done | intros [] w; apply at_saga_good | done]. }
  destruct cancelLedger.
  - eapply (triple_bind _ _ _ (fun u w => at_saga w0 p (canceled p) u w /\ u.(Saga.State) = StateCompensatingWallet)).
    + eapply triple_bind; [by apply cancel_call |]. intros [].
      eapply triple_bind; [apply triple_now_at |]. intros now.
      apply (triple_update w0 p (canceled p) s); [done | rewrite Hst; right; by constructor |].
      intros r Hcan. by split; [| intros [? | ?]].
    + intros u. apply (triple_pure (u.(Saga.PaymentID) = p /\ u.(Saga.State) = StateCompensatingWallet));
        [by intros w [(_ & _ & ? & _) ?] |].
      intros [Hpu Hsu]. eapply triple_conseq; [by apply Hrefund | by intros w [? _] | done | done].
  - eapply (triple_bind _ _ _ (fun u w => at_saga w0 p nothing u w /\ u = s)); [by apply triple_ret |].
    intros u. apply (triple_pure (u = s)); [by intros w [_ ?] |]. intros ->.
    eapply triple_conseq; [by apply Hrefund | by intros w [? _] | done | done].
Qed.

Lemma resume_one_keeps w0 p s : keeps_at w0 p nothing s (resumeOne ctx s).
Proof.
  unfold resumeOne.
  destruct (String.eqb_spec (Saga.State s) StateLedgerConfirmed) as [Hc | _].
  { eapply triple_bind; [apply triple_now_at |]. intros completedAt.
    apply (triple_conseq _ (at_saga w0 p (state_ok p s.(Saga.State)) s) _ (fun _ => good w0 p) _ (good w0 p));
      [| apply at_saga_state | done | done].
    eapply triple_bind; [apply keeps_publish_completed |]. intros [].
    eapply triple_bind; [apply triple_now_at |]. intros now.
    eapply triple_bind.
    - apply (triple_update w0 p (state_ok p s.(Saga.State)) s); [done | rewrite Hc; right; by constructor |].
      rewrite Hc. intros r [_ Hcon]. split; [done | auto].
    - intros u. apply triple_ret. by intros w [Hat _]; apply Hat. }
  destruct (String.eqb_spec (Saga.State s) StateCompensatingLedger); [by apply compensation_keeps |].
  destruct (String.eqb_spec (Saga.State s) StateCompensatingWallet); [by apply compensation_keeps |].
  case_match; [apply triple_ret; intros w; apply at_saga_good |].
  eapply triple_bind; [apply advance_keeps |]. intros u. apply triple_ret. intros w. apply at_saga_good.
Qed.


(** The invariant and the moves since [w0], whichever sagas changed. *)
Definition sound w0 w : Prop := safe w /\ evolves w0 w.

Abbreviation stays w0 prog := (triple (sound w0) prog (fun _ w => sound w0 w) (sound w0)).

Lemma good_sound w0 w1 p w : sound w0 w1 -> good w1 p w -> sound w0 w.
Proof. intros [_ Hev] (Hs & Hev' & _). split; [done | by etrans]. Qed.

Lemma stays_from {A} w0 p (prog : sdb W A) : (forall w1, keeps w1 p prog) -> stays w0 prog.
Proof.
  intros Hk w1 sch Hs. eapply wp_mono; [by apply (Hk w1), good_start, Hs |].
  intros r c' [Hw Hr]. split; [done |]. destruct r; by eapply good_sound.
Qed.

Lemma sound_same_core w0 w w' : same_core w w' -> sound w0 w -> sound w0 w'.
Proof.
  intros Hc [Hsafe Hev]. pose proof Hc as [Hs _]. split.
  - by apply (safe_same_core w).
  - intros q row Hq. rewrite Hs. by apply Hev.
Qed.

(** A program whose answer does not matter. *)
Lemma stays_attempt {A} w0 (prog : sdb W A) : stays w0 prog -> stays w0 (attempt prog).
Proof.
  intros Hk. eapply triple_conseq; [apply (triple_attempt _ _ _ _ (sound w0) Hk) | done | | done].
  by intros [a | e] w.
Qed.

Lemma stays_get w0 q : stays w0 (GetByPaymentID q).
Proof.
  apply (stays_from w0 q). intros w1.
  eapply triple_conseq; [apply triple_get | done | intros s w; apply at_saga_good | done].
Qed.

Lemma apply_deferred_stays w0 payload trace : stays w0 (applyDeferredResult ctx payload trace).
Proof.
  unfold applyDeferredResult, decoded. case_match.
  - eapply triple_bind; [apply (triple_lift _ _ (fun _ => sound w0)); auto |]. intros e.
    eapply stays_from. intros w1. apply completed_keeps.
  - case_match; [| by apply triple_throw].
    eapply triple_bind; [apply (triple_lift _ _ (fun _ => sound w0)); auto |]. intros e.
    eapply stays_from. intros w1. apply failed_keeps.
Qed.

(** The part of a decision that changes the saga under review. *)
Lemma decide_keeps w0 p s s' audit st :
  s.(Saga.State) = StateFraudReview -> s'.(Saga.PaymentID) = s.(Saga.PaymentID) -> s'.(Saga.State) = st ->
  inner_move StateFraudReview st -> (forall r, nothing r -> state_ok p st r) ->
  triple (at_saga w0 p nothing s) (updateWithAudit s' audit)
    (fun u w => at_saga w0 p nothing u w /\ u.(Saga.State) = st) (good w0 p).
Proof.
  intros Hst Hp Hst' Hm Hok. rewrite <- Hst' in *.
  apply (triple_update_audit w0 p nothing s); [done | right; by rewrite Hst | done].
Qed.

Lemma resume_stays w0 d : stays w0 (ResumeFraudReview ctx d).
Proof.
  set (p := FraudReviewDecision.PaymentID d).
  intros w1 sch Hs1.
  enough (triple (good w1 p) (ResumeFraudReview ctx d) (fun _ => sound w1) (sound w1)) as Hgo.
  { eapply wp_mono; [by apply Hgo, good_start, Hs1 |]. intros r c' [Hw Hr]. split; [done |].
    destruct r; (split; [by apply Hr | etrans; [by apply Hs1 | by apply Hr]]). }
  assert (forall w, good w1 p w -> sound w1 w) as Hgs by (intros w (? & ? & _); by split).
  assert (forall F s w, at_saga w1 p F s w -> sound w1 w) as Has by (intros F s w Hat; by apply Hgs, Hat).
  unfold ResumeFraudReview. fold p.
  eapply triple_bind; [eapply triple_error; [apply triple_get | apply Hgs] |]. intros s.
  eapply (triple_bind _ _ _ (fun _ w => at_saga w1 p nothing s w /\ s.(Saga.State) = StateFraudReview)).
  { apply triple_guard. intros w Hat. split; [by eapply Has |]. intros Hb.
    apply negb_false_iff, String.eqb_eq in Hb. done. }
  intros []. apply (triple_pure (s.(Saga.State) = StateFraudReview)); [by intros w [_ ?] |]. intros Hst.
  eapply triple_bind.
  { eapply triple_error; [| apply Hgs].
    eapply triple_conseq; [apply (triple_now_at w1 p nothing s) | by intros w [? _] | by intros | done]. }
  intros now. cbv zeta. eapply triple_bind.
  { eapply triple_error; [eapply (decide_keeps w1 p s _ _ StatePaymentProcessing) | apply Hgs];
      [done | done | done | by constructor | by apply nothing_ok]. }
  intros u. destruct (Saga.DeferredPaymentJSON s) as [d'|].
  - eapply (triple_bind _ _ _ (fun _ => sound w1)).
    + eapply triple_conseq; [apply (apply_deferred_stays w1) | | by intros | by intros].
      intros w [Hat _]. by eapply Has.
    + intros []. apply stays_get.
  - apply triple_ret. intros w [Hat _]. by eapply Has.
Qed.

Lemma reject_stays w0 d : stays w0 (RejectFraudReview ctx d).
Proof.
  set (p := FraudReviewDecision.PaymentID d). apply (stays_from w0 p). intros w1.
  unfold RejectFraudReview. fold p.
  eapply triple_bind; [apply triple_get |]. intros s.
  eapply (triple_bind _ _ _ (fun _ w => at_saga w1 p nothing s w /\ s.(Saga.State) = StateFraudReview)).
  { apply triple_guard. intros w Hat. split; [by eapply at_saga_good |]. intros Hb.
    apply negb_false_iff, String.eqb_eq in Hb. done. }
  intros []. apply (triple_pure (s.(Saga.State) = StateFraudReview)); [by intros w [_ ?] |]. intros Hst.
  eapply triple_bind.
  { eapply triple_conseq; [apply (triple_now_at w1 p nothing s) | by intros w [? _] | by intros | done]. }
  intros now. cbv zeta. eapply triple_bind.
  { eapply (decide_keeps w1 p s _ _ StateCompensatingLedger);
      [done | done | done | by constructor | by apply nothing_ok]. }
  intros u. apply (triple_pure (u.(Saga.State) = StateCompensatingLedger)); [by intros w [_ ?] |]. intros Hu.
  eapply triple_bind.
  { eapply triple_conseq; [apply (compensation_keeps w1 p u true Hu) | by intros w [? _] | by intros | done]. }
  intros []. eapply triple_conseq; [apply triple_get | done | intros v w; apply at_saga_good | done].
Qed.

Lemma expire_all_stays w0 ttl deadline l : stays w0 (expire_all ctx ttl deadline l).
Proof.
  induction l as [|s l IH]; simpl; [by apply triple_ret |]. case_match; [done |].
  eapply triple_bind; [apply stays_attempt, reject_stays |]. intros r.
  eapply triple_bind; [apply IH |]. intros [expired failures].
  destruct r; [by apply triple_ret |]. case_match; by apply triple_ret.
Qed.

(** The rows a listing returns. *)
Lemma listed_rows w (P : SagaRow.t -> Prop) `{!forall row, Decision (P row)} l :
  keyed w -> l ≡ₚ filter P (saga_rows w) ->
  NoDup (SagaRow.payment_id <$> l) /\ forall row, row ∈ l -> sagas w !! row.(SagaRow.payment_id) = Some row.
Proof.
  intros Hk Hl. split.
  - assert (NoDup (SagaRow.payment_id <$> saga_rows w)) as Hnd.
    { unfold saga_rows. rewrite <- list_fmap_compose.
      replace ((SagaRow.payment_id ∘ snd) <$> map_to_list (sagas w)) with ((map_to_list (sagas w)).*1);
        [apply NoDup_fst_map_to_list |].
      apply list_fmap_ext. intros i [q row] Hq. apply list_elem_of_lookup_2, elem_of_map_to_list in Hq.
      simpl. symmetry. by apply Hk. }
    rewrite Hl. eapply sublist_NoDup; [exact Hnd |]. apply fmap_sublist, sublist_filter.
  - intros row. rewrite Hl, list_elem_of_filter. intros [_ Hr]. unfold saga_rows in Hr.
    apply list_elem_of_fmap in Hr as ([q row'] & -> & Hq). apply elem_of_map_to_list in Hq.
    simpl. by rewrite (Hk _ _ Hq).
Qed.

(** The same as sagas the store holds. *)
Lemma list_rows_held w (P : SagaRow.t -> Prop) `{!forall row, Decision (P row)} l :
  keyed w -> l ≡ₚ filter P (saga_rows w) ->
  NoDup (Saga.PaymentID <$> (scanSaga <$> l)) /\ forall s, s ∈ scanSaga <$> l -> held s w.
Proof.
  intros Hk Hl. destruct (listed_rows w P l Hk Hl) as [Hnd Hin]. split; [by rewrite <- list_fmap_compose |].
  intros s Hx. apply list_elem_of_fmap in Hx as (row & -> & Hrow). exists row. split; [by apply Hin | done].
Qed.

Lemma held_apart w w' s p : apart p w w' -> s.(Saga.PaymentID) <> p -> held s w -> held s w'.
Proof. intros Ha Hne (row & Hr & Heq). exists row. by rewrite Ha. Qed.

Lemma resume_all_stays w0 l :
  NoDup (Saga.PaymentID <$> l) ->
  triple (fun w => sound w0 w /\ forall s, s ∈ l -> held s w) (resume_all ctx l)
    (fun _ w => sound w0 w) (sound w0).
Proof.
  induction l as [|s l IH]; simpl; [intros _; by apply triple_ret; intros w [? _] |].
  intros [Hnot Hnd]%list.NoDup_cons w1 sch [Hs1 Hheld]. wp_step.
  eapply wp_mono.
  { apply (resume_one_keeps w1 (Saga.PaymentID s) s).
    split; [by apply good_start, Hs1 |]. split; [apply Hheld; set_solver | done]. }
  intros [[] | e] [cm wk s'] [Hw Hg]; simpl in *; subst wk.
  - apply IH; [done |]. split; [by eapply good_sound |]. intros x Hx.
    apply (held_apart w1 _ x (Saga.PaymentID s)); [by apply Hg | | apply Hheld; set_solver].
    intros Heq. apply Hnot. rewrite <- Heq. apply list_elem_of_fmap. eauto.
  - split; [done |]. by eapply good_sound.
Qed.

Lemma recover_stays w0 : stays w0 (ResumeNonTerminal ctx).
Proof.
  unfold ResumeNonTerminal, ListNonTerminal, listSagas. intros w sch Hs. wp_step. wp_step. wp_step; [done |].
  unfold q_non_terminal. wp_step.
  destruct (list_rows_held w (fun row => terminal row.(SagaRow.state) = false) _ (safe_key _ (proj1 Hs))
              (sorting.merge_sort_Permutation updated_before _)) as [Hnd Hheld].
  by apply resume_all_stays.
Qed.

Lemma expire_stays w0 ttl : stays w0 (ExpireFraudReviews ctx ttl).
Proof.
  unfold ExpireFraudReviews, ListNonTerminal, listSagas.
  eapply triple_bind; [apply (triple_guard _ _ _ (fun _ => sound w0)); auto |]. intros [].
  eapply (triple_bind _ _ _ (fun _ => sound w0)).
  { eapply (triple_bind _ _ _ (fun _ => sound w0)); [| intros l; by apply triple_ret].
    eapply triple_refines; [apply (refines_query _ anywhere) |]. intros w Hs. split; [done |]. split; [done |].
    intros l w' [= _ <-]. exact (conj Hs Hs). }
  intros l. eapply triple_bind; [apply triple_now; intros w; by apply sound_same_core |]. intros now.
  apply expire_all_stays.
Qed.
End Handlers.
End Safety.
