(* ===== verification/SagaRuns.v ===== *)
(** * SagaRuns: every run of the saga orchestrator.

    The inputs the orchestrator reacts to, the runs they produce under any loss
    of round trips, with any steps of the other clients of the remote services in
    between, and what holds in every state of a run.  A handler runs to its end
    before the next input is taken. *)

From S2P Require Import Prelude GoStrings Domain GoTime Json Database Outbox.
From S2P Require Import SagaTypes SagaStore Orchestrator FraudReview SagaSafety.

#[local] Open Scope string_scope.
#[local] Open Scope Z_scope.

(** What reaches the orchestrator: the gRPC calls, the topics it consumes, the
    recovery at its start, and the two background workers. *)
Inductive input :=
| InStart (req : StartRequest.t)
| InCompleted (event : PaymentCompleted.t)
| InFailed (event : PaymentFailed.t)
| InFlagged (flagged : FraudFlagged.t)
| InResume (decision : FraudReviewDecision.t)
| InReject (decision : FraudReviewDecision.t)
| InRecover
| InExpire (ttl : Z)
| InSweep (fuel : nat) (retention batch : Z).

Section Runs.
Context {W : Type} `{HR : Remote W} `{!RemoteContract W} `{Clock} `{Postgres} `{Uuid}.
Implicit Types w : world W.

Definition handle (ctx : context) (i : input) : sdb W unit :=
  match i with
  | InStart req => StartPaymentSaga ctx req ;! ret tt
  | InCompleted event => HandlePaymentCompleted ctx event
  | InFailed event => HandlePaymentFailed ctx event
  | InFlagged flagged => HandleFraudFlagged ctx flagged
  | InResume decision => ResumeFraudReview ctx decision ;! ret tt
  | InReject decision => RejectFraudReview ctx decision ;! ret tt
  | InRecover => ResumeNonTerminal ctx
  | InExpire ttl => ExpireFraudReviews ctx ttl ;! ret tt
  | InSweep fuel retention batch => Sweep fuel retention batch ;! ret tt
  end.

Definition with_db_now (n : time) w : world W :=
  World (sagas w) (audits w) (events w) (ids_used w) n (clock_reads w) (remote w).

Inductive runs w0 : world W -> Prop :=
| runs_start : runs w0 w0
| runs_handle ctx i w s : runs w0 w -> runs w0 (committed (snd (handle ctx i (Conn w None s))))
| runs_remote w r' : runs w0 w -> remote_env (remote w) r' -> runs w0 (with_remote r' w)
| runs_time w n : runs w0 w -> runs w0 (with_db_now n w).

(** ** One input *)

Abbreviation stays w0 prog := (triple (sound w0) prog (fun _ w => sound w0 w) (sound w0)).

Lemma stays_forget {A} w0 (p : sdb W A) : stays w0 p -> stays w0 (p ;! ret tt).
Proof. intros Hp. eapply triple_bind; [exact Hp |]. intros a. by apply triple_ret. Qed.

Lemma delete_stays w0 before limit : stays w0 (DeleteFraudAuditBefore before limit).
Proof.
  unfold DeleteFraudAuditBefore. eapply triple_refines; [apply (refines_exec _ anywhere) |].
  intros w Hs. split; [done |]. split; [done |]. intros n w' Hd. unfold stmt_delete_audits in Hd.
  case_match; [done |]. injection Hd as _ <-. split; by apply (sound_same_core w0 w).
Qed.

Lemma sweep_stays w0 fuel retention batch : stays w0 (Sweep fuel retention batch).
Proof.
  unfold Sweep. case_match; [by apply triple_ret |].
  eapply triple_bind; [apply triple_now; intros w; by apply sound_same_core |]. intros now.
  generalize 0 as deleted. induction fuel as [|fuel IH]; intros deleted; simpl; [by apply triple_ret |].
  eapply triple_bind; [apply delete_stays |]. intros count. case_match; [by apply triple_ret | apply IH].
Qed.

Lemma handle_stays ctx i w0 : stays w0 (handle ctx i).
Proof.
  destruct i; simpl.
  - apply stays_forget, (stays_from w0 (StartRequest.PaymentID req)). intros w1.
    eapply triple_conseq; [apply start_keeps | done | intros u w; apply at_saga_good | done].
  - apply (stays_from w0 (PaymentCompleted.PaymentID event)). intros w1. apply completed_keeps.
  - apply (stays_from w0 (PaymentFailed.PaymentID event)). intros w1. apply failed_keeps.
  - apply (stays_from w0 (FraudFlagged.PaymentID flagged)). intros w1. apply flagged_keeps.
  - apply stays_forget, resume_stays.
  - apply stays_forget, reject_stays.
  - apply recover_stays.
  - apply stays_forget, expire_stays.
  - apply stays_forget, sweep_stays.
Qed.

Lemma runs_sound w0 w : safe w0 -> runs w0 w -> sound w0 w.
Proof.
  intros Hsafe. induction 1 as [| ctx i w s Hr IH | w r' Hr IH He | w n Hr IH].
  - split; [done | reflexivity].
  - pose proof (wp_elim _ _ _ (handle_stays ctx i w0 w s IH)) as [_ Hs]. by destruct (fst _).
  - destruct IH as [Hs Hev]. apply contract_env in He as (Hok & Hcan & Hcon & Hcomp); [| apply Hs].
    split; [| exact Hev]. apply (good_with_remote w "" w r'); auto using good_start.
  - by apply (sound_same_core w0 w).
Qed.

(** ** What holds in every run *)

(** C2: no payment is both refunded and settled: in no run of the orchestrator, under
    any loss of round trips, any interleaving of its inputs and any activity of the
    other clients, does the wallet hold a compensation of a payment whose
    reservation the ledger confirmed. *)
Theorem never_refunded_and_settled w0 w p :
  safe w0 -> runs w0 w -> ~ (compensated p (remote w) /\ confirmed p (remote w)).
Proof.
  intros Hsafe Hr [Hcomp Hconf]. destruct (runs_sound w0 w Hsafe Hr) as [Hs _].
  eapply contract_exclusive; [apply Hs | by apply Hs | done].
Qed.

(** C14: a saga that says COMPLETED (or LEDGER_CONFIRMED) has been settled by the
    ledger, and its debit was not given back. *)
Theorem completed_means_settled w0 w p row :
  safe w0 -> runs w0 w -> sagas w !! p = Some row ->
  row.(SagaRow.state) = StateCompleted \/ row.(SagaRow.state) = StateLedgerConfirmed ->
  confirmed p (remote w) /\ ~ compensated p (remote w).
Proof.
  intros Hsafe Hr Hrow Hst. destruct (runs_sound w0 w Hsafe Hr) as [Hs _].
  assert (confirmed p (remote w)) as Hc by (apply (safe_state _ Hs _ _ Hrow); tauto).
  split; [done |]. intros Hcomp. eapply contract_exclusive; [apply Hs | by apply Hs | done].
Qed.


(** COMPLETED and FAILED are final: whatever arrives later (a duplicate or a
    contradicting result, a fraud flag, a decision, a recovery), the saga stays in
    the state it ended in. *)
Theorem ended_saga_stays_ended w0 w p row :
  safe w0 -> runs w0 w -> sagas w0 !! p = Some row -> terminal row.(SagaRow.state) = true ->
  exists row', sagas w !! p = Some row' /\ row'.(SagaRow.state) = row.(SagaRow.state).
Proof.
  intros Hsafe Hr Hrow Ht. destruct (runs_sound w0 w Hsafe Hr) as [_ Hev].
  destruct (Hev p row Hrow) as (row' & Hrow' & Hm & _). exists row'. split; [done |].
  by apply moves_from_terminal.
Qed.

End Runs.
