(* ===== verification/SagaConsumer.v ===== *)
(** * SagaConsumer: the topics the orchestrator listens to.

    [internal/sagaconsumer]: the handler of [payment.completed], [payment.failed]
    and [fraud.flagged].  Whatever the topics hold, it drives the orchestrator
    through the inputs of [SagaRuns] and nothing else. *)

From S2P Require Import Prelude GoStrings Domain GoTime Json Database Outbox Kafka DeadLetter Consumer.
From S2P Require Import SagaTypes SagaStore Orchestrator FraudReview SagaSafety SagaRuns.

#[local] Open Scope string_scope.
#[local] Open Scope Z_scope.

(** [json.Unmarshal(record.Value, &flagged)] *)
Definition flagged_of_json (document : option json) : res json_error FraudFlagged.t :=
  let? fields := json_object document in
  let? schema_version := get_int64 "schema_version" fields in
  let? event_id := get_string "event_id" fields in
  let? source_event_id := get_string "source_event_id" fields in
  let? payment_id := get_string "payment_id" fields in
  let? session_id := get_string "session_id" fields in
  let? action := get_string "action" fields in
  let? risk_score := get_float "risk_score" fields in
  let? reason := get_string "reason" fields in
  let? provider_id := get_string "provider_id" fields in
  let? model_id := get_string "model_id" fields in
  let? occurred_at := get_time "occurred_at" fields in
  let? trace_id := get_string "trace_id" fields in
  Ok (FraudFlagged.mk schema_version event_id source_event_id payment_id session_id action risk_score
        reason provider_id model_id occurred_at trace_id).

Definition errMissingPaymentID : string := "payment_id is required".
Definition errInvalidFraudEvent : string := "invalid fraud event".

Section Handler.
Context {W : Type} `{HR : Remote W} `{Clock} `{Postgres} `{Uuid} `{Broker} `{JsonText} `{Tracing}.

Definition dead (now : time) (record : KafkaRecord.t) (cause : string) : prog (reader (world W)) saga_error unit :=
  deadLetter ErrStore now record cause.

Definition HandleRecord (now : time) (ctx : context) (record : KafkaRecord.t)
    : prog (reader (world W)) saga_error unit :=
  let ctx := trace_Start (ExtractKafka ctx record.(KafkaRecord.Headers)) in
  let document := json_Unmarshal record.(KafkaRecord.Value) in
  if record.(KafkaRecord.Topic) =s TopicPaymentCompleted then
    match PaymentCompleted.of_json document with
    | Err e => dead now record (json_Error e)
    | Ok completed =>
        if completed.(PaymentCompleted.PaymentID) =s "" then dead now record errMissingPaymentID
        else run_app (HandlePaymentCompleted ctx completed) ;! CommitRecord record
    end
  else if record.(KafkaRecord.Topic) =s TopicPaymentFailed then
    match PaymentFailed.of_json document with
    | Err e => dead now record (json_Error e)
    | Ok failed =>
        if failed.(PaymentFailed.PaymentID) =s "" then dead now record errMissingPaymentID
        else run_app (HandlePaymentFailed ctx failed) ;! CommitRecord record
    end
  else if record.(KafkaRecord.Topic) =s FraudFlaggedTopic then
    match flagged_of_json document with
    | Err e => dead now record (json_Error e)
    | Ok flagged =>
        match FraudFlagged.Validate flagged with
        | Err _ => dead now record errInvalidFraudEvent
        | Ok _ => run_app (HandleFraudFlagged ctx flagged) ;! CommitRecord record
        end
    end
  else CommitRecord record.
End Handler.

(** ** What the consumer does to the sagas *)

Section Runs.
Context {W : Type} `{HR : Remote W} `{!RemoteContract W} `{Clock} `{Postgres} `{Uuid} `{Broker} `{JsonText} `{Tracing}.
Implicit Types w : reader (world W).

(** [p] drives the sagas by their inputs only. *)
Definition drives {A} (p : prog (reader (world W)) saga_error A) : Prop :=
  forall w (w0 : world W) s, runs w0 (app w) ->
    wp p (fun _ c' => working c' = None /\ runs w0 (app (committed c'))) (Conn w None s).

Lemma drives_bind {A B} (p : prog _ _ A) (k : A -> prog _ _ B) : drives p -> (forall a, drives (k a)) -> drives (bind p k).
Proof.
  intros Hp Hk w w0 s Hw. wp_step. eapply wp_mono; [by apply Hp |]. intros [a | e] [w1 wk s1] [Hwk Hr]; simpl in *; [| done].
  subst wk. by apply Hk.
Qed.

Lemma drives_attempt {A} (p : prog _ _ A) : drives p -> drives (attempt p).
Proof. intros Hp w w0 s Hw. wp_step. eapply wp_mono; [by apply Hp |]. done. Qed.

Lemma drives_ret {A} (a : A) : drives (ret a).
Proof. intros w w0 s Hw. by wp_step. Qed.

(** A round trip to the broker leaves the sagas alone. *)
Lemma drives_exec {A} (stmt : reader (world W) -> res saga_error (A * reader (world W))) :
  (forall w a w', stmt w = Ok (a, w') -> app w' = app w) -> drives (exec stmt).
Proof.
  intros Hs w w0 s Hw. wp_step; [done |]. destruct (stmt w) as [[a w'] | e] eqn:Ha; [| done].
  assert (runs w0 (app w')) by (by rewrite (Hs _ _ _ Ha)). done.
Qed.

Lemma drives_commit record : drives (CommitRecord record).
Proof. apply drives_exec. by intros w [] w' [= <-]. Qed.

Lemma drives_dead now record cause : drives (dead now record cause).
Proof.
  apply drives_bind; [| intros []; apply drives_commit]. apply drives_exec. intros w [] w'.
  destruct (broker_append _ _ _ _ _) as [[? l] |]; [| done]. by intros [= <-].
Qed.

Lemma drives_input ctx i : drives (run_app (handle ctx i)).
Proof.
  intros w w0 s Hw. apply wp_run_app. unfold wp. destruct (handle ctx i _) as [r c'] eqn:Hh. split; [done |].
  pose proof (runs_handle w0 ctx i (app w) s Hw) as Hr. by rewrite Hh in Hr.
Qed.

Lemma drives_record now ctx record : drives (HandleRecord now ctx record).
Proof.
  unfold HandleRecord. set (ctx' := trace_Start _). repeat case_match; try apply drives_dead; try apply drives_commit.
  - apply drives_bind; [exact (drives_input ctx' (InCompleted _)) | intros []; apply drives_commit].
  - apply drives_bind; [exact (drives_input ctx' (InFailed _)) | intros []; apply drives_commit].
  - apply drives_bind; [exact (drives_input ctx' (InFlagged _)) | intros []; apply drives_commit].
Qed.

Lemma drives_each now ctx records : drives (each_record (HandleRecord now ctx) records).
Proof.
  induction records as [|record rest IH]; simpl; [apply drives_ret |].
  apply drives_bind; [apply drives_attempt, drives_record |]. intros r. apply drives_bind; [exact IH |].
  intros rs. apply drives_ret.
Qed.

End Runs.
