(* ===== verification/Processor.v ===== *)
(** * Processor: [internal/paymentprocessor].

    The service that carries out [payment.execute] commands: its table
    [payment_attempts], the statements of [PostgresStore], the retry loop against
    the payment rail and the events it queues.  What is outside the service (the
    rail, the sleeper, the random source) is the class [Outside] over a state [R]
    of its own; an answer of the rail that is lost on the way is an error of
    [rail_Charge] that changes [R].  [charges] and [waits] record what was sent to
    the rail, what it answered and how long the loop slept: nothing reads them. *)

From S2P Require Import Prelude GoStrings Domain GoTime Json Database Outbox Publisher SagaTypes SagaStore.

#[local] Open Scope string_scope.
#[local] Open Scope Z_scope.

Definition StatusPending : string := "PENDING".
Definition StatusCompleted : string := "COMPLETED".
Definition StatusFailed : string := "FAILED".
Definition PaymentExecuteTopic : string := "payment.execute".

Module Attempt.
Record t := mk {
  ID : string;
  PaymentID : string;
  IdempotencyKey : string;
  TraceID : string;
  AmountCents : Z;
  Currency : string;
  LedgerReservationID : string;
  WalletDebitID : string;
  Status : string;
  AttemptCount : Z;
  ProcessorPaymentID : string;
  FailureCode : string;
  FailureMessage : string;
  CompletedAt : time;
  FailedAt : time;
  CreatedAt : time;
  UpdatedAt : time
}.
End Attempt.

Module RailChargeRequest.
Record t := mk {
  PaymentID : string;
  IdempotencyKey : string;
  TraceID : string;
  AmountCents : Z;
  Currency : string;
  LedgerReservationID : string;
  WalletDebitID : string
}.
End RailChargeRequest.

Module RailResult.
Record t := mk { ProcessorPaymentID : string; CompletedAt : time }.
End RailResult.

Module RailFailure.
Record t := mk { Code : string; Message : string; Retryable : bool }.
End RailFailure.

(** What [rail.Charge] may return: a [RailError], an error that wraps
    [context.Canceled], or any other one with its text. *)
Inductive rail_error :=
| RailError (failure : RailFailure.t)
| RailCanceled (message : string)
| RailOther (message : string).

Definition classifyRailFailure (err : rail_error) : RailFailure.t :=
  match err with
  | RailError failure => failure
  | RailCanceled message => RailFailure.mk "context_canceled" message false
  | RailOther message => RailFailure.mk "rail_unavailable" message true
  end.

Inductive processor_error :=
| ErrAttemptNotFound
| ErrCommand (message : string)
| ErrUnknownStatus (status : string)
| ErrSleep (message : string)
| ErrAttempts (e : error).

#[export] Instance processor_error_eq_dec : EqDecision processor_error.
Proof. solve_decision. Defined.
#[export] Instance processor_infra : Infra processor_error := ErrAttempts PgUnavailable.

(** A row of [payment_attempts]. *)
Module AttemptRow.
Record t := mk {
  id : uuid;
  payment_id : string;
  idempotency_key : string;
  trace_id : string;
  amount_cents : Z;
  currency : string;
  ledger_reservation_id : string;
  wallet_debit_id : string;
  status : string;
  attempt_count : Z;
  processor_payment_id : string;
  failure_code : string;
  failure_message : string;
  completed_at : option time;
  failed_at : option time;
  created_at : time;
  updated_at : time
}.
Definition eta (r : t) : t :=
  mk (id r) (payment_id r) (idempotency_key r) (trace_id r) (amount_cents r) (currency r)
     (ledger_reservation_id r) (wallet_debit_id r) (status r) (attempt_count r) (processor_payment_id r)
     (failure_code r) (failure_message r) (completed_at r) (failed_at r) (created_at r) (updated_at r).
Definition with_status : string -> t -> t := ltac:(derive_setter eta status).
Definition with_attempt_count : Z -> t -> t := ltac:(derive_setter eta attempt_count).
Definition with_processor_payment_id : string -> t -> t := ltac:(derive_setter eta processor_payment_id).
Definition with_failure_code : string -> t -> t := ltac:(derive_setter eta failure_code).
Definition with_failure_message : string -> t -> t := ltac:(derive_setter eta failure_message).
Definition with_completed_at : option time -> t -> t := ltac:(derive_setter eta completed_at).
Definition with_failed_at : option time -> t -> t := ltac:(derive_setter eta failed_at).
Definition with_updated_at : time -> t -> t := ltac:(derive_setter eta updated_at).
End AttemptRow.

Record desk (R : Type) := Desk {
  attempts : gmap string AttemptRow.t;  (* by payment_id, which is UNIQUE *)
  results : list OutboxEvent.t;         (* the service's outbox_events *)
  rows_used : nat;
  server_now : time;
  readings : nat;
  outside : R;
  charges : list (RailChargeRequest.t * res rail_error RailResult.t);
  waits : list Z
}.
Arguments Desk {R} _ _ _ _ _ _ _ _.
Arguments attempts {R} _.
Arguments results {R} _.
Arguments rows_used {R} _.
Arguments server_now {R} _.
Arguments readings {R} _.
Arguments outside {R} _.
Arguments charges {R} _.
Arguments waits {R} _.

Class Outside (R : Type) := {
  rail_Charge : RailChargeRequest.t -> R -> res rail_error RailResult.t * R;
  sleeper_Sleep : Z -> R -> res string unit * R;
  rand_Int63n : Z -> R -> Z * R
}.

(** [rand.Int63n(n)] is documented for [n > 0]. *)
Class OutsideOk (R : Type) `{Outside R} : Prop := {
  rand_Int63n_range : forall n r, 0 < n -> 0 <= fst (rand_Int63n n r) < n
}.

(** ** The statements *)

Section Statements.
Context {R : Type} `{Postgres}.
Implicit Types w : desk R.

Definition with_attempts (m : gmap string AttemptRow.t) w : desk R :=
  Desk m (results w) (rows_used w) (server_now w) (readings w) (outside w) (charges w) (waits w).
Definition with_results (l : list OutboxEvent.t) w : desk R :=
  Desk (attempts w) l (rows_used w) (server_now w) (readings w) (outside w) (charges w) (waits w).
Definition next_row w : desk R :=
  Desk (attempts w) (results w) (S (rows_used w)) (server_now w) (readings w) (outside w) (charges w) (waits w).
Definition next_reading w : desk R :=
  Desk (attempts w) (results w) (rows_used w) (server_now w) (S (readings w)) (outside w) (charges w) (waits w).
Definition with_outside (r : R) w : desk R :=
  Desk (attempts w) (results w) (rows_used w) (server_now w) (readings w) r (charges w) (waits w).
Definition sent (q : RailChargeRequest.t) (answer : res rail_error RailResult.t) w : desk R :=
  Desk (attempts w) (results w) (rows_used w) (server_now w) (readings w) (outside w) (charges w ++ [(q, answer)])%list
    (waits w).
Definition slept (d : Z) w : desk R :=
  Desk (attempts w) (results w) (rows_used w) (server_now w) (readings w) (outside w) (charges w) (waits w ++ [d])%list.

(** [COALESCE(NULLIF($n::timestamptz, '0001-01-01 00:00:00+00'), now())] *)
Definition stamp (t : time) w : time := if IsZero (pg_timestamp t) then server_now w else pg_timestamp t.

(** The column's check comes before the conflict is looked for; a conflict returns no
    row. *)
Definition stmt_insert_attempt (command : PaymentExecute.t) (now : time) w
    : res processor_error (option AttemptRow.t * desk R) :=
  if command.(PaymentExecute.AmountCents) <=? 0 then Err (ErrAttempts PgCheckViolation)
  else match attempts w !! command.(PaymentExecute.PaymentID) with
       | Some _ => Ok (None, next_row w)
       | None =>
           let row := AttemptRow.mk (gen_random_uuid (rows_used w))
                        command.(PaymentExecute.PaymentID) command.(PaymentExecute.IdempotencyKey)
                        command.(PaymentExecute.TraceID) command.(PaymentExecute.AmountCents)
                        command.(PaymentExecute.Currency) command.(PaymentExecute.LedgerReservationID)
                        command.(PaymentExecute.WalletDebitID) StatusPending 0 "" "" "" None None
                        (stamp now w) (stamp now w) in
           Ok (Some row, next_row (with_attempts (<[command.(PaymentExecute.PaymentID) := row]> (attempts w)) w))
       end.

(** [UPDATE payment_attempts SET ... WHERE payment_id = $1 RETURNING ...] *)
Definition stmt_update_attempt (paymentID : string) (f : AttemptRow.t -> AttemptRow.t) w
    : res processor_error (option AttemptRow.t * desk R) :=
  match attempts w !! paymentID with
  | None => Ok (None, w)
  | Some row => Ok (Some (f row), with_attempts (<[paymentID := f row]> (attempts w)) w)
  end.

Definition set_started (attemptCount : Z) (now : time) w (row : AttemptRow.t) : AttemptRow.t :=
  AttemptRow.with_attempt_count attemptCount (AttemptRow.with_updated_at (stamp now w) row).

Definition set_completed (processorPaymentID : string) (completedAt now : time) w (row : AttemptRow.t)
    : AttemptRow.t :=
  AttemptRow.with_status StatusCompleted (AttemptRow.with_processor_payment_id processorPaymentID
    (AttemptRow.with_completed_at (Some (stamp completedAt w)) (AttemptRow.with_updated_at (stamp now w) row))).

Definition set_failed (code message : string) (now : time) w (row : AttemptRow.t) : AttemptRow.t :=
  AttemptRow.with_status StatusFailed (AttemptRow.with_failure_code code (AttemptRow.with_failure_message message
    (AttemptRow.with_failed_at (Some (stamp now w)) (AttemptRow.with_updated_at (stamp now w) row)))).

Definition stmt_enqueue (ctx : context) (topic partitionKey : string) (payload : json) w
    : res processor_error (OutboxEvent.t * desk R) :=
  let e := OutboxEvent.mk (gen_random_uuid (rows_used w)) topic partitionKey payload
             (ctx_traceparent ctx) (ctx_tracestate ctx) None None (server_now w) in
  Ok (e, next_row (with_results (results w ++ [e])%list w)).
End Statements.

(** ** The store *)

Abbreviation pdesk R A := (prog (desk R) processor_error A).

Section Store.
Context {R : Type} `{Postgres} `{Uuid}.

Definition scan_columns (row : AttemptRow.t) : Attempt.t :=
  Attempt.mk (uuid_String row.(AttemptRow.id)) row.(AttemptRow.payment_id) row.(AttemptRow.idempotency_key)
    row.(AttemptRow.trace_id) row.(AttemptRow.amount_cents) row.(AttemptRow.currency)
    row.(AttemptRow.ledger_reservation_id) row.(AttemptRow.wallet_debit_id) row.(AttemptRow.status)
    row.(AttemptRow.attempt_count) row.(AttemptRow.processor_payment_id) row.(AttemptRow.failure_code)
    row.(AttemptRow.failure_message) (default zero_time row.(AttemptRow.completed_at))
    (default zero_time row.(AttemptRow.failed_at)) row.(AttemptRow.created_at) row.(AttemptRow.updated_at).

(** No row is [ErrNotFound]. *)
Definition scanAttempt (p : pdesk R (option AttemptRow.t)) : pdesk R Attempt.t :=
  let! r := p in
  match r with
  | Some row => ret (scan_columns row)
  | None => throw ErrAttemptNotFound
  end.

Definition GetByPaymentID (paymentID : string) : pdesk R Attempt.t :=
  scanAttempt (query (fun w => Ok (attempts w !! paymentID))).

Definition CreatePending (command : PaymentExecute.t) (now : time) : pdesk R Attempt.t :=
  let! r := attempt (scanAttempt (exec (stmt_insert_attempt command now))) in
  match r with
  | Ok created => ret created
  | Err err =>
      if negb (bool_decide (err = ErrAttemptNotFound)) then throw err
      else GetByPaymentID command.(PaymentExecute.PaymentID)
  end.

Definition MarkAttemptStarted (paymentID : string) (attemptCount : Z) (now : time) : pdesk R Attempt.t :=
  scanAttempt (exec (fun w => stmt_update_attempt paymentID (set_started attemptCount now w) w)).

Definition MarkCompleted (paymentID : string) (result : RailResult.t) (now : time) : pdesk R Attempt.t :=
  let completedAt := if IsZero result.(RailResult.CompletedAt) then now else result.(RailResult.CompletedAt) in
  scanAttempt (exec (fun w => stmt_update_attempt paymentID
    (set_completed result.(RailResult.ProcessorPaymentID) completedAt now w) w)).

Definition MarkFailed (paymentID : string) (failure : RailFailure.t) (now : time) : pdesk R Attempt.t :=
  scanAttempt (exec (fun w => stmt_update_attempt paymentID
    (set_failed failure.(RailFailure.Code) failure.(RailFailure.Message) now w) w)).
End Store.

(** ** The processor *)

Definition validateCommand (command : PaymentExecute.t) : res processor_error unit :=
  if command.(PaymentExecute.PaymentID) =s "" then Err (ErrCommand "payment_id is required")
  else if command.(PaymentExecute.IdempotencyKey) =s "" then Err (ErrCommand "idempotency_key is required")
  else if command.(PaymentExecute.AmountCents) <=? 0 then Err (ErrCommand "amount_cents must be positive")
  else if command.(PaymentExecute.Currency) =s "" then Err (ErrCommand "currency is required")
  else Ok tt.

(** [NewProcessor]: no list of pauses means the default one. *)
Definition processor_backoffs (configured : option (list Z)) : list Z :=
  default [Second; 3 * Second; 9 * Second] configured.

Section Processor.
Context {R : Type} `{Outside R} `{Clock} `{Postgres} `{Uuid}.
Variable ctx : context.
Variable backoffs : list Z.

(** A step outside the database: it has an answer and no transaction around it. *)
Definition step_outside {A} (f : desk R -> A * desk R) : pdesk R A := fun c =>
  let '(a, w) := f (current c) in (Ok a, put w c).

Definition clock_Now : pdesk R time := step_outside (fun w => (clock_at (readings w), next_reading w)).

Definition Charge (q : RailChargeRequest.t) : pdesk R (res rail_error RailResult.t) :=
  step_outside (fun w => let '(r, o) := rail_Charge q (outside w) in (r, sent q r (with_outside o w))).

Definition randomJitter (duration : Z) : pdesk R Z :=
  if duration <=? 0 then ret 0
  else
    let half := Z.quot duration 2 in
    step_outside (fun w => let '(x, o) := rand_Int63n (duration - half + 1) (outside w) in
                           (half + x, with_outside o w)).

Definition Sleep (d : Z) : pdesk R unit :=
  let! r := step_outside (fun w => let '(r, o) := sleeper_Sleep d (outside w) in (r, slept d (with_outside o w))) in
  match r with Ok _ => ret tt | Err message => throw (ErrSleep message) end.

Definition Enqueue (topic partitionKey : string) (payload : json) : pdesk R unit :=
  exec (stmt_enqueue ctx topic partitionKey payload) ;! ret tt.

Definition publishCompleted (attempt : Attempt.t) : pdesk R unit :=
  let! completedAt := if IsZero attempt.(Attempt.CompletedAt) then clock_Now
                      else ret attempt.(Attempt.CompletedAt) in
  let! now := clock_Now in
  Enqueue TopicPaymentCompleted attempt.(Attempt.PaymentID)
    (PaymentCompleted.to_json (PaymentCompleted.mk
       ("payment.completed:" ++ attempt.(Attempt.PaymentID)) attempt.(Attempt.PaymentID)
       attempt.(Attempt.IdempotencyKey) attempt.(Attempt.TraceID) attempt.(Attempt.ProcessorPaymentID)
       StatusCompleted completedAt now)).

Definition publishFailed (attempt : Attempt.t) : pdesk R unit :=
  let! failedAt := if IsZero attempt.(Attempt.FailedAt) then clock_Now else ret attempt.(Attempt.FailedAt) in
  let! now := clock_Now in
  Enqueue TopicPaymentFailed attempt.(Attempt.PaymentID)
    (PaymentFailed.to_json (PaymentFailed.mk
       ("payment.failed:" ++ attempt.(Attempt.PaymentID)) attempt.(Attempt.PaymentID)
       attempt.(Attempt.IdempotencyKey) attempt.(Attempt.TraceID) attempt.(Attempt.FailureCode)
       attempt.(Attempt.FailureMessage) failedAt now)).

Definition charge_request (current : Attempt.t) : RailChargeRequest.t :=
  RailChargeRequest.mk current.(Attempt.PaymentID) current.(Attempt.IdempotencyKey) current.(Attempt.TraceID)
    current.(Attempt.AmountCents) current.(Attempt.Currency) current.(Attempt.LedgerReservationID)
    current.(Attempt.WalletDebitID).

Definition maxAttempts : Z := Z.of_nat (length backoffs) + 1.

(** The failure that is recorded when the last attempt may not be retried. *)
Definition exhausted (failure : RailFailure.t) : RailFailure.t :=
  RailFailure.mk
    (if failure.(RailFailure.Code) =s "" then "rail_retry_exhausted" else failure.(RailFailure.Code))
    (if failure.(RailFailure.Message) =s "" then "retryable rail failure exhausted" else failure.(RailFailure.Message))
    false.

Definition fail_payment (paymentID : string) (failure : RailFailure.t) : pdesk R unit :=
  let! now := clock_Now in
  let! failed := MarkFailed paymentID failure now in
  publishFailed failed.

Definition complete_payment (paymentID : string) (result : RailResult.t) : pdesk R unit :=
  let! completedAt := if IsZero result.(RailResult.CompletedAt) then clock_Now
                      else ret result.(RailResult.CompletedAt) in
  let! now := clock_Now in
  let! completed := MarkCompleted paymentID (RailResult.mk result.(RailResult.ProcessorPaymentID) completedAt) now in
  publishCompleted completed.

(** The loop of [processPending]: [remaining] attempts are left, the next one is
    [nextAttempt]. *)
Fixpoint attempt_loop (remaining : nat) (paymentID : string) (nextAttempt : Z) : pdesk R unit :=
  match remaining with
  | O => ret tt
  | S remaining =>
      let! now := clock_Now in
      let! current := MarkAttemptStarted paymentID nextAttempt now in
      let! answer := Charge (charge_request current) in
      match answer with
      | Ok result => complete_payment current.(Attempt.PaymentID) result
      | Err err =>
          let failure := classifyRailFailure err in
          if negb failure.(RailFailure.Retryable) then fail_payment current.(Attempt.PaymentID) failure
          else if nextAttempt =? maxAttempts then fail_payment current.(Attempt.PaymentID) (exhausted failure)
          else
            let! backoff := randomJitter (nth (Z.to_nat (nextAttempt - 1)) backoffs 0) in
            Sleep backoff ;!
            attempt_loop remaining paymentID (nextAttempt + 1)
      end
  end.

Definition firstAttempt (attempt : Attempt.t) : Z :=
  if maxAttempts <? attempt.(Attempt.AttemptCount) + 1 then maxAttempts
  else attempt.(Attempt.AttemptCount) + 1.

(** [for nextAttempt := firstAttempt; nextAttempt <= maxAttempts; nextAttempt++] *)
Definition processPending (attempt : Attempt.t) : pdesk R unit :=
  attempt_loop (Z.to_nat (maxAttempts - firstAttempt attempt + 1)) attempt.(Attempt.PaymentID)
    (firstAttempt attempt).

(** [switch attempt.Status] *)
Definition dispatch (attempt : Attempt.t) : pdesk R unit :=
  if attempt.(Attempt.Status) =s StatusCompleted then publishCompleted attempt
  else if attempt.(Attempt.Status) =s StatusFailed then publishFailed attempt
  else if attempt.(Attempt.Status) =s StatusPending then processPending attempt
  else throw (ErrUnknownStatus attempt.(Attempt.Status)).

Definition HandleExecute (command : PaymentExecute.t) : pdesk R unit :=
  lift (validateCommand command) ;!
  let! now := clock_Now in
  let! attempt := CreatePending command now in
  dispatch attempt.
End Processor.

Lemma firstAttempt_range backoffs attempt :
  0 <= attempt.(Attempt.AttemptCount) -> 1 <= firstAttempt backoffs attempt <= maxAttempts backoffs.
Proof.
  intros Hcount. unfold firstAttempt.
  destruct (Z.ltb_spec (maxAttempts backoffs) (attempt.(Attempt.AttemptCount) + 1)); unfold maxAttempts in *; lia.
Qed.

(** ** What the processor keeps *)

Definition settled (row : AttemptRow.t) : Prop :=
  row.(AttemptRow.status) = StatusCompleted \/ row.(AttemptRow.status) = StatusFailed.

Lemma pending_not_settled row : row.(AttemptRow.status) = StatusPending -> ~ settled row.
Proof. unfold settled. intros ->. by intros [? | ?]. Qed.

(** What the rail is told about the payment of a row. *)
Definition command_of (row : AttemptRow.t) : RailChargeRequest.t :=
  RailChargeRequest.mk row.(AttemptRow.payment_id) row.(AttemptRow.idempotency_key) row.(AttemptRow.trace_id)
    row.(AttemptRow.amount_cents) row.(AttemptRow.currency) row.(AttemptRow.ledger_reservation_id)
    row.(AttemptRow.wallet_debit_id).

(** The event says what the row says. *)
Definition reports (e : OutboxEvent.t) (row : AttemptRow.t) : Prop :=
  e.(OutboxEvent.PartitionKey) = row.(AttemptRow.payment_id) /\
  ((row.(AttemptRow.status) = StatusCompleted /\ e.(OutboxEvent.Topic) = TopicPaymentCompleted /\
    exists c, e.(OutboxEvent.Payload) = PaymentCompleted.to_json c /\
      c.(PaymentCompleted.PaymentID) = row.(AttemptRow.payment_id) /\
      c.(PaymentCompleted.EventID) = "payment.completed:" ++ row.(AttemptRow.payment_id) /\
      c.(PaymentCompleted.ProcessorPaymentID) = row.(AttemptRow.processor_payment_id)) \/
   (row.(AttemptRow.status) = StatusFailed /\ e.(OutboxEvent.Topic) = TopicPaymentFailed /\
    exists f, e.(OutboxEvent.Payload) = PaymentFailed.to_json f /\
      f.(PaymentFailed.PaymentID) = row.(AttemptRow.payment_id) /\
      f.(PaymentFailed.EventID) = "payment.failed:" ++ row.(AttemptRow.payment_id) /\
      f.(PaymentFailed.FailureCode) = row.(AttemptRow.failure_code) /\
      f.(PaymentFailed.FailureMessage) = row.(AttemptRow.failure_message))).

(** What the rail answered accounts for the row: it completed the payment it was asked
    for, failed it for good, or failed it on the last attempt. *)
Definition answered (log : list (RailChargeRequest.t * res rail_error RailResult.t)) (row : AttemptRow.t) : Prop :=
  (row.(AttemptRow.status) = StatusCompleted ->
   exists result, (command_of row, Ok result) ∈ log /\
     row.(AttemptRow.processor_payment_id) = result.(RailResult.ProcessorPaymentID)) /\
  (row.(AttemptRow.status) = StatusFailed ->
   exists err, (command_of row, Err err) ∈ log /\
     let failure := classifyRailFailure err in
     let recorded := if failure.(RailFailure.Retryable) then exhausted failure else failure in
     row.(AttemptRow.failure_code) = recorded.(RailFailure.Code) /\
     row.(AttemptRow.failure_message) = recorded.(RailFailure.Message)).

Lemma answered_pending log row : row.(AttemptRow.status) = StatusPending -> answered log row.
Proof. unfold answered. intros ->. by split. Qed.

Lemma answered_mono log log' row : log `prefix_of` log' -> answered log row -> answered log' row.
Proof.
  intros [k ->] [Hc Hf]. split; intros Hs.
  - destruct (Hc Hs) as (x & ? & ?). exists x. split; [apply elem_of_app; by left | done].
  - destruct (Hf Hs) as (x & ? & ?). exists x. split; [apply elem_of_app; by left | done].
Qed.

Lemma reports_settled e row : reports e row -> settled row.
Proof. unfold reports, settled. naive_solver. Qed.

Section Keeps.
Context {R : Type} `{Outside R} `{Clock} `{Postgres} `{Uuid}.
Implicit Types w : desk R.

Record desk_ok w : Prop := {
  ok_rows p row : attempts w !! p = Some row ->
    row.(AttemptRow.payment_id) = p /\ 0 <= row.(AttemptRow.attempt_count) /\
    (settled row \/ row.(AttemptRow.status) = StatusPending) /\ answered (charges w) row;
  ok_results e : e ∈ results w ->
    exists row, attempts w !! e.(OutboxEvent.PartitionKey) = Some row /\ reports e row;
  ok_charges q answer : (q, answer) ∈ charges w ->
    (exists row, attempts w !! q.(RailChargeRequest.PaymentID) = Some row /\ command_of row = q) /\
    (exists o, fst (rail_Charge q o) = answer)
}.

Definition charges_of (p : string) w : list (RailChargeRequest.t * res rail_error RailResult.t) :=
  filter (fun x => x.1.(RailChargeRequest.PaymentID) = p) (charges w).

(** Payments stay what they were ordered to be, and a settled one is left alone. *)
Definition goes_on w w' : Prop :=
  forall p row, attempts w !! p = Some row ->
    exists row', attempts w' !! p = Some row' /\ command_of row' = command_of row /\
      (settled row -> row' = row /\ charges_of p w' = charges_of p w).

#[export] Instance goes_on_preorder : PreOrder goes_on.
Proof.
  split; [intros w p row Hp; by exists row |].
  intros w1 w2 w3 H12 H23 p row Hp.
  destruct (H12 _ _ Hp) as (r2 & Hr2 & Hc2 & Hs2). destruct (H23 _ _ Hr2) as (r3 & Hr3 & Hc3 & Hs3).
  exists r3. split; [done |]. split; [congruence |]. intros Hs. destruct (Hs2 Hs) as [-> Hq2].
  destruct (Hs3 Hs) as [-> Hq3]. split; congruence.
Qed.

(** Steps that touch neither the rows, the events nor the log of charges. *)
Definition same_desk w w' : Prop :=
  attempts w' = attempts w /\ results w' = results w /\ charges w' = charges w.

Lemma same_desk_ok w w' : same_desk w w' -> desk_ok w -> desk_ok w' /\ goes_on w w'.
Proof.
  intros (Ha & Hr & Hc) [Hrows Hres Hch]. split; [split; rewrite ?Ha, ?Hr, ?Hc; auto |].
  intros p row Hp. exists row. unfold charges_of. by rewrite Ha, Hc.
Qed.

(** A write to a pending row. *)
Lemma update_ok p row row' w :
  attempts w !! p = Some row -> row.(AttemptRow.status) = StatusPending ->
  command_of row' = command_of row -> 0 <= row'.(AttemptRow.attempt_count) ->
  settled row' \/ row'.(AttemptRow.status) = StatusPending -> answered (charges w) row' ->
  desk_ok w ->
  let w' := with_attempts (<[p := row']> (attempts w)) w in desk_ok w' /\ goes_on w w'.
Proof.
  intros Hp Hpend Hcmd Hcount Hst Hans [Hrows Hres Hch]. cbn zeta.
  assert (row'.(AttemptRow.payment_id) = row.(AttemptRow.payment_id)) as Hid
    by (unfold command_of in Hcmd; by injection Hcmd).
  split; [split; simpl |].
  - intros q r. destruct (decide (p = q)) as [<- | Hne].
    + rewrite lookup_insert_eq. intros [= <-]. rewrite Hid. by destruct (Hrows _ _ Hp) as (-> & _).
    + rewrite lookup_insert_ne by done. apply Hrows.
  - intros e He. destruct (Hres e He) as (r & Hr & Hrep). exists r. split; [| done].
    rewrite lookup_insert_ne; [done |]. intros ->. rewrite Hp in Hr. injection Hr as ->.
    by apply reports_settled, pending_not_settled in Hrep.
  - intros q x Hq. destruct (Hch q x Hq) as [(r & Hr & Hrc) Hrail]. split; [| done].
    destruct (decide (p = q.(RailChargeRequest.PaymentID))) as [Heq | Hne].
    + exists row'. rewrite Heq, lookup_insert_eq. split; [done |]. rewrite Heq in Hp. rewrite Hp in Hr.
      injection Hr as <-. congruence.
    + exists r. by rewrite lookup_insert_ne.
  - intros q r Hr. simpl. destruct (decide (p = q)) as [<- | Hne].
    + rewrite lookup_insert_eq. exists row'. split; [done |]. rewrite Hp in Hr. injection Hr as <-.
      split; [done |]. intros Hs. by apply pending_not_settled in Hs.
    + exists r. by rewrite lookup_insert_ne.
Qed.

(** The first row of a payment. *)
Lemma insert_ok p row w :
  attempts w !! p = None -> row.(AttemptRow.payment_id) = p -> 0 <= row.(AttemptRow.attempt_count) ->
  row.(AttemptRow.status) = StatusPending -> desk_ok w ->
  let w' := with_attempts (<[p := row]> (attempts w)) w in desk_ok w' /\ goes_on w w'.
Proof.
  intros Hp Hid Hcount Hst [Hrows Hres Hch]. cbn zeta.
  assert (forall q r, attempts w !! q = Some r -> (<[p := row]> (attempts w)) !! q = Some r) as Hkeep.
  { intros q r Hr. rewrite lookup_insert_ne; [done |]. intros ->. congruence. }
  split; [split; simpl |].
  - intros q r. destruct (decide (p = q)) as [<- | Hne].
    + rewrite lookup_insert_eq. intros [= <-]. auto using answered_pending.
    + rewrite lookup_insert_ne by done. apply Hrows.
  - intros e He. destruct (Hres e He) as (r & Hr & Hrep). exists r. auto.
  - intros q x Hq. destruct (Hch q x Hq) as [(r & Hr & Hrc) Hrail]. split; [| done]. exists r. auto.
  - intros q r Hr. exists r. split; [by apply Hkeep |]. done.
Qed.

(** A charge of a pending payment, and an event of a settled one. *)
Lemma sent_ok p row answer w :
  attempts w !! p = Some row -> row.(AttemptRow.status) = StatusPending ->
  (exists o, fst (rail_Charge (command_of row) o) = answer) -> desk_ok w ->
  desk_ok (sent (command_of row) answer w) /\ goes_on w (sent (command_of row) answer w).
Proof.
  intros Hp Hst Hrail [Hrows Hres Hch]. destruct (Hrows _ _ Hp) as (Hid & _ & _).
  split; [split; simpl; [| done |] |].
  - intros q r Hr. destruct (Hrows q r Hr) as (? & ? & ? & Ha). do 3 (split; [done |]).
    eapply answered_mono; [by apply prefix_app_r | done].
  - intros q x [Hq | [= -> ->]%list_elem_of_singleton]%elem_of_app; [by apply Hch |].
    split; [| done]. exists row. simpl. by rewrite Hid.
  - intros q r Hr. exists r. split; [done |]. split; [done |]. intros Hs. split; [done |].
    unfold charges_of. simpl. rewrite list.filter_app, list.filter_cons_False, list.filter_nil, app_nil_r; [done |].
    simpl. rewrite Hid. intros ->. rewrite Hp in Hr. injection Hr as <-. by apply pending_not_settled in Hs.
Qed.

Lemma told_ok p row e w :
  attempts w !! p = Some row -> reports e row -> desk_ok w ->
  let w' := with_results (results w ++ [e]) w in desk_ok w' /\ goes_on w w'.
Proof.
  intros Hp Hrep [Hrows Hres Hch]. destruct (Hrows _ _ Hp) as (Hid & _ & _).
  split; [split; simpl; [done | | done] |].
  - intros e' [He | ->%list_elem_of_singleton]%elem_of_app; [by apply Hres |]. exists row. split; [| done].
    by rewrite (proj1 Hrep), Hid.
  - intros q r Hr. by exists r.
Qed.
End Keeps.

(** ** The handlers, under any faults *)

Section Triples.
Context {R : Type} `{Outside R} `{!OutsideOk R} `{Clock} `{Postgres} `{Uuid}.
Variable ctx : context.
Variable backoffs : list Z.
Variable w0 : desk R.
Implicit Types w : desk R.

(** Reached from [w0] by sound steps, with at most [n] charges and [m] of waiting. *)
Definition on_desk (n : nat) (m : Z) w : Prop :=
  desk_ok w /\ goes_on w0 w /\ (length (charges w) <= n)%nat /\ sumZ id (waits w) <= m.

(** [F] of the row of the payment [p] and the answers the rail has given. *)
Definition at_row (n : nat) (m : Z) (p : string)
    (F : list (RailChargeRequest.t * res rail_error RailResult.t) -> AttemptRow.t -> Prop) w : Prop :=
  on_desk n m w /\ exists row, attempts w !! p = Some row /\ F (charges w) row.

Definition is_pending (row : AttemptRow.t) : Prop := row.(AttemptRow.status) = StatusPending.
Definition pending_with (log : list (RailChargeRequest.t * res rail_error RailResult.t)) (row : AttemptRow.t) : Prop :=
  is_pending row.
Definition told (answer : res rail_error RailResult.t)
    (log : list (RailChargeRequest.t * res rail_error RailResult.t)) (row : AttemptRow.t) : Prop :=
  is_pending row /\ (command_of row, answer) ∈ log.

Lemma on_desk_weaken n n' m m' w : (n <= n')%nat -> m <= m' -> on_desk n m w -> on_desk n' m' w.
Proof. intros ? ? (Hok & Hgo & Hn & Hm). split; [exact Hok |]. split; [exact Hgo |]. split; lia. Qed.

Lemma on_desk_step n m w w' :
  desk_ok w' /\ goes_on w w' -> (length (charges w') <= n)%nat -> sumZ id (waits w') <= m ->
  on_desk n m w -> on_desk n m w'.
Proof. intros [Hok Hgo] ? ? (_ & Hg & _ & _). split; [done |]. split; [by etrans |]. done. Qed.

Lemma on_desk_same n m w w' :
  same_desk w w' -> waits w' = waits w -> on_desk n m w -> on_desk n m w'.
Proof.
  intros Hs Hw Hd. pose proof Hd as (Hok & _ & Hn & Hm).
  apply (on_desk_step n m w); [by apply same_desk_ok | | by rewrite Hw | done].
  destruct Hs as (_ & _ & ->). done.
Qed.

Lemma at_row_same n m p F w w' :
  same_desk w w' -> waits w' = waits w -> at_row n m p F w -> at_row n m p F w'.
Proof.
  intros Hs Hw [Hd Hr]. split; [by eapply on_desk_same |]. by destruct Hs as (-> & _ & ->).
Qed.

Lemma triple_outside {A} (f : desk R -> A * desk R) P (Q : A -> desk R -> Prop) X :
  (forall w, P w -> Q (fst (f w)) (snd (f w))) -> triple P (step_outside f) Q X.
Proof.
  intros Hf w s Hw. unfold wp, step_outside, current, put. simpl. specialize (Hf w Hw).
  by destruct (f w).
Qed.

Lemma triple_reading n m p F X : triple (at_row n m p F) clock_Now (fun _ => at_row n m p F) X.
Proof. apply triple_outside. intros w. by apply at_row_same. Qed.

Lemma triple_reading_or n m p F X (t : time) :
  triple (at_row n m p F) (if IsZero t then clock_Now else ret t) (fun _ => at_row n m p F) X.
Proof. destruct (IsZero t); [apply triple_reading | by apply triple_ret]. Qed.

(** A statement on the row of a pending payment. *)
Lemma triple_mark n m p (f : desk R -> AttemptRow.t -> AttemptRow.t) F (F' : AttemptRow.t -> Prop) :
  (forall w row, F (charges w) row -> row.(AttemptRow.payment_id) = p -> 0 <= row.(AttemptRow.attempt_count) ->
     is_pending row /\ command_of (f w row) = command_of row /\ 0 <= (f w row).(AttemptRow.attempt_count) /\
     (settled (f w row) \/ is_pending (f w row)) /\ answered (charges w) (f w row) /\ F' (f w row)) ->
  triple (at_row n m p F) (scanAttempt (exec (fun w => stmt_update_attempt p (f w) w)))
    (fun a => at_row n m p (fun _ row => F' row /\ a = scan_columns row)) (on_desk n m).
Proof.
  intros Hf. unfold scanAttempt. eapply triple_bind with (Q := fun r w =>
    at_row n m p (fun _ row => F' row /\ r = Some row) w).
  - eapply triple_refines with (Inv := anywhere); [apply refines_exec |].
    intros w [Hd (row & Hp & HF)]. split; [done |]. split; [done |]. intros a w'.
    unfold stmt_update_attempt. rewrite Hp. intros [= <- <-].
    destruct (Hf w row HF) as (Hpend & Hc & Hcount & Hst & Hans & HF'); [by eapply (ok_rows w); [apply Hd |].. |].
    assert (on_desk n m (with_attempts (<[p := f w row]> (attempts w)) w)) as Hd'.
    { apply (on_desk_step n m w); [eapply update_ok; try done; apply Hd | apply Hd | apply Hd | done]. }
    split; [| done]. split; [done |]. exists (f w row). simpl. by rewrite lookup_insert_eq.
  - intros [row |].
    + apply triple_ret. intros w [Hd (row' & Hp & HF & [= ->])]. split; [done |]. by exists row'.
    + apply triple_throw. by intros w [Hd _].
Qed.

Lemma triple_charge n m p a X :
  triple (at_row n m p (fun _ row => is_pending row /\ a = scan_columns row)) (Charge (charge_request a))
    (fun answer => at_row (S n) m p (told answer)) X.
Proof.
  apply triple_outside. intros w [Hd (row & Hp & Hpend & ->)].
  assert (exists o, fst (rail_Charge (command_of row) o) = fst (rail_Charge (charge_request (scan_columns row)) (outside w)))
    as Hrail by (by exists (outside w)).
  destruct (rail_Charge _ _) as [r o]. simpl in *. fold (command_of row).
  pose proof Hd as (Hok & _ & Hn & Hm).
  assert (on_desk n m (with_outside o w)) as Hd1 by (by apply (on_desk_same n m w)).
  split; [| exists row; split; [done |]; split; [done |]; apply elem_of_app; right; by apply list_elem_of_singleton].
  apply (on_desk_step (S n) m (with_outside o w)).
  - by apply (sent_ok p); [done | done | done | apply Hd1].
  - simpl. rewrite length_app. simpl. lia.
  - done.
  - eapply on_desk_weaken; [| | exact Hd1]; lia.
Qed.

Lemma triple_jitter n m p F b X :
  triple (at_row n m p F) (randomJitter b) (fun d w => at_row n m p F w /\ 0 <= d <= Z.max 0 b) X.
Proof.
  unfold randomJitter. destruct (b <=? 0) eqn:Hb.
  - apply triple_ret. intros w Hw. split; [done | lia].
  - apply triple_outside. intros w Hw. set (half := Z.quot b 2).
    assert (0 <= half <= b) as Hh by (unfold half; split; [apply Z.quot_pos; lia | apply Z.quot_le_upper_bound; lia]).
    pose proof (rand_Int63n_range (b - half + 1) (outside w)) as Hx.
    destruct (rand_Int63n _ _) as [x o]. simpl in *. split; [by apply (at_row_same n m p F w) | lia].
Qed.

Lemma triple_sleep n m p F b d :
  0 <= d <= b -> triple (at_row n m p F) (Sleep d) (fun _ => at_row n (m + b) p F) (on_desk n (m + b)).
Proof.
  intros Hd. unfold Sleep. eapply triple_bind with (Q := fun _ => at_row n (m + b) p F).
  - apply triple_outside. intros w [Hw Hr]. destruct (sleeper_Sleep _ _) as [r o]. simpl.
    split; [| done]. pose proof Hw as (_ & _ & Hn & Hm).
    apply (on_desk_step n (m + b) w); [by apply same_desk_ok; [| apply Hw] | done | |].
    + simpl. rewrite sumZ_snoc. unfold id at 2. lia.
    + eapply on_desk_weaken; [| | exact Hw]; lia.
  - intros [[] | message]; [by apply triple_ret |]. apply triple_throw. by intros w [Hw _].
Qed.

(** Queueing the event of a settled payment. *)
Lemma triple_enqueue n m p topic key payload F :
  (forall e log row, F log row -> e.(OutboxEvent.Topic) = topic -> e.(OutboxEvent.PartitionKey) = key ->
     e.(OutboxEvent.Payload) = payload -> reports e row) ->
  triple (at_row n m p F) (Enqueue ctx topic key payload) (fun _ => on_desk n m) (on_desk n m).
Proof.
  intros Hrep. unfold Enqueue. eapply triple_bind with (Q := fun _ => on_desk n m).
  - eapply triple_refines with (Inv := anywhere); [apply refines_exec |].
    intros w [Hd (row & Hp & HF)]. split; [done |]. split; [done |]. intros a w'. unfold stmt_enqueue.
    set (e := OutboxEvent.mk _ _ _ _ _ _ _ _ _). intros [= <- <-].
    assert (on_desk n m (with_results (results w ++ [e]) w)) as Hd'.
    { apply (on_desk_step n m w); [eapply (told_ok p); [done | by eapply Hrep | apply Hd] | apply Hd | apply Hd | done]. }
    split; by apply (on_desk_same n m (with_results (results w ++ [e]) w)).
  - intros _. by apply triple_ret.
Qed.

Lemma triple_publish_completed n m p a :
  triple (at_row n m p (fun _ row => row.(AttemptRow.status) = StatusCompleted /\ a = scan_columns row))
    (publishCompleted ctx a) (fun _ => on_desk n m) (on_desk n m).
Proof.
  unfold publishCompleted. eapply triple_bind; [apply triple_reading_or |]. intros at1.
  eapply triple_bind; [apply triple_reading |]. intros at2.
  apply triple_enqueue. intros e log row [Hst ->] Ht Hk Hp. split; [done |]. left. split; [done |]. split; [done |].
  rewrite Hp. eexists. split; [reflexivity |]. done.
Qed.

Lemma triple_publish_failed n m p a :
  triple (at_row n m p (fun _ row => row.(AttemptRow.status) = StatusFailed /\ a = scan_columns row))
    (publishFailed ctx a) (fun _ => on_desk n m) (on_desk n m).
Proof.
  unfold publishFailed. eapply triple_bind; [apply triple_reading_or |]. intros at1.
  eapply triple_bind; [apply triple_reading |]. intros at2.
  apply triple_enqueue. intros e log row [Hst ->] Ht Hk Hp. split; [done |]. right. split; [done |]. split; [done |].
  rewrite Hp. eexists. split; [reflexivity |]. done.
Qed.

Lemma triple_complete n m p result :
  triple (at_row n m p (told (Ok result))) (complete_payment ctx p result) (fun _ => on_desk n m) (on_desk n m).
Proof.
  unfold complete_payment. eapply triple_bind; [apply triple_reading_or |]. intros at1.
  eapply triple_bind; [apply triple_reading |]. intros at2.
  eapply triple_bind; [apply triple_mark | intros a; apply triple_publish_completed].
  intros w row [Hp Hlog] Hid Hc. do 3 (split; [done |]). split; [left; by left |]. split; [| done].
  split; [| done]. intros _. by exists result.
Qed.

Lemma triple_fail n m p err failure :
  failure = (let f := classifyRailFailure err in if f.(RailFailure.Retryable) then exhausted f else f) ->
  triple (at_row n m p (told (Err err))) (fail_payment ctx p failure) (fun _ => on_desk n m) (on_desk n m).
Proof.
  intros Hf. unfold fail_payment. eapply triple_bind; [apply triple_reading |]. intros at1.
  eapply triple_bind; [apply triple_mark | intros a; apply triple_publish_failed].
  intros w row [Hp Hlog] Hid Hc. do 3 (split; [done |]). split; [left; by right |]. split; [| done].
  split; [done |]. intros _. exists err. split; [done |]. cbn zeta in Hf |- *. by rewrite <- Hf.
Qed.

Lemma triple_started n m p k now :
  0 <= k ->
  triple (at_row n m p pending_with) (MarkAttemptStarted p k now)
    (fun a w => at_row n m p (fun _ row => is_pending row /\ a = scan_columns row) w /\ a.(Attempt.PaymentID) = p)
    (on_desk n m).
Proof.
  intros Hk. eapply triple_conseq.
  - eapply (triple_mark n m p _ pending_with (fun row => is_pending row /\ row.(AttemptRow.payment_id) = p)).
    intros w row Hp Hid Hc. do 3 (split; [done |]). split; [by right |]. split; [by apply answered_pending | done].
  - done.
  - intros a w [Hd (row & Hp & [Hpend Hid] & ->)]. split; [| done]. split; [done |]. by exists row.
  - done.
Qed.

(** What is left of the pauses from the [k]-th on. *)
Definition pauses (k : Z) : Z := sumZ (Z.max 0) (drop (Z.to_nat k) backoffs).

Lemma pauses_step k :
  0 <= k < Z.of_nat (length backoffs) ->
  pauses k = Z.max 0 (nth (Z.to_nat k) backoffs 0) + pauses (k + 1).
Proof.
  intros Hk. unfold pauses. replace (Z.to_nat (k + 1)) with (S (Z.to_nat k)) by lia.
  destruct (lookup_lt_is_Some_2 backoffs (Z.to_nat k)) as [x Hx]; [lia |].
  rewrite (drop_S _ _ _ Hx), (nth_lookup_Some _ _ _ _ Hx). done.
Qed.

Lemma pauses_nonneg k : 0 <= pauses k.
Proof. apply sumZ_nonneg. intros x _. lia. Qed.

Lemma pauses_le k : 0 <= k -> pauses k <= pauses 0.
Proof.
  intros Hk. unfold pauses. change (drop (Z.to_nat 0) backoffs) with backoffs.
  rewrite <- (take_drop (Z.to_nat k) backoffs) at 2. rewrite sumZ_app.
  pose proof (sumZ_nonneg (Z.max 0) (take (Z.to_nat k) backoffs) ltac:(lia)). lia.
Qed.

Lemma triple_loop p remaining : forall next n m,
  1 <= next -> Z.of_nat remaining = maxAttempts backoffs - next + 1 ->
  triple (at_row n m p pending_with) (attempt_loop ctx backoffs remaining p next)
    (fun _ => on_desk (n + remaining) (m + pauses (next - 1))) (on_desk (n + remaining) (m + pauses (next - 1))).
Proof.
  induction remaining as [| remaining IH]; intros next n m Hnext Hrem; simpl.
  { apply triple_ret. intros w [Hd _]. pose proof (pauses_nonneg (next - 1)).
    eapply on_desk_weaken; [| | exact Hd]; lia. }
  pose proof (pauses_nonneg (next - 1)) as Hpos.
  assert (forall w, on_desk (S n) m w -> on_desk (n + S remaining) (m + pauses (next - 1)) w) as Hup.
  { intros w. apply on_desk_weaken; lia. }
  eapply triple_bind; [apply triple_reading |]. intros now.
  eapply triple_bind.
  { eapply triple_error; [apply triple_started; lia |]. intros w. apply on_desk_weaken; lia. }
  intros a. eapply triple_pure with (F := a.(Attempt.PaymentID) = p); [intros w Hw; exact (proj2 Hw) |]. intros Hid.
  eapply triple_bind.
  { eapply triple_conseq; [apply (triple_charge n m p a) | intros w Hw; exact (proj1 Hw) | done |].
    intros w Hw. exact Hw. }
  intros [result | err]; rewrite Hid.
  { eapply triple_conseq; [apply triple_complete | done | intros [] w; apply Hup | exact Hup]. }
  destruct (RailFailure.Retryable _) eqn:Hretry; simpl.
  2: { eapply triple_conseq; [apply (triple_fail (S n) m p err); simpl; by rewrite Hretry | done | intros [] w; apply Hup | exact Hup]. }
  destruct (next =? maxAttempts backoffs) eqn:Hlast.
  { eapply triple_conseq; [apply (triple_fail (S n) m p err); simpl; by rewrite Hretry | done | intros [] w; apply Hup | exact Hup]. }
  apply Z.eqb_neq in Hlast. unfold maxAttempts in *. rewrite (pauses_step (next - 1)) by lia.
  eapply triple_bind; [apply triple_jitter |]. intros d.
  eapply triple_pure with (F := 0 <= d <= _); [intros w Hw; exact (proj2 Hw) |]. intros Hd.
  eapply triple_bind.
  { eapply triple_conseq; [apply (triple_sleep (S n) m p (told (Err err)) _ d Hd) | intros w Hw; exact (proj1 Hw) | done |].
    intros w. pose proof (pauses_nonneg (next - 1 + 1)). apply on_desk_weaken; lia. }
  intros []. replace (next - 1 + 1) with (next + 1 - 1) by lia.
  eapply triple_conseq;
    [apply (IH (next + 1) (S n) (m + Z.max 0 (nth (Z.to_nat (next - 1)) backoffs 0))); lia | | |];
    [| intros *; apply on_desk_weaken; lia..].
  intros w [Hw (row & Hp & Hpend & _)]. split; [done |]. by exists row.
Qed.

(** The row an answer of the store was read from. *)
Definition read_from (a : Attempt.t) (log : list (RailChargeRequest.t * res rail_error RailResult.t))
    (row : AttemptRow.t) : Prop := a = scan_columns row.

Lemma triple_insert n m command now :
  triple (on_desk n m) (scanAttempt (exec (stmt_insert_attempt command now)))
    (fun a => at_row n m command.(PaymentExecute.PaymentID) (read_from a)) (on_desk n m).
Proof.
  set (p := command.(PaymentExecute.PaymentID)).
  eapply triple_bind with (Q := fun r w => on_desk n m w /\
    forall row, r = Some row -> at_row n m p (read_from (scan_columns row)) w).
  - eapply triple_refines with (Inv := anywhere); [apply refines_exec |].
    intros w Hd. split; [done |]. split; [done |]. intros r w'. unfold stmt_insert_attempt.
    destruct (_ <=? 0); [done |]. fold p. destruct (attempts w !! p) eqn:Hp.
    + intros [= <- <-]. assert (on_desk n m (next_row w)) by (by apply (on_desk_same n m w)). done.
    + set (row := AttemptRow.mk _ _ _ _ _ _ _ _ _ _ _ _ _ _ _ _ _). intros [= <- <-].
      assert (on_desk n m (with_attempts (<[p := row]> (attempts w)) w)) as Hd1.
      { apply (on_desk_step n m w); [by apply insert_ok; [| | | | apply Hd] | apply Hd | apply Hd | done]. }
      assert (on_desk n m (next_row (with_attempts (<[p := row]> (attempts w)) w))) as Hd2
        by (by apply (on_desk_same n m (with_attempts (<[p := row]> (attempts w)) w))).
      split; [| done]. split; [done |]. intros row' [= <-]. split; [done |]. exists row. simpl.
      by rewrite lookup_insert_eq.
  - intros [row |].
    + apply triple_ret. intros w [_ Hw]. by apply Hw.
    + apply triple_throw. by intros w [Hd _].
Qed.

Lemma triple_get_attempt n m p :
  triple (on_desk n m) (GetByPaymentID p) (fun a => at_row n m p (read_from a)) (on_desk n m).
Proof.
  eapply triple_bind with (Q := fun r w => on_desk n m w /\ attempts w !! p = r).
  - eapply triple_refines with (Inv := anywhere); [apply refines_query |].
    intros w Hd. split; [done |]. split; [done |]. by intros r w' [= <- <-].
  - intros [row |].
    + apply triple_ret. intros w [Hd Hp]. split; [done |]. by exists row.
    + apply triple_throw. by intros w [Hd _].
Qed.

Lemma triple_create n m command now :
  triple (on_desk n m) (CreatePending command now)
    (fun a => at_row n m command.(PaymentExecute.PaymentID) (read_from a)) (on_desk n m).
Proof.
  eapply triple_bind; [apply triple_attempt, triple_insert |]. intros [a | err].
  - by apply triple_ret.
  - destruct (negb _); [by apply triple_throw | apply triple_get_attempt].
Qed.

Lemma triple_dispatch n m p a :
  triple (at_row n m p (read_from a)) (dispatch ctx backoffs a)
    (fun _ => on_desk (n + Z.to_nat (maxAttempts backoffs)) (m + pauses 0))
    (on_desk (n + Z.to_nat (maxAttempts backoffs)) (m + pauses 0)).
Proof.
  pose proof (pauses_nonneg 0) as Hpos.
  assert (forall w, on_desk n m w -> on_desk (n + Z.to_nat (maxAttempts backoffs)) (m + pauses 0) w) as Hup
    by (intros w; apply on_desk_weaken; lia).
  unfold dispatch.
  destruct (a.(Attempt.Status) =s StatusCompleted) eqn:Hc; [apply str_eqb_true in Hc |].
  { eapply triple_conseq; [apply (triple_publish_completed n m p a) | | intros [] w; apply Hup | exact Hup].
    intros w [Hd (row & Hp & Hr)]. split; [done |]. exists row. by rewrite Hr in Hc. }
  destruct (a.(Attempt.Status) =s StatusFailed) eqn:Hf; [apply str_eqb_true in Hf |].
  { eapply triple_conseq; [apply (triple_publish_failed n m p a) | | intros [] w; apply Hup | exact Hup].
    intros w [Hd (row & Hp & Hr)]. split; [done |]. exists row. by rewrite Hr in Hf. }
  destruct (a.(Attempt.Status) =s StatusPending) eqn:Hpe; [apply str_eqb_true in Hpe |].
  - eapply triple_pure with (F := a.(Attempt.PaymentID) = p /\ 0 <= a.(Attempt.AttemptCount)).
    { intros w [(Hok & _) (row & Hp & ->)]. destruct (ok_rows _ Hok _ _ Hp) as (? & ? & _). done. }
    intros [Hid Hcount]. unfold processPending. rewrite Hid.
    pose proof (firstAttempt_range backoffs a Hcount) as Hfirst. set (first := firstAttempt backoffs a) in *.
    pose proof (pauses_le (first - 1) ltac:(lia)) as Hle.
    eapply triple_conseq; [apply (triple_loop p _ first n m); lia | | |].
    + intros w [Hd (row & Hp & Hr)]. split; [done |]. exists row. by rewrite Hr in Hpe.
    + intros [] w. apply on_desk_weaken; lia.
    + intros w. apply on_desk_weaken; lia.
  - apply triple_throw. intros w [Hd _]. by apply Hup.
Qed.

(** Everything [HandleExecute] may do. *)
Lemma triple_execute n m command :
  triple (on_desk n m) (HandleExecute ctx backoffs command)
    (fun _ => on_desk (n + Z.to_nat (maxAttempts backoffs)) (m + pauses 0))
    (on_desk (n + Z.to_nat (maxAttempts backoffs)) (m + pauses 0)).
Proof.
  pose proof (pauses_nonneg 0) as Hpos.
  assert (forall w, on_desk n m w -> on_desk (n + Z.to_nat (maxAttempts backoffs)) (m + pauses 0) w) as Hup
    by (intros w; apply on_desk_weaken; lia).
  unfold HandleExecute. eapply triple_bind with (Q := fun _ => on_desk n m).
  { apply triple_lift. auto. }
  intros []. eapply triple_bind with (Q := fun _ => on_desk n m).
  { apply triple_outside. intros w. by apply on_desk_same. }
  intros now. eapply triple_bind; [eapply triple_error; [apply triple_create | exact Hup] |].
  intros a. apply triple_dispatch.
Qed.
End Triples.

(** ** With nothing lost *)

Section Lands.
Context {R : Type} `{Outside R} `{Clock} `{Postgres} `{Uuid}.
Variable ctx : context.
Variable backoffs : list Z.
Hypothesis sleeps : forall d (r : R), exists r', sleeper_Sleep d r = (Ok tt, r').
Implicit Types w : desk R.

(** The payment has its row and the queue is still [l]. *)
Definition waiting (p : string) (l : list OutboxEvent.t) w : Prop :=
  results w = l /\ exists row, attempts w !! p = Some row /\ row.(AttemptRow.payment_id) = p.

Definition one_more (p : string) (l : list OutboxEvent.t) w : Prop :=
  exists e, results w = (l ++ [e])%list /\ e.(OutboxEvent.PartitionKey) = p.

Lemma lands_outside {A} (f : desk R -> A * desk R) P (Q : A -> desk R -> Prop) :
  (forall w, P w -> Q (fst (f w)) (snd (f w))) -> lands P (step_outside f) Q.
Proof.
  intros Hf w Hw. specialize (Hf w Hw). exists (fst (f w)), (snd (f w)). split; [| done].
  unfold yields, step_outside, current, put. simpl. by destruct (f w).
Qed.

Lemma lands_now p l : lands (waiting p l) clock_Now (fun _ => waiting p l).
Proof. by apply lands_outside. Qed.

Lemma lands_now_or p l (t : time) :
  lands (waiting p l) (if IsZero t then clock_Now else ret t) (fun _ => waiting p l).
Proof. destruct (IsZero t); [apply lands_now | by apply lands_ret]. Qed.

Lemma lands_mark p l (f : desk R -> AttemptRow.t -> AttemptRow.t) :
  (forall w row, (f w row).(AttemptRow.payment_id) = row.(AttemptRow.payment_id)) ->
  lands (waiting p l) (scanAttempt (exec (fun w => stmt_update_attempt p (f w) w)))
    (fun a w => waiting p l w /\ a.(Attempt.PaymentID) = p).
Proof.
  intros Hf. eapply lands_bind with (Q := fun r w => waiting p l w /\
    exists row, r = Some row /\ row.(AttemptRow.payment_id) = p).
  - apply lands_exec. intros w [Hl (row & Hp & Hid)]. unfold stmt_update_attempt. rewrite Hp.
    assert ((f w row).(AttemptRow.payment_id) = p) as Hid' by (by rewrite Hf).
    eexists _, _. split; [reflexivity |]. split; [| by exists (f w row)].
    split; [done |]. exists (f w row). simpl. by rewrite lookup_insert_eq.
  - intros r. eapply lands_pure with (F := exists row, r = Some row /\ row.(AttemptRow.payment_id) = p);
      [intros w Hw; exact (proj2 Hw) |].
    intros (row & -> & Hid). apply lands_ret. by intros w [Hw _].
Qed.

Lemma lands_enqueue p l topic payload :
  lands (waiting p l) (Enqueue ctx topic p payload) (fun _ => one_more p l).
Proof.
  eapply lands_bind with (Q := fun _ => one_more p l); [| by intros; apply lands_ret].
  apply lands_exec. intros w [Hl _]. eexists _, _. split; [reflexivity |]. eexists. simpl. by rewrite Hl.
Qed.

Lemma lands_publish_completed p l a :
  a.(Attempt.PaymentID) = p -> lands (waiting p l) (publishCompleted ctx a) (fun _ => one_more p l).
Proof.
  intros Hid. unfold publishCompleted. eapply lands_bind; [apply lands_now_or |]. intros at1.
  eapply lands_bind; [apply lands_now |]. intros at2. rewrite Hid. apply lands_enqueue.
Qed.

Lemma lands_publish_failed p l a :
  a.(Attempt.PaymentID) = p -> lands (waiting p l) (publishFailed ctx a) (fun _ => one_more p l).
Proof.
  intros Hid. unfold publishFailed. eapply lands_bind; [apply lands_now_or |]. intros at1.
  eapply lands_bind; [apply lands_now |]. intros at2. rewrite Hid. apply lands_enqueue.
Qed.

(** A write to the row, then an event. *)
Lemma lands_marked p l (f : desk R -> AttemptRow.t -> AttemptRow.t) (publish : Attempt.t -> pdesk R unit) :
  (forall w row, (f w row).(AttemptRow.payment_id) = row.(AttemptRow.payment_id)) ->
  (forall a, a.(Attempt.PaymentID) = p -> lands (waiting p l) (publish a) (fun _ => one_more p l)) ->
  lands (waiting p l) (let! a := scanAttempt (exec (fun w => stmt_update_attempt p (f w) w)) in publish a)
    (fun _ => one_more p l).
Proof.
  intros Hf Hpub. eapply lands_bind; [by apply lands_mark |]. intros a.
  eapply lands_pure with (F := a.(Attempt.PaymentID) = p); [intros w Hw; exact (proj2 Hw) |]. intros Hid.
  eapply lands_conseq; [by apply Hpub | intros w Hw; exact (proj1 Hw) | done].
Qed.

Lemma lands_complete p l result : lands (waiting p l) (complete_payment ctx p result) (fun _ => one_more p l).
Proof.
  unfold complete_payment. eapply lands_bind; [apply lands_now_or |]. intros at1.
  eapply lands_bind; [apply lands_now |]. intros at2. apply lands_marked; [done | apply lands_publish_completed].
Qed.

Lemma lands_fail p l failure : lands (waiting p l) (fail_payment ctx p failure) (fun _ => one_more p l).
Proof.
  unfold fail_payment. eapply lands_bind; [apply lands_now |]. intros at1.
  apply lands_marked; [done | apply lands_publish_failed].
Qed.

Lemma lands_pause p l b : lands (waiting p l) (let! d := randomJitter b in Sleep d) (fun _ => waiting p l).
Proof.
  eapply lands_bind with (Q := fun _ => waiting p l).
  - unfold randomJitter. destruct (b <=? 0); [by apply lands_ret |].
    apply lands_outside. intros w Hw. by destruct (rand_Int63n _ _).
  - intros d. eapply lands_bind with (Q := fun r w => waiting p l w /\ r = Ok tt).
    + apply lands_outside. intros w Hw. destruct (sleeps d (outside w)) as [o ->]. done.
    + intros r. eapply lands_pure with (F := r = Ok tt); [intros w Hw; exact (proj2 Hw) |]. intros ->.
      apply lands_ret. by intros w [Hw _].
Qed.

Lemma lands_loop p l remaining : forall next,
  Z.of_nat (S remaining) = maxAttempts backoffs - next + 1 ->
  lands (waiting p l) (attempt_loop ctx backoffs (S remaining) p next) (fun _ => one_more p l).
Proof.
  induction remaining as [| remaining IH]; intros next Hrem.
  all: eapply lands_bind; [apply lands_now |]; intros now.
  all: eapply lands_bind; [by apply lands_mark |]; intros a.
  all: eapply lands_pure with (F := a.(Attempt.PaymentID) = p); [intros w Hw; exact (proj2 Hw) |]; intros ->.
  all: eapply lands_bind with (Q := fun _ => waiting p l);
    [apply lands_outside; intros w [Hw _]; by destruct (rail_Charge _ _) |].
  all: intros [result | err]; [apply lands_complete |].
  all: cbn zeta; destruct (negb _); [apply lands_fail |].
  - replace (next =? maxAttempts backoffs) with true by lia. apply lands_fail.
  - replace (next =? maxAttempts backoffs) with false by lia.
    intros w Hw. destruct (lands_pause p l (nth (Z.to_nat (next - 1)) backoffs 0) w Hw) as ([] & w1 & Hy & Hw1).
    destruct (IH (next + 1) ltac:(lia) w1 Hw1) as ([] & w2 & Hy2 & Hw2).
    exists tt, w2. split; [by eapply yields_bind2 | done].
Qed.

(** The row [CreatePending] finds or writes. *)
Definition first_row (command : PaymentExecute.t) (now : time) w : AttemptRow.t :=
  AttemptRow.mk (gen_random_uuid (rows_used w)) command.(PaymentExecute.PaymentID)
    command.(PaymentExecute.IdempotencyKey) command.(PaymentExecute.TraceID) command.(PaymentExecute.AmountCents)
    command.(PaymentExecute.Currency) command.(PaymentExecute.LedgerReservationID)
    command.(PaymentExecute.WalletDebitID) StatusPending 0 "" "" "" None None (stamp now w) (stamp now w).

Lemma yields_create command now w :
  desk_ok w -> 0 < command.(PaymentExecute.AmountCents) ->
  let p := command.(PaymentExecute.PaymentID) in
  let row := default (first_row command now w) (attempts w !! p) in
  exists w1, yields (CreatePending command now) w (Ok (scan_columns row)) w1 /\
    attempts w1 !! p = Some row /\ desk_ok w1 /\ results w1 = results w.
Proof.
  intros Hok Hamount p row. unfold CreatePending, scanAttempt, GetByPaymentID.
  unfold stmt_insert_attempt. replace (_ <=? 0) with false by lia. fold p.
  destruct (attempts w !! p) as [r |] eqn:Hp; simpl in row.
  - exists (next_row w). split; [| split; [done | split; [by apply (same_desk_ok w) | done]]].
    unfold yields, bind, attempt. run_conn. rewrite Hp. unfold scanAttempt, bind. simpl. by rewrite Hp.
  - exists (next_row (with_attempts (<[p := row]> (attempts w)) w)). split; [| split; [| split; [| done]]].
    + unfold yields, bind, attempt. run_conn. by rewrite Hp.
    + simpl. by rewrite lookup_insert_eq.
    + apply (same_desk_ok (with_attempts (<[p := row]> (attempts w)) w)); [done |].
      by apply insert_ok.
Qed.

Lemma lands_dispatch p l a row :
  a = scan_columns row -> row.(AttemptRow.payment_id) = p -> 0 <= row.(AttemptRow.attempt_count) ->
  settled row \/ row.(AttemptRow.status) = StatusPending ->
  lands (waiting p l) (dispatch ctx backoffs a) (fun _ => one_more p l).
Proof.
  intros -> Hid Hcount Hst. unfold dispatch. cbn [Attempt.Status scan_columns].
  destruct Hst as [[Hst | Hst] | Hst]; rewrite Hst; cbn -[processPending publishCompleted publishFailed].
  - by apply lands_publish_completed.
  - by apply lands_publish_failed.
  - unfold processPending. cbn [Attempt.PaymentID scan_columns]. rewrite Hid.
    pose proof (firstAttempt_range backoffs (scan_columns row) Hcount) as Hfirst.
    set (first := firstAttempt backoffs _) in *.
    replace (Z.to_nat _) with (S (Z.to_nat (maxAttempts backoffs - first))) by lia.
    apply lands_loop. lia.
Qed.

(** A valid command: the row that is found or written, and the step from there. *)
Lemma lands_execute command w :
  desk_ok w -> validateCommand command = Ok tt ->
  let p := command.(PaymentExecute.PaymentID) in
  exists w1 w' row, yields (HandleExecute ctx backoffs command) w (Ok tt) w' /\
    (row = default (first_row command (clock_at (readings w)) (next_reading w)) (attempts w !! p)) /\
    attempts w1 !! p = Some row /\ desk_ok w1 /\
    yields (dispatch ctx backoffs (scan_columns row)) w1 (Ok tt) w' /\ one_more p (results w) w'.
Proof.
  intros Hok Hv p.
  assert (0 < command.(PaymentExecute.AmountCents)) as Hamount.
  { revert Hv. unfold validateCommand. repeat case_match; try done. lia. }
  set (now := clock_at (readings w)).
  destruct (yields_create command now (next_reading w)) as (w1 & Hy1 & Hrow & Hok1 & Hl1);
    [by apply (same_desk_ok w) | done |].
  fold p in Hrow, Hy1. set (row := default _ _) in *.
  destruct (ok_rows w1 Hok1 p row Hrow) as (Hid & Hcount & Hst & _).
  destruct (lands_dispatch p (results w) (scan_columns row) row eq_refl Hid Hcount Hst w1) as ([] & w' & Hy & Hm).
  { split; [done |]. by exists row. }
  exists w1, w', row. split; [| done].
  unfold HandleExecute. rewrite Hv. eapply yields_bind; [done |].
  eapply yields_bind; [done |]. by eapply yields_bind.
Qed.
End Lands.

(** ** Runs of the processor *)

Section Runs.
Context {R : Type} `{Outside R} `{!OutsideOk R} `{Clock} `{Postgres} `{Uuid}.
Variable backoffs : list Z.
Implicit Types w : desk R.

(** Commands handled one after the other, whatever round trips are lost. *)
Inductive executes w0 : desk R -> Prop :=
| executes_start : executes w0 w0
| executes_command ctx command s w :
    executes w0 w ->
    executes w0 (committed (snd (HandleExecute ctx backoffs command (Conn w None s)))).

Lemma execute_sound ctx command s w :
  desk_ok w ->
  on_desk w (length (charges w) + Z.to_nat (maxAttempts backoffs)) (sumZ id (waits w) + pauses backoffs 0)
    (committed (snd (HandleExecute ctx backoffs command (Conn w None s)))).
Proof.
  intros Hok.
  assert (on_desk w (length (charges w)) (sumZ id (waits w)) w) as Hd by (split; [done | split; [done | lia]]).
  pose proof (wp_elim _ _ _ (triple_execute ctx backoffs w _ _ command w s Hd)) as [_ Hr].
  by destruct (fst _).
Qed.

Lemma executes_sound w0 w : desk_ok w0 -> executes w0 w -> desk_ok w /\ goes_on w0 w.
Proof.
  intros Hok Hrun. induction Hrun as [| ctx command s w _ [IHok IHgo]]; [done |].
  destruct (execute_sound ctx command s w IHok) as (Hok' & Hgo & _). split; [done | by etrans].
Qed.

(** C26: whatever the rail answers and whatever round trips are lost, a payment has one
    result, and it is the rail's: once its attempt is COMPLETED or FAILED the row never
    changes and the rail is not asked again; every event the processor has queued says
    what the row of its payment says, and the row says what the rail answered, so no
    payment is announced completed that the rail did not complete, and none both
    completed and failed; and all the charges of a payment are the same request, with
    one idempotency key and amount. *)
Theorem payment_has_one_result w0 w :
  desk_ok w0 -> executes w0 w ->
  (forall p row, attempts w0 !! p = Some row -> settled row ->
     attempts w !! p = Some row /\ charges_of p w = charges_of p w0) /\
  (forall e, e ∈ results w ->
     exists row, attempts w !! e.(OutboxEvent.PartitionKey) = Some row /\ reports e row /\ answered (charges w) row) /\
  (forall q a q' a', (q, a) ∈ charges w -> (q', a') ∈ charges w ->
     q.(RailChargeRequest.PaymentID) = q'.(RailChargeRequest.PaymentID) -> q = q').
Proof.
  intros Hok Hrun. destruct (executes_sound w0 w Hok Hrun) as [Hok' Hgo]. split; [| split].
  - intros p row Hp Hs. destruct (Hgo p row Hp) as (row' & Hp' & _ & Hkeep). destruct (Hkeep Hs) as [-> Hch]. done.
  - intros e He. destruct (ok_results w Hok' e He) as (row & Hp & Hrep). exists row. split; [done |]. split; [done |].
    by apply (ok_rows w Hok' _ _ Hp).
  - intros q a q' a' Hq Hq' Heq.
    destruct (ok_charges w Hok' q a Hq) as [(r & Hr & <-) _], (ok_charges w Hok' q' a' Hq') as [(r' & Hr' & <-) _].
    rewrite Heq in Hr. congruence.
Qed.

(** Retries are bounded: under any answers of the rail and any loss of round
    trips, one command charges the rail at most once more often than there are pauses,
    and sleeps at most as long as the pauses last together. *)
Theorem retries_are_bounded ctx command s w :
  desk_ok w ->
  let w' := committed (snd (HandleExecute ctx backoffs command (Conn w None s))) in
  (length (charges w') <= length (charges w) + S (length backoffs))%nat /\
  sumZ id (waits w') <= sumZ id (waits w) + sumZ (Z.max 0) backoffs.
Proof.
  intros Hok w'. destruct (execute_sound ctx command s w Hok) as (_ & _ & Hn & Hm). fold w' in Hn, Hm.
  unfold maxAttempts in Hn. unfold pauses in Hm. rewrite drop_0 in Hm. split; [lia | done].
Qed.

(** What the rail is told about a command. *)
Definition requested (command : PaymentExecute.t) : RailChargeRequest.t :=
  RailChargeRequest.mk command.(PaymentExecute.PaymentID) command.(PaymentExecute.IdempotencyKey)
    command.(PaymentExecute.TraceID) command.(PaymentExecute.AmountCents) command.(PaymentExecute.Currency)
    command.(PaymentExecute.LedgerReservationID) command.(PaymentExecute.WalletDebitID).

Lemma execute_answers ctx command w :
  desk_ok w -> validateCommand command = Ok tt ->
  (forall d (r : R), exists r', sleeper_Sleep d r = (Ok tt, r')) ->
  let p := command.(PaymentExecute.PaymentID) in
  exists w' e row, yields (HandleExecute ctx backoffs command) w (Ok tt) w' /\
    results w' = (results w ++ [e])%list /\ attempts w' !! p = Some row /\ settled row /\ reports e row /\
    command_of row = default (requested command) (command_of <$> attempts w !! p).
Proof.
  intros Hok Hv Hsleep p.
  destruct (lands_execute ctx backoffs Hsleep command w Hok Hv) as (w1 & w' & row1 & Hy & Hrow & Hw1 & Hok1 & Hd & e & Hres & Hkey).
  fold p in Hrow, Hw1, Hkey.
  destruct (execute_sound ctx command [] w Hok) as (Hok' & _). rewrite Hy in Hok'. simpl in Hok'.
  destruct (ok_results w' Hok' e) as (row & Hp & Hrep);
    [rewrite Hres; apply elem_of_app; right; by apply list_elem_of_singleton |].
  rewrite Hkey in Hp.
  pose proof (wp_elim _ _ _ (triple_dispatch ctx backoffs w1 (length (charges w1)) (sumZ id (waits w1)) p
    (scan_columns row1) w1 [] ltac:(split; [split; [done | split; [done | lia]] | by exists row1]))) as [_ Hgo].
  unfold yields in Hd. rewrite Hd in Hgo. destruct Hgo as (_ & Hgo & _). simpl in Hgo.
  destruct (Hgo p row1 Hw1) as (row' & Hp' & Hc & _). rewrite Hp in Hp'. injection Hp' as <-.
  exists w', e, row. do 3 (split; [done |]). split; [by eapply reports_settled |]. split; [done |].
  rewrite Hc, Hrow. by destruct (attempts w !! p).
Qed.

(** C27: every command is answered: when no round trip is lost and the process is not
    told to stop while it waits, handling a valid command ends without error, whatever
    the rail answers; the payment is settled as it was first ordered, and exactly one
    event was queued, which says how. *)
Theorem execute_reports_result ctx command w :
  desk_ok w -> validateCommand command = Ok tt ->
  (forall d (r : R), exists r', sleeper_Sleep d r = (Ok tt, r')) ->
  let p := command.(PaymentExecute.PaymentID) in
  exists w' e row, yields (HandleExecute ctx backoffs command) w (Ok tt) w' /\
    results w' = (results w ++ [e])%list /\ attempts w' !! p = Some row /\ settled row /\ reports e row /\
    command_of row = default (requested command) (command_of <$> attempts w !! p).
Proof. apply execute_answers. Qed.
End Runs.

(** The processor's outbox is one the publisher of [Publisher] serves. *)
#[export] Instance desk_outbox {R : Type} : OutboxTable (desk R) := {
  outbox_rows := results;
  set_outbox_rows := with_results;
  outbox_clock := server_now
}.

#[export] Instance desk_outbox_ok {R : Type} : OutboxTableOk (desk R).
Proof. by split. Qed.
