(* ===== verification/Rail.v ===== *)
(** * Rail: the payment rail over HTTP.

    [HTTPRail] of [internal/paymentprocessor/http_rail.go], with the network between
    it and the rail as a parameter, and the rail of the development environment,
    [StubRailHandler] of [stub_rail.go].  A body is the document it holds, or [None]
    when it holds none.  With the HTTP rail a payment is recorded as completed only
    when the rail answered so and named its own reference. *)

From stdpp Require Import pretty.
From S2P Require Import Prelude GoStrings Domain GoTime Json Database Outbox Publisher SagaTypes SagaStore Processor.

#[local] Open Scope string_scope.
#[local] Open Scope Z_scope.

Module Response.
Record t := mk { StatusCode : Z; Body : document }.
End Response.

(** [http.NewRequest] refuses an address; [client.Do] gets no answer. *)
Inductive transport_error := BadRequest (message : string) | Unreachable (message : string).

Class Transport (S : Type) := {
  client_Post : string -> json -> S -> res transport_error Response.t * S
}.

(** [http.StatusText] *)
Definition StatusText (code : Z) : string :=
  let table : list (Z * string) :=
    [(100, "Continue"); (101, "Switching Protocols"); (102, "Processing"); (103, "Early Hints");
     (200, "OK"); (201, "Created"); (202, "Accepted"); (203, "Non-Authoritative Information");
     (204, "No Content"); (205, "Reset Content"); (206, "Partial Content"); (207, "Multi-Status");
     (208, "Already Reported"); (226, "IM Used");
     (300, "Multiple Choices"); (301, "Moved Permanently"); (302, "Found"); (303, "See Other");
     (304, "Not Modified"); (305, "Use Proxy"); (307, "Temporary Redirect"); (308, "Permanent Redirect");
     (400, "Bad Request"); (401, "Unauthorized"); (402, "Payment Required"); (403, "Forbidden");
     (404, "Not Found"); (405, "Method Not Allowed"); (406, "Not Acceptable");
     (407, "Proxy Authentication Required"); (408, "Request Timeout"); (409, "Conflict"); (410, "Gone");
     (411, "Length Required"); (412, "Precondition Failed"); (413, "Request Entity Too Large");
     (414, "Request URI Too Long"); (415, "Unsupported Media Type");
     (416, "Requested Range Not Satisfiable"); (417, "Expectation Failed"); (418, "I'm a teapot");
     (421, "Misdirected Request"); (422, "Unprocessable Entity"); (423, "Locked"); (424, "Failed Dependency");
     (425, "Too Early"); (426, "Upgrade Required"); (428, "Precondition Required");
     (429, "Too Many Requests"); (431, "Request Header Fields Too Large");
     (451, "Unavailable For Legal Reasons");
     (500, "Internal Server Error"); (501, "Not Implemented"); (502, "Bad Gateway");
     (503, "Service Unavailable"); (504, "Gateway Timeout"); (505, "HTTP Version Not Supported");
     (506, "Variant Also Negotiates"); (507, "Insufficient Storage"); (508, "Loop Detected");
     (510, "Not Extended"); (511, "Network Authentication Required")] in
  default "" (snd <$> List.find (fun kv => kv.1 =? code) table).

(** [fmt.Sprintf] of an [int] with the verb for decimals *)
Definition decimal (z : Z) : string := pretty z.

Definition charge_json (charge : RailChargeRequest.t) : json :=
  JObject [
    ("payment_id", JString charge.(RailChargeRequest.PaymentID));
    ("idempotency_key", JString charge.(RailChargeRequest.IdempotencyKey));
    ("trace_id", JString charge.(RailChargeRequest.TraceID));
    ("amount_cents", JInt charge.(RailChargeRequest.AmountCents));
    ("currency", JString charge.(RailChargeRequest.Currency));
    ("ledger_reservation_id", JString charge.(RailChargeRequest.LedgerReservationID));
    ("wallet_debit_id", JString charge.(RailChargeRequest.WalletDebitID))].

Definition RetryableRailError (code message : string) : rail_error := RailError (RailFailure.mk code message true).
Definition TerminalRailError (code message : string) : rail_error := RailError (RailFailure.mk code message false).

(** [_ = json.NewDecoder(body).Decode(&failure)]: a field that does not fit is left
    empty, the others are set; [Retryable] is overwritten by the caller. *)
Definition decodeRailFailure (body : document) : RailFailure.t :=
  match json_object body with
  | Err _ => RailFailure.mk "" "" false
  | Ok fields =>
      let text name := match get_string name fields with Ok s => s | Err _ => "" end in
      RailFailure.mk (text "Code") (text "Message") false
  end.

Definition decodeRailResult (body : document) : res json_error RailResult.t :=
  let? fields := json_object body in
  let? processor_payment_id := get_string "processor_payment_id" fields in
  let? completed_at := get_time "completed_at" fields in
  Ok (RailResult.mk processor_payment_id completed_at).

Section HTTPRail.
Context {S : Type} `{Transport S}.
Variable baseURL : string.

Definition HTTPRail_Charge (charge : RailChargeRequest.t) (s : S) : res rail_error RailResult.t * S :=
  let '(answer, s) := client_Post (baseURL ++ "/charge") (charge_json charge) s in
  (match answer with
   | Err (BadRequest message) => Err (RailOther message)
   | Err (Unreachable message) => Err (RetryableRailError "rail_unavailable" message)
   | Ok resp =>
       let code := resp.(Response.StatusCode) in
       if (200 <=? code) && (code <? 300) then
         match decodeRailResult resp.(Response.Body) with
         | Err _ => Err (TerminalRailError "invalid_rail_response" "invalid rail success response")
         | Ok body =>
             if body.(RailResult.ProcessorPaymentID) =s ""
             then Err (TerminalRailError "invalid_rail_response" "processor_payment_id is required")
             else Ok body
         end
       else
         let failure := decodeRailFailure resp.(Response.Body) in
         Err (RailError (RailFailure.mk
           (if failure.(RailFailure.Code) =s "" then "rail_http_" ++ decimal code else failure.(RailFailure.Code))
           (if failure.(RailFailure.Message) =s "" then StatusText code else failure.(RailFailure.Message))
           (500 <=? code)))
   end, s).
End HTTPRail.

(** ** The stub *)

Definition StubTerminalFailureAmountCents : Z := 40901.
Definition StubRetryOnceAmountCents : Z := 50301.

Module Stub.
Record t := mk {
  callsByID : gmap string Z;
  timeoutSleep : Z;
  now : time
}.
End Stub.

Definition NewStubRailHandler (timeoutSleep : Z) (now : time) : Stub.t :=
  Stub.mk ∅ (if timeoutSleep <=? 0 then 3 * Second else timeoutSleep) now.

Definition charge_of_json (body : document) : res json_error RailChargeRequest.t :=
  let? fields := json_object body in
  let? payment_id := get_string "payment_id" fields in
  let? idempotency_key := get_string "idempotency_key" fields in
  let? trace_id := get_string "trace_id" fields in
  let? amount_cents := get_int64 "amount_cents" fields in
  let? currency := get_string "currency" fields in
  let? ledger_reservation_id := get_string "ledger_reservation_id" fields in
  let? wallet_debit_id := get_string "wallet_debit_id" fields in
  Ok (RailChargeRequest.mk payment_id idempotency_key trace_id amount_cents currency ledger_reservation_id
        wallet_debit_id).

Definition railFailure (status : Z) (code message : string) : Response.t :=
  Response.mk status (Some (JObject [("code", JString code); ("message", JString message)])).

(** The answer and how long it takes. *)
Definition ServeHTTP (method path : string) (body : document) (stub : Stub.t) : Response.t * Z * Stub.t :=
  if (method =s "GET") && ((path =s "/healthz") || (path =s "/readyz")) then (Response.mk 200 None, 0, stub)
  else if negb (method =s "POST") || negb (path =s "/charge") then (Response.mk 404 None, 0, stub)
  else
    let invalid := (railFailure 400 "invalid_payment" "invalid payment request", 0, stub) in
    match charge_of_json body with
    | Err _ => invalid
    | Ok req =>
        let id := req.(RailChargeRequest.PaymentID) in
        let amount := req.(RailChargeRequest.AmountCents) in
        if (id =s "") || (amount <=? 0) || (req.(RailChargeRequest.Currency) =s "") then invalid
        else
          let callCount := default 0 (stub.(Stub.callsByID) !! id) + 1 in
          let stub := Stub.mk (<[id := callCount]> stub.(Stub.callsByID)) stub.(Stub.timeoutSleep) stub.(Stub.now) in
          let done := Response.mk 200 (Some (JObject
            [("processor_payment_id", JString ("stub-" ++ id)); ("completed_at", JTime stub.(Stub.now))])) in
          if Contains id "terminal" || (amount =? StubTerminalFailureAmountCents)
          then (railFailure 400 "terminal_failure" "terminal rail failure", 0, stub)
          else if (Contains id "retry" || (amount =? StubRetryOnceAmountCents)) && (callCount =? 1)
          then (railFailure 503 "rail_unavailable" "retryable rail failure", 0, stub)
          else if Contains id "timeout" then (done, stub.(Stub.timeoutSleep), stub)
          else (done, 0, stub)
    end.

(** ** Payments over the HTTP rail *)

(** The rest of what is outside the processor. *)
Class Pausing (S : Type) := {
  pause : Z -> S -> res string unit * S;
  draw : Z -> S -> Z * S
}.

Definition http_outside {S : Type} `{Transport S} `{Pausing S} (baseURL : string) : Outside S := {|
  rail_Charge := HTTPRail_Charge baseURL;
  sleeper_Sleep := pause;
  rand_Int63n := draw
|}.

Section Payments.
Context {S : Type} `{Transport S} `{Pausing S}.
Variable baseURL : string.

(** A success names the rail's reference and was answered with a 2xx. *)
Lemma charge_success q s result s' :
  HTTPRail_Charge baseURL q s = (Ok result, s') ->
  result.(RailResult.ProcessorPaymentID) <> "" /\
  exists resp, client_Post (baseURL ++ "/charge") (charge_json q) s = (Ok resp, s') /\
    200 <= resp.(Response.StatusCode) < 300.
Proof.
  unfold HTTPRail_Charge. destruct (client_Post _ _ _) as [[resp | [m | m]] s1]; [| done..].
  destruct ((200 <=? _) && (_ <? 300)) eqn:Hcode; [| done].
  destruct (decodeRailResult _) as [body |]; [| done]. destruct (_ =s "") eqn:Hid; [done |].
  intros [= <- <-]. split; [by apply str_eqb_false in Hid |]. exists resp. split; [done | lia].
Qed.

(** Every failure that is recorded has a code. *)
Lemma charge_failure_code q s err s' :
  HTTPRail_Charge baseURL q s = (Err err, s') -> (classifyRailFailure err).(RailFailure.Code) <> "".
Proof.
  unfold HTTPRail_Charge. destruct (client_Post _ _ _) as [[resp | [m | m]] s1]; [| by intros [= <- _]..].
  destruct ((200 <=? _) && (_ <? 300)).
  - destruct (decodeRailResult _) as [body |]; [| by intros [= <- _]]. by destruct (_ =s ""); intros [= <- _].
  - intros [= <- _]. simpl. destruct (_ =s "") eqn:Hid; [done | by apply str_eqb_false in Hid].
Qed.

#[local] Instance payments_outside : Outside S := http_outside baseURL.
Context `{!OutsideOk S} `{Clock} `{Postgres} `{Uuid}.

(** Over the HTTP rail every result is one the rail accounts for: a payment that is
    recorded COMPLETED carries a reference of the rail and was answered with a 2xx, and
    one that is recorded FAILED carries a failure code. *)
Theorem results_are_accounted_for backoffs (w0 w : desk S) p row :
  desk_ok w0 -> executes backoffs w0 w -> attempts w !! p = Some row ->
  (row.(AttemptRow.status) = StatusCompleted ->
     row.(AttemptRow.processor_payment_id) <> "" /\
     exists s s' resp, client_Post (baseURL ++ "/charge") (charge_json (command_of row)) s = (Ok resp, s') /\
       200 <= resp.(Response.StatusCode) < 300) /\
  (row.(AttemptRow.status) = StatusFailed -> row.(AttemptRow.failure_code) <> "").
Proof.
  intros Hok Hrun Hp. destruct (executes_sound backoffs w0 w Hok Hrun) as [Hok' _].
  destruct (ok_rows w Hok' p row Hp) as (_ & _ & _ & Hcompleted & Hfailed). split; intros Hs.
  - destruct (Hcompleted Hs) as (result & Hin & ->). destruct (ok_charges w Hok' _ _ Hin) as [_ (s & Ha)].
    cbn in Ha. destruct (HTTPRail_Charge _ _ _) as [r s'] eqn:Hc. simpl in Ha. subst r.
    destruct (charge_success _ _ _ _ Hc) as (Hid & resp & Hpost & Hcode). split; [done |]. by exists s, s', resp.
  - destruct (Hfailed Hs) as (err & Hin & Hcode & _). destruct (ok_charges w Hok' _ _ Hin) as [_ (s & Ha)].
    cbn in Ha. destruct (HTTPRail_Charge _ _ _) as [r s'] eqn:Hc. simpl in Ha. subst r.
    pose proof (charge_failure_code _ _ _ _ Hc) as Hne. rewrite Hcode. destruct (RailFailure.Retryable _); [| done].
    simpl. by rewrite (proj2 (str_eqb_false _ _) Hne).
Qed.
End Payments.

(** ** The stub behind the client

    The client gives up when the answer takes as long as its timeout. *)
Record lab := Lab { stub : Stub.t; client_timeout : Z }.

#[export] Instance lab_transport : Transport lab := {
  client_Post url body l :=
    let '(resp, delay, st) := ServeHTTP "POST" "/charge" (Some body) (stub l) in
    (if client_timeout l <=? delay then Err (Unreachable "context deadline exceeded") else Ok resp,
     Lab st (client_timeout l))
}.

#[export] Instance lab_pausing : Pausing lab := {
  pause _ l := (Ok tt, l);
  draw _ l := (0, l)
}.
