(* ===== verification/ProcessorConsumer.v ===== *)
(** * ProcessorConsumer: from the saga to the payment rail and back.

    The handler of [payment.execute] in [internal/paymentprocessor/consumer.go], and
    the way of a payment through three services: the orchestrator's command, the
    processor's result, the orchestrator's handler of the result. *)

From S2P Require Import Prelude GoStrings Domain GoTime Json Database Outbox Kafka DeadLetter Consumer Publisher.
From S2P Require Import SagaTypes SagaStore Orchestrator FraudReview SagaSafety SagaRuns SagaConsumer Processor.

#[local] Open Scope string_scope.
#[local] Open Scope Z_scope.

Section Handler.
Context {R : Type} `{Outside R} `{Clock} `{Postgres} `{Uuid} `{Broker} `{JsonText} `{Tracing}.
Variable backoffs : list Z.

(** An unknown topic and a command that cannot be read or is not valid are skipped:
    the record is committed and leaves no dead letter. *)
Definition HandleCommand (ctx : context) (record : KafkaRecord.t) : prog (reader (desk R)) processor_error unit :=
  let ctx := trace_Start (ExtractKafka ctx record.(KafkaRecord.Headers)) in
  if negb (record.(KafkaRecord.Topic) =s PaymentExecuteTopic) then CommitRecord record
  else
    match PaymentExecute.of_json (json_Unmarshal record.(KafkaRecord.Value)) with
    | Err _ => CommitRecord record
    | Ok command =>
        if negb (is_Ok (validateCommand command)) then CommitRecord record
        else run_app (HandleExecute ctx backoffs command) ;! CommitRecord record
    end.
End Handler.

(** ** The way of a payment *)

Lemma execute_fields fields (a b c d e f g h i j k : json) :
  fields = [("event_id", a); ("payment_id", b); ("idempotency_key", c); ("trace_id", d); ("from_wallet_id", e);
            ("to_wallet_id", f); ("amount_cents", g); ("currency", h); ("ledger_reservation_id", i);
            ("wallet_debit_id", j); ("occurred_at", k)] ->
  json_field "event_id" fields = Some a /\ json_field "payment_id" fields = Some b /\
  json_field "idempotency_key" fields = Some c /\ json_field "trace_id" fields = Some d /\
  json_field "from_wallet_id" fields = Some e /\ json_field "to_wallet_id" fields = Some f /\
  json_field "amount_cents" fields = Some g /\ json_field "currency" fields = Some h /\
  json_field "ledger_reservation_id" fields = Some i /\ json_field "wallet_debit_id" fields = Some j /\
  json_field "occurred_at" fields = Some k.
Proof. intros ->. vm_compute. repeat split. Qed.

Lemma execute_of_to_json x :
  int64 x.(PaymentExecute.AmountCents) -> PaymentExecute.of_json (Some (PaymentExecute.to_json x)) = Ok x.
Proof.
  unfold int64. intros Ha. unfold PaymentExecute.of_json, PaymentExecute.to_json. cbn [json_object res_bind].
  set (fields := cons _ _).
  destruct (execute_fields fields _ _ _ _ _ _ _ _ _ _ _ eq_refl) as (E1 & E2 & E3 & E4 & E5 & E6 & E7 & E8 & E9 & E10 & E11).
  unfold get_string, get_int64, get_int, get_time. rewrite E1, E2, E3, E4, E5, E6, E7, E8, E9, E10, E11.
  rewrite (proj2 (Z.leb_le (- 2 ^ 63) x.(PaymentExecute.AmountCents))),
    (proj2 (Z.ltb_lt x.(PaymentExecute.AmountCents) (2 ^ 63))) by lia.
  by destruct x.
Qed.

Section Way.
Context {R : Type} `{Outside R} `{!OutsideOk R} `{Clock} `{Postgres} `{Uuid} `{Broker} `{JsonText} `{!JsonTextOk} `{Tracing}.
Context {W : Type} `{HR : Remote W}.
Variable backoffs : list Z.
Implicit Types w : desk R.

(** The orchestrator's reading of an event of the processor. *)
Definition applied (now : time) (ctx : context) (r : KafkaRecord.t) (p : string) : Prop :=
  let ctx' := trace_Start (ExtractKafka ctx r.(KafkaRecord.Headers)) in
  (exists c, c.(PaymentCompleted.PaymentID) = p /\
     @HandleRecord W _ _ _ _ _ _ _ now ctx r = (run_app (HandlePaymentCompleted ctx' c) ;! CommitRecord r)) \/
  (exists f, f.(PaymentFailed.PaymentID) = p /\
     @HandleRecord W _ _ _ _ _ _ _ now ctx r = (run_app (HandlePaymentFailed ctx' f) ;! CommitRecord r)).

Lemma reported_applied now ctx r e row :
  reports e row -> row.(AttemptRow.payment_id) <> "" -> carries r e -> json_ok e.(OutboxEvent.Payload) = true ->
  applied now ctx r row.(AttemptRow.payment_id).
Proof.
  intros [_ Hrep] Hne (Ht & _ & Hv) Hok. unfold applied, HandleRecord. rewrite Ht, Hv, json_Unmarshal_Marshal by done.
  destruct Hrep as [(_ & -> & c & -> & Hid & _) | (_ & -> & f & -> & Hid & _)]; [left; exists c | right; exists f];
    (split; [done |]).
  - rewrite PaymentCompleted_of_to_json, Hid, (proj2 (str_eqb_false _ _) Hne). reflexivity.
  - rewrite PaymentFailed_of_to_json, Hid, (proj2 (str_eqb_false _ _) Hne). reflexivity.
Qed.

Lemma valid_command command :
  command.(PaymentExecute.PaymentID) <> "" -> command.(PaymentExecute.IdempotencyKey) <> "" ->
  0 < command.(PaymentExecute.AmountCents) -> command.(PaymentExecute.Currency) <> "" ->
  validateCommand command = Ok tt.
Proof.
  intros Hp Hk Ha Hc. unfold validateCommand. rewrite !(proj2 (str_eqb_false _ _)) by done.
  by rewrite (proj2 (Z.leb_gt _ _)).
Qed.

(** C28: the orchestrator hears back: a record that carries the payment command of a
    saga is accepted by the processor, which charges exactly the saga's payment, queues
    one event and commits the record; and a record that carries that event makes the
    orchestrator handle the completion or the failure of this payment, whatever the
    rail answered. *)
Theorem command_is_answered ctx saga at_ r w l o :
  desk_ok w -> attempts w !! saga.(Saga.PaymentID) = None ->
  (forall d (x : R), exists x', sleeper_Sleep d x = (Ok tt, x')) ->
  saga.(Saga.PaymentID) <> "" -> 0 < saga.(Saga.AmountCents) < 2 ^ 63 -> saga.(Saga.Currency) <> "" ->
  r.(KafkaRecord.Topic) = TopicPaymentExecute ->
  r.(KafkaRecord.Value) = json_Marshal (payment_payload saga at_) -> json_ok (payment_payload saga at_) = true ->
  exists w' e row,
    yields (HandleCommand backoffs ctx r) (Reader w l o) (Ok tt) (Reader w' l (committed_record r (Reader w l o))) /\
    results w' = (results w ++ [e])%list /\
    attempts w' !! saga.(Saga.PaymentID) = Some row /\ settled row /\
    row.(AttemptRow.amount_cents) = saga.(Saga.AmountCents) /\ row.(AttemptRow.currency) = saga.(Saga.Currency) /\
    row.(AttemptRow.ledger_reservation_id) = saga.(Saga.LedgerReservationID) /\
    (forall r' now ctx', carries r' e -> json_ok e.(OutboxEvent.Payload) = true ->
       applied now ctx' r' saga.(Saga.PaymentID)).
Proof.
  intros Hok Hnew Hsleep Hid Hamount Hcur Ht Hv Hjson.
  set (command := PaymentExecute.mk ("payment.execute:" ++ saga.(Saga.PaymentID)) saga.(Saga.PaymentID)
       (stepKey saga.(Saga.PaymentID) "execute-payment") saga.(Saga.TraceID)
       saga.(Saga.FromWalletID) saga.(Saga.ToWalletID) saga.(Saga.AmountCents)
       saga.(Saga.Currency) saga.(Saga.LedgerReservationID) saga.(Saga.WalletDebitID) at_).
  assert (validateCommand command = Ok tt) as Hvalid
    by (apply valid_command; [done | by destruct saga.(Saga.PaymentID) | simpl; lia | done]).
  destruct (execute_answers backoffs (trace_Start (ExtractKafka ctx r.(KafkaRecord.Headers))) command w Hok Hvalid Hsleep)
    as (w' & e & row & Hy & Hres & Hrow & Hset & Hrep & Hcmd).
  cbn [PaymentExecute.PaymentID command] in Hrow, Hcmd. rewrite Hnew in Hcmd. simpl in Hcmd.
  injection Hcmd as Hpid _ _ Ha Hc Hl _.
  exists w', e, row. split; [| split; [done | split; [done | split; [done | split; [done | split; [done | split; [done |]]]]]]].
  - unfold HandleCommand. rewrite Ht, Hv, json_Unmarshal_Marshal by done. unfold payment_payload. fold command.
    rewrite execute_of_to_json by (simpl; unfold int64; lia). rewrite Hvalid.
    cbn [is_Ok negb]. change (TopicPaymentExecute =s PaymentExecuteTopic) with true. cbn [negb].
    eapply yields_bind with (w1 := Reader w' l o); [| done].
    unfold yields, run_app. simpl. by rewrite Hy.
  - intros r' now ctx' Hcar Hj. rewrite <- Hpid. eapply reported_applied; [done | by rewrite Hpid | done | done].
Qed.
End Way.
