(* ===== verification/RateLimiter.v ===== *)
(** * RateLimiter: [internal/gateway/middleware/ratelimit.go].

    The token bucket of each user, with Go's saturating difference of times and its
    64-bit integers, and what it lets through: over any sequence of requests at times
    that do not go back, a user gets at most the burst and one request per elapsed
    refill interval, and a user within that rate is never refused. *)

From S2P Require Import Prelude GoStrings Domain GoTime.

#[local] Open Scope Z_scope.

Module bucket.
Record t := mk { tokens : Z; last : time }.
End bucket.

Module RateLimiter.
Record t := mk {
  burst : Z;
  refillEvery : Z;
  buckets : gmap uuid bucket.t
}.
Definition with_bucket (u : uuid) (b : bucket.t) (l : t) : t :=
  mk (burst l) (refillEvery l) (<[u := b]> (buckets l)).
End RateLimiter.

Definition NewRateLimiter (burst refillEvery : Z) : RateLimiter.t := RateLimiter.mk burst refillEvery ∅.

(** [now.Sub(last)]: a [Duration], saturated. *)
Definition Sub (now last : time) : Z := Z.max (- 2 ^ 63) (Z.min (2 ^ 63 - 1) (now - last)).

(** What a bucket holds at the time [now].  An interval of zero divides by zero, which
    stops the handler: [None]. *)
Definition refilled (l : RateLimiter.t) (now : time) (b : bucket.t) : option bucket.t :=
  let every := RateLimiter.refillEvery l in
  let elapsed := Sub now b.(bucket.last) in
  if every <=? elapsed then
    if every =? 0 then None
    else
      let refill := Z.quot elapsed every in
      Some (bucket.mk (Z.min (RateLimiter.burst l) (wrap64 (b.(bucket.tokens) + refill)))
              (b.(bucket.last) + wrap64 (refill * every)))
  else Some b.

Definition allow (l : RateLimiter.t) (now : time) (userID : uuid) : option (bool * RateLimiter.t) :=
  match RateLimiter.buckets l !! userID with
  | None => Some (true, RateLimiter.with_bucket userID (bucket.mk (wrap64 (RateLimiter.burst l - 1)) now) l)
  | Some b =>
      match refilled l now b with
      | None => None
      | Some b =>
          if b.(bucket.tokens) <=? 0 then Some (false, RateLimiter.with_bucket userID b l)
          else Some (true, RateLimiter.with_bucket userID (bucket.mk (b.(bucket.tokens) - 1) b.(bucket.last)) l)
      end
  end.

(** Requests one after the other, with their answers. *)
Fixpoint allow_all (l : RateLimiter.t) (requests : list (time * uuid)) : option (list bool * RateLimiter.t) :=
  match requests with
  | [] => Some ([], l)
  | (now, u) :: rest =>
      match allow l now u with
      | None => None
      | Some (ok, l) =>
          match allow_all l rest with
          | None => None
          | Some (oks, l) => Some (ok :: oks, l)
          end
      end
  end.

(** ** What the limiter lets through *)

(** The requests of [u] that were granted. *)
Definition granted (u : uuid) (requests : list (time * uuid)) (answers : list bool) : Z :=
  sumZ (fun x => if x.2 && bool_decide (x.1.2 = u) then 1 else 0) (zip requests answers).

(** Times that do not go back, between [lo] and [hi]. *)
Fixpoint in_order (lo hi : time) (requests : list (time * uuid)) : Prop :=
  match requests with
  | [] => lo <= hi
  | (t, _) :: rest => lo <= t /\ in_order t hi rest
  end.

(** The requests of [u] are at least [gap] apart, the first at least [gap] after [prev]. *)
Fixpoint spaced (gap : Z) (u : uuid) (prev : option time) (requests : list (time * uuid)) : Prop :=
  match requests with
  | [] => True
  | (t, v) :: rest =>
      if bool_decide (v = u)
      then match prev with Some p => p + gap <= t | None => True end /\ spaced gap u (Some t) rest
      else spaced gap u prev rest
  end.

Lemma in_order_le requests : forall lo hi, in_order lo hi requests -> lo <= hi.
Proof.
  induction requests as [| [t u] rest IH]; intros lo hi; simpl; [done |].
  intros [Ht Hrest]. apply IH in Hrest. lia.
Qed.

Section Limiter.
Variables burst every : Z.
Hypothesis burst_pos : 0 < burst.
Hypothesis every_pos : 0 < every.
Hypothesis fits : burst + 2 ^ 63 / every < 2 ^ 63.

(** The times lie within the 292 years of a [Duration]. *)
Variables start hi : time.
Hypothesis span : hi - start < 2 ^ 63.

(** A limiter of this rate whose buckets were last filled at [lo] or before. *)
Definition limiter_ok (lo : time) (l : RateLimiter.t) : Prop :=
  RateLimiter.burst l = burst /\ RateLimiter.refillEvery l = every /\
  forall u b, RateLimiter.buckets l !! u = Some b ->
    0 <= b.(bucket.tokens) <= burst /\ start <= b.(bucket.last) <= lo.

(** What a bucket is worth until [hi]. *)
Definition worth (b : bucket.t) : Z := b.(bucket.tokens) + (hi - b.(bucket.last)) / every.

(** A refill: never more than the elapsed time pays for, and never behind. *)
Lemma refilled_spec l now b :
  RateLimiter.burst l = burst -> RateLimiter.refillEvery l = every ->
  0 <= b.(bucket.tokens) <= burst -> 0 <= now - b.(bucket.last) < 2 ^ 63 ->
  exists b', refilled l now b = Some b' /\
    0 <= b'.(bucket.tokens) <= burst /\ b.(bucket.last) <= b'.(bucket.last) <= now /\
    now - b'.(bucket.last) < every /\ worth b' <= worth b /\
    (every <= now - b.(bucket.last) -> 1 <= b'.(bucket.tokens)).
Proof.
  intros Hb He Ht Hel. unfold refilled. rewrite Hb, He.
  assert (Sub now b.(bucket.last) = now - b.(bucket.last)) as -> by (unfold Sub; lia).
  set (elapsed := now - b.(bucket.last)) in *.
  destruct (every <=? elapsed) eqn:Hle.
  - replace (every =? 0) with false by lia. rewrite Z.quot_div_nonneg by lia.
    set (k := elapsed / every). apply Z.leb_le in Hle.
    assert (1 <= k) as Hk1 by (apply Z.div_le_lower_bound; lia).
    assert (k * every <= elapsed < k * every + every) as Hk.
    { pose proof (Z.div_mod elapsed every). pose proof (Z.mod_pos_bound elapsed every). unfold k. lia. }
    assert (k <= 2 ^ 63 / every) as Hkmax by (apply Z.div_le_mono; lia).
    rewrite !wrap64_id by (unfold int64; nia).
    eexists. split; [reflexivity |]. cbn [bucket.tokens bucket.last].
    split; [lia |]. split; [unfold elapsed in *; lia |]. split; [unfold elapsed in *; lia |].
    split; [| lia]. unfold worth. cbn [bucket.tokens bucket.last].
    replace (hi - (b.(bucket.last) + k * every)) with (hi - b.(bucket.last) + - k * every) by lia.
    rewrite Z.div_add by lia. lia.
  - apply Z.leb_gt in Hle. exists b. split; [reflexivity |]. split; [lia |].
    split; [unfold elapsed in *; lia |]. split; [lia |]. split; lia.
Qed.

(** One request: others keep their buckets, and a granted request costs a token. *)
Lemma allow_spec l lo now u :
  limiter_ok lo l -> start <= lo -> lo <= now <= hi ->
  exists ok l' b', allow l now u = Some (ok, l') /\ limiter_ok now l' /\
    (forall v, v <> u -> RateLimiter.buckets l' !! v = RateLimiter.buckets l !! v) /\
    RateLimiter.buckets l' !! u = Some b' /\ now - b'.(bucket.last) < every /\
    Z.b2z ok + b'.(bucket.tokens) <= burst /\
    match RateLimiter.buckets l !! u with
    | None => ok = true /\ b'.(bucket.last) = now
    | Some b => Z.b2z ok + worth b' <= worth b /\ (every <= now - b.(bucket.last) -> ok = true)
    end.
Proof.
  intros (Hb & He & Hbk) Hstart Hnow. unfold allow.
  assert (0 <= 2 ^ 63 / every) as Hdiv by (apply Z.div_pos; lia).
  destruct (RateLimiter.buckets l !! u) as [b |] eqn:Hu.
  - destruct (Hbk u b Hu) as [Htok Hlast].
    destruct (refilled_spec l now b Hb He Htok ltac:(lia)) as (b1 & -> & Ht1 & Hl1 & Hel & Hw & Hserved).
    assert (forall b', 0 <= b'.(bucket.tokens) <= burst -> start <= b'.(bucket.last) <= now ->
      limiter_ok now (RateLimiter.with_bucket u b' l)) as Hok.
    { intros b' Ht' Hl'. split; [done |]. split; [done |]. intros v bv. simpl.
      destruct (decide (u = v)) as [<- | Hne]; [rewrite lookup_insert_eq; by intros [= <-] |].
      rewrite lookup_insert_ne by done. intros Hv. destruct (Hbk v bv Hv). lia. }
    destruct (b1.(bucket.tokens) <=? 0) eqn:Hz.
    + exists false, (RateLimiter.with_bucket u b1 l), b1. split; [done |]. split; [apply Hok; lia |].
      split; [intros v Hv; simpl; by rewrite lookup_insert_ne |]. split; [simpl; by rewrite lookup_insert_eq |].
      split; [done |]. split; [simpl; lia |]. split; [simpl; lia |]. intros Hgap. specialize (Hserved Hgap). lia.
    + set (b2 := bucket.mk (b1.(bucket.tokens) - 1) b1.(bucket.last)).
      exists true, (RateLimiter.with_bucket u b2 l), b2. split; [done |].
      split; [apply Hok; simpl; lia |]. split; [intros v Hv; simpl; by rewrite lookup_insert_ne |].
      split; [simpl; by rewrite lookup_insert_eq |]. split; [done |]. split; [simpl; lia |].
      split; [| done]. unfold worth in *. simpl. lia.
  - rewrite Hb, wrap64_id by (unfold int64; lia).
    exists true, (RateLimiter.with_bucket u (bucket.mk (burst - 1) now) l), (bucket.mk (burst - 1) now).
    split; [done |]. split; [| split; [intros v Hv; simpl; by rewrite lookup_insert_ne |]].
    { split; [done |]. split; [done |]. intros v bv. simpl.
      destruct (decide (u = v)) as [<- | Hne]; [rewrite lookup_insert_eq; intros [= <-]; simpl; lia |].
      rewrite lookup_insert_ne by done. intros Hv. destruct (Hbk v bv Hv). lia. }
    split; [simpl; by rewrite lookup_insert_eq |]. simpl. split; [lia |]. split; [lia | done].
Qed.

Lemma limiter_ok_later lo lo' l : limiter_ok lo l -> lo <= lo' -> limiter_ok lo' l.
Proof.
  intros (Hb & He & Hbk) Hle. split; [done |]. split; [done |]. intros u b Hu. destruct (Hbk u b Hu). lia.
Qed.

Lemma granted_cons u t v rest ok answers :
  granted u ((t, v) :: rest) (ok :: answers) = Z.b2z (ok && bool_decide (v = u)) + granted u rest answers.
Proof. unfold granted. simpl. by destruct ok, (bool_decide (v = u)). Qed.

Lemma granted_nil u : granted u [] [] = 0.
Proof. done. Qed.

(** The limiter never stops, and every bucket pays for what its user is granted. *)
Lemma allow_all_spec requests : forall lo l,
  limiter_ok lo l -> start <= lo -> in_order lo hi requests ->
  exists answers l', allow_all l requests = Some (answers, l') /\ limiter_ok hi l' /\
    forall u, (forall b, RateLimiter.buckets l !! u = Some b -> granted u requests answers <= worth b) /\
              granted u requests answers <= burst + 1 + (hi - lo) / every.
Proof.
  induction requests as [| [t v] rest IH]; intros lo l Hok Hstart Hord; simpl in *.
  { exists [], l. split; [done |]. split; [by apply (limiter_ok_later lo) |]. intros u. rewrite granted_nil.
    split; [| assert (0 <= (hi - lo) / every) by (apply Z.div_pos; lia); lia].
    intros b Hb. destruct Hok as (_ & _ & Hbk). destruct (Hbk u b Hb). unfold worth.
    assert (0 <= (hi - b.(bucket.last)) / every) by (apply Z.div_pos; lia). lia. }
  destruct Hord as [Hlt Hrest]. pose proof (in_order_le _ _ _ Hrest) as Hhi.
  destruct (allow_spec l lo t v Hok Hstart ltac:(lia)) as (ok & l1 & b1 & -> & Hok1 & Hothers & Hb1 & Hel & Hcap & Hpay).
  destruct (IH t l1 Hok1 ltac:(lia) Hrest) as (answers & l2 & -> & Hok2 & Hall).
  exists (ok :: answers), l2. split; [done |]. split; [done |]. intros u. rewrite granted_cons.
  assert ((hi - t) / every <= (hi - lo) / every) as Hmono by (apply Z.div_le_mono; lia).
  destruct (Hall u) as [Hworth Hmax]. destruct (decide (v = u)) as [-> | Hne].
  - rewrite bool_decide_true, andb_true_r by done. specialize (Hworth b1 Hb1). split.
    + intros b Hb. rewrite Hb in Hpay. lia.
    + assert (worth b1 <= b1.(bucket.tokens) + ((hi - t) / every + 1)) as Hw.
      { unfold worth. replace ((hi - t) / every + 1) with ((hi - t + 1 * every) / every) by (rewrite Z.div_add; lia).
        apply Z.add_le_mono_l, Z.div_le_mono; lia. }
      lia.
  - rewrite bool_decide_false, andb_false_r by done. simpl. split; [| lia].
    intros b Hb. apply Hworth. by rewrite Hothers.
Qed.

(** A user who waits an interval between two requests. *)
Lemma spaced_served u requests : forall lo l prev,
  limiter_ok lo l -> start <= lo -> in_order lo hi requests -> spaced every u prev requests ->
  match prev with
  | Some p => exists b, RateLimiter.buckets l !! u = Some b /\ b.(bucket.last) <= p
  | None => RateLimiter.buckets l !! u = None
  end ->
  forall answers l', allow_all l requests = Some (answers, l') ->
  Forall (fun x => x.1.2 = u -> x.2 = true) (zip requests answers).
Proof.
  induction requests as [| [t v] rest IH]; intros lo l prev Hok Hstart Hord Hsp Hprev answers l'; simpl in *.
  { by intros [= <- <-]. }
  destruct Hord as [Hlt Hrest]. pose proof (in_order_le _ _ _ Hrest) as Hhi.
  destruct (allow_spec l lo t v Hok Hstart ltac:(lia)) as (ok & l1 & b1 & -> & Hok1 & Hothers & Hb1 & Hel & Hcap & Hpay).
  destruct (allow_all l1 rest) as [[answers1 l2] |] eqn:Hrun; [| done]. intros [= <- <-].
  assert (b1.(bucket.last) <= t) as Hlast by (by apply (proj2 (proj2 Hok1) v b1)).
  destruct (decide (v = u)) as [-> | Hne].
  - rewrite bool_decide_true in Hsp by done. destruct Hsp as [Hgap Hsp]. apply list.Forall_cons. split.
    + intros _. simpl. destruct prev as [p |].
      * destruct Hprev as (b & Hb & Hbp). rewrite Hb in Hpay. apply Hpay. lia.
      * rewrite Hprev in Hpay. by apply Hpay.
    + exact (IH t l1 (Some t) Hok1 ltac:(lia) Hrest Hsp (ex_intro _ b1 (conj Hb1 Hlast)) answers1 l2 Hrun).
  - rewrite bool_decide_false in Hsp by done. apply list.Forall_cons. split; [done |].
    assert (match prev with Some p => exists b, RateLimiter.buckets l1 !! u = Some b /\ b.(bucket.last) <= p
            | None => RateLimiter.buckets l1 !! u = None end) as Hprev1 by (rewrite Hothers; done).
    exact (IH t l1 prev Hok1 ltac:(lia) Hrest Hsp Hprev1 answers1 l2 Hrun).
Qed.
End Limiter.

Lemma new_limiter_ok burst every start lo : limiter_ok burst every start lo (NewRateLimiter burst every).
Proof. split; [done |]. split; [done |]. intros u b. simpl. by rewrite lookup_empty. Qed.

(** C30: the rate limiter keeps its rate: whatever was requested before, in a window of
    time it answers every request of every user, grants a user at most the burst, one
    request, and one more for each interval in the window, and never refuses a user
    who leaves an interval between two requests. *)
Theorem rate_is_kept burst every t0 t1 t2 history window :
  0 < burst -> 0 < every -> burst + 2 ^ 63 / every < 2 ^ 63 -> t2 - t0 < 2 ^ 63 ->
  in_order t0 t1 history -> in_order t1 t2 window ->
  exists answers l answers' l',
    allow_all (NewRateLimiter burst every) history = Some (answers, l) /\
    allow_all l window = Some (answers', l') /\
    (forall u, granted u window answers' <= burst + 1 + (t2 - t1) / every) /\
    (forall u, spaced every u None history -> Forall (fun x => x.1.2 = u -> x.2 = true) (zip history answers)).
Proof.
  intros Hb He Hfits Hspan Hhist Hwin.
  pose proof (in_order_le _ _ _ Hhist). pose proof (in_order_le _ _ _ Hwin).
  pose proof (new_limiter_ok burst every t0 t0) as Hnew.
  destruct (allow_all_spec burst every Hb He Hfits t0 t1 ltac:(lia) history t0 _ Hnew ltac:(lia) Hhist)
    as (answers & l & Hrun & Hok & _).
  destruct (allow_all_spec burst every Hb He Hfits t0 t2 Hspan window t1 l Hok ltac:(lia) Hwin)
    as (answers' & l' & Hrun' & _ & Hall).
  exists answers, l, answers', l'. split; [done |]. split; [done |]. split; [intros u; by apply Hall |].
  intros u Hsp. refine (spaced_served burst every Hb He Hfits t0 t1 _ u history t0 _ None Hnew _ Hhist Hsp _ answers l Hrun);
    [lia | lia | simpl; by rewrite lookup_empty].
Qed.

(** At a request a second with a burst of three, six requests in the same second and
    one a second later. *)
Lemma rate_is_kept_witness :
  let requests := ((5 * Second, 1%N) :: replicate 5 (5 * Second, 1%N) ++ [(6 * Second, 1%N)])%list in
  exists answers l answers' l',
    allow_all (NewRateLimiter 3 Second) [] = Some (answers, l) /\ allow_all l requests = Some (answers', l') /\
    answers' = [true; true; true; false; false; false; true] /\
    granted 1%N requests answers' <= 3 + 1 + (7 * Second - 5 * Second) / Second.
Proof.
  intros requests.
  destruct (rate_is_kept 3 Second 0 (5 * Second) (7 * Second) [] requests)
    as (answers & l & answers' & l' & Hh & Hw & Hg & _).
  - lia.
  - unfold Second. lia.
  - vm_compute. reflexivity.
  - vm_compute. reflexivity.
  - simpl. unfold Second. lia.
  - unfold requests. simpl. unfold Second. lia.
  - exists answers, l, answers', l'. split; [exact Hh |]. split; [exact Hw |]. split; [| apply Hg].
    injection Hh as _ <-. vm_compute in Hw. injection Hw as <- _. reflexivity.
Defined.
