(* ===== verification/SagaServer.v ===== *)
(** * SagaServer: [internal/sagagrpc/server.go] and the gateway's client of it.

    The gRPC handlers of the orchestrator, the messages they answer with, and
    [internal/gateway/client/saga.go], which sends the requests and reads the messages
    back.  A timestamp of the wire is the time it stands for, or nothing. *)

From S2P Require Import Prelude GoStrings Domain GoTime Json Database Outbox Grpc.
From S2P Require Import SagaTypes SagaStore Orchestrator FraudReview.

#[local] Open Scope string_scope.
#[local] Open Scope Z_scope.

Module StartPaymentSagaRequest.
Record t := mk {
  PaymentId : string; IdempotencyKey : string; TraceId : string; UserId : string;
  FromWalletId : string; ToWalletId : string; AmountCents : Z; Currency : string
}.
End StartPaymentSagaRequest.

Module StartPaymentSagaResponse.
Record t := mk { PaymentId : string; Status : string; AcceptedAt : option time }.
End StartPaymentSagaResponse.

Module PaymentSaga.
Record t := mk {
  PaymentId : string; Status : string; FromWalletId : string; ToWalletId : string; AmountCents : Z;
  Currency : string; FailureCode : string; FailureMessage : string; CreatedAt : option time;
  UpdatedAt : option time; UserId : string; FraudSessionId : string; FraudAction : string;
  FraudRiskScore : float64; FraudReason : string; DeferredPaymentJson : document;
  FraudFlaggedAt : option time
}.
End PaymentSaga.

Module AuditMessage.
Record t := mk {
  EventId : string; PaymentId : string; Kind : string; SagaState : string; DetailsJson : document;
  CreatedAt : option time
}.
End AuditMessage.

Module ReviewRequest.
Record t := mk { PaymentId : string; ActorId : string; Reason : string; TraceId : string }.
End ReviewRequest.

Definition statusFromSaga (e : saga_error) : status :=
  match e with
  | ErrSagaAlreadyExists => Status AlreadyExists "idempotency key conflicts with another payload"
  | ErrSagaNotFound => Status NotFound "payment saga not found"
  | ErrUnverified => Status FailedPrecondition "user is not verified"
  | ErrNotUnderReview => Status FailedPrecondition "payment is not under fraud review"
  | _ => internal_error
  end.

Definition sagaMessage (current : Saga.t) : PaymentSaga.t :=
  PaymentSaga.mk current.(Saga.PaymentID) current.(Saga.State) current.(Saga.FromWalletID)
    current.(Saga.ToWalletID) current.(Saga.AmountCents) current.(Saga.Currency) current.(Saga.FailureCode)
    current.(Saga.LastError) (Some current.(Saga.CreatedAt)) (Some current.(Saga.UpdatedAt))
    current.(Saga.UserID) current.(Saga.FraudSessionID) current.(Saga.FraudAction)
    current.(Saga.FraudRiskScore) current.(Saga.FraudReason) current.(Saga.DeferredPaymentJSON)
    (if negb (IsZero current.(Saga.FraudFlaggedAt)) then Some current.(Saga.FraudFlaggedAt) else None).

Definition auditMessage (record : FraudAuditRecord.t) : AuditMessage.t :=
  AuditMessage.mk record.(FraudAuditRecord.EventID) record.(FraudAuditRecord.PaymentID)
    record.(FraudAuditRecord.Kind) record.(FraudAuditRecord.SagaState) record.(FraudAuditRecord.DetailsJSON)
    (Some record.(FraudAuditRecord.CreatedAt)).

Definition reviewDecision (paymentID actorID reason traceID : string) : res status FraudReviewDecision.t :=
  if (paymentID =s "") || (actorID =s "")
  then Err (Status InvalidArgument "payment_id and actor_id are required")
  else Ok (FraudReviewDecision.mk paymentID actorID reason traceID).

Section Server.
Context {W : Type} `{Remote W} `{Clock} `{Postgres} `{Uuid}.
Variable ctx : context.

Abbreviation srpc A := (prog (world W) status A).

Definition StartPaymentSaga (req : option StartPaymentSagaRequest.t) : srpc StartPaymentSagaResponse.t :=
  let! req := required req request_required in
  guard ((req.(StartPaymentSagaRequest.PaymentId) =s "") || (req.(StartPaymentSagaRequest.IdempotencyKey) =s "")
         || (req.(StartPaymentSagaRequest.UserId) =s "") || (req.(StartPaymentSagaRequest.FromWalletId) =s "")
         || (req.(StartPaymentSagaRequest.ToWalletId) =s "") || (req.(StartPaymentSagaRequest.Currency) =s ""))
    (Status InvalidArgument "payment_id, idempotency_key, user_id, wallet IDs, and currency are required") ;!
  guard (req.(StartPaymentSagaRequest.AmountCents) <=? 0)
    (Status InvalidArgument "amount_cents must be positive") ;!
  let! current := served_by statusFromSaga (Orchestrator.StartPaymentSaga ctx
    (StartRequest.mk req.(StartPaymentSagaRequest.PaymentId) req.(StartPaymentSagaRequest.IdempotencyKey)
       req.(StartPaymentSagaRequest.TraceId) req.(StartPaymentSagaRequest.UserId)
       req.(StartPaymentSagaRequest.FromWalletId) req.(StartPaymentSagaRequest.ToWalletId)
       req.(StartPaymentSagaRequest.AmountCents) req.(StartPaymentSagaRequest.Currency))) in
  ret (StartPaymentSagaResponse.mk current.(Saga.PaymentID) current.(Saga.State) (Some current.(Saga.CreatedAt))).

Definition payment_id_required : status := Status InvalidArgument "payment_id is required".

Definition GetPaymentSaga (paymentId : option string) : srpc PaymentSaga.t :=
  let! paymentId := required paymentId payment_id_required in
  guard (paymentId =s "") payment_id_required ;!
  let! current := served_by statusFromSaga (Orchestrator.GetPaymentSaga paymentId) in
  ret (sagaMessage current).

Definition ResumeFraudReview (req : ReviewRequest.t) : srpc PaymentSaga.t :=
  let! decision := lift (reviewDecision req.(ReviewRequest.PaymentId) req.(ReviewRequest.ActorId)
                           req.(ReviewRequest.Reason) req.(ReviewRequest.TraceId)) in
  let! current := served_by statusFromSaga (FraudReview.ResumeFraudReview ctx decision) in
  ret (sagaMessage current).

Definition RejectFraudReview (req : ReviewRequest.t) : srpc PaymentSaga.t :=
  let! decision := lift (reviewDecision req.(ReviewRequest.PaymentId) req.(ReviewRequest.ActorId)
                           req.(ReviewRequest.Reason) req.(ReviewRequest.TraceId)) in
  let! current := served_by statusFromSaga (FraudReview.RejectFraudReview ctx decision) in
  ret (sagaMessage current).

Definition ListFraudReviews : srpc (list PaymentSaga.t) :=
  let! sagas := served_by statusFromSaga FraudReview.ListFraudReviews in
  ret (sagaMessage <$> sagas).

Definition GetFraudReview (paymentId : option string) : srpc (PaymentSaga.t * list AuditMessage.t) :=
  let! paymentId := required paymentId payment_id_required in
  guard (paymentId =s "") payment_id_required ;!
  let! review := served_by statusFromSaga (FraudReview.GetFraudReview paymentId) in
  ret (sagaMessage review.1, auditMessage <$> review.2).
End Server.

(** ** The client *)

(** A field the message leaves out is the zero time. *)
Definition timeFromMessage (t : option time) : time := default zero_time t.

Definition sagaFromMessage (message : PaymentSaga.t) : Saga.t :=
  Saga.mk "" message.(PaymentSaga.PaymentId) "" message.(PaymentSaga.UserId) message.(PaymentSaga.FromWalletId)
    message.(PaymentSaga.ToWalletId) message.(PaymentSaga.AmountCents) message.(PaymentSaga.Currency)
    message.(PaymentSaga.Status) message.(PaymentSaga.FailureMessage) "" "" "" "" message.(PaymentSaga.FailureCode)
    message.(PaymentSaga.FraudSessionId) message.(PaymentSaga.FraudAction) message.(PaymentSaga.FraudRiskScore)
    message.(PaymentSaga.FraudReason) (timeFromMessage message.(PaymentSaga.FraudFlaggedAt))
    message.(PaymentSaga.DeferredPaymentJson) (timeFromMessage message.(PaymentSaga.CreatedAt))
    (timeFromMessage message.(PaymentSaga.UpdatedAt)).

Definition auditFromMessage (message : AuditMessage.t) : FraudAuditRecord.t :=
  FraudAuditRecord.mk message.(AuditMessage.EventId) message.(AuditMessage.PaymentId) message.(AuditMessage.Kind)
    message.(AuditMessage.SagaState) message.(AuditMessage.DetailsJson)
    (timeFromMessage message.(AuditMessage.CreatedAt)).

(** A call over the network, which may be lost on the way there or back. *)
Definition over_wire {T A} (p : prog T status A) : prog T status A := fun c =>
  let '(f, s) := next_fault (schedule c) in
  let c := with_schedule s c in
  match f with
  | NoFault => p c
  | FailBefore => (Err unavailable, c)
  | FailAfter => (Err unavailable, snd (p c))
  end.

Section Client.
Context {W : Type} `{Remote W} `{Clock} `{Postgres} `{Uuid}.
Variable ctx : context.

Definition SagaClient_StartPayment (req : StartRequest.t) : prog (world W) status Saga.t :=
  let! resp := over_wire (StartPaymentSaga ctx (Some (StartPaymentSagaRequest.mk
    req.(StartRequest.PaymentID) req.(StartRequest.IdempotencyKey) req.(StartRequest.TraceID)
    req.(StartRequest.UserID) req.(StartRequest.FromWalletID) req.(StartRequest.ToWalletID)
    req.(StartRequest.AmountCents) req.(StartRequest.Currency)))) in
  ret (Saga.mk "" resp.(StartPaymentSagaResponse.PaymentId) "" "" "" "" 0 "" resp.(StartPaymentSagaResponse.Status)
         "" "" "" "" "" "" "" "" float_zero "" zero_time None
         (timeFromMessage resp.(StartPaymentSagaResponse.AcceptedAt)) zero_time).

Definition SagaClient_GetPayment (paymentID : string) : prog (world W) status Saga.t :=
  let! message := over_wire (GetPaymentSaga (Some paymentID)) in
  ret (sagaFromMessage message).

Definition review_request (d : FraudReviewDecision.t) : ReviewRequest.t :=
  ReviewRequest.mk d.(FraudReviewDecision.PaymentID) d.(FraudReviewDecision.ActorID)
    d.(FraudReviewDecision.Reason) d.(FraudReviewDecision.TraceID).

Definition SagaClient_ResumeFraudReview (decision : FraudReviewDecision.t) : prog (world W) status Saga.t :=
  let! message := over_wire (ResumeFraudReview ctx (review_request decision)) in
  ret (sagaFromMessage message).

Definition SagaClient_RejectFraudReview (decision : FraudReviewDecision.t) : prog (world W) status Saga.t :=
  let! message := over_wire (RejectFraudReview ctx (review_request decision)) in
  ret (sagaFromMessage message).

Definition SagaClient_ListFraudReviews : prog (world W) status (list Saga.t) :=
  let! messages := over_wire ListFraudReviews in
  ret (sagaFromMessage <$> messages).

Definition SagaClient_GetFraudReview (paymentID : string)
    : prog (world W) status (Saga.t * list FraudAuditRecord.t) :=
  let! review := over_wire (GetFraudReview (Some paymentID)) in
  ret (sagaFromMessage review.1, auditFromMessage <$> review.2).
End Client.

(** ** What the wire keeps *)

(** The fields of a saga that no message carries. *)
Definition on_the_wire (s : Saga.t) : Saga.t :=
  Saga.mk "" s.(Saga.PaymentID) "" s.(Saga.UserID) s.(Saga.FromWalletID) s.(Saga.ToWalletID)
    s.(Saga.AmountCents) s.(Saga.Currency) s.(Saga.State) s.(Saga.LastError) "" "" "" "" s.(Saga.FailureCode)
    s.(Saga.FraudSessionID) s.(Saga.FraudAction) s.(Saga.FraudRiskScore) s.(Saga.FraudReason)
    s.(Saga.FraudFlaggedAt) s.(Saga.DeferredPaymentJSON) s.(Saga.CreatedAt) s.(Saga.UpdatedAt).

Lemma IsZero_true t : IsZero t = true -> t = zero_time.
Proof. unfold IsZero. intros Ht. by apply Z.eqb_eq in Ht. Qed.

Lemma saga_over_the_wire s : sagaFromMessage (sagaMessage s) = on_the_wire s.
Proof.
  unfold sagaFromMessage, sagaMessage, on_the_wire. cbn -[IsZero]. f_equal.
  destruct (IsZero s.(Saga.FraudFlaggedAt)) eqn:Hz; [| done]. apply IsZero_true in Hz. by rewrite Hz.
Qed.

Lemma audit_over_the_wire a : auditFromMessage (auditMessage a) = a.
Proof. by destruct a. Qed.
