(* ===== verification/Gateway.v ===== *)
(** * Gateway: who may do what over HTTP.

    [internal/auth], the rate-limiting middleware and the payment and fraud-review
    routes of [internal/gateway/handler], over the gateway's client of the
    orchestrator.  The JWT library is the class [Jwt].  A request has a method, a path,
    headers looked up by name, and a body, which is absent or holds a document; fresh
    identifiers ([uuid.NewString]) are given with the request.  A response has a
    status, a document and the trace header.  A request can do to the sagas only what
    the user or the administrator its token names may do. *)

From stdpp Require Import pretty sorting.
From S2P Require Import Prelude GoStrings Mime Domain GoTime Json Database Outbox Grpc.
From S2P Require Import SagaTypes SagaStore Orchestrator FraudReview SagaSafety SagaRuns SagaServer RateLimiter.

#[local] Open Scope string_scope.
#[local] Open Scope Z_scope.

(** ** Authentication *)

Definition AlgHS256 : string := "HS256".
Definition AlgRS256 : string := "RS256".

Inductive key := HMACKey (secret : string) | RSAKey (publicKeyPEM : string).

Module Verifier.
Record t := mk { method : option string; key_of : key }.
End Verifier.

Module Principal.
Record t := mk { UserID : uuid; Role : string }.
End Principal.

Definition claims : Type := list (string * json).

(** [jwt.ParseRSAPublicKeyFromPEM] accepts the text, and [jwt.ParseWithClaims] with a
    required expiry: given the key for the algorithm the token names and the accepted
    algorithms, the claims of a valid token. *)
Class Jwt := {
  jwt_public_key : string -> bool;
  jwt_ParseWithClaims : string -> (string -> option key) -> list string -> option claims;
  jwt_verifies : string -> key -> string -> claims -> Prop
}.

(** What the library documents: claims are returned only when the algorithm is one of
    the accepted ones and the signature verifies under the key given for it. *)
Class JwtOk `{Jwt} : Prop := {
  jwt_valid : forall token keyFunc methods c,
    jwt_ParseWithClaims token keyFunc methods = Some c ->
    exists alg k, alg ∈ methods /\ keyFunc alg = Some k /\ jwt_verifies alg k token c
}.

Definition HMACVerifier (secret : string) : Verifier.t := Verifier.mk (Some AlgHS256) (HMACKey secret).

Definition Algorithm (verifier : Verifier.t) : string := default "" verifier.(Verifier.method).

Definition keyFunc (verifier : Verifier.t) (alg : string) : option key :=
  match verifier.(Verifier.method) with
  | None => None
  | Some method =>
      if negb (alg =s method) then None
      else match verifier.(Verifier.key_of) with
           | RSAKey _ => if negb (method =s AlgRS256) then None else Some verifier.(Verifier.key_of)
           | HMACKey _ => Some verifier.(Verifier.key_of)
           end
  end.

(** [claims[name].(string)], when it is there and not empty. *)
Definition claim_text (name : string) (c : claims) : option string :=
  match snd <$> List.find (fun kv => kv.1 =s name) (rev c) with
  | Some (JString s) => if s =s "" then None else Some s
  | _ => None
  end.

Section Auth.
Context `{Jwt} `{Uuid}.

Definition NewVerifier (algorithm secret publicKeyPEM : string) : option Verifier.t :=
  let algorithm := ToUpper (TrimSpace algorithm) in
  if (algorithm =s "") || (algorithm =s AlgHS256) then Some (HMACVerifier secret)
  else if algorithm =s AlgRS256
       then if jwt_public_key publicKeyPEM then Some (Verifier.mk (Some AlgRS256) (RSAKey publicKeyPEM)) else None
  else None.

Definition authenticate (header : string) (verifier : Verifier.t) : res string Principal.t :=
  if header =s "" then Err "missing_authorization"
  else match Cut header " " with
       | None => Err "invalid_authorization_format"
       | Some (scheme, tokenString) =>
           if negb (EqualFold scheme "Bearer") || (tokenString =s "") || Contains tokenString " "
           then Err "invalid_authorization_format"
           else match jwt_ParseWithClaims tokenString (keyFunc verifier) [Algorithm verifier] with
                | None => Err "invalid_token"
                | Some c =>
                    match claim_text "user_id" c with
                    | None => Err "missing_user_id"
                    | Some raw =>
                        match uuid_Parse raw with
                        | None => Err "invalid_user_id"
                        | Some userID =>
                            match claim_text "role" c with
                            | None => Err "missing_role"
                            | Some role => Ok (Principal.mk userID role)
                            end
                        end
                    end
                end
       end.
End Auth.

(** ** Requests and responses *)

Module Request.
Record t := mk {
  Method : string;
  Path : string;
  Header : string -> string;
  Body : option document;
  ContentLength : Z;
  fresh_payment : uuid;
  fresh_trace : uuid
}.
End Request.

Module Response.
Record t := mk { Status : Z; Body : json; TraceId : option string }.
End Response.

Definition error_response (status : Z) (code message : string) : Response.t :=
  Response.mk status (JObject [("error", JObject [("code", JString code); ("message", JString message)])]) None.

Definition not_found : Response.t := error_response 404 "not_found" "resource not found".
Definition unauthorized : Response.t := error_response 401 "unauthorized" "authentication required".
Definition invalid_request (message : string) : Response.t := error_response 400 "invalid_request" message.

(** The status a gRPC error is answered with. *)
Definition writeGRPCError (e : status) : Response.t :=
  match Code e with
  | InvalidArgument => error_response 400 "invalid_request" (Message e)
  | NotFound => error_response 404 "wallet_not_found" "wallet not found"
  | FailedPrecondition =>
      if Message e =s "insufficient funds" then error_response 422 "insufficient_funds" "insufficient funds"
      else error_response 422 "failed_precondition" (Message e)
  | _ => error_response 500 "internal_error" "internal server error"
  end.

Definition rejectNonJSONContentType (r : Request.t) : option Response.t :=
  match r.(Request.Body) with
  | None => None
  | Some _ => if is_json_media (r.(Request.Header) "Content-Type") then None
              else Some (invalid_request "content type must be application/json")
  end.

Definition RoleAdmin : string := "admin".
Definition paymentPathPrefix : string := "/v1/payments/".
Definition fraudReviewsPath : string := "/v1/fraud-reviews".

Definition fraudReviewTarget (path : string) : option (string * string) :=
  match CutPrefix path paymentPathPrefix with
  | None => None
  | Some rest =>
      match Cut rest "/" with
      | None => None
      | Some (paymentID, tail) =>
          match CutPrefix tail "fraud-review/" with
          | None => None
          | Some action => if (action =s "") || Contains action "/" then None else Some (paymentID, action)
          end
      end
  end.

Definition isFraudReviewPath (path : string) : bool :=
  match fraudReviewTarget path with
  | Some (_, action) => (action =s "resume") || (action =s "reject")
  | None => false
  end.

Definition optionalTime (value : time) : json := if IsZero value then JNull else JTime value.

(** A stored document is embedded; the empty text is not JSON and stays a string. *)
Definition details (d : document) : json := match d with Some j => j | None => JString "" end.

Definition fraudReviewResponse (current : Saga.t) : json :=
  JObject [
    ("payment_id", JString current.(Saga.PaymentID)); ("status", JString current.(Saga.State));
    ("user_id", JString current.(Saga.UserID)); ("from_wallet_id", JString current.(Saga.FromWalletID));
    ("to_wallet_id", JString current.(Saga.ToWalletID)); ("amount_cents", JInt current.(Saga.AmountCents));
    ("currency", JString current.(Saga.Currency)); ("fraud_session_id", JString current.(Saga.FraudSessionID));
    ("fraud_action", JString current.(Saga.FraudAction)); ("fraud_risk_score", JFloat current.(Saga.FraudRiskScore));
    ("fraud_reason", JString current.(Saga.FraudReason));
    ("fraud_flagged_at", optionalTime current.(Saga.FraudFlaggedAt));
    ("deferred_result_pending", JBool (if current.(Saga.DeferredPaymentJSON) is Some _ then true else false));
    ("failure_code", JString current.(Saga.FailureCode)); ("failure_message", JString current.(Saga.LastError));
    ("created_at", JTime current.(Saga.CreatedAt)); ("updated_at", JTime current.(Saga.UpdatedAt))].

Definition fraudAuditResponse (record : FraudAuditRecord.t) : json :=
  JObject [
    ("event_id", JString record.(FraudAuditRecord.EventID)); ("kind", JString record.(FraudAuditRecord.Kind));
    ("saga_state", JString record.(FraudAuditRecord.SagaState));
    ("details", details record.(FraudAuditRecord.DetailsJSON));
    ("created_at", JTime record.(FraudAuditRecord.CreatedAt))].

(** [json.NewDecoder(r.Body).Decode(&request)] of the body of a transfer. *)
Module TransferRequest.
Record t := mk {
  PaymentID : string; FromWallet : string; ToWallet : string; AmountCents : Z; Currency : string
}.
Definition of_json (body : document) : res json_error t :=
  let? fields := json_object body in
  let? payment_id := get_string "payment_id" fields in
  let? from_wallet_id := get_string "from_wallet_id" fields in
  let? to_wallet_id := get_string "to_wallet_id" fields in
  let? amount_cents := get_int64 "amount_cents" fields in
  let? currency := get_string "currency" fields in
  Ok (mk payment_id from_wallet_id to_wallet_id amount_cents currency).
End TransferRequest.

Section Requests.
Context `{Uuid}.

Definition requestTraceID (r : Request.t) : string :=
  let traceID := TrimSpace (r.(Request.Header) "X-Trace-Id") in
  if traceID =s "" then uuid_String r.(Request.fresh_trace) else traceID.

Definition invalid_uuid_text (s : string) : bool := if uuid_Parse s is Some _ then false else true.

(** The order a transfer request makes for a user, or the answer that refuses it. *)
Definition payment_order (r : Request.t) (userID : string) : Response.t + StartRequest.t :=
  match rejectNonJSONContentType r with
  | Some resp => inl resp
  | None =>
      match TransferRequest.of_json (default None r.(Request.Body)) with
      | Err _ => inl (invalid_request "request body is invalid")
      | Ok request =>
          let paymentID := if request.(TransferRequest.PaymentID) =s "" then uuid_String r.(Request.fresh_payment)
                           else request.(TransferRequest.PaymentID) in
          if invalid_uuid_text paymentID then inl (invalid_request "payment_id is invalid")
          else if invalid_uuid_text request.(TransferRequest.FromWallet)
               then inl (invalid_request "from_wallet_id is invalid")
          else if invalid_uuid_text request.(TransferRequest.ToWallet)
               then inl (invalid_request "to_wallet_id is invalid")
          else if (request.(TransferRequest.AmountCents) <=? 0) || (request.(TransferRequest.Currency) =s "")
                  || (request.(TransferRequest.FromWallet) =s request.(TransferRequest.ToWallet))
               then inl (invalid_request "payment fields are invalid")
          else
            let traceID := requestTraceID r in
            let key := TrimSpace (r.(Request.Header) "Idempotency-Key") in
            inr (StartRequest.mk paymentID (if key =s "" then paymentID else key) traceID userID
                   request.(TransferRequest.FromWallet) request.(TransferRequest.ToWallet)
                   request.(TransferRequest.AmountCents) (ToUpper request.(TransferRequest.Currency)))
      end
  end.

(** The reason in the body of a decision, or the answer that refuses it. *)
Definition decision_reason (r : Request.t) : Response.t + string :=
  if 0 <? r.(Request.ContentLength) then
    match rejectNonJSONContentType r with
    | Some resp => inl resp
    | None =>
        match (let? fields := json_object (default None r.(Request.Body)) in get_string "reason" fields) with
        | Err _ => inl (invalid_request "request body is invalid")
        | Ok reason => inr (TrimSpace reason)
        end
    end
  else inr "".
End Requests.

(** ** The handlers *)

Section Handlers.
Context {W : Type} `{Remote W} `{Clock} `{Postgres} `{Uuid}.
Variable ctx : context.

Abbreviation served := (prog (world W) status Response.t).

(** The answer to a call of the orchestrator: [writeGRPCError] for its errors. *)
Definition answering {A} (p : prog (world W) status A) (f : A -> Response.t) : served :=
  let! r := attempt p in
  match r with
  | Ok a => ret (f a)
  | Err e => ret (writeGRPCError e)
  end.

Definition startPayment (r : Request.t) (userID : string) : served :=
  match payment_order r userID with
  | inl resp => ret resp
  | inr order =>
      let traceID := order.(StartRequest.TraceID) in
      answering (SagaClient_StartPayment ctx order) (fun current =>
        Response.mk 202 (JObject [
          ("payment_id", JString current.(Saga.PaymentID)); ("status", JString current.(Saga.State));
          ("trace_id", JString traceID)]) (Some traceID))
  end.

Definition getPayment (r : Request.t) : served :=
  let paymentID := TrimPrefix r.(Request.Path) paymentPathPrefix in
  if invalid_uuid_text paymentID then ret (invalid_request "payment_id is invalid")
  else
    let traceID := requestTraceID r in
    answering (SagaClient_GetPayment paymentID) (fun current =>
      Response.mk 200 (JObject [
        ("payment_id", JString current.(Saga.PaymentID)); ("status", JString current.(Saga.State));
        ("from_wallet_id", JString current.(Saga.FromWalletID)); ("to_wallet_id", JString current.(Saga.ToWalletID));
        ("amount_cents", JInt current.(Saga.AmountCents)); ("currency", JString current.(Saga.Currency));
        ("failure_code", JString current.(Saga.FailureCode)); ("failure_message", JString current.(Saga.LastError));
        ("created_at", JTime current.(Saga.CreatedAt)); ("updated_at", JTime current.(Saga.UpdatedAt));
        ("trace_id", JString traceID)]) (Some traceID)).

Definition decideFraudReview (r : Request.t) (principal : Principal.t) : served :=
  if negb (principal.(Principal.Role) =s RoleAdmin)
  then ret (error_response 403 "forbidden" "fraud review decisions require an administrator")
  else match fraudReviewTarget r.(Request.Path) with
       | None => ret not_found
       | Some (paymentID, action) =>
           if invalid_uuid_text paymentID then ret (invalid_request "payment_id is invalid")
           else match decision_reason r with
                | inl resp => ret resp
                | inr reason =>
                    let traceID := requestTraceID r in
                    let decision := FraudReviewDecision.mk paymentID
                                      (uuid_String principal.(Principal.UserID)) reason traceID in
                    answering (if action =s "resume" then SagaClient_ResumeFraudReview ctx decision
                               else SagaClient_RejectFraudReview ctx decision) (fun current =>
                      Response.mk 200 (JObject [
                        ("payment_id", JString current.(Saga.PaymentID)); ("status", JString current.(Saga.State));
                        ("failure_code", JString current.(Saga.FailureCode));
                        ("failure_message", JString current.(Saga.LastError));
                        ("updated_at", JTime current.(Saga.UpdatedAt)); ("trace_id", JString traceID)])
                        (Some traceID))
                end
       end.

Definition NewPayments (principal : Principal.t) (r : Request.t) : served :=
  if (r.(Request.Method) =s "POST") && (r.(Request.Path) =s "/v1/transfers")
  then startPayment r (uuid_String principal.(Principal.UserID))
  else if (r.(Request.Method) =s "POST") && isFraudReviewPath r.(Request.Path)
       then decideFraudReview r principal
  else if (r.(Request.Method) =s "GET") && HasPrefix r.(Request.Path) paymentPathPrefix then getPayment r
  else ret not_found.

Definition listFraudReviews (r : Request.t) : served :=
  let traceID := requestTraceID r in
  answering SagaClient_ListFraudReviews (fun sagas =>
    Response.mk 200 (JObject [("reviews", JArray (fraudReviewResponse <$> sagas)); ("trace_id", JString traceID)])
      (Some traceID)).

Definition getFraudReview (r : Request.t) (paymentID : string) : served :=
  if invalid_uuid_text paymentID then ret (invalid_request "payment_id is invalid")
  else
    let traceID := requestTraceID r in
    answering (SagaClient_GetFraudReview paymentID) (fun review =>
      Response.mk 200 (JObject [
        ("review", fraudReviewResponse review.1); ("audit", JArray (fraudAuditResponse <$> review.2));
        ("trace_id", JString traceID)]) (Some traceID)).

Definition NewFraudReviews (principal : Principal.t) (r : Request.t) : served :=
  if negb (principal.(Principal.Role) =s RoleAdmin)
  then ret (error_response 403 "forbidden" "the fraud review queue requires an administrator")
  else if (r.(Request.Method) =s "GET") && (r.(Request.Path) =s fraudReviewsPath) then listFraudReviews r
  else match CutPrefix r.(Request.Path) (fraudReviewsPath ++ "/") with
       | Some paymentID =>
           if (r.(Request.Method) =s "GET") && negb (Contains paymentID "/") then getFraudReview r paymentID
           else ret not_found
       | None => ret not_found
       end.

(** ** The chain: the token, the limiter, the handler *)

Definition protected `{Jwt} (verifier : Verifier.t) (limiter : RateLimiter.t) (now : time)
    (handler : Principal.t -> Request.t -> served) (r : Request.t) (c : conn (world W))
    : option (Response.t * RateLimiter.t * conn (world W)) :=
  match authenticate (r.(Request.Header) "Authorization") verifier with
  | Err _ => Some (unauthorized, limiter, c)
  | Ok principal =>
      match allow limiter now principal.(Principal.UserID) with
      | None => None
      | Some (false, limiter) =>
          Some (error_response 429 "rate_limited" "rate limit exceeded", limiter, c)
      | Some (true, limiter) =>
          match handler principal r c with
          | (Ok resp, c') => Some (resp, limiter, c')
          | (Err e, c') => Some (writeGRPCError e, limiter, c')
          end
      end
  end.
End Handlers.

(** ** What a request can do *)

(** What the user of a token may ask of the orchestrator. *)
Inductive authorised `{Uuid} (principal : Principal.t) : input -> Prop :=
| may_pay req :
    req.(StartRequest.UserID) = uuid_String principal.(Principal.UserID) -> authorised principal (InStart req)
| may_resume decision :
    principal.(Principal.Role) = RoleAdmin ->
    decision.(FraudReviewDecision.ActorID) = uuid_String principal.(Principal.UserID) ->
    authorised principal (InResume decision)
| may_reject decision :
    principal.(Principal.Role) = RoleAdmin ->
    decision.(FraudReviewDecision.ActorID) = uuid_String principal.(Principal.UserID) ->
    authorised principal (InReject decision).

Section Effects.
Context {W : Type} `{HR : Remote W} `{Clock} `{Postgres} `{Uuid}.
Variable ctx : context.
Implicit Types w : world W.

(** A program that leaves the sagas alone, and one that does at most what the input
    [i] makes the orchestrator do. *)
Definition reads {E A} (p : prog (world W) E A) : Prop :=
  forall w s, let c' := snd (p (Conn w None s)) in committed c' = w /\ working c' = None.

Definition acts {A} (i : input) (p : prog (world W) status A) : Prop :=
  forall w s, let c' := snd (p (Conn w None s)) in
    committed c' = w \/ exists s', committed c' = committed (snd (handle ctx i (Conn w None s'))).

Lemma reads_ret {E A} (a : A) : reads (E := E) (ret a).
Proof. by intros w s. Qed.

Lemma reads_throw {E A} (e : E) : reads (A := A) (throw e).
Proof. by intros w s. Qed.

Lemma reads_guard {E} b (e : E) : reads (guard b e).
Proof. destruct b; [apply reads_throw | apply reads_ret]. Qed.

Lemma reads_lift {E A} (r : res E A) : reads (lift r).
Proof. by intros w s. Qed.

Lemma reads_required {A} (o : option A) e : reads (required o e).
Proof. destruct o; [apply reads_ret | apply reads_throw]. Qed.

Lemma reads_bind {E A B} (p : prog (world W) E A) (k : A -> prog (world W) E B) :
  reads p -> (forall a, reads (k a)) -> reads (let! a := p in k a).
Proof.
  intros Hp Hk w s. specialize (Hp w s). unfold bind. destruct (p (Conn w None s)) as [[a | e] [cm wk s']]; simpl in *.
  - destruct Hp as [-> ->]. apply (Hk a w s').
  - done.
Qed.

Lemma reads_attempt {E A} (p : prog (world W) E A) : reads p -> reads (attempt p).
Proof. intros Hp w s. specialize (Hp w s). unfold attempt. by destruct (p (Conn w None s)). Qed.

Lemma reads_query {E A} `{Infra E} (q : world W -> res E A) : reads (query q).
Proof.
  intros w s. unfold query, exec, current, put, with_schedule. simpl.
  destruct (next_fault s) as [[] s']; simpl; by destruct (q w).
Qed.

Lemma reads_served {E A} (f : E -> status) (p : prog (world W) E A) : reads p -> reads (served_by f p).
Proof. intros Hp w s. specialize (Hp w s). unfold served_by. by destruct (p (Conn w None s)) as [[] ?]. Qed.

Lemma reads_wire {A} (p : prog (world W) status A) : reads p -> reads (over_wire p).
Proof.
  intros Hp w s. unfold over_wire, with_schedule. simpl.
  destruct (next_fault s) as [[] s']; simpl; [apply Hp | done | apply Hp].
Qed.

Lemma reads_acts {A} i (p : prog (world W) status A) : reads p -> acts i p.
Proof. intros Hp w s. left. apply Hp. Qed.

(** Checks before and a reading of the answer after do not matter. *)
Lemma acts_after {A B} i (p : prog (world W) status A) (k : A -> prog (world W) status B) :
  reads p -> (forall a, acts i (k a)) -> acts i (let! a := p in k a).
Proof.
  intros Hp Hk w s. specialize (Hp w s). unfold bind. destruct (p (Conn w None s)) as [[a | e] [cm wk s']]; simpl in *.
  - destruct Hp as [-> ->]. apply Hk.
  - by left; apply Hp.
Qed.

Lemma acts_answer {A B} i (p : prog (world W) status A) (f : A -> B) : acts i p -> acts i (let! a := p in ret (f a)).
Proof. intros Hp w s. specialize (Hp w s). unfold bind. by destruct (p (Conn w None s)) as [[a | e] c]. Qed.

Lemma acts_attempt {A B} i (p : prog (world W) status A) (f : res status A -> B) :
  acts i p -> acts i (let! r := attempt p in ret (f r)).
Proof. intros Hp w s. specialize (Hp w s). unfold bind, attempt. by destruct (p (Conn w None s)) as [r c]. Qed.

Lemma acts_wire {A} i (p : prog (world W) status A) : acts i p -> acts i (over_wire p).
Proof.
  intros Hp w s. unfold over_wire, with_schedule. simpl.
  destruct (next_fault s) as [[] s']; simpl; [apply Hp | by left | apply Hp].
Qed.

(** A call of the orchestrator behind the server's error table. *)
Lemma acts_served {A} i (p : sdb W A) (f : saga_error -> status) :
  handle ctx i = (p ;! ret tt) -> acts i (served_by f p).
Proof.
  intros Hi w s. right. exists s. rewrite Hi. unfold served_by, bind.
  by destruct (p (Conn w None s)) as [[a | e] c].
Qed.

Lemma acts_ret {A B} i (x : A) (k : A -> prog (world W) status B) : acts i (k x) -> acts i (let! a := ret x in k a).
Proof. exact id. Qed.

Lemma start_acts order : acts (InStart order) (SagaClient_StartPayment ctx order).
Proof.
  unfold SagaClient_StartPayment, StartPaymentSaga. apply acts_answer, acts_wire, acts_ret.
  apply acts_after; [apply reads_guard | intros _]. apply acts_after; [apply reads_guard | intros _].
  apply acts_answer, acts_served. by destruct order.
Qed.

Lemma review_acts (p : FraudReviewDecision.t -> sdb W Saga.t) (i : FraudReviewDecision.t -> input) d :
  (forall x, handle ctx (i x) = (p x ;! ret tt)) ->
  acts (i d) (let! message := over_wire (
                let! decision := lift (reviewDecision d.(FraudReviewDecision.PaymentID) d.(FraudReviewDecision.ActorID)
                                         d.(FraudReviewDecision.Reason) d.(FraudReviewDecision.TraceID)) in
                let! current := served_by statusFromSaga (p decision) in ret (sagaMessage current)) in
              ret (sagaFromMessage message)).
Proof.
  intros Hi. apply acts_answer, acts_wire. unfold reviewDecision. destruct (_ || _).
  - by intros w s; left.
  - apply (acts_ret (i d) (FraudReviewDecision.mk _ _ _ _)). apply acts_answer, acts_served. rewrite <- Hi. by destruct d.
Qed.

Lemma resume_acts d : acts (InResume d) (SagaClient_ResumeFraudReview ctx d).
Proof. by apply (review_acts (FraudReview.ResumeFraudReview ctx) InResume). Qed.

Lemma reject_acts d : acts (InReject d) (SagaClient_RejectFraudReview ctx d).
Proof. by apply (review_acts (FraudReview.RejectFraudReview ctx) InReject). Qed.

Lemma reads_scan (p : sdb W SagaRow.t) : reads p -> reads (scan_row p).
Proof.
  intros Hp. apply reads_bind; [by apply reads_attempt |]. intros [row | e]; [apply reads_ret | apply reads_throw].
Qed.

Lemma reads_get p : reads (GetByPaymentID (W := W) p).
Proof. apply reads_scan, reads_query. Qed.

Lemma reads_answering {A} (p : prog (world W) status A) f : reads p -> reads (answering p f).
Proof. intros Hp. apply reads_bind; [by apply reads_attempt |]. intros [a | e]; apply reads_ret. Qed.

Lemma acts_answering {A} i (p : prog (world W) status A) f : acts i p -> acts i (answering p f).
Proof.
  intros Hp w s. specialize (Hp w s). unfold answering, bind, attempt.
  by destruct (p (Conn w None s)) as [[a | e] c].
Qed.

Lemma reads_get_payment r : reads (getPayment r).
Proof.
  unfold getPayment. destruct (invalid_uuid_text _); [apply reads_ret |].
  apply reads_answering, reads_bind; [apply reads_wire | intros; apply reads_ret].
  apply reads_bind; [apply reads_required | intros]. apply reads_bind; [apply reads_guard | intros].
  apply reads_bind; [apply reads_served, reads_get | intros; apply reads_ret].
Qed.

Lemma reads_reviews principal r : reads (NewFraudReviews principal r).
Proof.
  unfold NewFraudReviews. destruct (negb _); [apply reads_ret |]. destruct (_ && _).
  - apply reads_answering, reads_bind; [apply reads_wire | intros; apply reads_ret].
    apply reads_bind; [apply reads_served | intros; apply reads_ret].
    apply reads_bind; [apply reads_query | intros; apply reads_ret].
  - destruct (CutPrefix _ _) as [paymentID |]; [| apply reads_ret]. destruct (_ && _); [| apply reads_ret].
    unfold getFraudReview. destruct (invalid_uuid_text _); [apply reads_ret |].
    apply reads_answering, reads_bind; [apply reads_wire | intros; apply reads_ret].
    apply reads_bind; [apply reads_required | intros]. apply reads_bind; [apply reads_guard | intros].
    apply reads_bind; [apply reads_served | intros; apply reads_ret].
    apply reads_bind; [apply reads_get | intros]. apply reads_bind; [apply reads_query | intros; apply reads_ret].
Qed.

(** What the payment routes do: nothing, or something the caller may do. *)
Lemma payments_act principal r :
  reads (NewPayments ctx principal r) \/ exists i, authorised principal i /\ acts i (NewPayments ctx principal r).
Proof.
  unfold NewPayments. destruct (_ && _).
  { unfold startPayment. destruct (payment_order r _) as [resp | order] eqn:Ho; [left; apply reads_ret |].
    right. exists (InStart order). split; [| apply acts_answering, start_acts]. constructor.
    revert Ho. unfold payment_order. repeat case_match; try done; by intros [= <-]. }
  destruct (_ && _).
  { unfold decideFraudReview. destruct (negb _) eqn:Hrole; [left; apply reads_ret |].
    apply negb_false_iff, str_eqb_true in Hrole.
    destruct (fraudReviewTarget _) as [[paymentID action] |]; [| left; apply reads_ret].
    destruct (invalid_uuid_text _); [left; apply reads_ret |].
    destruct (decision_reason r) as [resp | reason]; [left; apply reads_ret |]. right.
    set (d := FraudReviewDecision.mk _ _ _ _). destruct (action =s "resume").
    - exists (InResume d). split; [by constructor | apply acts_answering, resume_acts].
    - exists (InReject d). split; [by constructor | apply acts_answering, reject_acts]. }
  left. destruct (_ && _); [apply reads_get_payment | apply reads_ret].
Qed.
End Effects.

Section Authority.
Context {W : Type} `{HR : Remote W} `{Clock} `{Postgres} `{Uuid} `{Jwt} `{!JwtOk}.
Variable ctx : context.
Implicit Types w : world W.

(** The principal of a token that verifies under the gateway's own key. *)
Definition vouched (verifier : Verifier.t) (header : string) (principal : Principal.t) : Prop :=
  exists scheme token c, Cut header " " = Some (scheme, token) /\
    verifier.(Verifier.method) = Some (Algorithm verifier) /\
    jwt_verifies (Algorithm verifier) verifier.(Verifier.key_of) token c /\
    (claim_text "user_id" c ≫= uuid_Parse) = Some principal.(Principal.UserID) /\
    claim_text "role" c = Some principal.(Principal.Role).

Lemma keyFunc_Some verifier alg k :
  keyFunc verifier alg = Some k -> verifier.(Verifier.method) = Some alg /\ k = verifier.(Verifier.key_of).
Proof.
  unfold keyFunc. destruct verifier as [[m |] k']; simpl; [| done]. destruct (alg =s m) eqn:Ha; [| done].
  apply str_eqb_true in Ha as ->. simpl. repeat case_match; naive_solver.
Qed.

Lemma authenticate_vouched header verifier principal :
  authenticate header verifier = Ok principal -> vouched verifier header principal.
Proof.
  unfold authenticate. destruct (header =s ""); [done |]. destruct (Cut header " ") as [[scheme token] |] eqn:Hcut; [| done].
  destruct (_ || _); [done |]. destruct (jwt_ParseWithClaims _ _ _) as [c |] eqn:Hjwt; [| done].
  destruct (claim_text "user_id" c) as [raw |] eqn:Hu; [| done]. destruct (uuid_Parse raw) as [u |] eqn:Hp; [| done].
  destruct (claim_text "role" c) as [role |] eqn:Hr; [| done]. intros [= <-].
  destruct (jwt_valid _ _ _ _ Hjwt) as (alg & k & Hin & Hkey & Hver).
  apply list_elem_of_singleton in Hin as ->. destruct (keyFunc_Some _ _ _ Hkey) as [Hm ->].
  exists scheme, token, c. rewrite Hu. simpl. rewrite Hp. done.
Qed.

(** A request does only what its token allows: whatever it asks of the payment and
    review routes, and whatever calls are lost, the sagas stay as they are, or the
    token verifies under the gateway's own algorithm and key, names a user and a role,
    and the change is one that user may make: a payment ordered in his own name, or, for
    an administrator, a decision signed with his identifier. *)
Theorem requests_need_authority verifier limiter now handler r w s resp limiter' c' :
  handler = NewPayments ctx \/ handler = NewFraudReviews ->
  protected verifier limiter now handler r (Conn w None s) = Some (resp, limiter', c') ->
  committed c' = w \/
  exists principal i s', vouched verifier (r.(Request.Header) "Authorization") principal /\
    authorised principal i /\ committed c' = committed (snd (handle ctx i (Conn w None s'))).
Proof.
  intros Hh. unfold protected. destruct (authenticate _ _) as [principal | e] eqn:Hauth; [| intros [= _ _ <-]; by left].
  destruct (allow _ _ _) as [[[] l] |]; [| intros [= _ _ <-]; by left | done]. intros Hrun.
  assert (snd (handler principal r (Conn w None s)) = c') as <-
    by (destruct (handler principal r (Conn w None s)) as [[] ?]; by injection Hrun).
  destruct Hh as [-> | ->].
  - destruct (payments_act ctx principal r) as [Hr | (i & Hauthorised & Ha)]; [left; apply Hr |].
    destruct (Ha w s) as [Hsame | [s' Hs']]; [by left |]. right. exists principal, i, s'.
    split; [by apply authenticate_vouched | done].
  - left. apply reads_reviews.
Qed.

#[export] Instance flagged_before_total : Total flagged_before.
Proof. intros r1 r2. unfold flagged_before. repeat case_match; try tauto; lia. Qed.

Lemma wire_response s : fraudReviewResponse (on_the_wire s) = fraudReviewResponse s.
Proof. done. Qed.

(** Operators see the queue: an administrator who asks for the reviews is answered
    with every saga that is held for review, each as it is stored, oldest flag first. *)
Theorem operators_see_every_review principal r w :
  principal.(Principal.Role) = RoleAdmin -> r.(Request.Method) = "GET" -> r.(Request.Path) = fraudReviewsPath ->
  exists rows resp, yields (NewFraudReviews principal r) w (Ok resp) w /\
    resp.(Response.Status) = 200 /\
    json_object (Some resp.(Response.Body)) = Ok [
      ("reviews", JArray ((fun row => fraudReviewResponse (scanSaga row)) <$> rows));
      ("trace_id", JString (requestTraceID r))] /\
    rows ≡ₚ filter (fun row => row.(SagaRow.state) = StateFraudReview) (saga_rows w) /\
    Sorted flagged_before rows.
Proof.
  intros Hrole Hm Hpath. set (rows := merge_sort flagged_before (filter (fun row => row.(SagaRow.state) = StateFraudReview) (saga_rows w))).
  exists rows, (Response.mk 200 (JObject [
    ("reviews", JArray (fraudReviewResponse <$> (sagaFromMessage <$> (sagaMessage <$> (scanSaga <$> rows)))));
    ("trace_id", JString (requestTraceID r))]) (Some (requestTraceID r))).
  split; [| split; [reflexivity | split; [| split]]].
  - unfold NewFraudReviews. rewrite Hrole, Hm, Hpath. reflexivity.
  - cbn [json_object Response.Body]. rewrite <- !list_fmap_compose. do 4 f_equal. apply list_fmap_ext. intros i row _.
    unfold compose. by rewrite saga_over_the_wire.
  - apply merge_sort_Permutation.
  - apply Sorted_merge_sort, _.
Qed.
End Authority.
