(* ===== verification/GatewayWallet.v ===== *)
(** * GatewayWallet: wallets, statements and verification over HTTP.

    The wallet, ledger and verification routes of [internal/gateway/handler], over the
    gateway's clients of the three services ([internal/gateway/client]).  A request's
    query is looked up by name.  A client error that is no gRPC status is kept as an
    internal one. *)

From Stdlib Require Import Ascii.
From stdpp Require Import sorting.
From S2P Require Import Prelude GoStrings Domain GoTime Decimal Duration Rfc3339 Json Database Outbox.
From S2P Require Import WalletRepo LedgerRepo LedgerPages WalletService Grpc WalletServer LedgerServer.
From S2P Require Import Verification VerificationServer LedgerReads Gateway.

#[local] Open Scope string_scope.
#[local] Open Scope Z_scope.

(** ** Texts *)

Definition HasSuffix (s suffix : string) : bool :=
  let n := (String.length s - String.length suffix)%nat in
  (String.length suffix <=? String.length s)%nat && (skip n s =s suffix).

Definition TrimSuffix (s suffix : string) : string :=
  if HasSuffix s suffix then String.substring 0 (String.length s - String.length suffix) s else s.

(** The answer to a call of a service: [writeGRPCError] for its errors. *)
Definition answer_with {T A} (p : prog T status A) (f : A -> Response.t) : prog T status Response.t :=
  let! r := attempt p in
  match r with
  | Ok a => ret (f a)
  | Err e => ret (writeGRPCError e)
  end.

(** ** The clients *)

Section Clients.
Context `{Postgres} `{Uuid}.

Definition walletFromMessage (message : WalletServer.WalletMessage.t) : res status Wallet.t :=
  match uuid_Parse message.(WalletServer.WalletMessage.Id), uuid_Parse message.(WalletServer.WalletMessage.UserId) with
  | None, _ => Err (client_error "wallet grpc id is invalid")
  | _, None => Err (client_error "wallet grpc user_id is invalid")
  | Some walletID, Some userID =>
      Ok (Wallet.mk walletID userID message.(WalletServer.WalletMessage.BalanceCents)
            message.(WalletServer.WalletMessage.Currency) message.(WalletServer.WalletMessage.CreatedAt)
            message.(WalletServer.WalletMessage.UpdatedAt))
  end.

Definition WalletClient_CreateWallet (userID : uuid) (currency : string) : rpc Wallet.t :=
  let! wallet := WalletServer.CreateWallet
    (Some (WalletServer.CreateWalletRequest.mk (uuid_String userID) currency)) in
  lift (walletFromMessage wallet).

Definition WalletClient_GetWallet (userID walletID : uuid) : rpc Wallet.t :=
  let! wallet := WalletServer.GetWallet (contextWithUserID userID) (Some (uuid_String walletID)) in
  lift (walletFromMessage wallet).

Definition WalletClient_GetBalance (userID walletID : uuid) : rpc Wallet.t :=
  let! resp := WalletServer.GetBalance (contextWithUserID userID) (Some (uuid_String walletID)) in
  ret (Wallet.mk walletID userID resp.(WalletServer.GetBalanceResponse.BalanceCents)
         resp.(WalletServer.GetBalanceResponse.Currency) zero_time zero_time).

Definition WalletClient_CreateTransfer (outboxTopic : string) (ctx : context) (userID fromWalletID toWalletID : uuid)
    (amount : Z) : rpc Transfer.t :=
  let! resp := WalletServer.InitiateTransfer outboxTopic ctx (contextWithUserID userID)
    (Some (WalletServer.InitiateTransferRequest.mk (uuid_String fromWalletID) (uuid_String toWalletID) amount)) in
  let! transferID := required (uuid_Parse resp.(WalletServer.InitiateTransferResponse.TransferId))
                       (client_error "wallet grpc transfer_id is invalid") in
  ret (Transfer.mk transferID fromWalletID toWalletID amount resp.(WalletServer.InitiateTransferResponse.Status)
         zero_time resp.(WalletServer.InitiateTransferResponse.FromBalanceCents)
         resp.(WalletServer.InitiateTransferResponse.ToBalanceCents)).

Definition VerificationClient_Submit (ctx : context) (mode : string) (now : time) (idHex eventHex : string)
    (cmd : Verification.SubmitCommand.t) : prog Verification.vtables status Verification.Record_.t :=
  let! resp := VerificationServer.SubmitVerification ctx mode now idHex eventHex
    (Some (VerificationServer.SubmitVerificationRequest.mk cmd.(Verification.SubmitCommand.PaymentID)
       cmd.(Verification.SubmitCommand.IdempotencyKey) cmd.(Verification.SubmitCommand.TraceID)
       cmd.(Verification.SubmitCommand.UserID) cmd.(Verification.SubmitCommand.VerificationID)
       cmd.(Verification.SubmitCommand.Decision) cmd.(Verification.SubmitCommand.Reason))) in
  ret (Verification.Record_.mk resp.(VerificationServer.SubmitVerificationResponse.VerificationId)
         resp.(VerificationServer.SubmitVerificationResponse.UserId)
         resp.(VerificationServer.SubmitVerificationResponse.Status) "" "" zero_time zero_time
         (default zero_time resp.(VerificationServer.SubmitVerificationResponse.DecidedAt))).

Definition VerificationClient_GetStatus (userID : string)
    : prog Verification.vtables status Verification.Record_.t :=
  let! resp := VerificationServer.GetStatus (Some userID) in
  ret (Verification.Record_.mk resp.(VerificationServer.GetStatusResponse.VerificationId)
         resp.(VerificationServer.GetStatusResponse.UserId) resp.(VerificationServer.GetStatusResponse.Status)
         resp.(VerificationServer.GetStatusResponse.Reason) "" zero_time
         (default zero_time resp.(VerificationServer.GetStatusResponse.UpdatedAt)) zero_time).
End Clients.

(** ** The handlers *)

Module transferBody.
Record t := mk { FromWalletID : string; ToWalletID : string; Amount : Z }.
Definition of_json (body : option json) : res json_error t :=
  let? fields := json_object body in
  let? from_wallet_id := get_string "from_wallet_id" fields in
  let? to_wallet_id := get_string "to_wallet_id" fields in
  let? amount := get_int64 "amount" fields in
  Ok (mk from_wallet_id to_wallet_id amount).
End transferBody.

Module submitBody.
Record t := mk {
  PaymentID : string; IdempotencyKey : string; TraceID : string; VerificationID : string;
  Decision : string; Reason : string
}.
Definition of_json (body : option json) : res json_error t :=
  let? fields := json_object body in
  let? payment_id := get_string "payment_id" fields in
  let? idempotency_key := get_string "idempotency_key" fields in
  let? trace_id := get_string "trace_id" fields in
  let? verification_id := get_string "verification_id" fields in
  let? decision := get_string "decision" fields in
  let? reason := get_string "reason" fields in
  Ok (mk payment_id idempotency_key trace_id verification_id decision reason).
End submitBody.


Section Handlers.
Context `{Postgres} `{Uuid} `{JsonText}.

Definition walletResponse (wallet : Wallet.t) : json :=
  JObject [
    ("id", JString (uuid_String wallet.(Wallet.ID))); ("user_id", JString (uuid_String wallet.(Wallet.UserID)));
    ("balance", JInt wallet.(Wallet.Balance)); ("currency", JString wallet.(Wallet.Currency));
    ("created_at", JTime wallet.(Wallet.CreatedAt)); ("updated_at", JTime wallet.(Wallet.UpdatedAt))].

Definition transferResponse (transfer : Transfer.t) : json :=
  JObject [
    ("id", JString (uuid_String transfer.(Transfer.ID)));
    ("from_wallet_id", JString (uuid_String transfer.(Transfer.FromWalletID)));
    ("to_wallet_id", JString (uuid_String transfer.(Transfer.ToWalletID)));
    ("amount", JInt transfer.(Transfer.Amount)); ("status", JString transfer.(Transfer.Status));
    ("created_at", JTime transfer.(Transfer.CreatedAt));
    ("balances", JObject [("from", JInt transfer.(Transfer.FromBalance)); ("to", JInt transfer.(Transfer.ToBalance))])].

Definition ok_response (status : Z) (body : json) : Response.t := Response.mk status body None.

Definition createWallet (principal : Principal.t) (r : Request.t) : rpc Response.t :=
  match rejectNonJSONContentType r with
  | Some resp => ret resp
  | None =>
      match (let? fields := json_object (default None r.(Request.Body)) in get_string "currency" fields) with
      | Err _ => ret (invalid_request "request body is invalid")
      | Ok currency => answer_with (WalletClient_CreateWallet principal.(Principal.UserID) currency)
                         (fun wallet => ok_response 201 (walletResponse wallet))
      end
  end.

Definition getWallet (principal : Principal.t) (r : Request.t) : rpc Response.t :=
  let rest := TrimPrefix r.(Request.Path) "/v1/wallets/" in
  let isBalance := HasSuffix rest "/balance" in
  let rest := if isBalance then TrimSuffix rest "/balance" else rest in
  match uuid_Parse rest with
  | None => ret (invalid_request "wallet id is invalid")
  | Some walletID =>
      answer_with (if isBalance then WalletClient_GetBalance principal.(Principal.UserID) walletID
                   else WalletClient_GetWallet principal.(Principal.UserID) walletID)
        (fun wallet => ok_response 200
          (if isBalance
           then JObject [("wallet_id", JString (uuid_String wallet.(Wallet.ID)));
                         ("balance", JInt wallet.(Wallet.Balance)); ("currency", JString wallet.(Wallet.Currency))]
           else walletResponse wallet))
  end.

Definition NewWallets (principal : Principal.t) (r : Request.t) : rpc Response.t :=
  if (r.(Request.Method) =s "POST") && (r.(Request.Path) =s "/v1/wallets") then createWallet principal r
  else if (r.(Request.Method) =s "GET") && HasPrefix r.(Request.Path) "/v1/wallets/" then getWallet principal r
  else ret not_found.

(** Direct transfers; the gateway's routes lead to [NewPayments] instead. *)
Definition NewTransfers (outboxTopic : string) (ctx : context) (principal : Principal.t) (r : Request.t) : rpc Response.t :=
  if negb (r.(Request.Method) =s "POST") || negb (r.(Request.Path) =s "/v1/transfers") then ret not_found
  else match rejectNonJSONContentType r with
  | Some resp => ret resp
  | None =>
      match transferBody.of_json (default None r.(Request.Body)) with
      | Err _ => ret (invalid_request "request body is invalid")
      | Ok request =>
          match uuid_Parse request.(transferBody.FromWalletID), uuid_Parse request.(transferBody.ToWalletID) with
          | None, _ => ret (invalid_request "from wallet id is invalid")
          | _, None => ret (invalid_request "to wallet id is invalid")
          | Some fromWalletID, Some toWalletID =>
              if request.(transferBody.Amount) <=? 0
              then ret (error_response 422 "invalid_amount" "amount is invalid")
              else if bool_decide (fromWalletID = toWalletID)
                   then ret (error_response 422 "invalid_transfer" "transfer is invalid")
              else answer_with (WalletClient_CreateTransfer outboxTopic ctx principal.(Principal.UserID)
                                  fromWalletID toWalletID request.(transferBody.Amount))
                     (fun transfer => ok_response 201 (transferResponse transfer))
          end
      end
  end.

(** The handler's own pair of cursor functions. *)
Definition encodeLedgerCursor (cursor : LedgerCursor.t) : string :=
  Base64.RawURLEncoding_EncodeToString (cursor_payload cursor).
Definition decodeLedgerCursor (raw : string) : option LedgerCursor.t := DecodeCursor raw.

Definition entryResponse (entry : LedgerEntry.t) : json :=
  JObject [
    ("id", JString (uuid_String entry.(LedgerEntry.ID)));
    ("transfer_id", JString (uuid_String entry.(LedgerEntry.TransferID)));
    ("direction", JString entry.(LedgerEntry.Direction)); ("amount", JInt entry.(LedgerEntry.Amount));
    ("balance_after", JInt entry.(LedgerEntry.BalanceAfter)); ("created_at", JTime entry.(LedgerEntry.CreatedAt))].

Definition ledgerResponse (walletID : uuid) (entries : list LedgerEntry.t) (next : LedgerCursor.t) : json :=
  JObject [
    ("wallet_id", JString (uuid_String walletID)); ("entries", JArray (entryResponse <$> entries));
    ("next_cursor", if next.(LedgerCursor.Valid) then JString (encodeLedgerCursor next) else JNull)].

(** The page size a query asks for; 0 when it asks for none. *)
Definition query_limit (raw : string) : option Z :=
  if raw =s "" then Some 0
  else limit ← Atoi raw; if (limit <? 1) || (100 <? limit) then None else Some limit.

Definition NewLedger (principal : Principal.t) (r : Request.t) (query : string -> string) : rpc Response.t :=
  if negb (r.(Request.Method) =s "GET") || negb (HasPrefix r.(Request.Path) "/v1/ledger/") then ret not_found
  else match uuid_Parse (TrimPrefix r.(Request.Path) "/v1/ledger/") with
  | None => ret (invalid_request "wallet id is invalid")
  | Some walletID =>
      match query_limit (query "limit") with
      | None => ret (invalid_request "limit is invalid")
      | Some limit =>
          match decodeLedgerCursor (query "cursor") with
          | None => ret (error_response 400 "invalid_cursor" "cursor is invalid")
          | Some cursor =>
              answer_with (LedgerClient_ListLedger principal.(Principal.UserID) walletID cursor limit)
                (fun page => ok_response 200 (ledgerResponse walletID page.1 page.2))
          end
      end
  end.

Definition verificationSubmitResponse (record : Verification.Record_.t) (traceID : string) : json :=
  JObject [
    ("verification_id", JString record.(Verification.Record_.VerificationID));
    ("user_id", JString record.(Verification.Record_.UserID)); ("status", JString record.(Verification.Record_.Status));
    ("decided_at", JTime record.(Verification.Record_.DecidedAt)); ("trace_id", JString traceID)].

Definition verificationStatusResponse (record : Verification.Record_.t) (traceID : string) : json :=
  JObject [
    ("user_id", JString record.(Verification.Record_.UserID)); ("status", JString record.(Verification.Record_.Status));
    ("verification_id", JString record.(Verification.Record_.VerificationID));
    ("reason", JString record.(Verification.Record_.Reason));
    ("updated_at", JTime record.(Verification.Record_.UpdatedAt)); ("trace_id", JString traceID)].

Section VerificationRoutes.
Variables (ctx : context) (mode : string) (now : time) (idHex eventHex : string).

Definition handleSubmitVerification (r : Request.t) (userID : string) : prog Verification.vtables status Response.t :=
  match submitBody.of_json (default None r.(Request.Body)) with
  | Err _ => ret (invalid_request "request body is invalid")
  | Ok request =>
      answer_with (VerificationClient_Submit ctx mode now idHex eventHex
        (Verification.SubmitCommand.mk request.(submitBody.PaymentID) request.(submitBody.IdempotencyKey)
           request.(submitBody.TraceID) userID request.(submitBody.VerificationID) request.(submitBody.Decision)
           request.(submitBody.Reason)))
        (fun record => ok_response 200 (verificationSubmitResponse record request.(submitBody.TraceID)))
  end.

Definition NewVerification (principal : Principal.t) (r : Request.t) (query : string -> string)
    : prog Verification.vtables status Response.t :=
  let userID := uuid_String principal.(Principal.UserID) in
  if (r.(Request.Method) =s "POST") && (r.(Request.Path) =s "/v1/verification/submit")
  then handleSubmitVerification r userID
  else if (r.(Request.Method) =s "GET") && (r.(Request.Path) =s "/v1/verification/status")
  then answer_with (VerificationClient_GetStatus userID)
         (fun record => ok_response 200 (verificationStatusResponse record (query "trace_id")))
  else ret not_found.
End VerificationRoutes.
End Handlers.

(** ** Following the cursors over HTTP *)

Definition ledger_request `{Uuid} (walletID : uuid) : Request.t :=
  Request.mk "GET" ("/v1/ledger/" ++ uuid_String walletID) (fun _ => "") None 0 uuid_Nil uuid_Nil.

Definition ledger_query (limit cursor name : string) : string :=
  if name =s "limit" then limit else if name =s "cursor" then cursor else "".

(** The entries of an answer and the cursor to the next ones. *)
Definition read_page (resp : Response.t) : option (list json * option string) :=
  if negb (resp.(Response.Status) =? 200) then None
  else match resp.(Response.Body) with
       | JObject fields =>
           match json_field "entries" fields, json_field "next_cursor" fields with
           | Some (JArray entries), Some (JString cursor) => Some (entries, Some cursor)
           | Some (JArray entries), Some JNull => Some (entries, None)
           | _, _ => None
           end
       | _ => None
       end.

(** A client of the gateway that asks for page after page. *)
Fixpoint read_statement `{Postgres} `{Uuid} `{JsonText} (fuel : nat) (principal : Principal.t) (walletID : uuid)
    (limit cursor : string) : rpc (option (list json)) :=
  match fuel with
  | O => ret None
  | S fuel =>
      let! resp := NewLedger principal (ledger_request walletID) (ledger_query limit cursor) in
      match read_page resp with
      | None => ret None
      | Some (entries, None) => ret (Some entries)
      | Some (entries, Some next) =>
          let! rest := read_statement fuel principal walletID limit next in
          ret (fmap (app entries) rest)
      end
  end.

Lemma skip_app p s : skip (String.length p) (p ++ s) = s.
Proof.
  unfold skip. induction p as [|c p IH]; [| exact IH].
  rewrite append_nil, Nat.sub_0_r. induction s as [|c s IHs]; [done |]. exact (f_equal (String c) IHs).
Qed.

Lemma TrimPrefix_app p s : TrimPrefix (p ++ s) p = s.
Proof. unfold TrimPrefix, CutPrefix. by rewrite HasPrefix_app, skip_app. Qed.

Section Statement.
Context `{Postgres} `{Uuid} `{!UuidOk} `{!UuidText} `{JsonText} `{!JsonTextOk}.

Lemma ledger_fields fields (a b c : json) :
  fields = [("wallet_id", a); ("entries", b); ("next_cursor", c)] ->
  json_field "entries" fields = Some b /\ json_field "next_cursor" fields = Some c.
Proof. intros ->. vm_compute. done. Qed.

Lemma read_ledger_response walletID entries next :
  read_page (ok_response 200 (ledgerResponse walletID entries next)) =
    Some (entryResponse <$> entries, if next.(LedgerCursor.Valid) then Some (EncodeCursor next) else None).
Proof.
  unfold read_page, ok_response, ledgerResponse. cbn [Response.Status Response.Body Z.eqb Pos.eqb negb].
  set (fields := cons _ _). destruct (ledger_fields fields _ _ _ eq_refl) as [-> ->].
  unfold EncodeCursor. by destruct (LedgerCursor.Valid next).
Qed.

Lemma query_limit_range raw limit : query_limit raw = Some limit -> 0 <= limit <= 100 /\ 1 <= page_size limit.
Proof.
  unfold query_limit, page_size, Service.defaultLedgerLimit. case_match; [intros [= <-]; simpl; lia |].
  destruct (Atoi raw) as [z |]; [| done]. simpl. case_match eqn:Hb; [done |]. intros [= <-].
  apply orb_false_iff in Hb as [? ?]. case_match; lia.
Qed.

(** One request, from the cursor's text to the answer's. *)
Lemma ledger_page principal walletID limit size c w t seen rest s :
  wf t -> dated walletID t -> wallets t !! walletID = Some w -> w.(Wallet.UserID) = principal.(Principal.UserID) ->
  query_limit limit = Some size -> legible c -> stands c walletID t seen rest -> quiet s ->
  wp (NewLedger principal (ledger_request walletID) (ledger_query limit (EncodeCursor c)))
    (reads_page t (fun resp => exists page, page_of walletID (page_size size) t seen rest page /\
       resp = ok_response 200 (ledgerResponse walletID page.1 page.2))) (Conn t None s).
Proof.
  intros Hwf Hd Hw Hu Hsize Hc Hst Hq.
  destruct (query_limit_range _ _ Hsize) as [Hbound _].
  unfold NewLedger, ledger_request. cbn [Request.Method Request.Path]. rewrite HasPrefix_app, TrimPrefix_app, uuid_Parse_String.
  change (negb ("GET" =s "GET") || negb true) with false. cbv iota.
  change (ledger_query limit (EncodeCursor c) "limit") with limit. rewrite Hsize.
  change (ledger_query limit (EncodeCursor c) "cursor") with (EncodeCursor c). unfold decodeLedgerCursor.
  rewrite cursor_round_trip by done. unfold answer_with. wp_step. wp_step.
  eapply wp_mono; [by apply (client_page (Principal.UserID principal) walletID c size w t seen rest) |].
  intros r c' [Hc' (page & -> & Hp)]. wp_step. split; [done |]. eexists. split; [done |]. by exists page.
Qed.

Lemma statement_from principal walletID limit size w t fuel : forall c seen rest s,
  wf t -> dated walletID t -> wallets t !! walletID = Some w -> w.(Wallet.UserID) = principal.(Principal.UserID) ->
  query_limit limit = Some size -> legible c -> stands c walletID t seen rest -> quiet s -> (length rest < fuel)%nat ->
  wp (read_statement fuel principal walletID limit (EncodeCursor c))
    (fun r c' => r = Ok (Some (entryResponse <$> rest)) /\ committed c' = t /\ working c' = None) (Conn t None s).
Proof.
  induction fuel as [|fuel IH]; intros c seen rest s Hwf Hd Hw Hu Hsize Hc Hst Hq Hfuel; [lia |]. cbn [read_statement].
  wp_step. eapply wp_mono; [by apply (ledger_page principal walletID limit size c w t seen rest) |].
  intros r c' [(s' & Hq' & ->) (resp & -> & page & [Hp1 Hp2] & ->)]. wp_beta. rewrite read_ledger_response, Hp1.
  case_decide as Hlen.
  - destruct Hp2 as (-> & Hleg & Hst'). wp_step. eapply wp_mono.
    + eapply (IH page.2 _ (drop (Z.to_nat (page_size size)) rest)); try done. rewrite length_drop.
      destruct (query_limit_range _ _ Hsize) as [_ ?]. lia.
    + intros r c' (-> & ? & ?). wp_step. cbn. by rewrite <- fmap_app, take_drop.
  - rewrite Hp2. cbn [LedgerCursor.Valid LedgerCursor.zero]. wp_step. by rewrite take_ge by lia.
Qed.

(** C32: a user's statement is complete: whoever owns a wallet and asks the gateway
    for its ledger, with any page size or none, and follows the cursors of the
    answers, is given every entry of the wallet exactly once, newest first, within as
    many requests as there are entries and one; the cursors survive their way as text
    through the browser, the gateway and the gRPC server. *)
Theorem statement_is_complete principal walletID limit size w t s :
  wf t -> dated walletID t -> wallets t !! walletID = Some w ->
  w.(Wallet.UserID) = principal.(Principal.UserID) -> query_limit limit = Some size -> quiet s ->
  let run := read_statement (S (length (ledger_entries t))) principal walletID limit "" (Conn t None s) in
  fst run = Ok (Some (entryResponse <$> sorted_entries walletID t)) /\ committed (snd run) = t /\
  sorted_entries walletID t ≡ₚ of_wallet walletID t.
Proof.
  intros Hwf Hd Hw Hu Hsize Hq run.
  assert (sorted_entries walletID t ≡ₚ of_wallet walletID t) as Hp by apply merge_sort_Permutation.
  assert (length (sorted_entries walletID t) < S (length (ledger_entries t)))%nat as Hlen.
  { rewrite (Permutation_length Hp). unfold of_wallet. apply Nat.lt_succ_r, sublist_length, sublist_filter. }
  pose proof (wp_elim _ _ _ (statement_from principal walletID limit size w t (S (length (ledger_entries t)))
    LedgerCursor.zero [] (sorted_entries walletID t) s Hwf Hd Hw Hu Hsize (or_introl eq_refl)
    (stands_start walletID t) Hq Hlen)) as (Hr & Hc & _).
  split; [exact Hr |]. split; [exact Hc | exact Hp].
Qed.
End Statement.

(** ** What the routes do *)

Lemma writeGRPCError_status e : (writeGRPCError e).(Response.Status) <> 200.
Proof. unfold writeGRPCError. by repeat case_match. Qed.

Lemma wp_served_by {T E A} (f : E -> status) (p : prog T E A) (Q : res status A -> conn T -> Prop) c :
  wp p (fun r c' => Q (match r with Ok a => Ok a | Err e => Err (f e) end) c') c -> wp (served_by f p) Q c.
Proof. unfold wp, served_by. by destruct (p c) as [[]]. Qed.

Lemma wp_answer_with {T A} (p : prog T status A) f (Q : res status Response.t -> conn T -> Prop) c :
  wp p (fun r c' => Q (Ok (match r with Ok a => f a | Err e => writeGRPCError e end)) c') c -> wp (answer_with p f) Q c.
Proof. intros Hp. unfold answer_with. wp_step. wp_step. eapply wp_mono; [exact Hp |]. intros [a | e] c' HQ; by wp_step. Qed.

Section Routes.
Context `{Postgres} `{!PostgresOk} `{Uuid} `{!UuidOk} `{!UuidText} `{JsonText}.

(** An answer that shows a wallet: its own document, or its balance. *)
Definition shows (w : Wallet.t) (resp : Response.t) : Prop :=
  resp = ok_response 200 (walletResponse w) \/
  resp = ok_response 200 (JObject [("wallet_id", JString (uuid_String w.(Wallet.ID)));
           ("balance", JInt w.(Wallet.Balance)); ("currency", JString w.(Wallet.Currency))]).

Lemma wallet_read_back w : walletFromMessage (WalletServer.walletMessage w) = Ok w.
Proof. unfold walletFromMessage. simpl. rewrite !uuid_Parse_String. by destruct w. Qed.

(** What is shown is a wallet of the user, and nothing changes. *)
Definition shown_own (userID : uuid) (t : tables) (resp : Response.t) : Prop :=
  resp.(Response.Status) = 200 ->
  exists w, wallets t !! w.(Wallet.ID) = Some w /\ w.(Wallet.UserID) = userID /\ shows w resp.

(** A read of the user's own wallet over gRPC. *)
Lemma owned_read {B} userID walletID (f : Wallet.t -> B) (Q : res status B -> conn tables -> Prop) t s :
  (forall e s', Q (Err e) (Conn t None s')) ->
  (forall w s', Service.owned_spec userID walletID t = Ok w -> Q (Ok (f w)) (Conn t None s')) ->
  wp (let! wallet_id := required (Some (uuid_String walletID)) request_required in
      let! userID := userIDFromMetadata (contextWithUserID userID) in
      let! walletID := parseUUID wallet_id "wallet_id" in
      let! wallet := served_by WalletServer.statusFromDomain (Service.GetWallet userID walletID) in
      ret (f wallet)) Q (Conn t None s).
Proof.
  intros He Hok. unfold contextWithUserID, userIDFromMetadata, parseUUID, required.
  rewrite (proj2 (String.eqb_neq _ _)) by apply uuid_nonempty. rewrite uuid_Parse_String.
  wp_step. wp_step. wp_step. wp_step. wp_step. rewrite uuid_Parse_String. wp_step. wp_step. apply wp_served_by.
  apply Service.GetWallet_spec; intros s' Hq; [intros _; apply He |].
  destruct (Service.owned_spec userID walletID t) as [w | e] eqn:Hw; [wp_step; by apply Hok | apply He].
Qed.

Lemma get_wallet_private principal r t s : wf t ->
  wp (getWallet principal r) (fun a c' => committed c' = t /\
    exists resp, a = Ok resp /\ shown_own principal.(Principal.UserID) t resp) (Conn t None s).
Proof.
  intros Hwf. unfold getWallet. destruct (uuid_Parse _) as [walletID |]; [| wp_step; split; [done |]; by eexists].
  set (userID := principal.(Principal.UserID)). apply wp_answer_with.
  assert (forall w, Service.owned_spec userID walletID t = Ok w ->
    wallets t !! w.(Wallet.ID) = Some w /\ w.(Wallet.UserID) = userID /\ w.(Wallet.ID) = walletID) as Hown.
  { intros w [Hw Hu]%Service.owned_spec_inv. destruct (wf_wallet _ Hwf _ _ Hw) as [-> _]. done. }
  assert (forall e, shown_own userID t (writeGRPCError e)) as Herr by (intros e H200; by apply writeGRPCError_status in H200).
  unfold WalletClient_GetBalance, WalletClient_GetWallet.
  destruct (HasSuffix _ _); (wp_step; apply owned_read;
    [intros e s'; split; [done |]; eexists; by split; [| apply Herr] |]);
    intros w s' (Hw & Hu & Hid)%Hown; wp_step; rewrite ?wallet_read_back; (split; [done |]);
    (eexists; split; [done |]); intros _; exists w; (split; [done |]); (split; [done |]).
  - right. simpl. by rewrite Hid.
  - by left.
Qed.

Lemma create_wallet_own principal r t s : wf t ->
  wp (createWallet principal r) (fun a c' =>
    (committed c' = t \/ exists currency w, stmt_CreateWallet principal.(Principal.UserID) currency t = Ok (w, committed c')) /\
    exists resp, a = Ok resp /\ resp.(Response.Status) <> 200) (Conn t None s).
Proof.
  intros Hwf. unfold createWallet. destruct (rejectNonJSONContentType r) as [resp |] eqn:Hr.
  { wp_step. split; [by left |]. eexists. split; [done |]. unfold rejectNonJSONContentType in Hr. repeat case_match; by simplify_eq. }
  destruct (res_bind _ _) as [currency |]; [| wp_step; split; [by left |]; by eexists]. apply wp_answer_with.
  unfold WalletClient_CreateWallet, WalletServer.CreateWallet, parseUUID, required. wp_step. wp_step. wp_step. wp_step.
  cbn [WalletServer.CreateWalletRequest.UserId WalletServer.CreateWalletRequest.Currency]. rewrite uuid_Parse_String.
  wp_step. wp_step. apply wp_served_by. eapply wp_mono; [by apply Service.create_wallet_refines |].
  intros a c' [_ Ho]. assert (committed c' = t \/ exists currency w,
    stmt_CreateWallet principal.(Principal.UserID) currency t = Ok (w, committed c')) as Hc.
  { unfold Service.create_spec in Ho. destruct (NormalizeCurrency currency) as [cur | e]; [| inversion Ho; simplify_eq; by left].
    inversion Ho; simplify_eq; eauto. }
  destruct a as [w | e]; [wp_step; wp_step; rewrite wallet_read_back |]; (split; [exact Hc |]); eexists; (split; [done |]); [done | apply writeGRPCError_status].
Qed.

(** Wallets are private: whatever a request to the wallet routes says and
    whatever round trips are lost, it leaves the tables alone or opens one empty
    wallet that belongs to the user of the token; and only a wallet of this user, as
    it is stored, is ever shown. *)
Theorem wallets_are_private principal r t s :
  wf t ->
  let run := NewWallets principal r (Conn t None s) in
  (committed (snd run) = t \/ exists id currency,
     wallets t !! id = None /\
     wallets (committed (snd run)) =
       <[id := Wallet.mk id principal.(Principal.UserID) 0 currency (now t) (now t)]> (wallets t)) /\
  exists resp, fst run = Ok resp /\
    (resp.(Response.Status) = 200 ->
     exists w, wallets t !! w.(Wallet.ID) = Some w /\ w.(Wallet.UserID) = principal.(Principal.UserID) /\ shows w resp).
Proof.
  intros Hwf run. unfold run, NewWallets. destruct (_ && _).
  - destruct (wp_elim _ _ _ (create_wallet_own principal r t s Hwf)) as [Hc (resp & Hr & H200)]. split; [| by exists resp].
    destruct Hc as [Hc | (currency & w & Hc)]; [by left | right]. injection Hc as _ Hc. rewrite <- Hc.
    exists (fresh t), currency. split; [| done].
    destruct (wallets t !! fresh t) as [w' |] eqn:Hf; [| done]. destruct (wf_wallet _ Hwf _ _ Hf) as (_ & _ & _ & Hi).
    by apply fresh_not_issued in Hi.
  - destruct (_ && _); [| split; [by left |]; by eexists].
    destruct (wp_elim _ _ _ (get_wallet_private principal r t s Hwf)) as [Hc (resp & Hr & Hs)].
    split; [by left |]. by exists resp.
Qed.
End Routes.
