(* ===== verification/WalletApi.v ===== *)
(** * WalletApi: the wallet service over HTTP without the gateway.

    The handlers of [internal/handler] and the router of [internal/service], which
    [cmd/api] serves: wallets, transfers and statements directly over
    [internal/wallet], with the errors of the domain answered by [writeDomainError].
    The documents of the answers are written as in the gateway's handlers, of which
    this package has its own copies. *)

From stdpp Require Import sorting.
From S2P Require Import Prelude GoStrings Domain GoTime Decimal Mux Rfc3339 Json Database Outbox.
From S2P Require Import WalletRepo LedgerRepo LedgerPages WalletService Grpc WalletServer LedgerServer.
From S2P Require Import LedgerReads Gateway GatewayWallet.

#[local] Open Scope string_scope.
#[local] Open Scope Z_scope.

Module Api.

(** ** Answers *)

Definition writeError (status : Z) (code message : string) : Response.t := error_response status code message.
Definition writeNotFound : Response.t := writeError 404 "not_found" "resource not found".
Definition rejectNonJSON (r : Request.t) : option Response.t := rejectNonJSONContentType r.

Definition writeDomainError (e : error) : Response.t :=
  match e with
  | ErrNotFound => writeError 404 "wallet_not_found" "wallet not found"
  | ErrUnsupportedCurrency => writeError 422 "unsupported_currency" "currency is unsupported"
  | ErrInvalidAmount => writeError 422 "invalid_amount" "amount is invalid"
  | ErrInvalidTransfer => writeError 422 "invalid_transfer" "transfer is invalid"
  | ErrInsufficientFunds => writeError 422 "insufficient_funds" "insufficient funds"
  | ErrCurrencyMismatch => writeError 422 "currency_mismatch" "currency mismatch"
  | _ => writeError 500 "internal_error" "internal server error"
  end.

(** The answer to a call of the service. *)
Definition answer {A} (p : db A) (f : A -> Response.t) : db Response.t :=
  let! r := attempt p in
  match r with
  | Ok a => ret (f a)
  | Err e => ret (writeDomainError e)
  end.

Section Handlers.
Context `{Postgres} `{Uuid} `{JsonText}.

Definition walletResponse (wallet : Wallet.t) : json := GatewayWallet.walletResponse wallet.
Definition transferResponse (transfer : Transfer.t) : json := GatewayWallet.transferResponse transfer.
Definition ledgerResponse (walletID : uuid) (entries : list LedgerEntry.t) (next : LedgerCursor.t) : json :=
  GatewayWallet.ledgerResponse walletID entries next.
Definition encodeLedgerCursor (cursor : LedgerCursor.t) : string := GatewayWallet.encodeLedgerCursor cursor.
Definition decodeLedgerCursor (raw : string) : option LedgerCursor.t := DecodeCursor raw.

(** ** The handlers *)

Definition createWallet (principal : Principal.t) (r : Request.t) : db Response.t :=
  match rejectNonJSON r with
  | Some resp => ret resp
  | None =>
      match (let? fields := json_object (default None r.(Request.Body)) in get_string "currency" fields) with
      | Err _ => ret (invalid_request "request body is invalid")
      | Ok currency => answer (Service.CreateWallet principal.(Principal.UserID) currency)
                         (fun wallet => ok_response 201 (walletResponse wallet))
      end
  end.

(** The wallet is read before the balance is; what the first read answers is dropped. *)
Definition read_wallet (isBalance : bool) (userID walletID : uuid) : db Wallet.t :=
  let! wallet := attempt (Service.GetWallet userID walletID) in
  if isBalance then Service.GetBalance userID walletID else lift wallet.

Definition getWallet (principal : Principal.t) (r : Request.t) : db Response.t :=
  let rest := TrimPrefix r.(Request.Path) "/v1/wallets/" in
  let isBalance := HasSuffix rest "/balance" in
  let rest := if isBalance then TrimSuffix rest "/balance" else rest in
  match uuid_Parse rest with
  | None => ret (invalid_request "wallet id is invalid")
  | Some walletID =>
      answer (read_wallet isBalance principal.(Principal.UserID) walletID)
        (fun wallet => ok_response 200
          (if isBalance
           then JObject [("wallet_id", JString (uuid_String wallet.(Wallet.ID)));
                         ("balance", JInt wallet.(Wallet.Balance)); ("currency", JString wallet.(Wallet.Currency))]
           else walletResponse wallet))
  end.

Definition NewWallets (principal : Principal.t) (r : Request.t) : db Response.t :=
  if (r.(Request.Method) =s "POST") && (r.(Request.Path) =s "/v1/wallets") then createWallet principal r
  else if (r.(Request.Method) =s "GET") && HasPrefix r.(Request.Path) "/v1/wallets/" then getWallet principal r
  else ret writeNotFound.

Definition NewTransfers (outboxTopic : string) (ctx : context) (principal : Principal.t) (r : Request.t) : db Response.t :=
  if negb (r.(Request.Method) =s "POST") || negb (r.(Request.Path) =s "/v1/transfers") then ret writeNotFound
  else match rejectNonJSON r with
  | Some resp => ret resp
  | None =>
      match transferBody.of_json (default None r.(Request.Body)) with
      | Err _ => ret (invalid_request "request body is invalid")
      | Ok request =>
          match uuid_Parse request.(transferBody.FromWalletID), uuid_Parse request.(transferBody.ToWalletID) with
          | None, _ => ret (invalid_request "from wallet id is invalid")
          | _, None => ret (invalid_request "to wallet id is invalid")
          | Some fromWalletID, Some toWalletID =>
              if request.(transferBody.Amount) <=? 0 then ret (writeDomainError ErrInvalidAmount)
              else if bool_decide (fromWalletID = toWalletID) then ret (writeDomainError ErrInvalidTransfer)
              else answer (Service.CreateTransfer outboxTopic ctx principal.(Principal.UserID)
                             fromWalletID toWalletID request.(transferBody.Amount))
                     (fun transfer => ok_response 201 (transferResponse transfer))
          end
      end
  end.

Definition NewLedger (principal : Principal.t) (r : Request.t) (query : string -> string) : db Response.t :=
  if negb (r.(Request.Method) =s "GET") || negb (HasPrefix r.(Request.Path) "/v1/ledger/") then ret writeNotFound
  else match uuid_Parse (TrimPrefix r.(Request.Path) "/v1/ledger/") with
  | None => ret (invalid_request "wallet id is invalid")
  | Some walletID =>
      match query_limit (query "limit") with
      | None => ret (invalid_request "limit is invalid")
      | Some limit =>
          match decodeLedgerCursor (query "cursor") with
          | None => ret (writeError 400 "invalid_cursor" "cursor is invalid")
          | Some cursor =>
              answer (Service.ListLedger principal.(Principal.UserID) walletID cursor limit)
                (fun page => ok_response 200 (ledgerResponse walletID page.1 page.2))
          end
      end
  end.

(** ** Health and routes *)

Definition Health (r : Request.t) : Response.t :=
  if negb (r.(Request.Method) =s "GET") then writeNotFound
  else ok_response 200 (JObject [("status", JString "ok")]).

(** [db.Ping]: a round trip that reads nothing. *)
Definition Ping : db unit := Prelude.query (fun _ => Ok tt).

Definition Ready (r : Request.t) : db Response.t :=
  if negb (r.(Request.Method) =s "GET") then ret writeNotFound
  else let! pinged := attempt Ping in
       match pinged with
       | Err _ => ret (writeError 503 "service_unavailable" "database is not ready")
       | Ok _ => ret (ok_response 200 (JObject [("status", JString "ready")]))
       end.

Inductive business := Wallets | Transfers | Ledger | NotFound.
Definition business_routes : mux business :=
  [("/v1/wallets", Wallets); ("/v1/wallets/", Wallets); ("/v1/transfers", Transfers);
   ("/v1/ledger/", Ledger); ("/v1/", NotFound)].

(** The multiplexer of the process, with the metrics [telemetry.InstrumentHTTP] adds. *)
Inductive public := Healthz | Readyz | Business | MetricsPage.
Definition routes : mux public :=
  [("/healthz", Healthz); ("/readyz", Readyz); ("/v1/", Business); ("/metrics", MetricsPage)].

(** What a client is sent: an answer of a handler, the metrics of the process, or the
    multiplexer's own answer. *)
Inductive reply :=
| Answered (resp : Response.t)
| Exposition
| Redirected (path : string)
| PageNotFound.

Definition answered (p : db Response.t) : db reply := let! resp := p in ret (Answered resp).

Definition serve_business (outboxTopic : string) (ctx : context) (principal : Principal.t) (r : Request.t)
    (query : string -> string) : db reply :=
  match find_handler r.(Request.Path) business_routes with
  | Handler Wallets => answered (NewWallets principal r)
  | Handler Transfers => answered (NewTransfers outboxTopic ctx principal r)
  | Handler Ledger => answered (NewLedger principal r query)
  | Handler NotFound => answered (ret writeNotFound)
  | RedirectTo path => ret (Redirected path)
  | NoRoute => ret PageNotFound
  end.

Context `{Jwt}.

Definition NewRouter (verifier : Verifier.t) (outboxTopic : string) (ctx : context) (r : Request.t)
    (query : string -> string) : db reply :=
  match find_handler r.(Request.Path) routes with
  | Handler Healthz => answered (ret (Health r))
  | Handler Readyz => answered (Ready r)
  | Handler Business =>
      match authenticate (r.(Request.Header) "Authorization") verifier with
      | Err _ => ret (Answered unauthorized)
      | Ok principal => serve_business outboxTopic ctx principal r query
      end
  | Handler MetricsPage => ret Exposition
  | RedirectTo path => ret (Redirected path)
  | NoRoute => ret PageNotFound
  end.
End Handlers.
End Api.

(** ** Reading statements *)

Section Reads.
Context `{Postgres} `{Uuid}.

(** A page of a statement as the wallet's owner may see it. *)
Definition own_page (userID walletID : uuid) (t : tables) (page : list LedgerEntry.t * LedgerCursor.t) : Prop :=
  (exists w, wallets t !! walletID = Some w /\ w.(Wallet.UserID) = userID) /\
  Forall (.∈ of_wallet walletID t) page.1 /\
  (page.2 = LedgerCursor.zero \/ exists e, e ∈ of_wallet walletID t /\
     page.2 = LedgerCursor.mk e.(LedgerEntry.CreatedAt) e.(LedgerEntry.ID) true).

Lemma listed_entries walletID limit cursor t l :
  q_ListLedgerEntries walletID limit cursor t = Ok l -> Forall (.∈ of_wallet walletID t) l.
Proof.
  unfold q_ListLedgerEntries. case_match; [done |]. intros [= <-]. apply list.Forall_take, list.Forall_forall. intros e He.
  rewrite merge_sort_Permutation in He. by apply list_elem_of_filter in He as [_ ?].
Qed.

Lemma list_ledger_own userID walletID cursor limit t s : wf t ->
  wp (Service.ListLedger userID walletID cursor limit)
    (fun r c' => committed c' = t /\ forall page, r = Ok page -> own_page userID walletID t page) (Conn t None s).
Proof.
  intros Hwf. unfold Service.ListLedger. generalize (if limit =? 0 then Service.defaultLedgerLimit else limit). intros size.
  wp_step. wp_step; [done |]. wp_step.
  apply Service.GetWallet_spec; [done |]. intros s' _.
  destruct (Service.owned_spec userID walletID t) as [w |] eqn:Hw; [| done].
  apply Service.owned_spec_inv in Hw as [Hw Hu]. destruct (wf_wallet _ Hwf _ _ Hw) as [-> _].
  unfold ListLedgerEntries. wp_step. wp_step; [done |]. wp_step. wp_step; [done |]. wp_beta.
  destruct (q_ListLedgerEntries _ _ _ t) as [l |] eqn:Hl; [| done]. apply listed_entries in Hl. wp_beta.
  assert (forall n next, next = LedgerCursor.zero \/ (exists e, e ∈ of_wallet walletID t /\
     next = LedgerCursor.mk e.(LedgerEntry.CreatedAt) e.(LedgerEntry.ID) true) -> own_page userID walletID t (take n l, next)) as Hpage.
  { intros n next Hn. split; [eauto |]. split; [by apply list.Forall_take | done]. }
  destruct (size <? Z.of_nat (length l)).
  - destruct (list.last _) as [e |] eqn:He; wp_step; (split; [done |]); intros page [= <-]; apply Hpage; [right | by left].
    exists e. split; [| done]. apply last_Some in He as [l' He]. rewrite list.Forall_forall in Hl. apply Hl.
    rewrite <- (take_drop (Z.to_nat size) l), He. set_solver.
  - wp_step. split; [done |]. intros page [= <-]. rewrite <- (firstn_all l). by apply Hpage; left.
Qed.
End Reads.

(** ** What a request may do *)

Section Authority.
Context `{Postgres} `{!PostgresOk} `{Uuid} `{!UuidOk} `{!UuidText} `{JsonText} `{Jwt} `{!JwtOk}.

(** A change a user may make: open an empty wallet of his own, or move money out of one. *)
Definition own_change (topic : string) (ctx : context) (userID : uuid) (t t' : tables) : Prop :=
  (exists id currency, wallets t !! id = None /\
     wallets t' = <[id := Wallet.mk id userID 0 currency (now t) (now t)]> (wallets t)) \/
  exists fromID toID amount x from, transfer_spec topic ctx userID fromID toID amount t = Ok (x, t') /\
    wallets t !! fromID = Some from /\ from.(Wallet.UserID) = userID.

(** An answer a user may be shown: a wallet of his, or a page of its statement. *)
Definition own_answer (userID : uuid) (t : tables) (resp : Response.t) : Prop :=
  (exists w, wallets t !! w.(Wallet.ID) = Some w /\ w.(Wallet.UserID) = userID /\ shows w resp) \/
  exists walletID page, own_page userID walletID t page /\
    resp = ok_response 200 (Api.ledgerResponse walletID page.1 page.2).

(** What a handler does for a user. *)
Definition serves (topic : string) (ctx : context) (userID : uuid) (t : tables) (r : res error Response.t)
    (c' : conn tables) : Prop :=
  (committed c' = t \/ own_change topic ctx userID t (committed c')) /\
  exists resp, r = Ok resp /\ (resp.(Response.Status) = 200 -> own_answer userID t resp).

Lemma writeDomainError_status e : (Api.writeDomainError e).(Response.Status) <> 200.
Proof. by destruct e. Qed.

Lemma serves_refusal topic ctx userID t resp s : resp.(Response.Status) <> 200 ->
  serves topic ctx userID t (Ok resp) (Conn t None s).
Proof. intros Hr. split; [by left |]. by exists resp. Qed.

Lemma wp_answer {A} (p : db A) f (Q : res error Response.t -> conn tables -> Prop) c :
  wp p (fun r c' => Q (Ok (match r with Ok a => f a | Err e => Api.writeDomainError e end)) c') c -> wp (Api.answer p f) Q c.
Proof. intros Hp. unfold Api.answer. wp_step. wp_step. eapply wp_mono; [exact Hp |]. intros [a | e] c' HQ; by wp_step. Qed.

Lemma rejected_status r resp : Api.rejectNonJSON r = Some resp -> resp.(Response.Status) <> 200.
Proof. unfold Api.rejectNonJSON, rejectNonJSONContentType. intros Hr. repeat case_match; by simplify_eq. Qed.

Lemma outcome_change {A} (spec : res error (A * tables)) lost t r t' :
  outcome spec lost t r t' -> t' = t \/ exists a, spec = Ok (a, t').
Proof. intros Ho. inversion Ho; simplify_eq; eauto. Qed.

Lemma create_serves topic ctx principal r t s : wf t ->
  wp (Api.createWallet principal r) (serves topic ctx principal.(Principal.UserID) t) (Conn t None s).
Proof.
  intros Hwf. unfold Api.createWallet. destruct (Api.rejectNonJSON r) as [resp |] eqn:Hr.
  { wp_step. by eapply serves_refusal, rejected_status. }
  destruct (res_bind _ _) as [currency |]; [| wp_step; by apply serves_refusal]. apply wp_answer.
  eapply wp_mono; [by apply Service.create_wallet_refines |]. intros a c' [_ Ho]. split.
  - destruct (outcome_change _ _ _ _ _ Ho) as [Hc | [w Hc]]; [by left | right; left]. unfold Service.create_spec in Hc.
    destruct (NormalizeCurrency currency) as [cur |]; [| done]. injection Hc as _ Hc. rewrite <- Hc.
    exists (fresh t), cur. split; [| done]. destruct (wallets t !! fresh t) as [w' |] eqn:Hf; [| done].
    destruct (wf_wallet _ Hwf _ _ Hf) as (_ & _ & _ & Hi). by apply fresh_not_issued in Hi.
  - eexists. split; [done |]. destruct a as [w' | e]; intros H200; [done | by apply writeDomainError_status in H200].
Qed.

(** The one or two reads of a wallet answer with a wallet of the user. *)
Lemma read_wallet_own b userID walletID (Q : res error Wallet.t -> conn tables -> Prop) t s :
  (forall e s', Q (Err e) (Conn t None s')) ->
  (forall w s', Service.owned_spec userID walletID t = Ok w -> Q (Ok w) (Conn t None s')) ->
  wp (Api.read_wallet b userID walletID) Q (Conn t None s).
Proof.
  intros He Hok. assert (forall s', Q (Service.owned_spec userID walletID t) (Conn t None s')) as Hown
    by (intros s'; destruct (Service.owned_spec userID walletID t) eqn:Hw; auto).
  unfold Api.read_wallet, Service.GetBalance. wp_step. wp_step.
  apply Service.GetWallet_spec; intros s' _; [intros _ |]; (destruct b; [apply Service.GetWallet_spec |]); auto; wp_step; auto.
Qed.

Lemma get_serves topic ctx principal r t s : wf t ->
  wp (Api.getWallet principal r) (serves topic ctx principal.(Principal.UserID) t) (Conn t None s).
Proof.
  intros Hwf. unfold Api.getWallet. destruct (uuid_Parse _) as [walletID |]; [| wp_step; by apply serves_refusal].
  apply wp_answer, read_wallet_own; [intros; apply serves_refusal, writeDomainError_status |].
  intros w s' [Hw Hu]%Service.owned_spec_inv. split; [by left |]. eexists. split; [done |]. intros _. left. exists w.
  destruct (wf_wallet _ Hwf _ _ Hw) as [Hid _]. split; [by rewrite Hid |]. split; [done |].
  destruct (HasSuffix _ _); [by right | by left].
Qed.

Lemma wallets_serve topic ctx principal r t s : wf t ->
  wp (Api.NewWallets principal r) (serves topic ctx principal.(Principal.UserID) t) (Conn t None s).
Proof.
  intros Hwf. unfold Api.NewWallets. destruct (_ && _); [by apply create_serves |].
  destruct (_ && _); [by apply get_serves | wp_step; by apply serves_refusal].
Qed.

Lemma transfers_serve topic ctx principal r t s : wf t ->
  wp (Api.NewTransfers topic ctx principal r) (serves topic ctx principal.(Principal.UserID) t) (Conn t None s).
Proof.
  intros Hwf. unfold Api.NewTransfers. destruct (_ || _); [wp_step; by apply serves_refusal |].
  destruct (Api.rejectNonJSON r) as [resp |] eqn:Hr; [wp_step; by eapply serves_refusal, rejected_status |].
  destruct (transferBody.of_json _) as [request |]; [| wp_step; by apply serves_refusal].
  destruct (uuid_Parse _) as [fromID |]; [| wp_step; by apply serves_refusal].
  destruct (uuid_Parse _) as [toID |]; [| wp_step; by apply serves_refusal].
  destruct (_ <=? 0); [wp_step; by apply serves_refusal |].
  destruct (bool_decide _); [wp_step; by apply serves_refusal |]. apply wp_answer.
  eapply wp_mono; [by apply Service.service_transfer_refines |]. intros a c' [_ Ho]. split.
  - destruct (outcome_change _ _ _ _ _ Ho) as [Hc | [x Hc]]; [by left | right; right].
    destruct (transfer_spec_inv _ _ _ _ _ _ _ _ _ Hc) as (from & _ & _ & _ & _ & _ & Hf & _ & Hu & _).
    by exists fromID, toID, request.(transferBody.Amount), x, from.
  - eexists. split; [done |]. destruct a as [x | e]; intros H200; [done | by apply writeDomainError_status in H200].
Qed.

Lemma ledger_serves topic ctx principal r query t s : wf t ->
  wp (Api.NewLedger principal r query) (serves topic ctx principal.(Principal.UserID) t) (Conn t None s).
Proof.
  intros Hwf. unfold Api.NewLedger. destruct (_ || _); [wp_step; by apply serves_refusal |].
  destruct (uuid_Parse _) as [walletID |]; [| wp_step; by apply serves_refusal].
  destruct (query_limit _) as [limit |]; [| wp_step; by apply serves_refusal].
  destruct (Api.decodeLedgerCursor _) as [cursor |]; [| wp_step; by apply serves_refusal]. apply wp_answer.
  eapply wp_mono; [by apply list_ledger_own |]. intros a c' [Hc Hpage]. split; [by left |]. eexists. split; [done |].
  destruct a as [page | e]; intros H200; [| by apply writeDomainError_status in H200]. right. exists walletID, page. auto.
Qed.

(** The requests that are answered without a token. *)
Lemma public_path path h : find_handler path Api.routes = Handler h ->
  match h with Api.Healthz => path = "/healthz" | Api.Readyz => path = "/readyz" | _ => True end.
Proof.
  intros (pattern & Hin & Hm)%find_handler_in. unfold Api.routes in Hin.
  unfold matches in Hm. apply elem_of_cons in Hin as [[= -> ->] | Hin].
  { change (ends_in_slash "/healthz") with false in Hm. rewrite orb_false_r in Hm. by apply String.eqb_eq in Hm. }
  apply elem_of_cons in Hin as [[= -> ->] | Hin].
  { change (ends_in_slash "/readyz") with false in Hm. rewrite orb_false_r in Hm. by apply String.eqb_eq in Hm. }
  apply elem_of_cons in Hin as [[= -> ->] | Hin]; [done |]. by apply list_elem_of_singleton in Hin as [= -> ->].
Qed.

Lemma ready_reads r t s : wp (Api.answered (Api.Ready r)) (fun a c' => committed c' = t /\ exists reply, a = Ok reply) (Conn t None s).
Proof.
  unfold Api.answered, Api.Ready, Api.Ping. wp_step. destruct (negb _); [wp_step; wp_step; eauto |].
  wp_step. wp_step. wp_step; wp_beta; wp_step; wp_step; eauto.
Qed.

Lemma business_serves topic ctx principal r query t s : wf t ->
  wp (Api.serve_business topic ctx principal r query) (fun a c' =>
    (committed c' = t \/ own_change topic ctx principal.(Principal.UserID) t (committed c')) /\
    exists reply, a = Ok reply /\ forall resp, reply = Api.Answered resp -> resp.(Response.Status) = 200 ->
      own_answer principal.(Principal.UserID) t resp) (Conn t None s).
Proof.
  intros Hwf. unfold Api.serve_business.
  assert (forall p, wp p (serves topic ctx principal.(Principal.UserID) t) (Conn t None s) ->
    wp (Api.answered p) (fun a c' =>
      (committed c' = t \/ own_change topic ctx principal.(Principal.UserID) t (committed c')) /\
      exists reply, a = Ok reply /\ forall resp, reply = Api.Answered resp -> resp.(Response.Status) = 200 ->
        own_answer principal.(Principal.UserID) t resp) (Conn t None s)) as Hanswered.
  { intros p Hp. unfold Api.answered. wp_step. eapply wp_mono; [exact Hp |]. intros a c' (Hc & resp & -> & Hr). wp_step.
    split; [done |]. eexists. split; [done |]. by intros ? [= <-]. }
  destruct (find_handler _ _) as [[] | path |].
  - by apply Hanswered, wallets_serve.
  - by apply Hanswered, transfers_serve.
  - by apply Hanswered, ledger_serves.
  - apply Hanswered. wp_step. by apply serves_refusal.
  - wp_step. split; [by left |]. by eexists.
  - wp_step. split; [by left |]. by eexists.
Qed.

(** C33: a request to the wallet API does what its token allows and no more: whatever
    it says and whatever round trips are lost, the tables stay as they are, or the token
    verifies under the configured algorithm and key and its user opened an empty wallet
    or moved money out of a wallet of his own; and a 200 outside the two health checks
    and the page of metrics shows this user a wallet of his or a page of its statement. *)
Theorem api_acts_for_its_user verifier topic ctx r query t s :
  wf t ->
  let run := Api.NewRouter verifier topic ctx r query (Conn t None s) in
  let header := r.(Request.Header) "Authorization" in
  (committed (snd run) = t \/ exists principal, vouched verifier header principal /\
     own_change topic ctx principal.(Principal.UserID) t (committed (snd run))) /\
  exists reply, fst run = Ok reply /\ forall resp, reply = Api.Answered resp ->
    resp.(Response.Status) = 200 ->
    r.(Request.Path) = "/healthz" \/ r.(Request.Path) = "/readyz" \/
    exists principal, vouched verifier header principal /\ own_answer principal.(Principal.UserID) t resp.
Proof.
  intros Hwf run header. unfold run, Api.NewRouter. clear run.
  destruct (find_handler (Request.Path r) Api.routes) as [h | path |] eqn:Hroute;
    [| split; [by left |]; by eexists | split; [by left |]; by eexists].
  destruct h.
  - split; [by left |]. eexists. split; [done |]. intros resp _ _. left. by apply public_path in Hroute.
  - destruct (wp_elim _ _ _ (ready_reads r t s)) as (Hc & reply & Hr). split; [left; exact Hc |]. exists reply. split; [exact Hr |].
    intros resp _ _. right; left. by apply public_path in Hroute.
  - fold header. destruct (authenticate header verifier) as [principal | e] eqn:Ha; [| split; [by left |]; eexists; split; [done |]; by intros ? [= <-]].
    apply authenticate_vouched in Ha.
    destruct (wp_elim _ _ _ (business_serves topic ctx principal r query t s Hwf)) as (Hc & reply & Hr & Hown). split.
    + destruct Hc as [Hc | Hc]; [left; exact Hc | right; exists principal; split; [done | exact Hc]].
    + exists reply. split; [exact Hr |]. intros resp Hresp H200. right; right. exists principal. split; [done |]. by apply Hown.
  - split; [by left |]. by eexists.
Qed.
End Authority.
