(* ===== verification/ApiAgreement.v ===== *)
(** * ApiAgreement: the wallet API and the gateway answer alike.

    [cmd/api] serves wallets, transfers and statements over the wallet service itself,
    the gateway serves the same paths over gRPC clients of the wallet and the ledger.
    This file compares the two handlers of each path on one database. *)

From stdpp Require Import sorting.
From S2P Require Import Prelude GoStrings Domain GoTime Decimal Mux Rfc3339 Json Database Outbox.
From S2P Require Import WalletRepo LedgerRepo LedgerPages WalletService Grpc WalletServer LedgerServer.
From S2P Require Import LedgerReads Gateway GatewayWallet WalletApi.

#[local] Open Scope string_scope.
#[local] Open Scope Z_scope.

(** The transfer as the gateway's client has it: the gRPC answer carries no time. *)
Definition undated (x : Transfer.t) : Transfer.t :=
  Transfer.mk x.(Transfer.ID) x.(Transfer.FromWalletID) x.(Transfer.ToWalletID) x.(Transfer.Amount) x.(Transfer.Status)
    zero_time x.(Transfer.FromBalance) x.(Transfer.ToBalance).

Section Agreement.
Context `{Postgres} `{!PostgresOk} `{Uuid} `{!UuidOk} `{!UuidText} `{JsonText} `{!JsonTextOk}.

(** Two answers that say the same.  The API names a currency it refuses with a 422 and
    its own code, the gateway with a 400 and the text of the gRPC status. *)
Inductive agree : Response.t -> Response.t -> Prop :=
| agree_same resp : agree resp resp
| agree_currency e :
    e = ErrUnsupportedCurrency \/ e = ErrCurrencyMismatch ->
    agree (Api.writeDomainError e) (writeGRPCError (WalletServer.statusFromDomain e))
| agree_transfer x :
    agree (ok_response 201 (Api.transferResponse x)) (ok_response 201 (transferResponse (undated x))).

(** Both handlers answer, alike, and leave one and the same connection. *)
Definition alike (p : db Response.t) (q : rpc Response.t) (t : tables) (s s' : list fault) : Prop :=
  exists d g c', p (Conn t None s) = (Ok d, c') /\ q (Conn t None s') = (Ok g, c') /\ agree d g.

Lemma alike_ret resp t s : alike (ret resp) (ret resp) t s s.
Proof. eexists _, _, _. split; [done |]. split; [done | constructor]. Qed.

(** One call behind each handler. *)
Definition calls_alike {A B} (p : db A) (q : rpc B) (f : A -> Response.t) (g : B -> Response.t) (c c2 : conn tables) : Prop :=
  match p c with
  | (Ok a, c') => exists b, q c2 = (Ok b, c') /\ agree (f a) (g b)
  | (Err e, c') => exists st, q c2 = (Err st, c') /\ agree (Api.writeDomainError e) (writeGRPCError st)
  end.

Lemma alike_calls {A B} (p : db A) (q : rpc B) f g t s s' :
  calls_alike p q f g (Conn t None s) (Conn t None s') -> alike (Api.answer p f) (answer_with q g) t s s'.
Proof.
  unfold calls_alike, alike, Api.answer, answer_with, bind, attempt. destruct (p _) as [[a | e] c']; intros (b & -> & Ha);
    eexists _, _, _; (split; [done |]); by split.
Qed.

(** ** The clients, without the wire *)

Lemma create_client userID currency c :
  WalletClient_CreateWallet userID currency c = served_by WalletServer.statusFromDomain (Service.CreateWallet userID currency) c.
Proof.
  unfold WalletClient_CreateWallet, WalletServer.CreateWallet, parseUUID, required, bind, ret, lift, served_by.
  cbn [WalletServer.CreateWalletRequest.UserId WalletServer.CreateWalletRequest.Currency]. rewrite uuid_Parse_String.
  destruct (Service.CreateWallet userID currency c) as [[w | e] c']; [| done]. by rewrite wallet_read_back.
Qed.

Lemma user_metadata userID : userIDFromMetadata (T := tables) (contextWithUserID userID) = ret userID.
Proof.
  unfold userIDFromMetadata, contextWithUserID, parseUUID, required.
  rewrite (proj2 (String.eqb_neq _ _)) by apply uuid_nonempty. by rewrite uuid_Parse_String.
Qed.

Lemma get_client userID walletID c :
  WalletClient_GetWallet userID walletID c = served_by WalletServer.statusFromDomain (Service.GetWallet userID walletID) c.
Proof.
  unfold WalletClient_GetWallet, WalletServer.GetWallet. rewrite user_metadata.
  unfold parseUUID, required, bind, ret, lift, served_by. rewrite uuid_Parse_String.
  destruct (Service.GetWallet userID walletID c) as [[w | e] c']; [| done]. by rewrite wallet_read_back.
Qed.

Lemma balance_client userID walletID c :
  WalletClient_GetBalance userID walletID c =
    match Service.GetWallet userID walletID c with
    | (Ok w, c') => (Ok (Wallet.mk walletID userID w.(Wallet.Balance) w.(Wallet.Currency) zero_time zero_time), c')
    | (Err e, c') => (Err (WalletServer.statusFromDomain e), c')
    end.
Proof.
  unfold WalletClient_GetBalance, WalletServer.GetBalance. rewrite user_metadata.
  unfold parseUUID, required, bind, ret, served_by, Service.GetBalance. rewrite uuid_Parse_String.
  by destruct (Service.GetWallet userID walletID c) as [[w | e] c'].
Qed.

Lemma transfer_client topic ctx userID fromID toID amount c : 0 < amount -> fromID <> toID ->
  WalletClient_CreateTransfer topic ctx userID fromID toID amount c =
    match Service.CreateTransfer topic ctx userID fromID toID amount c with
    | (Ok x, c') => (Ok (Transfer.mk x.(Transfer.ID) fromID toID amount x.(Transfer.Status) zero_time
                           x.(Transfer.FromBalance) x.(Transfer.ToBalance)), c')
    | (Err e, c') => (Err (WalletServer.statusFromDomain e), c')
    end.
Proof.
  intros Ha Hne. unfold WalletClient_CreateTransfer, WalletServer.InitiateTransfer. rewrite user_metadata.
  unfold parseUUID, required, guard, bind, ret, served_by.
  cbn [WalletServer.InitiateTransferRequest.FromWalletId WalletServer.InitiateTransferRequest.ToWalletId
       WalletServer.InitiateTransferRequest.AmountCents]. rewrite !uuid_Parse_String.
  rewrite (proj2 (Z.leb_gt _ _)) by lia. rewrite bool_decide_eq_false_2 by done.
  destruct (Service.CreateTransfer topic ctx userID fromID toID amount c) as [[x | e] c']; [| done].
  cbn [WalletServer.InitiateTransferResponse.TransferId]. by rewrite uuid_Parse_String.
Qed.

(** A page survives the wire if its cursors and its entries are the wallet's own. *)
Lemma own_page_read_back userID walletID t page :
  dated walletID t -> own_page userID walletID t page ->
  legible page.2 /\ Forall (fun e => e.(LedgerEntry.WalletID) = walletID) page.1.
Proof.
  intros Hd (_ & Hall & Hnext). unfold dated in Hd. rewrite list.Forall_forall in Hd. split.
  - destruct Hnext as [-> | (e & He & ->)]; [by left | right]. split; [done | by apply Hd].
  - eapply list.Forall_impl; [exact Hall |]. intros e He. by apply list_elem_of_filter in He as [? _].
Qed.

Lemma ledger_client userID walletID cursor limit t s :
  wf t -> dated walletID t -> legible cursor -> 0 <= limit <= 100 ->
  LedgerClient_ListLedger userID walletID cursor limit (Conn t None s) =
    served_by LedgerServer.statusFromDomain (Service.ListLedger userID walletID cursor limit) (Conn t None s).
Proof.
  intros Hwf Hd Hc Hl. pose proof (wp_elim _ _ _ (list_ledger_own userID walletID cursor limit t s Hwf)) as [_ Hown].
  unfold LedgerClient_ListLedger, GetEntries. rewrite user_metadata, wrap32_id by (unfold int32; lia).
  unfold parseUUID, required, guard, bind, ret, lift, served_by.
  cbn [GetEntriesRequest.WalletId GetEntriesRequest.Limit GetEntriesRequest.Cursor]. rewrite uuid_Parse_String.
  unfold EncodeLedgerCursor. rewrite (cursor_round_trip cursor) by done.
  replace ((limit <? 0) || (100 <? limit)) with false by lia. cbv beta iota.
  destruct (Service.ListLedger userID walletID cursor limit _) as [[page | e] c'].
  - destruct (own_page_read_back userID walletID t page Hd (Hown page eq_refl)) as [Hn He].
    cbn [GetEntriesResponse.NextCursor GetEntriesResponse.WalletId GetEntriesResponse.Entries]. unfold DecodeLedgerCursor.
    rewrite (cursor_round_trip page.2) by done. rewrite entries_read_back by done. by destruct page.
  - done.
Qed.

(** ** The handlers *)

Lemma served_alike {A} (p : db A) (q : rpc A) (h : error -> status) f g c :
  q c = served_by h p c ->
  wp p (fun r _ => match r with Ok a => agree (f a) (g a) | Err e => agree (Api.writeDomainError e) (writeGRPCError (h e)) end) c ->
  calls_alike p q f g c c.
Proof.
  unfold calls_alike, wp, served_by. intros ->. destruct (p c) as [[a | e] c']; intros Ha; eexists; by split.
Qed.

Lemma agree_error e : e <> ErrInvalidAmount -> e <> ErrInvalidTransfer -> e <> ErrDebitNotFound ->
  agree (Api.writeDomainError e) (writeGRPCError (WalletServer.statusFromDomain e)).
Proof. destruct e; try done; intros _ _ _; solve [apply agree_same | apply agree_currency; auto]. Qed.

Lemma create_alike principal r t s : wf t ->
  alike (Api.createWallet principal r) (createWallet principal r) t s s.
Proof.
  intros Hwf. unfold Api.createWallet, createWallet, Api.rejectNonJSON.
  destruct (rejectNonJSONContentType r); [apply alike_ret |].
  destruct (res_bind _ _) as [currency |]; [| apply alike_ret].
  eapply alike_calls, served_alike; [apply create_client |].
  eapply wp_mono; [by apply Service.create_wallet_refines |]. intros a c' [_ Ho].
  inversion Ho as [w t' Hs | e Hs | |]; subst; [apply agree_same | | apply agree_error; done | apply agree_error; done].
  unfold Service.create_spec in Hs. destruct (NormalizeCurrency currency) as [| e'] eqn:Hn; [done |]. injection Hs as ->.
  unfold NormalizeCurrency in Hn. destruct (negb _); [| done]. injection Hn as <-. by apply agree_error.
Qed.

(** The API's reads of a balance are those of the gateway and one before them. *)
Lemma first_read userID walletID t s : exists r,
  Service.GetWallet userID walletID (Conn t None s) = (r, Conn t None (tail s)).
Proof.
  unfold Service.GetWallet, WalletRepo.GetWallet, query, exec, bind, attempt, q_GetWallet, guard, next_fault.
  destruct s as [|[] s]; cbn; destruct (wallets t !! walletID) as [w |]; cbn; try (by eexists);
    destruct (bool_decide _); by eexists.
Qed.

Lemma owned_answers userID walletID t s r c' :
  Service.GetWallet userID walletID (Conn t None s) = (r, c') ->
  match r with
  | Ok w => wallets t !! walletID = Some w /\ w.(Wallet.UserID) = userID
  | Err e => e = ErrNotFound \/ e = unavailable
  end.
Proof.
  intros Hr. enough (wp (Service.GetWallet userID walletID) (fun r _ => match r with
    | Ok w => wallets t !! walletID = Some w /\ w.(Wallet.UserID) = userID
    | Err e => e = ErrNotFound \/ e = unavailable end) (Conn t None s)) as Hw by (unfold wp in Hw; by rewrite Hr in Hw).
  apply Service.GetWallet_spec; [by right |]. intros s' _. destruct (Service.owned_spec userID walletID t) as [w | e] eqn:Ho.
  - by apply Service.owned_spec_inv in Ho.
  - left. unfold Service.owned_spec in Ho. repeat case_match; congruence.
Qed.

Lemma get_alike principal r t s : wf t ->
  exists s', (s' = s \/ s' = tail s) /\ alike (Api.getWallet principal r) (getWallet principal r) t s s'.
Proof.
  intros Hwf. unfold Api.getWallet, getWallet, Api.read_wallet, Service.GetBalance.
  destruct (uuid_Parse _) as [walletID |]; [| exists s; split; [by left | apply alike_ret]].
  set (userID := principal.(Principal.UserID)). destruct (first_read userID walletID t s) as [first Hfirst].
  destruct (HasSuffix _ _).
  - exists (tail s). split; [by right |]. apply alike_calls. unfold calls_alike, bind, attempt. rewrite Hfirst, balance_client.
    destruct (Service.GetWallet userID walletID (Conn t None (tail s))) as [[w | e] c'] eqn:Hr; apply owned_answers in Hr; eexists; (split; [done |]).
    + destruct Hr as [Hw _]. destruct (wf_wallet _ Hwf _ _ Hw) as [-> _]. apply agree_same.
    + destruct Hr as [-> | ->]; by apply agree_error.
  - exists s. split; [by left |]. apply alike_calls. unfold calls_alike, bind, attempt, lift. rewrite get_client. unfold served_by.
    rewrite Hfirst. apply owned_answers in Hfirst. destruct first as [w | e]; eexists; (split; [done |]); [apply agree_same |].
    destruct Hfirst as [-> | ->]; by apply agree_error.
Qed.

Lemma wallets_alike principal r t s : wf t ->
  exists s', (s' = s \/ s' = tail s) /\ alike (Api.NewWallets principal r) (NewWallets principal r) t s s'.
Proof.
  intros Hwf. unfold Api.NewWallets, NewWallets.
  destruct (_ && _); [exists s; split; [by left | by apply create_alike] |].
  destruct (_ && _); [by apply get_alike | exists s; split; [by left | apply alike_ret]].
Qed.

Lemma transfer_spec_answer topic ctx userID fromID toID amount t :
  match transfer_spec topic ctx userID fromID toID amount t with
  | Ok (x, _) => x.(Transfer.FromWalletID) = fromID /\ x.(Transfer.ToWalletID) = toID /\ x.(Transfer.Amount) = amount
  | Err e => 0 < amount -> fromID <> toID -> e <> ErrInvalidAmount /\ e <> ErrInvalidTransfer /\ e <> ErrDebitNotFound
  end.
Proof. unfold transfer_spec. repeat case_match; simplify_eq; try done; intros; lia. Qed.

Lemma transfers_alike topic ctx principal r t s : wf t ->
  alike (Api.NewTransfers topic ctx principal r) (NewTransfers topic ctx principal r) t s s.
Proof.
  intros Hwf. unfold Api.NewTransfers, NewTransfers, Api.rejectNonJSON.
  destruct (_ || _); [apply alike_ret |]. destruct (rejectNonJSONContentType r); [apply alike_ret |].
  destruct (transferBody.of_json _) as [request |]; [| apply alike_ret].
  destruct (uuid_Parse _) as [fromID |]; [| apply alike_ret]. destruct (uuid_Parse _) as [toID |]; [| apply alike_ret].
  destruct (Z.leb_spec request.(transferBody.Amount) 0) as [|Ha]; [apply alike_ret |].
  destruct (bool_decide (fromID = toID)) eqn:Hne; [apply alike_ret |]. apply bool_decide_eq_false in Hne.
  set (userID := principal.(Principal.UserID)). set (amount := request.(transferBody.Amount)) in *.
  apply alike_calls. unfold calls_alike. rewrite transfer_client by done.
  pose proof (wp_elim _ _ _ (Service.service_transfer_refines topic ctx userID fromID toID amount t s Hwf)) as [_ Ho].
  pose proof (transfer_spec_answer topic ctx userID fromID toID amount t) as Hspec.
  destruct (Service.CreateTransfer topic ctx userID fromID toID amount _) as [[x | e] c']; cbn [fst snd] in Ho;
    eexists; (split; [done |]); inversion Ho as [x' t' Hs | e' Hs | |]; subst; try (by apply agree_error); rewrite Hs in Hspec.
  - destruct Hspec as (<- & <- & <-). apply agree_transfer.
  - destruct (Hspec Ha Hne) as (? & ? & ?). by apply agree_error.
Qed.

Lemma list_ledger_errors userID walletID cursor limit t s : 0 <= limit <= 100 ->
  wp (Service.ListLedger userID walletID cursor limit)
    (fun r _ => forall e, r = Err e -> e = ErrNotFound \/ e = unavailable) (Conn t None s).
Proof.
  intros Hl. unfold Service.ListLedger. fold (page_size limit).
  assert (1 <= page_size limit <= 100) as Hps by (unfold page_size, Service.defaultLedgerLimit; case_match; lia).
  generalize dependent (page_size limit). intros size Hsize. wp_step. wp_step; [unfold Service.maxLedgerLimit in *; lia |]. wp_step.
  apply Service.GetWallet_spec; [intros ? _ _ e [= <-]; by right |]. intros s' _.
  destruct (Service.owned_spec userID walletID t) as [w | e] eqn:Ho.
  2: { intros e' [= <-]. left. unfold Service.owned_spec in Ho. repeat case_match; congruence. }
  unfold ListLedgerEntries. wp_step. wp_step; [lia |]. wp_step. wp_step; [intros e [= <-]; by right |].
  unfold q_ListLedgerEntries. rewrite wrap64_id, wrap32_id by (unfold int64, int32; lia). rewrite (proj2 (Z.ltb_ge _ _)) by lia.
  wp_beta. repeat case_match; by wp_step.
Qed.

Lemma ledger_alike principal r query t s :
  wf t -> (forall walletID, dated walletID t) -> (forall c, Api.decodeLedgerCursor (query "cursor") = Some c -> legible c) ->
  alike (Api.NewLedger principal r query) (NewLedger principal r query) t s s.
Proof.
  intros Hwf Hd Hc. unfold Api.NewLedger, NewLedger. change decodeLedgerCursor with Api.decodeLedgerCursor.
  destruct (_ || _); [apply alike_ret |].
  destruct (uuid_Parse _) as [walletID |]; [| apply alike_ret].
  destruct (query_limit _) as [limit |] eqn:Hlimit; [| apply alike_ret]. destruct (query_limit_range _ _ Hlimit) as [Hl _].
  destruct (Api.decodeLedgerCursor _) as [cursor |] eqn:Hcursor; [| apply alike_ret].
  eapply alike_calls, served_alike; [by apply ledger_client; auto |].
  eapply wp_mono; [by apply list_ledger_errors |]. intros [page | e] c' He; [apply agree_same |].
  destruct (He e eq_refl) as [-> | ->]; apply agree_same.
Qed.

(** C34: the wallet API and the gateway's handlers of the same paths are alike: on the
    same database, under the same lost round trips, they answer a request of a user
    alike, leave the same tables and make the same round trips, except that the API
    reads a wallet once more before it answers with its balance.  A statement is asked
    for without a cursor or with one that a page gave out. *)
Theorem apis_agree topic ctx principal r query t s :
  wf t -> (forall walletID, dated walletID t) ->
  (forall c, Api.decodeLedgerCursor (query "cursor") = Some c -> legible c) ->
  (exists s', (s' = s \/ s' = tail s) /\ alike (Api.NewWallets principal r) (NewWallets principal r) t s s') /\
  alike (Api.NewTransfers topic ctx principal r) (NewTransfers topic ctx principal r) t s s /\
  alike (Api.NewLedger principal r query) (NewLedger principal r query) t s s.
Proof.
  intros Hwf Hd Hc. split; [by apply wallets_alike |]. split; [by apply transfers_alike | by apply ledger_alike].
Qed.
End Agreement.
