(* ===== verification/GatewayRouter.v ===== *)
(** * GatewayRouter: the gateway as one server.

    The routes that [cmd/gateway/main.go] puts together: the health checks and the
    metrics for everyone, and behind the token check and the rate limiter the handlers of
    [Gateway] and [GatewayWallet].  The gateway keeps three connections, to the
    orchestrator, to the wallet and ledger services over their database, and to the
    verification service. *)

From Stdlib Require Import Ascii.
From S2P Require Import Prelude GoStrings Domain GoTime Mux Json Config Database Outbox Grpc.
From S2P Require Import WalletRepo LedgerRepo LedgerPages WalletService WalletServer LedgerServer LedgerReads.
From S2P Require Import Verification VerificationServer SagaTypes SagaStore Orchestrator FraudReview SagaSafety SagaRuns.
From S2P Require Import RateLimiter SagaServer Gateway GatewayWallet WalletApi.

#[local] Open Scope string_scope.
#[local] Open Scope Z_scope.

Record backends (W : Type) := Backends {
  saga_conn : conn (world W);
  money_conn : conn tables;
  identity_conn : conn Verification.vtables
}.
Arguments Backends {W} _ _ _.
Arguments saga_conn {W} _.
Arguments money_conn {W} _.
Arguments identity_conn {W} _.

Inductive gateway_route := ToWallets | ToPayments | ToReviews | ToLedger | ToVerification.
Definition gateway_routes : mux gateway_route :=
  [("/v1/wallets", ToWallets); ("/v1/wallets/", ToWallets); ("/v1/transfers", ToPayments); ("/v1/payments/", ToPayments);
   ("/v1/fraud-reviews", ToReviews); ("/v1/fraud-reviews/", ToReviews); ("/v1/ledger/", ToLedger);
   ("/v1/verification/submit", ToVerification); ("/v1/verification/status", ToVerification)].

Inductive gateway_public := GatewayHealth | GatewayReady | GatewayProtected | GatewayMetrics.
Definition gateway_handler : mux gateway_public :=
  [("/healthz", GatewayHealth); ("/readyz", GatewayReady); ("/", GatewayProtected); ("/metrics", GatewayMetrics)].

(** What is around one request: the clocks, the random source of the verification
    service, its mode, and whether the four services can be dialled. *)
Record surroundings := Surroundings {
  at_ : time;
  verification_mode : string;
  verification_now : time;
  id_hex : string;
  event_hex : string;
  dialReady : bool
}.

Section Router.
Context {W : Type} `{Remote W} `{Clock} `{Postgres} `{Uuid} `{JsonText} `{Jwt}.
Variable ctx : context.

(** A handler's answer; an error it leaves is answered as a gRPC error. *)
Definition replied {T} (run : res status Response.t * conn T) : Api.reply * conn T :=
  match run with
  | (Ok resp, c) => (Api.Answered resp, c)
  | (Err e, c) => (Api.Answered (writeGRPCError e), c)
  end.

Definition serve_routes (o : surroundings) (principal : Principal.t) (r : Request.t) (query : string -> string)
    (b : backends W) : Api.reply * backends W :=
  match find_handler r.(Request.Path) gateway_routes with
  | Handler ToWallets => let '(reply, c) := replied (NewWallets principal r (money_conn b)) in (reply, Backends (saga_conn b) c (identity_conn b))
  | Handler ToLedger => let '(reply, c) := replied (NewLedger principal r query (money_conn b)) in (reply, Backends (saga_conn b) c (identity_conn b))
  | Handler ToPayments => let '(reply, c) := replied (NewPayments ctx principal r (saga_conn b)) in (reply, Backends c (money_conn b) (identity_conn b))
  | Handler ToReviews => let '(reply, c) := replied (NewFraudReviews principal r (saga_conn b)) in (reply, Backends c (money_conn b) (identity_conn b))
  | Handler ToVerification =>
      let '(reply, c) := replied (NewVerification ctx (verification_mode o) (verification_now o) (id_hex o) (event_hex o)
                                    principal r query (identity_conn b)) in (reply, Backends (saga_conn b) (money_conn b) c)
  | RedirectTo path => (Api.Redirected path, b)
  | NoRoute => (Api.PageNotFound, b)
  end.

Definition health (r : Request.t) (status : string) : Api.reply :=
  if negb (r.(Request.Method) =s "GET") then Api.PageNotFound
  else Api.Answered (ok_response 200 (JObject [("status", JString status)])).

(** One request; no answer is the panic of a limiter that divides by zero. *)
Definition gateway_serve (verifier : Verifier.t) (o : surroundings) (r : Request.t) (query : string -> string)
    (limiter : RateLimiter.t) (b : backends W) : option (Api.reply * RateLimiter.t * backends W) :=
  match find_handler r.(Request.Path) gateway_handler with
  | Handler GatewayHealth => Some (health r "ok", limiter, b)
  | Handler GatewayReady =>
      Some (if (r.(Request.Method) =s "GET") && negb (dialReady o)
            then Api.Answered (error_response 503 "service_unavailable" "upstream service is not ready")
            else health r "ready", limiter, b)
  | Handler GatewayMetrics => Some (Api.Exposition, limiter, b)
  | Handler GatewayProtected =>
      match authenticate (r.(Request.Header) "Authorization") verifier with
      | Err _ => Some (Api.Answered unauthorized, limiter, b)
      | Ok principal =>
          match allow limiter (at_ o) principal.(Principal.UserID) with
          | None => None
          | Some (false, limiter) => Some (Api.Answered (error_response 429 "rate_limited" "rate limit exceeded"), limiter, b)
          | Some (true, limiter) => let '(reply, b) := serve_routes o principal r query b in Some (reply, limiter, b)
          end
      end
  | RedirectTo path => Some (Api.Redirected path, limiter, b)
  | NoRoute => Some (Api.PageNotFound, limiter, b)
  end.
End Router.

(** ** What a request may do *)

Section Authority.
Context {W : Type} `{HR : Remote W} `{Clock} `{Postgres} `{!PostgresOk} `{Uuid} `{!UuidOk} `{!UuidText} `{JsonText} `{Jwt} `{!JwtOk}.
Variable ctx : context.

(** What is stored behind the three connections. *)
Record stored := Stored { in_sagas : world W; in_money : tables; in_identities : Verification.vtables }.

Definition contents (b : backends W) : stored :=
  Stored (committed (saga_conn b)) (committed (money_conn b)) (committed (identity_conn b)).

(** The changes a user may make through the gateway: a payment in his own name or, for an
    administrator, a decision on a review; an empty wallet of his own; a submission for
    his own verification. *)
Inductive own_effect (o : surroundings) (principal : Principal.t) (x : stored) : stored -> Prop :=
| effect_saga i s :
    authorised principal i ->
    own_effect o principal x
      (Stored (committed (snd (handle ctx i (Conn (in_sagas x) None s)))) (in_money x) (in_identities x))
| effect_wallet id currency t :
    wallets (in_money x) !! id = None ->
    wallets t = <[id := Wallet.mk id principal.(Principal.UserID) 0 currency (now (in_money x)) (now (in_money x))]> (wallets (in_money x)) ->
    own_effect o principal x (Stored (in_sagas x) t (in_identities x))
| effect_verification cmd s :
    cmd.(Verification.SubmitCommand.UserID) = uuid_String principal.(Principal.UserID) ->
    own_effect o principal x
      (Stored (in_sagas x) (in_money x)
         (committed (snd (Verification.Submit ctx (verification_mode o) cmd (verification_now o) (id_hex o) (event_hex o)
            (Conn (in_identities x) None s))))).

Lemma replied_conn {T} (run : res status Response.t * conn T) : snd (replied run) = snd run.
Proof. by destruct run as [[] c]. Qed.

(** The verification routes. *)
Lemma submit_acts mode t idHex eventHex r userID v s :
  let c' := snd (handleSubmitVerification ctx mode t idHex eventHex r userID (Conn v None s)) in
  committed c' = v \/ exists cmd, cmd.(Verification.SubmitCommand.UserID) = userID /\
    c' = snd (Verification.Submit ctx mode cmd t idHex eventHex (Conn v None s)).
Proof.
  unfold handleSubmitVerification. destruct (submitBody.of_json _) as [q |]; [| by left].
  unfold answer_with, VerificationClient_Submit, VerificationServer.SubmitVerification, required, guard, bind, attempt, served_by, ret, throw.
  cbn [VerificationServer.SubmitVerificationRequest.UserId VerificationServer.SubmitVerificationRequest.IdempotencyKey].
  destruct (_ || _); [by left | right].
  exists (Verification.SubmitCommand.mk q.(submitBody.PaymentID) q.(submitBody.IdempotencyKey) q.(submitBody.TraceID) userID
            q.(submitBody.VerificationID) q.(submitBody.Decision) q.(submitBody.Reason)).
  split; [done |]. cbn. by destruct (Verification.Submit _ _ _ _ _ _ _) as [[] c].
Qed.

Lemma status_reads userID v s (f : Verification.Record_.t -> Response.t) :
  committed (snd (answer_with (VerificationClient_GetStatus userID) f (Conn v None s))) = v.
Proof.
  apply (wp_elim _ (fun _ c' => committed c' = v)). apply wp_answer_with. unfold VerificationClient_GetStatus. wp_step.
  eapply wp_mono; [by apply (VerificationServer.status_refines userID) |]. intros a c' [_ Ho].
  assert (committed c' = v) as Hc.
  { inversion Ho as [x t' Hs | e Hs | |x t' Hl Hs]; subst; try done; revert Hs; unfold VerificationServer.status_spec; repeat case_match; try done;
      unfold map_answer, map_status, Verification.get_spec; repeat case_match; try done; intros [= _ <-]; by simplify_eq. }
  destruct a; [by wp_step | done].
Qed.

Lemma verification_acts mode t idHex eventHex principal r query v s :
  let c' := snd (NewVerification ctx mode t idHex eventHex principal r query (Conn v None s)) in
  committed c' = v \/ exists cmd, cmd.(Verification.SubmitCommand.UserID) = uuid_String principal.(Principal.UserID) /\
    c' = snd (Verification.Submit ctx mode cmd t idHex eventHex (Conn v None s)).
Proof.
  unfold NewVerification. destruct (_ && _); [apply submit_acts |].
  destruct (_ && _); [left; apply status_reads | by left].
Qed.

(** A statement changes nothing. *)
Lemma ledger_reads principal r query t s : wf t ->
  committed (snd (NewLedger principal r query (Conn t None s))) = t.
Proof.
  intros Hwf. apply (wp_elim _ (fun _ c' => committed c' = t)). unfold NewLedger. destruct (_ || _); [by wp_step |].
  destruct (uuid_Parse _) as [walletID |]; [| by wp_step]. destruct (query_limit _) as [limit |]; [| by wp_step].
  destruct (decodeLedgerCursor _) as [cursor |]; [| by wp_step]. apply wp_answer_with.
  unfold LedgerClient_ListLedger, GetEntries, contextWithUserID, userIDFromMetadata, parseUUID, required. wp_step. wp_step. wp_step. wp_step.
  rewrite (proj2 (String.eqb_neq _ _)) by apply uuid_nonempty.
  cbn [GetEntriesRequest.WalletId GetEntriesRequest.Limit GetEntriesRequest.Cursor]. rewrite !uuid_Parse_String.
  wp_step. wp_step. wp_step. wp_step. wp_step; [done |]. wp_step. destruct (DecodeCursor _) as [c |]; wp_step; [| done]. wp_step.
  apply wp_served_by. eapply wp_mono; [by apply list_ledger_own |]. intros a c' [Hc _]. destruct a as [page |]; [| done].
  wp_step. wp_step. destruct (DecodeLedgerCursor _); wp_step; [| done]. wp_step. wp_step.
  destruct (entries_from_messages _ _); [by wp_step | done].
Qed.

Lemma wallets_effect principal r t s : wf t ->
  let t' := committed (snd (NewWallets principal r (Conn t None s))) in
  t' = t \/ exists id currency, wallets t !! id = None /\
    wallets t' = <[id := Wallet.mk id principal.(Principal.UserID) 0 currency (now t) (now t)]> (wallets t).
Proof.
  intros Hwf. unfold NewWallets. destruct (_ && _).
  - destruct (wp_elim _ _ _ (create_wallet_own principal r t s Hwf)) as [[Hc | (currency & w & Hc)] _]; [by left | right].
    injection Hc as _ Hc. rewrite <- Hc. exists (fresh t), currency. split; [| done].
    destruct (wallets t !! fresh t) as [w' |] eqn:Hf; [| done]. destruct (wf_wallet _ Hwf _ _ Hf) as (_ & _ & _ & Hi).
    by apply fresh_not_issued in Hi.
  - destruct (_ && _); [| by left]. left. by destruct (wp_elim _ _ _ (get_wallet_private principal r t s Hwf)).
Qed.

Lemma routes_effect o principal r query w t v s1 s2 s3 reply b' :
  wf t -> serve_routes ctx o principal r query (Backends (Conn w None s1) (Conn t None s2) (Conn v None s3)) = (reply, b') ->
  contents b' = Stored w t v \/ own_effect o principal (Stored w t v) (contents b').
Proof.
  intros Hwf. unfold serve_routes. cbn [saga_conn money_conn identity_conn].
  destruct (find_handler _ _) as [[] | |]; [| | | | | by intros [= _ <-]; left | by intros [= _ <-]; left];
    match goal with |- (let '(_, _) := replied ?run in _) = _ -> _ =>
      pose proof (replied_conn run) as Hrun; destruct (replied run) as [reply' c']; cbn [snd] in Hrun; subst c'; intros [= _ <-] end;
    unfold contents; cbn [saga_conn money_conn identity_conn].
  - destruct (wallets_effect principal r t s2 Hwf) as [-> | (id & currency & Hid & Ht)]; [by left | right].
    by eapply (effect_wallet o principal (Stored w t v)).
  - destruct (payments_act ctx principal r) as [Hr | (i & Hi & Ha)]; [left; by rewrite (proj1 (Hr w s1)) |].
    destruct (Ha w s1) as [-> | [s' ->]]; [by left | right]. by apply (effect_saga o principal (Stored w t v) i s').
  - left. by rewrite (proj1 (reads_reviews principal r w s1)).
  - left. by rewrite ledger_reads.
  - destruct (verification_acts (verification_mode o) (verification_now o) (id_hex o) (event_hex o) principal r query v s3)
      as [-> | (cmd & Hu & ->)]; [by left | right]. by apply (effect_verification o principal (Stored w t v) cmd s3).
Qed.

Lemma allow_answers limiter at_ u : RateLimiter.refillEvery limiter <> 0 -> is_Some (allow limiter at_ u).
Proof.
  intros He. unfold allow, refilled. destruct (RateLimiter.buckets limiter !! u) as [b |]; [| by eexists].
  rewrite (proj2 (Z.eqb_neq _ _)) by done. destruct (_ <=? Sub _ _); case_match; by eexists.
Qed.

Lemma gateway_public_path path h : find_handler path gateway_handler = Handler h ->
  match h with GatewayHealth => path = "/healthz" | GatewayReady => path = "/readyz" | _ => True end.
Proof.
  intros (pattern & Hin & Hm)%find_handler_in. unfold matches in Hm. apply elem_of_cons in Hin as [[= -> ->] | Hin].
  { change (ends_in_slash "/healthz") with false in Hm. rewrite orb_false_r in Hm. by apply String.eqb_eq in Hm. }
  apply elem_of_cons in Hin as [[= -> ->] | Hin].
  { change (ends_in_slash "/readyz") with false in Hm. rewrite orb_false_r in Hm. by apply String.eqb_eq in Hm. }
  apply elem_of_cons in Hin as [[= -> ->] | Hin]; [done |]. by apply list_elem_of_singleton in Hin as [= -> ->].
Qed.

(** Every path has a handler behind it or is redirected. *)
Lemma gateway_handler_total path : find_handler path gateway_handler <> NoRoute.
Proof.
  unfold find_handler. case_match; [done |]. case_match eqn:Hclean; [done |]. apply negb_false_iff, String.eqb_eq in Hclean.
  destruct (mux_match path gateway_handler) as [[] |] eqn:Hm; [done |]. exfalso.
  assert (matches path "/" = true) as Hroot.
  { unfold matches. apply orb_true_iff. right. change (ends_in_slash "/") with true. cbn [andb]. rewrite <- Hclean. unfold cleanPath.
    destruct (clean_segments [] (segments path)) as [|seg segs]; [done |]. cbn [rooted]. unfold HasPrefix.
    change (String.prefix "/" (String "/"%char ((seg ++ rooted segs) ++ (if ends_in_slash path then "/" else ""))) = true).
    by destruct ((seg ++ rooted segs) ++ _). }
  assert (forall m : mux gateway_public, mux_match path m = None -> Forall (fun p => matches path p.1 = false) m) as Hnone.
  { induction m as [|p m IH]; [constructor |]. simpl. destruct (matches path p.1) eqn:Hp; [done |]. intros Hn. constructor; auto. }
  apply Hnone in Hm. rewrite list.Forall_forall in Hm. specialize (Hm ("/", GatewayProtected) ltac:(unfold gateway_handler; set_solver)).
  cbn [fst] in Hm. congruence.
Qed.

(** The key of a gateway that started: not the empty secret. *)
Lemma loaded_verifier ReadFile lookup settings verifier :
  LoadGatewayFromLookup ReadFile lookup = Ok settings ->
  NewVerifier settings.(Config.JWTAlgorithm) settings.(Config.JWTSecret) settings.(Config.JWTPublicKeyPEM) = Some verifier ->
  verifier.(Verifier.key_of) <> HMACKey "".
Proof.
  intros ([[-> Hs] | [-> Hp]] & _)%gateway_settings; unfold NewVerifier.
  - change (ToUpper (TrimSpace "HS256")) with "HS256". intros [= <-]. simpl. by intros [= ?].
  - change (ToUpper (TrimSpace "RS256")) with "RS256". cbn. case_match; [| done]. by intros [= <-].
Qed.

End Authority.
