(* ===== verification/DevToken.v ===== *)
(** * DevToken: the tool that issues tokens for local development.

    [cmd/devtoken/main.go]: its flags, the claims it signs and what it refuses, and that
    the services which share its secret accept what it prints.  Signing is the JWT
    library's, a parameter like its parsing in [Gateway]. *)

From S2P Require Import Prelude GoStrings Domain GoTime Duration Flag Json Grpc RateLimiter SagaServer Gateway.

#[local] Open Scope string_scope.
#[local] Open Scope Z_scope.

(** [t.Unix()] of a time counted from the year 1. *)
Definition Unix (t : time) : Z := t / Second - 62135596800.

Module TokenFlags.
Record t := mk { userID : string; role : string; ttl : Z }.
End TokenFlags.

Definition token_flag (name value : string) (flags : TokenFlags.t) : option (option TokenFlags.t) :=
  let '(TokenFlags.mk userID role ttl) := flags in
  if name =s "user-id" then Some (Some (TokenFlags.mk value role ttl))
  else if name =s "role" then Some (Some (TokenFlags.mk userID value ttl))
  else if name =s "ttl" then Some (option_map (TokenFlags.mk userID role) (ParseDuration value))
  else None.

Definition token_defaults : TokenFlags.t := TokenFlags.mk "" "user" Hour.

Inductive token_error :=
| FlagsNotParsed (e : flag_error)
| UserIDNotUUID
| RoleRequired
| TTLNotPositive
| SecretRequired
| NotSigned (cause : string)
| NotWritten (cause : string).

(** [token.SignedString], and the time by which the library judges tokens. *)
Class JwtSign `{Jwt} := {
  jwt_SignedString : string -> key -> claims -> res string string;
  jwt_now : time
}.

Definition claim (name : string) (c : claims) : option json := snd <$> List.find (fun kv => kv.1 =s name) c.

(** What the library documents: a token is three base64 texts joined by dots; one that
    names an expiry to come and no later start is accepted under the key it was signed
    with, and its claims are read back. *)
Class JwtSignOk `{JwtSign} : Prop := {
  jwt_signed_text : forall alg k c token, jwt_SignedString alg k c = Ok token -> token <> "" /\ Contains token " " = false;
  jwt_signed_parses : forall alg k c token keyFunc methods exp,
    jwt_SignedString alg k c = Ok token -> NoDup c.*1 -> json_ok (JObject c) = true ->
    claim "exp" c = Some (JInt exp) -> claim "nbf" c = None -> Unix jwt_now < exp ->
    keyFunc alg = Some k -> alg ∈ methods ->
    exists c', jwt_ParseWithClaims token keyFunc methods = Some c' /\ forall name, claim_text name c' = claim_text name c
}.

Section DevToken.
Context `{JwtSign} `{Uuid}.
Variable getenv : string -> string.

Definition token_claims (flags : TokenFlags.t) (issuedAt : time) : claims :=
  [("user_id", JString flags.(TokenFlags.userID)); ("role", JString flags.(TokenFlags.role));
   ("iat", JInt (Unix issuedAt)); ("exp", JInt (Unix (issuedAt + flags.(TokenFlags.ttl))))].

(** What is printed on the standard output; [warned] and [printed] are the errors of the
    two writes. *)
Definition run (args : list string) (warned printed : option string) (now : time) : res token_error string :=
  match parse_flags token_flag args token_defaults with
  | Err e => Err (FlagsNotParsed e)
  | Ok flags =>
      if invalid_uuid_text flags.(TokenFlags.userID) then Err UserIDNotUUID
      else if flags.(TokenFlags.role) =s "" then Err RoleRequired
      else if flags.(TokenFlags.ttl) <=? 0 then Err TTLNotPositive
      else
        let secret := getenv "JWT_SECRET" in
        if secret =s "" then Err SecretRequired
        else match jwt_SignedString AlgHS256 (HMACKey secret) (token_claims flags now) with
             | Err cause => Err (NotSigned cause)
             | Ok signed =>
                 match warned, printed with
                 | Some cause, _ | None, Some cause => Err (NotWritten cause)
                 | None, None => Ok signed
                 end
             end
  end.

(** The line after a scheme without spaces is cut at its first space. *)
Lemma cut_bearer token : Cut ("Bearer " ++ token) " " = Some ("Bearer", token).
Proof.
  unfold Cut. assert (String.index 0 " " ("Bearer " ++ token) = Some 6%nat) as -> by (by destruct token). simpl. unfold skip. simpl.
  assert (forall s, String.substring 0 (String.length s) s = s) as Hall by (induction s; simpl; congruence).
  by rewrite Nat.sub_0_r, Hall.
Qed.

(** What is issued is accepted: as long as it has not expired, a service with the same
    secret takes the printed token for the user and the role of the flags. *)
Theorem issued_token_is_accepted `{!JwtSignOk} args now token flags :
  uuid_Parse "" = None ->
  run args None None now = Ok token -> parse_flags token_flag args token_defaults = Ok flags ->
  json_ok (JString flags.(TokenFlags.userID)) = true -> json_ok (JString flags.(TokenFlags.role)) = true ->
  Unix jwt_now < Unix (now + flags.(TokenFlags.ttl)) ->
  exists userID, uuid_Parse flags.(TokenFlags.userID) = Some userID /\
    authenticate ("Bearer " ++ token) (HMACVerifier (getenv "JWT_SECRET")) = Ok (Principal.mk userID flags.(TokenFlags.role)).
Proof.
  intros Hempty Hrun Hflags Hu Hr Hexp. unfold run in Hrun. rewrite Hflags in Hrun.
  destruct (invalid_uuid_text _) eqn:Huuid; [done |]. unfold invalid_uuid_text in Huuid.
  destruct (uuid_Parse (TokenFlags.userID flags)) as [userID |] eqn:Hparse; [| done]. destruct (String.eqb_spec (TokenFlags.role flags) "") as [| Hrole]; [done |].
  destruct (flags.(TokenFlags.ttl) <=? 0); [done |]. destruct (getenv _ =s _); [done |].
  destruct (jwt_SignedString _ _ _) as [signed |] eqn:Hsign; [| done]. injection Hrun as ->.
  exists userID. split; [done |].
  assert (flags.(TokenFlags.userID) <> "") as Hid by congruence. destruct (jwt_signed_text _ _ _ _ Hsign) as [Hne Hspace].
  destruct (jwt_signed_parses _ _ _ _ (keyFunc (HMACVerifier (getenv "JWT_SECRET"))) [AlgHS256] (Unix (now + TokenFlags.ttl flags)) Hsign) as (c' & Hc' & Hclaims);
    [| | reflexivity | reflexivity | exact Hexp | reflexivity | apply list_elem_of_here |].
  - apply (bool_decide_unpack _). vm_compute. exact I.
  - unfold token_claims. cbn [json_ok forallb fst snd] in *. rewrite Hu, Hr. by vm_compute.
  - unfold authenticate. change ("Bearer " ++ token =s "") with false. cbv iota. rewrite cut_bearer.
    change (EqualFold "Bearer" "Bearer") with true. rewrite (proj2 (String.eqb_neq _ _) Hne), Hspace. cbn [negb orb].
    change (Algorithm _) with AlgHS256. rewrite Hc', !Hclaims. unfold claim_text, token_claims. simpl.
    rewrite (proj2 (String.eqb_neq _ _) Hid), Hparse, (proj2 (String.eqb_neq _ _) Hrole). done.
Qed.
End DevToken.

(** A lifetime under a second is accepted by the tool, and may give a token that has
    expired when it is issued: both times are cut to the second. *)
Lemma short_lifetimes_expire_at_birth :
  let flags := TokenFlags.mk "u" "user" (Second / 2) in let now := 62135596800 * Second + Second / 4 in
  0 < flags.(TokenFlags.ttl) /\ claim "exp" (token_claims flags now) = claim "iat" (token_claims flags now) /\
  Unix (now + flags.(TokenFlags.ttl)) <= Unix now.
Proof. vm_compute. repeat split; discriminate. Qed.
