(* ===== verification/SagaFlow.v ===== *)
(** * SagaFlow: what each handler of the saga does when nothing is lost.

    The functional behaviour of the orchestrator on the branches that move money:
    the answer, the saga's new row, the events it writes and the calls it makes,
    for any remote services. *)

From S2P Require Import Prelude GoStrings Domain GoTime Json Database Outbox.
From S2P Require Import SagaTypes SagaStore Orchestrator FraudReview SagaSafety.

#[local] Open Scope string_scope.
#[local] Open Scope Z_scope.

Section Flow.
Context {W : Type} `{HR : Remote W} `{Clock} `{Postgres} `{Uuid}.
Implicit Types w : world W.
Variable ctx : context.

(** ** The operations of the store *)

Lemma y_get p w row : sagas w !! p = Some row -> yields (GetByPaymentID p) w (Ok (scanSaga row)) w.
Proof.
  intros Hr. unfold yields, GetByPaymentID, scan_row, bind, attempt, q_saga. run_conn. by rewrite Hr.
Qed.

Lemma y_now w : yields (Now (W := W)) w (Ok (clock_at (clock_reads w))) (tick w).
Proof. done. Qed.

Lemma y_call {A} (f : W -> res saga_error (A * W)) w a r' :
  f (remote w) = Ok (a, r') -> yields (call f) w (Ok a) (with_remote r' w).
Proof. intros Hf. unfold yields, call. run_conn. by rewrite Hf. Qed.

Lemma y_update_saga s w row b :
  sagas w !! s.(Saga.PaymentID) = Some row ->
  updateSaga s (Conn b (Some w) []) = (Ok (scanSaga (updated_row s row w)), Conn b (Some (set_saga s row w)) []).
Proof.
  intros Hr. unfold updateSaga, scan_row, bind, attempt, stmt_update_saga. run_conn. by rewrite Hr.
Qed.

Lemma y_update s w row :
  sagas w !! s.(Saga.PaymentID) = Some row ->
  yields (Update s) w (Ok (scanSaga (updated_row s row w))) (set_saga s row w).
Proof.
  intros Hr. unfold yields, Update, updateSaga, scan_row, bind, attempt, stmt_update_saga. run_conn.
  by rewrite Hr.
Qed.

Lemma y_insert_audit audit w b :
  insertFraudAudit audit (Conn b (Some w) []) = (Ok tt, Conn b (Some (put_audit audit w)) []).
Proof.
  unfold insertFraudAudit, put_audit, stmt_insert_audit. destruct (_ =s ""); [done |]. run_conn.
  by destruct (existsb _ _).
Qed.

Lemma y_audit audit w : yields (RecordFraudAudit audit) w (Ok tt) (put_audit audit w).
Proof.
  unfold yields, RecordFraudAudit, insertFraudAudit, put_audit, stmt_insert_audit. destruct (_ =s ""); [done |]. run_conn.
  by destruct (existsb _ _).
Qed.

Lemma y_update_audit s audit w row :
  sagas w !! s.(Saga.PaymentID) = Some row ->
  yields (UpdateWithAudit s audit) w (Ok (scanSaga (updated_row s row w))) (put_audit audit (set_saga s row w)).
Proof.
  intros Hr. unfold yields, UpdateWithAudit, begin, deferred_rollback, bind. simpl.
  rewrite (y_update_saga s w row) by done. rewrite y_insert_audit. done.
Qed.

Lemma y_insert_events records w b :
  insert_events ctx records (Conn b (Some w) []) = (Ok tt, Conn b (Some (put_events ctx records w)) []).
Proof.
  revert w. induction records as [|r rest IH]; intros w; [done |]. simpl. unfold bind. simpl. apply IH.
Qed.

Lemma put_events_sagas records w : sagas (put_events ctx records w) = sagas w.
Proof. revert w. induction records as [|r rest IH]; intros w; [done |]. simpl. by rewrite IH. Qed.

Lemma put_audit_frame audit w :
  sagas (put_audit audit w) = sagas w /\ events (put_audit audit w) = events w /\
  remote (put_audit audit w) = remote w /\ clock_reads (put_audit audit w) = clock_reads w /\
  db_now (put_audit audit w) = db_now w.
Proof. unfold put_audit, stmt_insert_audit. destruct (_ =s ""); [done |]. by destruct (existsb _ _). Qed.

Lemma y_update_outbox s records audit w row :
  sagas w !! s.(Saga.PaymentID) = Some row ->
  let w1 := put_audit audit (put_events ctx records w) in
  yields (UpdateWithOutboxAndAudit ctx s records audit) w (Ok (scanSaga (updated_row s row w1))) (set_saga s row w1).
Proof.
  intros Hr w1. unfold yields, UpdateWithOutboxAndAudit, begin, deferred_rollback, bind. simpl.
  rewrite y_insert_events, y_insert_audit. fold w1.
  rewrite (y_update_saga s w1 row); [done |]. unfold w1. destruct (put_audit_frame audit (put_events ctx records w)) as [-> _].
  by rewrite put_events_sagas.
Qed.

Lemma y_event topic key payload w :
  yields (EnqueueEvent ctx topic key payload) w (Ok tt) (put_event ctx topic key payload w).
Proof. done. Qed.

(** ** Results *)

(** The saga of [p] was replaced and nothing else. *)
Definition saga_becomes (p : string) (row row' : SagaRow.t) w w' : Prop :=
  sagas w' = <[p := row']> (sagas w) /\ same_order row row'.

(** Exactly one event was written. *)
Definition one_event (topic key : string) (payload : json) w w' : Prop :=
  exists e, events w' = (events w ++ [e])%list /\ e.(OutboxEvent.Topic) = topic /\
    e.(OutboxEvent.PartitionKey) = key /\ e.(OutboxEvent.Payload) = payload.

Definition confirm_request (current : Saga.t) (trace : string) : LedgerConfirmRequest.t :=
  LedgerConfirmRequest.mk current.(Saga.PaymentID) (stepKey current.(Saga.PaymentID) "confirm-ledger") trace
    current.(Saga.LedgerReservationID) current.(Saga.WalletDebitID).

(** The announcement of a completed payment. *)
Definition completed_payload (row : SagaRow.t) (transferID trace : string) (completedAt occurredAt : time) : json :=
  TxCompleted.to_json (TxCompleted.mk ("tx.completed:" ++ row.(SagaRow.payment_id)) row.(SagaRow.payment_id) trace
    row.(SagaRow.from_wallet_id) row.(SagaRow.to_wallet_id) row.(SagaRow.amount_cents) row.(SagaRow.currency)
    transferID completedAt occurredAt).

Definition failed_payload (row : SagaRow.t) (code message trace : string) (failedAt occurredAt : time) : json :=
  TxFailed.to_json (TxFailed.mk ("tx.failed:" ++ row.(SagaRow.payment_id)) row.(SagaRow.payment_id) trace
    row.(SagaRow.from_wallet_id) row.(SagaRow.to_wallet_id) row.(SagaRow.amount_cents) row.(SagaRow.currency)
    code message failedAt occurredAt).

Lemma completed_flow e w row result r' :
  let p := e.(PaymentCompleted.PaymentID) in
  let trace := traceID e.(PaymentCompleted.TraceID) row.(SagaRow.trace_id) in
  sagas w !! p = Some row -> row.(SagaRow.payment_id) = p -> open_state row.(SagaRow.state) ->
  remote_ConfirmTransfer (confirm_request (scanSaga row) trace) (remote w) = Ok (result, r') ->
  exists w' row' completedAt occurredAt,
    yields (HandlePaymentCompleted ctx e) w (Ok tt) w' /\
    saga_becomes p row row' w w' /\ row'.(SagaRow.state) = StateCompleted /\
    row'.(SagaRow.transfer_id) = result.(LedgerConfirmResult.TransferID) /\
    one_event TopicTxCompleted row.(SagaRow.from_wallet_id)
      (completed_payload row result.(LedgerConfirmResult.TransferID) trace completedAt occurredAt) w w' /\
    remote w' = r' /\ audits w' = audits w.
Proof.
  intros p trace Hrow Hpid (Hc & Hf & Hr) Hcall. do 4 eexists. split.
  - unfold HandlePaymentCompleted. eapply yields_bind; [by apply y_get |]. simpl.
    rewrite (proj2 (String.eqb_neq _ _) Hc), (proj2 (String.eqb_neq _ _) Hf), (proj2 (String.eqb_neq _ _) Hr).
    eapply yields_bind; [by apply y_call |]. eapply yields_bind; [apply y_now |].
    eapply yields_bind; [apply y_update; simpl; rewrite Hpid; exact Hrow |].
    eapply yields_bind; [eapply yields_bind; [apply y_now | apply y_event] |].
    eapply yields_bind; [apply y_update; simpl; rewrite !Hpid; apply lookup_insert_eq | apply yields_ret].
  - unfold saga_becomes, one_event, set_saga. simpl. rewrite !Hpid, insert_insert_eq.
    split; [done |]. split; [done |]. split; [done |]. split; [| done].
    eexists. split; [done |]. unfold completed_payload. by rewrite Hpid.
Qed.

(** The second half of a compensation. *)
Lemma refund_flow s w row r' :
  sagas w !! s.(Saga.PaymentID) = Some row -> row.(SagaRow.payment_id) = s.(Saga.PaymentID) ->
  remote_CompensateDebit (compensate_request s s.(Saga.TraceID) s.(Saga.LastError)) (remote w) = Ok (tt, r') ->
  exists w' row' failedAt occurredAt,
    yields (refund_and_fail ctx s) w (Ok tt) w' /\
    saga_becomes s.(Saga.PaymentID) row row' w w' /\ row'.(SagaRow.state) = StateFailed /\
    row'.(SagaRow.failure_code) = s.(Saga.FailureCode) /\ row'.(SagaRow.last_error) = s.(Saga.LastError) /\
    one_event TopicTxFailed row.(SagaRow.from_wallet_id)
      (failed_payload row s.(Saga.FailureCode) s.(Saga.LastError) s.(Saga.TraceID) failedAt occurredAt) w w' /\
    remote w' = r' /\ audits w' = audits w.
Proof.
  intros Hrow Hpid Hcall. do 4 eexists. split.
  - unfold refund_and_fail. eapply yields_bind; [by apply y_call |]. eapply yields_bind; [apply y_now |].
    eapply yields_bind; [apply y_update; simpl; exact Hrow |].
    eapply yields_bind; [apply y_now |]. eapply yields_bind; [apply y_now | apply y_event].
  - unfold saga_becomes, one_event, set_saga. simpl.
    split; [done |]. split; [done |]. split; [done |]. split; [done |]. split; [| done].
    eexists. split; [done |]. unfold failed_payload. by rewrite Hpid.
Qed.

(** The messages of a start, from the stored order. *)
Definition debit_request (current : Saga.t) : WalletDebitRequest.t :=
  WalletDebitRequest.mk current.(Saga.PaymentID) (stepKey current.(Saga.PaymentID) "debit-wallet")
    current.(Saga.TraceID) current.(Saga.FromWalletID) current.(Saga.AmountCents) current.(Saga.Currency).
Definition reserve_request (current : Saga.t) : LedgerReserveRequest.t :=
  LedgerReserveRequest.mk current.(Saga.PaymentID) (stepKey current.(Saga.PaymentID) "reserve-ledger")
    current.(Saga.TraceID) current.(Saga.FromWalletID) current.(Saga.ToWalletID) current.(Saga.AmountCents)
    current.(Saga.Currency).

(** One stage of [advance]: the saga of [p] moved to [st], no event was written. *)
Record advanced (p st : string) (row row1 : SagaRow.t) (r : W) w w1 : Prop := {
  adv_sagas : sagas w1 = <[p := row1]> (sagas w);
  adv_order : same_order row row1;
  adv_trace : row1.(SagaRow.trace_id) = row.(SagaRow.trace_id);
  adv_state : row1.(SagaRow.state) = st;
  adv_events : events w1 = events w;
  adv_remote : remote w1 = r
}.

Lemma advanced_row p st row row1 r w w1 :
  advanced p st row row1 r w w1 -> row.(SagaRow.payment_id) = p ->
  sagas w1 !! p = Some row1 /\ row1.(SagaRow.payment_id) = p.
Proof. intros [-> (_ & -> & _) _ _ _ _] Hp. split; [apply lookup_insert_eq | done]. Qed.

(** The requests only depend on the order. *)
Lemma requests_same row row1 :
  same_order row row1 -> row1.(SagaRow.trace_id) = row.(SagaRow.trace_id) ->
  debit_request (scanSaga row1) = debit_request (scanSaga row) /\
  reserve_request (scanSaga row1) = reserve_request (scanSaga row).
Proof.
  intros (_ & Hp & _ & _ & Hf & Ht & Ha & Hc & _) Htr. unfold debit_request, reserve_request. simpl.
  by rewrite Hp, Hf, Ht, Ha, Hc, Htr.
Qed.

Lemma check_flow p w row :
  sagas w !! p = Some row -> row.(SagaRow.payment_id) = p -> row.(SagaRow.state) = StateStarted ->
  remote_GetStatus (VerificationRequest.mk row.(SagaRow.user_id) row.(SagaRow.trace_id)) (remote w)
    = Ok VerificationVerified ->
  exists w1 row1, yields (in_state StateStarted check_verification (scanSaga row)) w (Ok (scanSaga row1)) w1 /\
    advanced p StateVerificationChecked row row1 (remote w) w w1.
Proof.
  intros Hrow Hpid Hst Hver. do 2 eexists. unfold in_state. simpl. rewrite Hst. split.
  - simpl. unfold check_verification. eapply yields_bind.
    { unfold yields, attempt. run_conn. rewrite Hver. reflexivity. }
    simpl. eapply yields_bind; [apply y_now |]. apply y_update. simpl. rewrite Hpid. exact Hrow.
  - split; simpl; try done. by rewrite Hpid.
Qed.

Lemma debit_flow p w row debitID r' :
  sagas w !! p = Some row -> row.(SagaRow.payment_id) = p -> row.(SagaRow.state) = StateVerificationChecked ->
  remote_DebitForSaga (debit_request (scanSaga row)) (remote w) = Ok (debitID, r') ->
  exists w1 row1, yields (in_state StateVerificationChecked debit_wallet (scanSaga row)) w (Ok (scanSaga row1)) w1 /\
    advanced p StateWalletDebited row row1 r' w w1 /\ row1.(SagaRow.wallet_debit_id) = debitID.
Proof.
  intros Hrow Hpid Hst Hcall. do 2 eexists. unfold in_state. simpl. rewrite Hst. split; [| split].
  - simpl. unfold debit_wallet. eapply yields_bind; [apply y_call; exact Hcall |].
    eapply yields_bind; [apply y_now |]. apply y_update. simpl. rewrite Hpid. exact Hrow.
  - split; simpl; try done. by rewrite Hpid.
  - done.
Qed.

Lemma reserve_flow p w row reservationID r' :
  sagas w !! p = Some row -> row.(SagaRow.payment_id) = p -> row.(SagaRow.state) = StateWalletDebited ->
  remote_ReserveTransfer (reserve_request (scanSaga row)) (remote w) = Ok (reservationID, r') ->
  exists w1 row1, yields (in_state StateWalletDebited reserve_ledger (scanSaga row)) w (Ok (scanSaga row1)) w1 /\
    advanced p StateLedgerReserved row row1 r' w w1 /\ row1.(SagaRow.ledger_reservation_id) = reservationID /\
    row1.(SagaRow.wallet_debit_id) = row.(SagaRow.wallet_debit_id).
Proof.
  intros Hrow Hpid Hst Hcall. do 2 eexists. unfold in_state. simpl. rewrite Hst. split; [| split].
  - simpl. unfold reserve_ledger. eapply yields_bind; [apply y_call; exact Hcall |].
    eapply yields_bind; [apply y_now |]. apply y_update. simpl. rewrite Hpid. exact Hrow.
  - split; simpl; try done. by rewrite Hpid.
  - done.
Qed.

(** The two events that leave with PAYMENT_PROCESSING. *)
Definition dispatched (p : string) w w1 : Prop :=
  exists e1 e2, events w1 = (events w ++ [e1; e2])%list /\
    e1.(OutboxEvent.Topic) = TopicPaymentExecute /\ e1.(OutboxEvent.PartitionKey) = p /\
    e2.(OutboxEvent.Topic) = FraudScoreRequestedTopic /\ e2.(OutboxEvent.PartitionKey) = p.

Lemma execute_flow p w row :
  sagas w !! p = Some row -> row.(SagaRow.payment_id) = p -> row.(SagaRow.state) = StateLedgerReserved ->
  exists w1 row1, yields (in_state StateLedgerReserved (execute_payment ctx) (scanSaga row)) w (Ok (scanSaga row1)) w1 /\
    sagas w1 = <[p := row1]> (sagas w) /\ same_order row row1 /\ row1.(SagaRow.state) = StatePaymentProcessing /\
    row1.(SagaRow.wallet_debit_id) = row.(SagaRow.wallet_debit_id) /\
    row1.(SagaRow.ledger_reservation_id) = row.(SagaRow.ledger_reservation_id) /\
    dispatched p w w1 /\ remote w1 = remote w.
Proof.
  intros Hrow Hpid Hst. do 2 eexists. unfold in_state. simpl. rewrite Hst. split.
  - simpl. unfold execute_payment. eapply yields_bind; [apply y_now |].
    apply y_update_outbox. simpl. rewrite Hpid. exact Hrow.
  - unfold set_saga, dispatched. simpl. rewrite Hpid. do 5 (split; [done |]). split; [| done].
    do 2 eexists. rewrite <- app_assoc. split; [reflexivity | done].
Qed.

Lemma create_flow req w :
  let p := req.(StartRequest.PaymentID) in
  0 < req.(StartRequest.AmountCents) ->
  sagas w !! p = None -> find_key req.(StartRequest.UserID) req.(StartRequest.IdempotencyKey) w = None ->
  exists w1 row1, yields (let! now := Now in Create (new_saga req now)) w (Ok (scanSaga row1)) w1 /\
    sagas w1 = <[p := row1]> (sagas w) /\ row1.(SagaRow.payment_id) = p /\ row1.(SagaRow.state) = StateStarted /\
    row1.(SagaRow.user_id) = req.(StartRequest.UserID) /\ row1.(SagaRow.amount_cents) = req.(StartRequest.AmountCents) /\
    row1.(SagaRow.trace_id) = req.(StartRequest.TraceID) /\
    debit_request (scanSaga row1) = debit_request (new_saga req zero_time) /\
    reserve_request (scanSaga row1) = reserve_request (new_saga req zero_time) /\
    events w1 = events w /\ remote w1 = remote w.
Proof.
  intros p Hamount Hnone Hkey. do 2 eexists. split.
  - eapply yields_bind; [apply y_now |].
    unfold yields, Create, scan_row, bind, attempt, stmt_insert_saga. run_conn.
    rewrite (proj2 (Z.leb_gt _ _) Hamount). change (find_key _ _ (tick w)) with
      (find_key (StartRequest.UserID req) (StartRequest.IdempotencyKey req) w). rewrite Hkey.
    fold p. rewrite Hnone. reflexivity.
  - done.
Qed.

(** ** Review *)

Lemma y_guard_false (e : saga_error) w : yields (guard false e) w (Ok tt) w.
Proof. done. Qed.

Lemma y_lift {A} (a : A) w : yields (E := saga_error) (lift (Ok a)) w (Ok a) w.
Proof. done. Qed.

(** A payment result during a review is put aside. *)
Lemma defer_flow e w row :
  let p := e.(PaymentCompleted.PaymentID) in
  sagas w !! p = Some row -> row.(SagaRow.payment_id) = p -> row.(SagaRow.state) = StateFraudReview ->
  row.(SagaRow.deferred_payment_json) = None ->
  exists w' row', yields (HandlePaymentCompleted ctx e) w (Ok tt) w' /\
    saga_becomes p row row' w w' /\ row'.(SagaRow.state) = StateFraudReview /\
    row'.(SagaRow.trace_id) = row.(SagaRow.trace_id) /\
    row'.(SagaRow.ledger_reservation_id) = row.(SagaRow.ledger_reservation_id) /\
    row'.(SagaRow.wallet_debit_id) = row.(SagaRow.wallet_debit_id) /\
    row'.(SagaRow.deferred_payment_json) = Some (PaymentCompleted.to_json e) /\
    events w' = events w /\ remote w' = remote w.
Proof.
  intros p Hrow Hpid Hst Hnone. do 2 eexists. split.
  - unfold HandlePaymentCompleted. eapply yields_bind; [by apply y_get |]. simpl. rewrite Hst. simpl.
    unfold deferPaymentCompleted. simpl. rewrite Hnone. eapply yields_bind; [apply y_now |]. cbv zeta.
    eapply yields_bind; [| apply yields_ret]. apply y_update_audit. simpl. rewrite Hpid. exact Hrow.
  - unfold saga_becomes. set (wa := put_audit _ _).
    destruct (put_audit_frame _ _ : sagas wa = _ /\ events wa = _ /\ remote wa = _ /\ _) as (Hs & He & Hr & _).
    simpl in Hs, He, Hr. rewrite Hs, He, Hr, Hpid. done.
Qed.

(** The part of a resumption before the deferred result is applied. *)
Lemma resume_flow d w row :
  let p := d.(FraudReviewDecision.PaymentID) in
  sagas w !! p = Some row -> row.(SagaRow.payment_id) = p -> row.(SagaRow.state) = StateFraudReview ->
  exists w' row', (forall r w2,
      (match row.(SagaRow.deferred_payment_json) with
       | None => r = Ok (scanSaga row') /\ w2 = w'
       | Some _ => yields (applyDeferredResult ctx row.(SagaRow.deferred_payment_json) d.(FraudReviewDecision.TraceID) ;!
                           GetByPaymentID p) w' r w2
       end) -> yields (ResumeFraudReview ctx d) w r w2) /\
    saga_becomes p row row' w w' /\ row'.(SagaRow.state) = StatePaymentProcessing /\
    row'.(SagaRow.trace_id) = row.(SagaRow.trace_id) /\
    row'.(SagaRow.ledger_reservation_id) = row.(SagaRow.ledger_reservation_id) /\
    row'.(SagaRow.wallet_debit_id) = row.(SagaRow.wallet_debit_id) /\
    row'.(SagaRow.deferred_payment_json) = None /\
    events w' = events w /\ remote w' = remote w.
Proof.
  intros p Hrow Hpid Hst.
  set (now := clock_at (clock_reads w)).
  set (resumed := Saga.with_UpdatedAt now (Saga.with_DeferredPaymentJSON None
                    (Saga.with_State StatePaymentProcessing (scanSaga row)))).
  set (audit := FraudAuditRecord.mk (reviewAuditEventID "resume" row.(SagaRow.payment_id) now)
    row.(SagaRow.payment_id) FraudAuditKindReviewResumed StateFraudReview
    (reviewAuditJSON "resume" d StateFraudReview StatePaymentProcessing row.(SagaRow.deferred_payment_json)) now).
  exists (put_audit audit (set_saga resumed row (tick w))), (updated_row resumed row (tick w)). split.
  - intros r w2 Hrest. unfold ResumeFraudReview. eapply yields_bind; [by apply y_get |]. simpl. rewrite Hst. simpl.
    eapply yields_bind; [exact (y_guard_false ErrNotUnderReview _) |]. eapply yields_bind; [apply y_now |]. cbv zeta.
    eapply yields_bind; [apply y_update_audit; simpl; rewrite Hpid; exact Hrow |].
    fold now resumed audit. destruct (SagaRow.deferred_payment_json row) as [doc|]; [exact Hrest |].
    destruct Hrest as [-> ->]. apply yields_ret.
  - unfold saga_becomes. set (wa := put_audit _ _).
    destruct (put_audit_frame _ _ : sagas wa = _ /\ events wa = _ /\ remote wa = _ /\ _) as (Hs & He & Hr & _).
    simpl in Hs, He, Hr. rewrite Hs, He, Hr, Hpid. done.
Qed.

Lemma saga_becomes_trans p row1 row2 row3 w1 w2 w3 :
  saga_becomes p row1 row2 w1 w2 -> saga_becomes p row2 row3 w2 w3 -> saga_becomes p row1 row3 w1 w3.
Proof.
  intros [Hs1 Ho1] [Hs2 Ho2]. split; [by rewrite Hs2, Hs1, insert_insert_eq | by etrans].
Qed.

Lemma saga_becomes_row p row row' w w' :
  saga_becomes p row row' w w' -> row.(SagaRow.payment_id) = p ->
  sagas w' !! p = Some row' /\ row'.(SagaRow.payment_id) = p.
Proof. intros [-> (_ & -> & _)] Hp. split; [apply lookup_insert_eq | done]. Qed.

(** The deferred completion, as [applyDeferredResult] reads it back. *)
Lemma apply_completed_flow e trace w r w' :
  HasPrefix e.(PaymentCompleted.EventID) (TopicPaymentCompleted ++ ":") = true ->
  yields (HandlePaymentCompleted ctx
    (PaymentCompleted.with_TraceID (traceID e.(PaymentCompleted.TraceID) trace) e)) w r w' ->
  yields (applyDeferredResult ctx (Some (PaymentCompleted.to_json e)) trace) w r w'.
Proof.
  intros Hpre Hy. unfold applyDeferredResult.
  change (deferredEventID (Some (PaymentCompleted.to_json e))) with (PaymentCompleted.EventID e).
  rewrite Hpre, PaymentCompleted_of_to_json. eapply yields_bind; [apply y_lift | exact Hy].
Qed.

(** The order's messages survive a change of state. *)
Lemma confirm_request_same row row' trace :
  same_order row row' -> row'.(SagaRow.ledger_reservation_id) = row.(SagaRow.ledger_reservation_id) ->
  row'.(SagaRow.wallet_debit_id) = row.(SagaRow.wallet_debit_id) ->
  confirm_request (scanSaga row') trace = confirm_request (scanSaga row) trace.
Proof. intros (_ & Hp & _) Hl Hd. unfold confirm_request. simpl. by rewrite Hp, Hl, Hd. Qed.

Lemma completed_payload_same row row' tid trace t1 t2 :
  same_order row row' -> completed_payload row' tid trace t1 t2 = completed_payload row tid trace t1 t2.
Proof.
  intros (_ & Hp & _ & _ & Hf & Ht & Ha & Hc & _). unfold completed_payload. by rewrite Hp, Hf, Ht, Ha, Hc.
Qed.

(** ** Properties *)


(** C17: a completed payment is settled: in any state that awaits a result,
    [HandlePaymentCompleted] confirms the reservation with the recorded
    identifiers, moves the saga to COMPLETED with the transfer's identifier and
    announces exactly one tx.completed with the order's data. *)
Theorem completion_settles e w row result r' :
  let p := e.(PaymentCompleted.PaymentID) in
  let trace := traceID e.(PaymentCompleted.TraceID) row.(SagaRow.trace_id) in
  sagas w !! p = Some row -> row.(SagaRow.payment_id) = p -> open_state row.(SagaRow.state) ->
  remote_ConfirmTransfer (confirm_request (scanSaga row) trace) (remote w) = Ok (result, r') ->
  exists w' row' completedAt occurredAt,
    yields (HandlePaymentCompleted ctx e) w (Ok tt) w' /\
    saga_becomes p row row' w w' /\ row'.(SagaRow.state) = StateCompleted /\
    row'.(SagaRow.transfer_id) = result.(LedgerConfirmResult.TransferID) /\
    one_event TopicTxCompleted row.(SagaRow.from_wallet_id)
      (completed_payload row result.(LedgerConfirmResult.TransferID) trace completedAt occurredAt) w w' /\
    remote w' = r' /\ audits w' = audits w.
Proof. apply completed_flow. Qed.

(** C18: a failed payment is undone in reverse order: [HandlePaymentFailed] cancels the
    reservation, then gives the debit back, moves the saga to FAILED with the
    failure's code and message, and announces exactly one tx.failed. *)
Theorem failure_compensates e w row r1 r2 :
  let p := e.(PaymentFailed.PaymentID) in
  let trace := traceID e.(PaymentFailed.TraceID) row.(SagaRow.trace_id) in
  let reason := e.(PaymentFailed.FailureMessage) in
  sagas w !! p = Some row -> row.(SagaRow.payment_id) = p -> open_state row.(SagaRow.state) ->
  remote_CancelReservation (cancel_request (scanSaga row) trace reason) (remote w) = Ok (tt, r1) ->
  remote_CompensateDebit (compensate_request (scanSaga row) trace reason) r1 = Ok (tt, r2) ->
  exists w' row' failedAt occurredAt,
    yields (HandlePaymentFailed ctx e) w (Ok tt) w' /\
    saga_becomes p row row' w w' /\ row'.(SagaRow.state) = StateFailed /\
    row'.(SagaRow.failure_code) = e.(PaymentFailed.FailureCode) /\ row'.(SagaRow.last_error) = reason /\
    one_event TopicTxFailed row.(SagaRow.from_wallet_id)
      (failed_payload row e.(PaymentFailed.FailureCode) reason trace failedAt occurredAt) w w' /\
    remote w' = r2 /\ audits w' = audits w.
Proof.
  intros p trace reason Hrow Hpid (Hc & Hf & Hr) Hcancel Hcomp. do 4 eexists. split.
  - unfold HandlePaymentFailed. eapply yields_bind; [by apply y_get |]. simpl.
    rewrite (proj2 (String.eqb_neq _ _) Hc), (proj2 (String.eqb_neq _ _) Hf), (proj2 (String.eqb_neq _ _) Hr).
    eapply yields_bind; [apply y_now |].
    eapply yields_bind; [apply y_update; simpl; rewrite Hpid; exact Hrow |].
    eapply yields_bind; [apply y_call; exact Hcancel |].
    eapply yields_bind; [apply y_update; simpl; rewrite !Hpid; apply lookup_insert_eq |].
    eapply yields_bind; [apply y_call; exact Hcomp |].
    eapply yields_bind; [apply y_update; simpl; rewrite !Hpid; apply lookup_insert_eq |].
    eapply yields_bind; [apply y_now | apply y_event].
  - unfold saga_becomes, one_event, set_saga. simpl. rewrite !Hpid, !insert_insert_eq.
    split; [done |]. split; [done |]. split; [done |]. split; [done |]. split; [| done].
    eexists. split; [done |]. unfold failed_payload. by rewrite Hpid.
Qed.

(** A result that arrives during a review waits and is applied when the operator
    resumes: the completion makes no call and no announcement while the payment is
    in FRAUD_REVIEW, and resuming then confirms the reservation, completes the saga
    and announces tx.completed, as if the result had arrived at that moment. *)
Theorem deferred_completion_is_applied e d w row result r' :
  let p := e.(PaymentCompleted.PaymentID) in
  let trace := traceID (traceID e.(PaymentCompleted.TraceID) d.(FraudReviewDecision.TraceID)) row.(SagaRow.trace_id) in
  d.(FraudReviewDecision.PaymentID) = p ->
  HasPrefix e.(PaymentCompleted.EventID) (TopicPaymentCompleted ++ ":") = true ->
  sagas w !! p = Some row -> row.(SagaRow.payment_id) = p -> row.(SagaRow.state) = StateFraudReview ->
  row.(SagaRow.deferred_payment_json) = None ->
  remote_ConfirmTransfer (confirm_request (scanSaga row) trace) (remote w) = Ok (result, r') ->
  exists w1 w2 row2 completedAt occurredAt,
    yields (HandlePaymentCompleted ctx e) w (Ok tt) w1 /\
    remote w1 = remote w /\ events w1 = events w /\
    yields (ResumeFraudReview ctx d) w1 (Ok (scanSaga row2)) w2 /\
    saga_becomes p row row2 w w2 /\ row2.(SagaRow.state) = StateCompleted /\
    one_event TopicTxCompleted row.(SagaRow.from_wallet_id)
      (completed_payload row result.(LedgerConfirmResult.TransferID) trace completedAt occurredAt) w w2 /\
    remote w2 = r'.
Proof.
  intros p trace Hd Hpre Hrow Hpid Hst Hnone Hcall.
  destruct (defer_flow e w row Hrow Hpid Hst Hnone)
    as (w1 & row1 & Hy1 & Hb1 & Hst1 & Ht1 & Hl1 & Hw1 & Hdoc & He1 & Hr1). fold p in Hb1.
  destruct (saga_becomes_row _ _ _ _ _ Hb1 Hpid) as [Hrow1 Hpid1].
  destruct (resume_flow d w1 row1) as (w2 & row2 & Hy2 & Hb2 & Hst2 & Ht2 & Hl2 & Hw2 & _ & He2 & Hr2);
    rewrite ?Hd; [done | done | done |]. rewrite Hd in Hb2.
  destruct (saga_becomes_row _ _ _ _ _ Hb2 Hpid1) as [Hrow2 Hpid2].
  set (e' := PaymentCompleted.with_TraceID (traceID (PaymentCompleted.TraceID e) (FraudReviewDecision.TraceID d)) e).
  pose proof (saga_becomes_trans _ _ _ _ _ _ _ Hb1 Hb2) as Hb12.
  destruct (completed_flow e' w2 row2 result r') as (w3 & row3 & c & o & Hy3 & Hb3 & Hst3 & _ & Hev3 & Hr3 & _).
  { exact Hrow2. }
  { exact Hpid2. }
  { by rewrite Hst2. }
  { rewrite (confirm_request_same row row2); [| apply Hb12 | congruence | congruence].
    rewrite Hr2, Hr1, Ht2, Ht1. exact Hcall. }
  exists w1, w3, row3, c, o. split; [done |]. split; [done |]. split; [done |]. split.
  - apply Hy2. rewrite Hdoc, Hd. eapply yields_bind; [by apply apply_completed_flow |]. apply y_get.
    destruct Hb3 as [-> _]. apply lookup_insert_eq.
  - split; [by eapply saga_becomes_trans |]. split; [done |]. split; [| done].
    destruct Hev3 as (ev & Hev & Htop & Hkey & Hpay). exists ev. rewrite He2, He1 in Hev. split; [done |].
    split; [done |]. rewrite Hkey, Hpay, (completed_payload_same row row2), Ht2, Ht1 by apply Hb12.
    by destruct Hb12 as [_ (_ & _ & _ & _ & -> & _)].
Qed.

(** A rejected review is undone: [RejectFraudReview] cancels the reservation, gives
    the debit back, ends the saga in FAILED with FRAUD_REJECTED and the operator's
    reason (or the default one), and announces exactly one tx.failed, whatever
    result was waiting. *)
Theorem rejection_compensates d w row r1 r2 :
  let p := d.(FraudReviewDecision.PaymentID) in
  let given := TrimSpace d.(FraudReviewDecision.Reason) in
  let reason := if given =s "" then defaultRejectReason else given in
  sagas w !! p = Some row -> row.(SagaRow.payment_id) = p -> row.(SagaRow.state) = StateFraudReview ->
  remote_CancelReservation (cancel_request (scanSaga row) row.(SagaRow.trace_id) reason) (remote w) = Ok (tt, r1) ->
  remote_CompensateDebit (compensate_request (scanSaga row) row.(SagaRow.trace_id) reason) r1 = Ok (tt, r2) ->
  exists w' row' failedAt occurredAt,
    yields (RejectFraudReview ctx d) w (Ok (scanSaga row')) w' /\
    saga_becomes p row row' w w' /\ row'.(SagaRow.state) = StateFailed /\
    row'.(SagaRow.failure_code) = FailureCodeFraudRejected /\ row'.(SagaRow.last_error) = reason /\
    one_event TopicTxFailed row.(SagaRow.from_wallet_id)
      (failed_payload row FailureCodeFraudRejected reason row.(SagaRow.trace_id) failedAt occurredAt) w w' /\
    remote w' = r2.
Proof.
  intros p given reason Hrow Hpid Hst Hcancel Hcomp.
  set (now := clock_at (clock_reads w)).
  set (rejected := Saga.with_UpdatedAt now (Saga.with_LastError reason
    (Saga.with_FailureCode FailureCodeFraudRejected (Saga.with_State StateCompensatingLedger (scanSaga row))))).
  set (audit := FraudAuditRecord.mk (reviewAuditEventID "reject" row.(SagaRow.payment_id) now)
    row.(SagaRow.payment_id) FraudAuditKindReviewRejected StateFraudReview
    (reviewAuditJSON "reject" d StateFraudReview StateCompensatingLedger row.(SagaRow.deferred_payment_json)) now).
  set (row1 := updated_row rejected row (tick w)).
  set (w1 := put_audit audit (set_saga rejected row (tick w))).
  assert (sagas w1 = <[p := row1]> (sagas w) /\ events w1 = events w /\ remote w1 = remote w) as (Hs1 & He1 & Hr1).
  { unfold w1. destruct (put_audit_frame audit (set_saga rejected row (tick w))) as (Hs & He & Hr & _).
    rewrite Hs, He, Hr. unfold set_saga. simpl. by rewrite Hpid. }
  set (s2 := fun t => Saga.with_UpdatedAt t (Saga.with_State StateCompensatingWallet (scanSaga row1))).
  set (w2 := with_remote r1 w1).
  set (row2 := updated_row (s2 (clock_at (clock_reads w2))) row1 (tick w2)).
  set (w3 := set_saga (s2 (clock_at (clock_reads w2))) row1 (tick w2)).
  assert (sagas w3 = <[p := row2]> (sagas w)) as Hs3.
  { unfold w3, set_saga. simpl. rewrite Hs1, Hpid. by rewrite insert_insert_eq. }
  assert ((scanSaga row2).(Saga.PaymentID) = p) as Hp2 by exact Hpid.
  destruct (refund_flow (scanSaga row2) w3 row2 r2) as (w4 & row4 & failedAt & occurredAt & Hy4 & Hb4 & Hst4 & Hc4 & Hl4 & Hev4 & Hr4 & _).
  { rewrite Hp2, Hs3. apply lookup_insert_eq. }
  { done. }
  { exact Hcomp. }
  assert (sagas w4 = <[p := row4]> (sagas w)) as Hs4.
  { destruct Hb4 as [-> _]. by rewrite Hp2, Hs3, insert_insert_eq. }
  exists w4, row4, failedAt, occurredAt. split; [| split; [| split; [| split; [| split; [| split]]]]]; try done.
  - unfold RejectFraudReview. eapply yields_bind; [by apply y_get |]. simpl. rewrite Hst. simpl.
    eapply yields_bind; [exact (y_guard_false ErrNotUnderReview _) |]. eapply yields_bind; [apply y_now |]. cbv zeta.
    fold given reason now rejected.
    eapply yields_bind; [apply (y_update_audit rejected); simpl; rewrite Hpid; exact Hrow |].
    fold audit row1 w1. eapply yields_bind; [| apply y_get; rewrite Hs4; apply lookup_insert_eq].
    unfold resumeCompensation. eapply yields_bind.
    { eapply yields_bind; [apply y_call; rewrite Hr1; exact Hcancel |]. fold w2.
      eapply yields_bind; [apply y_now |]. apply (y_update (s2 _)). simpl. rewrite Hpid, Hs1. apply lookup_insert_eq. }
    exact Hy4.
  - split; [done |]. destruct Hb4 as [_ Ho]. etrans; [| exact Ho]. done.
  - destruct Hev4 as (e & He & Htop). exists e. split; [| done]. rewrite He. unfold w3. simpl. by rewrite He1.
Qed.

(** A fraud flag holds a payment back: a valid fraud.flagged for a payment in
    PAYMENT_PROCESSING puts it in FRAUD_REVIEW and announces exactly one tx.paused,
    without a call to the wallet or the ledger. *)
Theorem flag_pauses_payment f w row :
  let p := f.(FraudFlagged.PaymentID) in
  FraudFlagged.Validate f = Ok tt -> sagas w !! p = Some row -> row.(SagaRow.payment_id) = p ->
  row.(SagaRow.state) = StatePaymentProcessing ->
  exists w' row', yields (HandleFraudFlagged ctx f) w (Ok tt) w' /\
    saga_becomes p row row' w w' /\ row'.(SagaRow.state) = StateFraudReview /\
    row'.(SagaRow.deferred_payment_json) = row.(SagaRow.deferred_payment_json) /\
    (exists e, events w' = (events w ++ [e])%list /\ e.(OutboxEvent.Topic) = TxPausedTopic /\
       e.(OutboxEvent.PartitionKey) = p) /\
    remote w' = remote w.
Proof.
  intros p Hval Hrow Hpid Hst. do 2 eexists. split.
  - unfold HandleFraudFlagged. rewrite Hval. eapply yields_bind; [apply y_lift |].
    eapply yields_bind; [apply yields_attempt, y_get; exact Hrow |]. cbv beta iota.
    eapply yields_bind; [apply y_now |]. cbv zeta. cbn -[updateWithOutboxAndAudit put_event]. rewrite Hst.
    cbn [String.eqb Ascii.eqb Bool.eqb]. cbv iota.
    eapply yields_bind; [| apply yields_ret]. apply y_update_outbox. simpl. rewrite Hpid. exact Hrow.
  - unfold saga_becomes, set_saga. simpl. rewrite Hpid.
    set (wa := put_audit _ _).
    destruct (put_audit_frame _ _ : sagas wa = _ /\ events wa = _ /\ remote wa = _ /\ _) as (Hs & He & Hr & _).
    simpl in Hs, He, Hr. rewrite Hs, He, Hr.
    split; [done |]. split; [done |]. split; [done |]. split; [| done]. eexists. split; [reflexivity |]. done.
Qed.
End Flow.
