(* ===== verification/Workers.v ===== *)
(** * Workers: the background workers of the orchestrator.

    The loops of [Orchestrator.RunReviewReaper] ([internal/saga/review_reaper.go]) and
    [FraudAuditSweeper.Run] ([internal/saga/retention.go]) as a list of ticks, each with
    the losses of its pass, up to the tick at which the context has ended, and what a pass
    of the reaper does when nothing is lost: every overdue review is rejected, no other
    payment is touched. *)

From stdpp Require Import sorting.
From S2P Require Import Prelude GoStrings Base64 Domain GoTime Duration Json Database Outbox.
From S2P Require Import SagaTypes SagaStore Orchestrator FraudReview SagaSafety SagaRuns SagaFlow.

#[local] Open Scope string_scope.
#[local] Open Scope Z_scope.

Section Workers.
Context {W : Type} `{HR : Remote W} `{Clock} `{Postgres} `{Uuid}.
Implicit Types w : world W.
Variable ctx : context.

(** ** The loops *)

(** One tick is one pass, whose error is only logged. *)
Fixpoint RunReviewReaper (ttl : Z) (ticks : list (list fault)) w : world W :=
  match ticks with
  | [] => w
  | losses :: rest => RunReviewReaper ttl rest (committed (snd (ExpireFraudReviews ctx ttl (Conn w None losses))))
  end.

(** The sweeper makes a pass before the first tick; [fuel] bounds the batches of a pass. *)
Fixpoint sweeps (fuel : nat) (retention batch : Z) (ticks : list (list fault)) w : world W :=
  match ticks with
  | [] => w
  | losses :: rest => sweeps fuel retention batch rest (committed (snd (Sweep fuel retention batch (Conn w None losses))))
  end.

Definition FraudAuditSweeper_Run (fuel : nat) (retention batch : Z) (first : list fault) (ticks : list (list fault)) w : world W :=
  if retention <=? 0 then w else sweeps fuel retention batch (first :: ticks) w.

Lemma forget_result {A} (p : sdb W A) c : snd ((p ;! ret tt) c) = snd (p c).
Proof. unfold bind, ret. by destruct (p c) as [[] ?]. Qed.

(** ** A pass of the reaper *)

Definition expiry_reason (ttl : Z) : string := "fraud review deadline of " ++ Duration_String ttl ++ " exceeded".

Definition overdue (deadline : time) (row : SagaRow.t) : bool :=
  (row.(SagaRow.state) =s StateFraudReview) && negb (After (reviewStartedAt (scanSaga row)) deadline).

Definition overdue_rows (deadline : time) (rows : list SagaRow.t) : list SagaRow.t :=
  filter (fun row => overdue deadline row = true) rows.

(** The two services after they have canceled and given back for each payment in turn,
    when they grant it. *)
Fixpoint granted (reason : string) (rows : list SagaRow.t) (r : W) : option W :=
  match rows with
  | [] => Some r
  | row :: rest =>
      match remote_CancelReservation (cancel_request (scanSaga row) row.(SagaRow.trace_id) reason) r with
      | Ok (_, r1) =>
          match remote_CompensateDebit (compensate_request (scanSaga row) row.(SagaRow.trace_id) reason) r1 with
          | Ok (_, r2) => granted reason rest r2
          | Err _ => None
          end
      | Err _ => None
      end
  end.

(** The saga of a rejected payment, and its announcement. *)
Definition rejected (reason : string) (row row' : SagaRow.t) : Prop :=
  same_order row row' /\ row'.(SagaRow.state) = StateFailed /\
  row'.(SagaRow.failure_code) = FailureCodeFraudRejected /\ row'.(SagaRow.last_error) = reason.

Definition announced (reason : string) (row : SagaRow.t) (e : OutboxEvent.t) : Prop :=
  exists failedAt occurredAt, e.(OutboxEvent.Topic) = TopicTxFailed /\
    e.(OutboxEvent.PartitionKey) = row.(SagaRow.from_wallet_id) /\
    e.(OutboxEvent.Payload) = failed_payload row FailureCodeFraudRejected reason row.(SagaRow.trace_id) failedAt occurredAt.

Lemma bytes_of_app a b : bytes_of (a ++ b) = (bytes_of a ++ bytes_of b)%list.
Proof. unfold bytes_of. induction a as [| c a IH]; simpl; [done |]. by rewrite IH. Qed.

(** Text between letters is its own trimming. *)
Definition framed (m : list N) : list N := ([102; 114; 97]%N ++ m ++ [100; 101; 100]%N)%list.

Lemma trim_framed m : trim_right (trim_left (framed m)) = framed m.
Proof.
  unfold trim_right. change (trim_left (framed m)) with (framed m). unfold framed. rewrite !rev_app_distr, <- app_assoc.
  set (x := (rev m ++ rev [102; 114; 97]%N)%list).
  change (trim_front _ _ (rev [100; 101; 100]%N ++ x)) with (rev [100; 101; 100]%N ++ x)%list. unfold x.
  by rewrite !rev_app_distr, !rev_involutive, <- !app_assoc.
Qed.

Lemma expiry_reason_kept ttl : TrimSpace (expiry_reason ttl) = expiry_reason ttl.
Proof.
  assert (bytes_of (expiry_reason ttl) = framed (skipn 3 (bytes_of "fraud review deadline of ")
    ++ bytes_of (Duration_String ttl) ++ firstn 6 (bytes_of " exceeded"))) as Hb.
  { unfold expiry_reason. rewrite !bytes_of_app. unfold framed. rewrite <- !app_assoc. reflexivity. }
  unfold TrimSpace. by rewrite Hb, trim_framed, <- Hb, of_bytes_of.
Qed.

(** One rejection. *)
Lemma expire_one ttl w row r1 r2 : 
  sagas w !! row.(SagaRow.payment_id) = Some row -> row.(SagaRow.state) = StateFraudReview ->
  remote_CancelReservation (cancel_request (scanSaga row) row.(SagaRow.trace_id) (expiry_reason ttl)) (remote w) = Ok (tt, r1) ->
  remote_CompensateDebit (compensate_request (scanSaga row) row.(SagaRow.trace_id) (expiry_reason ttl)) r1 = Ok (tt, r2) ->
  exists w' row' e a, yields (RejectFraudReview ctx (reaper_decision ttl (scanSaga row))) w (Ok a) w' /\
    sagas w' = <[row.(SagaRow.payment_id) := row']> (sagas w) /\ rejected (expiry_reason ttl) row row' /\
    events w' = (events w ++ [e])%list /\ announced (expiry_reason ttl) row e /\ remote w' = r2.
Proof.
  intros Hrow Hst Hcancel Hcomp.
  destruct (rejection_compensates ctx (reaper_decision ttl (scanSaga row)) w row r1 r2) as (w' & row' & t1 & t2 & Hy & [Hs Ho] & Hrest).
  all: cbn [reaper_decision FraudReviewDecision.Reason FraudReviewDecision.PaymentID] in *; fold (expiry_reason ttl) in *;
    rewrite ?expiry_reason_kept in *; try done.
  destruct Hrest as (Hst' & Hc & Hl & (e & He & Ht & Hk & Hp) & Hr).
  exists w', row', e, (scanSaga row'). split_and!; try done. by exists t1, t2.
Qed.

(** What a pass over [rows] leaves. *)
Record expired (ttl : Z) (rows : list SagaRow.t) (r' : W) w w' : Prop := {
  expired_remote : remote w' = r';
  expired_events : exists es, events w' = (events w ++ es)%list /\ Forall2 (announced (expiry_reason ttl)) rows es;
  expired_others p : p ∉ SagaRow.payment_id <$> rows -> sagas w' !! p = sagas w !! p;
  expired_rows row : row ∈ rows -> exists row', sagas w' !! row.(SagaRow.payment_id) = Some row' /\ rejected (expiry_reason ttl) row row'
}.

Lemma expired_none ttl w : expired ttl [] (remote w) w w.
Proof. split; [done | exists []; by rewrite app_nil_r | done | by intros row ?%not_elem_of_nil]. Qed.

Lemma expired_cons ttl row row' e rows r' w w1 w2 :
  row.(SagaRow.payment_id) ∉ SagaRow.payment_id <$> rows ->
  sagas w1 = <[row.(SagaRow.payment_id) := row']> (sagas w) -> rejected (expiry_reason ttl) row row' ->
  events w1 = (events w ++ [e])%list -> announced (expiry_reason ttl) row e ->
  expired ttl rows r' w1 w2 -> expired ttl (row :: rows) r' w w2.
Proof.
  intros Hnot Hs Hrej He Ha [Hr (es & Hes & Hall) Hothers Hrows]. split; [done | | |].
  - exists (e :: es). split; [rewrite Hes, He, <- app_assoc; done | by constructor].
  - intros p [Hne Hp]%not_elem_of_cons. rewrite Hothers, Hs by done. by apply lookup_insert_ne.
  - intros x [-> | Hx]%elem_of_cons; [| by apply Hrows]. exists row'. rewrite Hothers, Hs by done. split; [apply lookup_insert_eq | done].
Qed.

Lemma overdue_ids deadline l p : p ∈ SagaRow.payment_id <$> overdue_rows deadline l -> p ∈ SagaRow.payment_id <$> l.
Proof. unfold overdue_rows. rewrite !list_elem_of_fmap. intros (row & -> & [_ Hrow]%list_elem_of_filter). by exists row. Qed.

Lemma expire_flow ttl deadline l w r' :
  (forall row, row ∈ l -> sagas w !! row.(SagaRow.payment_id) = Some row) -> NoDup (SagaRow.payment_id <$> l) ->
  granted (expiry_reason ttl) (overdue_rows deadline l) (remote w) = Some r' ->
  exists w', yields (expire_all ctx ttl deadline (scanSaga <$> l)) w (Ok (Z.of_nat (length (overdue_rows deadline l)), [])) w' /\
    expired ttl (overdue_rows deadline l) r' w w'.
Proof.
  revert w. induction l as [| row l IH]; intros w Hl Hnd Hg.
  - injection Hg as <-. exists w. split; [done |]. apply expired_none.
  - apply list.NoDup_cons in Hnd as [Hnot Hnd]. cbn [fmap list_fmap expire_all].
    assert (negb (Saga.State (scanSaga row) =s StateFraudReview) || After (reviewStartedAt (scanSaga row)) deadline
            = negb (overdue deadline row)) as -> by (unfold overdue; by rewrite negb_andb, negb_involutive).
    unfold overdue_rows in *. destruct (overdue deadline row) eqn:Hov; cbn [negb].
    2: { rewrite filter_cons_False in * by congruence. apply IH; [| done | done]. intros x Hx. apply Hl. by right. }
    rewrite filter_cons_True in * by done. cbn [granted] in Hg.
    destruct (remote_CancelReservation _ _) as [[[] r1] |] eqn:Hc; [| done]. destruct (remote_CompensateDebit _ _) as [[[] r2] |] eqn:Hd; [| done].
    destruct (expire_one ttl w row r1 r2) as (w1 & row' & e & a & Hy & Hs & Hrej & He & Ha & Hr); try done.
    { apply Hl. by left. }
    { unfold overdue in Hov. apply andb_true_iff in Hov as [?%String.eqb_eq _]. done. }
    destruct (IH w1) as (w2 & Hy2 & Hexp); [| done | by rewrite Hr |].
    { intros x Hx. rewrite Hs, lookup_insert_ne; [apply Hl; by right |]. intros Heq. apply Hnot. rewrite Heq.
      apply list_elem_of_fmap. by exists x. }
    exists w2. split.
    + eapply yields_bind; [by apply yields_attempt |]. eapply yields_bind; [exact Hy2 |]. cbv beta iota.
      replace (Z.of_nat (length (row :: _))) with (1 + Z.of_nat (length (filter (fun row => overdue deadline row = true) l)))
        by (simpl length; lia). apply yields_ret.
    + eapply expired_cons; try done. intros Hin. by apply Hnot, (overdue_ids deadline).
Qed.

(** The overdue reviews in the order in which the reaper rejects them. *)
Definition to_expire (ttl : Z) w : list SagaRow.t :=
  overdue_rows (time_Add (clock_at (clock_reads w)) (- ttl))
    (merge_sort updated_before (filter (fun r => terminal r.(SagaRow.state) = false) (saga_rows w))).

(** C39: no review is held past its deadline.  With the calls granted for the overdue
    payments and nothing lost, a pass of the reaper ends without a failure and its count
    is the number of overdue reviews: each of them is then FAILED as rejected with the
    deadline as the reason, cancelled and refunded like a rejection by an operator, with
    exactly one tx.failed, and no other payment has changed. *)
Theorem overdue_reviews_are_rejected ttl w r' :
  let deadline := time_Add (clock_at (clock_reads w)) (- ttl) in
  0 < ttl -> keyed w -> granted (expiry_reason ttl) (to_expire ttl w) (remote w) = Some r' ->
  exists w' es, yields (ExpireFraudReviews ctx ttl) w (Ok (Z.of_nat (length (to_expire ttl w)), [])) w' /\
    to_expire ttl w ≡ₚ filter (fun row => overdue deadline row = true) (saga_rows w) /\
    remote w' = r' /\ events w' = (events w ++ es)%list /\
    Forall2 (announced (expiry_reason ttl)) (to_expire ttl w) es /\
    forall p row, sagas w !! p = Some row ->
      if overdue deadline row
      then exists row', sagas w' !! p = Some row' /\ rejected (expiry_reason ttl) row row'
      else sagas w' !! p = Some row.
Proof.
  intros deadline Httl Hkey Hg.
  destruct (listed_rows w _ _ Hkey (merge_sort_Permutation updated_before
    (filter (fun r => terminal r.(SagaRow.state) = false) (saga_rows w)))) as [Hnd Hin].
  assert (to_expire ttl w ≡ₚ filter (fun row => overdue deadline row = true) (saga_rows w)) as Hperm.
  { unfold to_expire, overdue_rows. rewrite merge_sort_Permutation, list_filter_filter.
    erewrite list_filter_iff; [done |]. intros row. split; [tauto |]. intros Hov. split; [done |].
    unfold overdue in Hov. apply andb_true_iff in Hov as [->%String.eqb_eq _]. done. }
  destruct (expire_flow ttl deadline _ (tick w) r' Hin Hnd Hg) as (w' & Hy & [Hr (es & He & Hes) Hothers Hrows]).
  exists w', es. split.
  { unfold ExpireFraudReviews. rewrite (proj2 (Z.leb_gt ttl 0)) by lia. eapply yields_bind; [apply y_guard_false |].
    eapply yields_bind; [reflexivity |]. eapply yields_bind; [apply y_now | exact Hy]. }
  split_and!; try done. intros p row Hrow. pose proof (Hkey p row Hrow) as Hp.
  assert (row ∈ saga_rows w) as Hmem by (apply list_elem_of_fmap; exists (p, row); split; [done | by apply elem_of_map_to_list]).
  destruct (overdue deadline row) eqn:Hov.
  - rewrite <- Hp. apply Hrows. change (row ∈ to_expire ttl w). rewrite Hperm. by apply list_elem_of_filter.
  - rewrite Hothers; [done |]. change (p ∉ SagaRow.payment_id <$> to_expire ttl w). rewrite Hperm.
    intros (row2 & Hp2 & [Hov2 Hmem2]%list_elem_of_filter)%list_elem_of_fmap.
    apply list_elem_of_fmap in Hmem2 as ([q row3] & -> & Hq%elem_of_map_to_list). simpl in *. pose proof (Hkey q row3 Hq). congruence.
Qed.
End Workers.

Section Runs.
Context {W : Type} `{HR : Remote W} `{!RemoteContract W} `{Clock} `{Postgres} `{Uuid}.
Variable ctx : context.

(** The workers are inputs of a run, so the safety theorems of [SagaRuns] hold while
    they are at work. *)
Lemma reaper_runs w0 ttl ticks w : runs w0 w -> runs w0 (RunReviewReaper ctx ttl ticks w).
Proof.
  revert w. induction ticks as [| losses rest IH]; intros w Hw; [done |]. apply IH.
  rewrite <- forget_result. apply (runs_handle w0 ctx (InExpire ttl)), Hw.
Qed.

Lemma sweeper_runs w0 fuel retention batch first ticks w :
  runs w0 w -> runs w0 (FraudAuditSweeper_Run fuel retention batch first ticks w).
Proof.
  unfold FraudAuditSweeper_Run. case_match; [done |]. generalize (first :: ticks). intros l. revert w.
  induction l as [| losses rest IH]; intros w Hw; [done |]. apply IH.
  rewrite <- forget_result. apply (runs_handle w0 ctx (InSweep fuel retention batch)), Hw.
Qed.

End Runs.
