(* ===== verification/SagaKeeping.v ===== *)
(** * SagaKeeping: invariants of the sagas, of their outbox and of the services behind
    them, one handler at a time.

    The class [Upkeep] is what a client states of the orchestrator to have an invariant of
    its own kept: predicates of every stored saga ([fit]), of every event in the outbox
    ([fine]) and of the remote services ([far]), with what the steps of the handlers need
    of them.  The handlers keep every such invariant, under any losses: this is proved
    once, operation by operation, and used by [FraudEvents] and [Settlement]. *)

From stdpp Require Import sorting.
From S2P Require Import Prelude GoStrings Domain GoTime Json Database Outbox.
From S2P Require Import SagaTypes SagaStore Orchestrator FraudReview SagaSafety SagaRuns SagaFlow.

#[local] Open Scope string_scope.
#[local] Open Scope Z_scope.

(** The two sagas are about the same request. *)
Definition same_request (s s' : Saga.t) : Prop :=
  s'.(Saga.PaymentID) = s.(Saga.PaymentID) /\ s'.(Saga.UserID) = s.(Saga.UserID) /\
  s'.(Saga.FromWalletID) = s.(Saga.FromWalletID) /\ s'.(Saga.ToWalletID) = s.(Saga.ToWalletID) /\
  s'.(Saga.AmountCents) = s.(Saga.AmountCents) /\ s'.(Saga.Currency) = s.(Saga.Currency) /\
  s'.(Saga.TraceID) = s.(Saga.TraceID).

(** The states of a payment the ledger has confirmed. *)
Definition settled_state (st : string) : Prop := st = StateLedgerConfirmed \/ st = StateCompleted.

(** What [tx.paused] says of a flagged saga. *)
Definition pause_notice (s : Saga.t) (f : FraudFlagged.t) (now : time) : TxPaused.t :=
  TxPaused.mk 1 (TxPausedEventID s.(Saga.PaymentID)) s.(Saga.PaymentID) f.(FraudFlagged.SessionID) f.(FraudFlagged.Action)
    f.(FraudFlagged.RiskScore) f.(FraudFlagged.Reason) now now (traceID f.(FraudFlagged.TraceID) s.(Saga.TraceID)).

Class Upkeep (W : Type) `{Remote W} `{Clock} `{Uuid} := {
  fit : Saga.t -> Prop;
  fine : string -> string -> json -> Prop;
  far : W -> Prop;
  (** which inputs may arrive *)
  may_start : StartRequest.t -> Prop;
  may_complete : PaymentCompleted.t -> Prop;
  may_fail : PaymentFailed.t -> Prop;
  (** what a completion shows of its payment, and which results may be put off *)
  paid : string -> Prop;
  deferrable : string -> json -> Prop;

  upkeep_completed e : may_complete e ->
    paid e.(PaymentCompleted.PaymentID) /\ deferrable e.(PaymentCompleted.PaymentID) (PaymentCompleted.to_json e);
  upkeep_failed e : may_fail e -> deferrable e.(PaymentFailed.PaymentID) (PaymentFailed.to_json e);
  upkeep_replay_completed p j c trace : deferrable p j ->
    HasPrefix (deferredEventID (Some j)) (TopicPaymentCompleted ++ ":") = true ->
    PaymentCompleted.of_json (Some j) = Ok c -> may_complete (PaymentCompleted.with_TraceID trace c);
  upkeep_replay_failed p j f trace : deferrable p j ->
    HasPrefix (deferredEventID (Some j)) (TopicPaymentCompleted ++ ":") = false ->
    HasPrefix (deferredEventID (Some j)) (TopicPaymentFailed ++ ":") = true ->
    PaymentFailed.of_json (Some j) = Ok f -> may_fail (PaymentFailed.with_TraceID trace f);

  upkeep_new req now : may_start req -> fit (new_saga req now);
  upkeep_deferred s j : fit s -> s.(Saga.DeferredPaymentJSON) = Some j -> deferrable s.(Saga.PaymentID) j;
  upkeep_change s s' : fit s -> same_request s s' ->
    (settled_state s'.(Saga.State) -> settled_state s.(Saga.State) \/ paid s.(Saga.PaymentID)) ->
    (forall j, s'.(Saga.DeferredPaymentJSON) = Some j -> s.(Saga.DeferredPaymentJSON) = Some j \/ deferrable s.(Saga.PaymentID) j) ->
    fit s';
  (** a row keeps its order and takes the rest from the saga it is written from *)
  upkeep_updated s row (w : world W) : fit s -> fit (scanSaga row) -> row.(SagaRow.payment_id) = s.(Saga.PaymentID) ->
    fit (scanSaga (updated_row s row w));

  upkeep_command s n : fit s -> fine TopicPaymentExecute s.(Saga.PaymentID) (payment_payload s (clock_at n));
  upkeep_scoring s n : fit s -> fine FraudScoreRequestedTopic s.(Saga.PaymentID) (fraud_payload s (clock_at n));
  upkeep_paused s f n : fit s -> FraudFlagged.Validate f = Ok tt ->
    fine TxPausedTopic s.(Saga.PaymentID) (TxPaused.to_json (pause_notice s f (clock_at n)));
  upkeep_ended topic key payload : topic = TopicTxCompleted \/ topic = TopicTxFailed -> fine topic key payload;

  upkeep_debit q r a r' : far r -> remote_DebitForSaga q r = Ok (a, r') -> far r';
  upkeep_reserve q r a r' : far r -> remote_ReserveTransfer q r = Ok (a, r') -> far r';
  upkeep_confirm q r a r' : paid q.(LedgerConfirmRequest.PaymentID) -> far r -> remote_ConfirmTransfer q r = Ok (a, r') -> far r';
  upkeep_cancel q r a r' : far r -> remote_CancelReservation q r = Ok (a, r') -> far r';
  upkeep_compensate q r a r' : far r -> remote_CompensateDebit q r = Ok (a, r') -> far r'
}.

Section Keeping.
Context {W : Type} `{HR : Remote W} `{Clock} `{Postgres} `{Uuid} `{!Upkeep W}.
Implicit Types w : world W.

Definition kept w : Prop :=
  keyed w /\ (forall p row, sagas w !! p = Some row -> fit (scanSaga row)) /\
  Forall (fun e => fine e.(OutboxEvent.Topic) e.(OutboxEvent.PartitionKey) e.(OutboxEvent.Payload)) (events w) /\
  far (remote w).

(** [p] keeps the invariant, and its answers have [F]. *)
Definition keeps {A} (F : A -> Prop) (p : sdb W A) : Prop :=
  triple (E := saga_error) kept p (fun a w => F a /\ kept w) kept.

Abbreviation anyway := (fun _ => True).

Lemma keeps_bind {A B} (F : A -> Prop) (G : B -> Prop) (p : sdb W A) (k : A -> sdb W B) :
  keeps F p -> (forall a, F a -> keeps G (k a)) -> keeps G (bind p k).
Proof.
  intros Hp Hk. eapply triple_bind; [exact Hp |]. intros a. eapply (triple_pure (F a)); [by intros w [? _] |]. intros Ha.
  eapply triple_conseq; [exact (Hk a Ha) | by intros w [_ ?] | done | done].
Qed.

Lemma keeps_weaken {A} (F G : A -> Prop) (p : sdb W A) : (forall a, F a -> G a) -> keeps F p -> keeps G p.
Proof. intros HFG Hp. eapply triple_conseq; [exact Hp | done | | done]. intros a w [? ?]. auto. Qed.

Lemma keeps_ret {A} (F : A -> Prop) (a : A) : F a -> keeps F (ret a).
Proof. intros Ha. by apply triple_ret. Qed.
Lemma keeps_throw {A} (F : A -> Prop) e : keeps F (throw e).
Proof. by apply triple_throw. Qed.
Lemma keeps_lift {A} (r : res saga_error A) : keeps (fun a => r = Ok a) (lift r).
Proof. by apply triple_lift. Qed.
Lemma keeps_guard b e : keeps (fun _ => b = false) (guard b e).
Proof. apply triple_guard. intros w Hw. by split. Qed.
Lemma keeps_attempt {A} (F : A -> Prop) (p : sdb W A) :
  keeps F p -> keeps (fun r => match r with Ok a => F a | Err _ => True end) (attempt p).
Proof.
  intros Hp. eapply triple_conseq; [apply (triple_attempt _ _ _ _ kept Hp) | done | by intros [] | done].
Qed.
Lemma keeps_now : keeps (fun t => exists n, t = clock_at n) (Now (W := W)).
Proof. intros w s Hw. split; [done |]. split; [by eexists | exact Hw]. Qed.

(** An atomic operation, from its contract. *)
Lemma keeps_atomic {A} (F : A -> Prop) (p : sdb W A) spec :
  refines anywhere p spec -> (forall w a w', kept w -> spec w = Ok (a, w') -> F a /\ kept w') -> keeps F p.
Proof.
  intros Hr Hk. eapply triple_refines; [exact Hr |]. intros w Hw. split; [done |]. split; [done |].
  intros a w' Hs. destruct (Hk w a w' Hw Hs). by split.
Qed.

Lemma keeps_query {A} (F : A -> Prop) (q : world W -> res saga_error A) :
  (forall w a, kept w -> q w = Ok a -> F a) -> keeps F (query q).
Proof.
  intros Hq. eapply keeps_atomic; [apply refines_query |]. intros w a w' Hw Hs. cbv beta in Hs.
  destruct (q w) eqn:Hqw; [| done]. injection Hs as -> <-. split; [by eapply Hq | done].
Qed.
Lemma keeps_call {A} (f : W -> res saga_error (A * W)) :
  (forall r a r', far r -> f r = Ok (a, r') -> far r') -> keeps anyway (call f).
Proof.
  intros Hf. eapply keeps_atomic; [apply refines_exec |]. intros w a w' (Hk & Hrows & Hev & Hfar) Hq.
  cbv beta in Hq. destruct (f (remote w)) as [[b r] |] eqn:Hr; [| done]. injection Hq as _ <-.
  split; [done |]. split; [done |]. split; [done |]. split; [done |]. by eapply Hf.
Qed.
Lemma keeps_get p : keeps (fun s => fit s /\ s.(Saga.PaymentID) = p) (GetByPaymentID p).
Proof.
  eapply keeps_atomic; [apply get_refines |]. intros w a w' Hw. unfold get_spec. case_match eqn:Hr; intros [= <- <-].
  split; [| done]. split; [by eapply Hw | by apply Hw].
Qed.

Lemma put_audit_kept audit w : kept w -> kept (put_audit audit w).
Proof.
  destruct (put_audit_frame audit w) as (Hs & He & Hr & _). unfold kept, keyed. by rewrite Hs, He, Hr.
Qed.

Lemma put_event_kept ctx topic key payload w : fine topic key payload -> kept w -> kept (put_event ctx topic key payload w).
Proof.
  intros Hv (Hk & Hrows & Hev & Hfar). split; [exact Hk |]. split; [exact Hrows |]. split; [| exact Hfar]. simpl.
  apply Forall_app. split; [done |]. constructor; [exact Hv | constructor].
Qed.

Definition fine_record (r : OutboxRecord.t) : Prop := fine r.(OutboxRecord.Topic) r.(OutboxRecord.PartitionKey) r.(OutboxRecord.Payload).

Lemma put_events_kept ctx records w : Forall fine_record records -> kept w -> kept (put_events ctx records w).
Proof. intros Hr. revert w. induction Hr as [| r rest Hr Hrest IH]; intros w Hw; [done |]. simpl. by apply IH, put_event_kept. Qed.

Lemma keeps_audit audit : keeps anyway (RecordFraudAudit audit).
Proof. eapply keeps_atomic; [apply audit_refines |]. intros w [] w' Hw [= <-]. split; [done | by apply put_audit_kept]. Qed.
Lemma keeps_event ctx topic key payload : fine topic key payload -> keeps anyway (EnqueueEvent ctx topic key payload).
Proof. intros Hv. eapply keeps_atomic; [apply event_refines |]. intros w [] w' Hw [= <-]. split; [done | by apply put_event_kept]. Qed.
Lemma keeps_delete before limit : keeps anyway (DeleteFraudAuditBefore before limit).
Proof.
  eapply keeps_atomic; [apply refines_exec |]. intros w n w' Hw Hs. unfold stmt_delete_audits in Hs. case_match; [done |].
  by injection Hs as _ <-.
Qed.

Lemma keeps_list : keeps (Forall fit) ListNonTerminal.
Proof.
  unfold ListNonTerminal, listSagas. eapply (keeps_bind (fun rows => Forall fit (scanSaga <$> rows))); [| intros rows Hr; by apply keeps_ret].
  apply keeps_query. intros w rows (_ & Hrows & _) [= <-]. apply Forall_fmap, list.Forall_forall. intros row.
  rewrite merge_sort_Permutation, list_elem_of_filter. intros [_ ([p r] & -> & Hp%elem_of_map_to_list)%list_elem_of_fmap].
  by eapply Hrows.
Qed.

(** ** The statements that write sagas *)

Abbreviation as_written s := (fun u => fit u /\ u.(Saga.PaymentID) = s.(Saga.PaymentID)).

Lemma update_spec_kept s w u w' : fit s -> kept w -> update_spec s w = Ok (u, w') -> as_written s u /\ kept w'.
Proof.
  intros Hs (Hk & Hrows & Hev & Hfar). unfold update_spec. destruct (sagas w !! Saga.PaymentID s) as [row |] eqn:Hrow; [| done].
  intros [= <- <-]. pose proof (Hk _ _ Hrow) as Hp. pose proof (upkeep_updated s row w Hs (Hrows _ _ Hrow) Hp) as Hc.
  split; [done |]. split; [| split; [| done]]; intros p row'; simpl.
  - intros [[<- <-] | [_ ?]]%lookup_insert_Some; [exact Hp | by apply Hk].
  - intros [[_ <-] | [_ ?]]%lookup_insert_Some; [done | by eapply Hrows].
Qed.

Lemma keeps_update s : fit s -> keeps (as_written s) (Update s).
Proof. intros Hs. eapply keeps_atomic; [apply update_refines |]. intros w u w' Hw. by apply update_spec_kept. Qed.
Lemma keeps_update_audit s audit : fit s -> keeps (as_written s) (UpdateWithAudit s audit).
Proof.
  intros Hs. eapply keeps_atomic; [apply update_audit_refines |]. intros w u w' Hw Hspec. unfold update_audit_spec in Hspec.
  destruct (update_spec s w) as [[u1 w1] |] eqn:Hu; [| done]. injection Hspec as <- <-.
  destruct (update_spec_kept s w u1 w1 Hs Hw Hu). split; [done | by apply put_audit_kept].
Qed.
Lemma keeps_update_outbox ctx s records audit :
  fit s -> Forall fine_record records -> keeps (as_written s) (UpdateWithOutboxAndAudit ctx s records audit).
Proof.
  intros Hs Hr. eapply keeps_atomic; [apply update_outbox_refines |]. intros w u w' Hw Hspec.
  eapply update_spec_kept; [done | | exact Hspec]. by apply put_audit_kept, put_events_kept.
Qed.

(** A saga that is created. *)
Lemma fit_inserted s w row w' : fit s -> stmt_insert_saga s w = Ok (row, w') -> fit (scanSaga row).
Proof.
  intros Hs Hi. unfold stmt_insert_saga in Hi. repeat case_match; try done. injection Hi as <- _.
  apply (upkeep_change s); [done | by repeat split | by left | by left].
Qed.

Lemma found_fit user key w row : kept w -> find_key user key w = Some row -> fit (scanSaga row).
Proof.
  intros (_ & Hrows & _) Hf. unfold find_key in Hf. apply fmap_Some in Hf as ([p r] & Hf & ->).
  apply List.find_some in Hf as [Hin _]. apply list_elem_of_In, elem_of_map_to_list in Hin. by eapply Hrows.
Qed.

Lemma keeps_create s : fit s -> keeps fit (Create s).
Proof.
  intros Hs. eapply keeps_atomic; [apply create_refines |]. intros w u w' Hw Hspec. unfold create_spec in Hspec.
  destruct (stmt_insert_saga s w) as [[row w1] | e] eqn:Hi.
  - injection Hspec as <- <-. pose proof (fit_inserted _ _ _ _ Hs Hi) as Hf. split; [done |].
    unfold stmt_insert_saga in Hi. repeat case_match; try done. simplify_eq. destruct Hw as (Hk & Hrows & Hev & Hfar).
    split; [| split; [| done]]; intros p row'; simpl.
    + intros [[<- <-] | [_ ?]]%lookup_insert_Some; [done | by apply Hk].
    + intros [[_ <-] | [_ ?]]%lookup_insert_Some; [exact Hf | by eapply Hrows].
  - destruct (store_unique_violation e); [| done].
    destruct (if Saga.PaymentID s =s "" then None else sagas w !! Saga.PaymentID s) as [row |] eqn:Hrow;
      [| destruct (find_key _ _ w) as [row |] eqn:Hkey; [| done]].
    all: case_match; [| done]; injection Hspec as <- <-; split; [| done].
    + case_match; [done |]. by eapply Hw.
    + by eapply found_fit.
Qed.

(** ** The handlers *)

(** A saga that is changed still fits: the request is untouched, and a new state or a
    result put off is one the invariant allows. *)
Ltac fits :=
  eapply upkeep_change; [ eassumption | by repeat split
                        | simpl; first [ by intros [? | ?] | by left | intros _; right; simpl in *; congruence ]
                        | simpl; first [ by left | by intros ? [= <-]; right ] ].
Ltac far_call :=
  apply keeps_call; intros ???;
  first [ apply upkeep_debit | apply upkeep_reserve | apply upkeep_cancel | apply upkeep_compensate
        | apply upkeep_confirm; simpl; congruence ].

(** [keep_with known] walks through a handler: [known] closes the programs it calls. *)
Ltac keep_leaf known :=
  first
    [ known | apply keeps_throw | apply keeps_lift | apply keeps_guard | apply keeps_now | far_call
    | apply keeps_update; fits | apply keeps_update_audit; fits
    | apply keeps_event, upkeep_ended; by (left + right)
    | apply keeps_get | apply keeps_audit | apply keeps_delete | by apply keeps_ret ].
Ltac keep_with known :=
  repeat first
    [ keep_leaf known
    | eapply keeps_bind; [ keep_leaf known | cbv beta; intros ? ?; destruct_and? ]
    | case_match
    | eapply keeps_weaken; [ | keep_leaf known ]; solve [ cbv beta; intros; destruct_and?; done ] ].
Ltac keep := keep_with fail.

Variable ctx : context.

Lemma keeps_unverified {A} (F : A -> Prop) s : fit s -> keeps F (failUnverified s).
Proof. intros Hs. unfold failUnverified. keep. Qed.

Lemma keeps_stage st stage s :
  fit s -> (forall s, fit s -> s.(Saga.State) = st -> keeps fit (stage s)) -> keeps fit (in_state st stage s).
Proof.
  intros Hs Hstage. unfold in_state. destruct (String.eqb_spec (Saga.State s) st); [by apply Hstage | by apply keeps_ret].
Qed.

Lemma keeps_check s : fit s -> keeps fit (check_verification s).
Proof.
  intros Hs. unfold check_verification. eapply keeps_bind; [eapply keeps_attempt, (keeps_query anyway); done |].
  intros [status | e] _; keep_with ltac:(by apply keeps_unverified).
Qed.
Lemma keeps_debit s : fit s -> keeps fit (debit_wallet s).
Proof. intros Hs. unfold debit_wallet. keep. Qed.
Lemma keeps_reserve s : fit s -> keeps fit (reserve_ledger s).
Proof. intros Hs. unfold reserve_ledger. keep. Qed.
Lemma keeps_execute s : fit s -> keeps fit (execute_payment ctx s).
Proof.
  intros Hs. unfold execute_payment, updateWithOutbox, UpdateWithOutbox. eapply keeps_bind; [apply keeps_now |]. intros now [n ->].
  eapply keeps_weaken; [| apply keeps_update_outbox; [fits |]]; [by intros u [? _] |].
  constructor; [by apply upkeep_command | constructor; [by apply upkeep_scoring | constructor]].
Qed.

Lemma keeps_advance s : fit s -> keeps fit (advance ctx s).
Proof.
  intros Hs. unfold advance.
  eapply keeps_bind; [apply keeps_stage; [done | intros; by apply keeps_check] |]. intros s1 Hs1.
  eapply keeps_bind; [apply keeps_stage; [done | intros; by apply keeps_debit] |]. intros s2 Hs2.
  eapply keeps_bind; [apply keeps_stage; [done | intros; by apply keeps_reserve] |]. intros s3 Hs3.
  apply keeps_stage; [done | intros; by apply keeps_execute].
Qed.

Lemma keeps_tx_completed s trace t : keeps anyway (publishTxCompleted ctx s trace t).
Proof. unfold publishTxCompleted. keep. Qed.
Lemma keeps_tx_failed s trace t : keeps anyway (publishTxFailed ctx s trace t).
Proof. unfold publishTxFailed. keep. Qed.

Lemma keeps_completed e : may_complete e -> keeps anyway (HandlePaymentCompleted ctx e).
Proof.
  intros [Hpaid Hdef]%upkeep_completed.
  unfold HandlePaymentCompleted, deferPaymentCompleted, recordFraudAudit, updateWithAudit. cbv zeta.
  eapply keeps_bind; [apply keeps_get |]. intros s [Hs Hp]. rewrite <- Hp in Hpaid, Hdef.
  keep_with ltac:(apply keeps_tx_completed).
Qed.
Lemma keeps_failed e : may_fail e -> keeps anyway (HandlePaymentFailed ctx e).
Proof.
  intros Hdef%upkeep_failed.
  unfold HandlePaymentFailed, deferPaymentFailed, recordFraudAudit, updateWithAudit. cbv zeta.
  eapply keeps_bind; [apply keeps_get |]. intros s [Hs Hp]. rewrite <- Hp in Hdef.
  keep_with ltac:(apply keeps_tx_failed).
Qed.

Lemma keeps_flagged f : keeps anyway (HandleFraudFlagged ctx f).
Proof.
  unfold HandleFraudFlagged, recordFraudAudit, updateWithAudit, updateWithOutboxAndAudit. cbv zeta.
  eapply keeps_bind; [apply keeps_lift |]. intros [] Hv.
  eapply keeps_bind; [apply keeps_attempt, keeps_get |]. intros [s | e] Hs; [destruct Hs as [Hs _] | keep].
  eapply keeps_bind; [apply keeps_now |]. intros now [n ->]. case_match; [| keep].
  eapply keeps_bind; [| by intros; apply keeps_ret]. apply keeps_update_outbox; [fits |].
  constructor; [by apply (upkeep_paused s f) | constructor].
Qed.

Lemma keeps_refund s : fit s -> keeps anyway (refund_and_fail ctx s).
Proof. intros Hs. unfold refund_and_fail. keep_with ltac:(apply keeps_tx_failed). Qed.
Lemma keeps_compensation s b : fit s -> keeps anyway (resumeCompensation ctx s b).
Proof.
  intros Hs. unfold resumeCompensation. eapply (keeps_bind fit); [| intros s' Hs'; by apply keeps_refund].
  destruct b; [| by apply keeps_ret]. keep.
Qed.
Lemma keeps_resume_one s : fit s -> keeps anyway (resumeOne ctx s).
Proof.
  intros Hs. unfold resumeOne. destruct (String.eqb_spec (Saga.State s) StateLedgerConfirmed) as [Hst |].
  - eapply keeps_bind; [apply keeps_now |]. intros t _. eapply keeps_bind; [apply keeps_tx_completed |]. intros [] _.
    eapply keeps_bind; [apply keeps_now |]. intros now _. eapply keeps_bind; [| by intros; apply keeps_ret].
    apply keeps_update. eapply upkeep_change; [exact Hs | by repeat split | left; by left | by left].
  - keep_with ltac:(first [by apply keeps_compensation | by apply keeps_advance]).
Qed.
Lemma keeps_resume_all l : Forall fit l -> keeps anyway (resume_all ctx l).
Proof. induction 1; simpl; keep_with ltac:(first [by apply keeps_resume_one | apply IHForall]). Qed.

Lemma keeps_decoded {A} (r : res json_error A) : keeps (fun a => r = Ok a) (decoded r).
Proof.
  unfold decoded. eapply keeps_weaken; [| apply keeps_lift]. by destruct r; intros ? [= ->].
Qed.
Lemma keeps_deferred p j trace : deferrable p j -> keeps anyway (applyDeferredResult ctx (Some j) trace).
Proof.
  intros Hj. unfold applyDeferredResult. cbv zeta. case_match eqn:Hc; [| case_match eqn:Hf].
  - eapply keeps_bind; [apply keeps_decoded |]. intros c Hd. apply keeps_completed. by eapply upkeep_replay_completed.
  - eapply keeps_bind; [apply keeps_decoded |]. intros f Hd. apply keeps_failed. by eapply upkeep_replay_failed.
  - apply keeps_throw.
Qed.
Lemma keeps_reject d : keeps anyway (RejectFraudReview ctx d).
Proof. unfold RejectFraudReview, updateWithAudit. cbv zeta. keep_with ltac:(by apply keeps_compensation). Qed.
Lemma keeps_resume d : keeps anyway (ResumeFraudReview ctx d).
Proof.
  unfold ResumeFraudReview, updateWithAudit. cbv zeta. eapply keeps_bind; [apply keeps_get |]. intros s [Hs Hp].
  eapply keeps_bind; [apply keeps_guard |]. intros [] _. eapply keeps_bind; [apply keeps_now |]. intros now _.
  eapply keeps_bind; [apply keeps_update_audit; fits |]. intros u Hu.
  destruct (Saga.DeferredPaymentJSON s) as [j |] eqn:Hj; [| by apply keeps_ret].
  eapply keeps_bind; [by eapply keeps_deferred, upkeep_deferred |]. intros [] _. keep.
Qed.
Lemma keeps_expire_all ttl deadline l : keeps anyway (expire_all ctx ttl deadline l).
Proof.
  induction l as [|s l IH]; simpl; [by apply keeps_ret |]. case_match; [exact IH |].
  eapply keeps_bind; [eapply keeps_attempt, keeps_reject |]. intros r _. eapply keeps_bind; [exact IH |]. intros [n l'] _. keep.
Qed.
Lemma keeps_expire ttl : keeps anyway (ExpireFraudReviews ctx ttl).
Proof. unfold ExpireFraudReviews. keep_with ltac:(first [apply keeps_list | apply keeps_expire_all]). Qed.
Lemma keeps_sweep fuel retention batch : keeps anyway (Sweep fuel retention batch).
Proof.
  unfold Sweep. case_match; [by apply keeps_ret |]. eapply keeps_bind; [apply keeps_now |]. intros now _. generalize 0 as deleted.
  induction fuel as [|fuel IH]; intros deleted; simpl; keep_with ltac:(apply IH).
Qed.

Lemma keeps_start req : may_start req -> keeps anyway (StartPaymentSaga ctx req).
Proof.
  intros Hreq. unfold StartPaymentSaga. eapply keeps_bind; [apply keeps_now |]. intros now _.
  eapply keeps_bind; [by apply keeps_create, upkeep_new |]. intros s Hs. keep_with ltac:(by apply keeps_advance).
Qed.

(** ** The inputs *)

Definition admitted (i : input) : Prop :=
  match i with
  | InStart req => may_start req
  | InCompleted e => may_complete e
  | InFailed e => may_fail e
  | _ => True
  end.

Lemma keeps_handle i : admitted i -> keeps anyway (handle ctx i).
Proof.
  intros Hi. destruct i; simpl; unfold ResumeNonTerminal;
    keep_with ltac:(first [by apply keeps_start | by apply keeps_completed | by apply keeps_failed | apply keeps_flagged
      | apply keeps_resume | apply keeps_reject | apply keeps_list | by apply keeps_resume_all | apply keeps_expire | apply keeps_sweep]).
Qed.

(** Handling an input that may arrive keeps the invariant, whatever is lost. *)
Lemma handle_kept i w sch : admitted i -> kept w -> kept (committed (snd (handle ctx i (Conn w None sch)))).
Proof.
  intros Hi Hw. pose proof (wp_elim _ _ _ (keeps_handle i Hi w sch Hw)) as [_ Hv]. destruct (fst _); [apply Hv | done].
Qed.
End Keeping.
