(* ===== verification/Settlement.v ===== *)
(** * Settlement: the orchestrator and the payment processor together.

    The two services with their outboxes between them: a command in the orchestrator's
    outbox may reach the processor, and a result in the processor's outbox the
    orchestrator, at any time, in any order and any number of times, while everything
    else the orchestrator reacts to goes on and round trips are lost.  Whatever happens,
    the ledger confirms a payment only if the rail has completed a charge of what its
    saga ordered, and the rail is asked for nothing else than what sagas have ordered.
    That a record carries its event to the handler, and that everything arrives when
    nothing is lost, is [ProcessorConsumer.command_is_answered]. *)

From S2P Require Import Prelude GoStrings Domain GoTime Json Database Outbox.
From S2P Require Import SagaTypes SagaStore Orchestrator FraudReview SagaSafety SagaRuns SagaKeeping Processor ProcessorConsumer.

#[local] Open Scope string_scope.
#[local] Open Scope Z_scope.

(** ** What the processor is asked for *)

Section Orders.
Context {R : Type} `{Outside R} `{Clock} `{Postgres} `{Uuid}.
Variable order : RailChargeRequest.t -> Prop.
Implicit Types d : desk R.

(** Every attempt is at something that was ordered. *)
Definition as_ordered d : Prop := forall p row, attempts d !! p = Some row -> order (command_of row).

Abbreviation obeys prog := (triple (E := processor_error) as_ordered prog (fun _ => as_ordered) as_ordered).

Lemma obeys_outside {A} (f : desk R -> A * desk R) :
  (forall d, attempts (snd (f d)) = attempts d) -> obeys (step_outside f).
Proof. intros Hf. apply triple_outside. intros d Hd p row. rewrite Hf. apply Hd. Qed.

Lemma obeys_exec {A} (f : desk R -> res processor_error (A * desk R)) :
  (forall d a d', as_ordered d -> f d = Ok (a, d') -> as_ordered d') -> obeys (exec f).
Proof.
  intros Hf. eapply triple_refines with (Inv := anywhere); [apply refines_exec |]. intros d Hd.
  split; [done |]. split; [done |]. intros a d' Hs. split; by eapply Hf.
Qed.

Lemma obeys_query {A} (q : desk R -> res processor_error A) : obeys (query q).
Proof.
  eapply triple_refines with (Inv := anywhere); [apply refines_query |]. intros d Hd.
  split; [done |]. split; [done |]. intros a d' Hs. cbv beta in Hs. destruct (q d); [| done]. by injection Hs as _ <-.
Qed.

Lemma obeys_scan p : obeys p -> obeys (scanAttempt p).
Proof.
  intros Hp. eapply triple_bind; [exact Hp |]. intros [row |]; [by apply triple_ret | by apply triple_throw].
Qed.

Lemma obeys_update p (f : desk R -> AttemptRow.t -> AttemptRow.t) :
  (forall d row, command_of (f d row) = command_of row) ->
  obeys (scanAttempt (exec (fun d => stmt_update_attempt p (f d) d))).
Proof.
  intros Hf. apply obeys_scan, obeys_exec. intros d a d' Hd. unfold stmt_update_attempt.
  destruct (attempts d !! p) as [row |] eqn:Hp; intros [= _ <-]; [| done].
  intros q row'. simpl. intros [[_ <-] | [_ Hq]]%lookup_insert_Some; [rewrite Hf |]; by eapply Hd.
Qed.

Lemma obeys_enqueue ctx topic key payload : obeys (Enqueue ctx topic key payload).
Proof.
  apply (triple_bind _ _ _ (fun _ => as_ordered)); [| by intros; apply triple_ret]. apply obeys_exec. intros d a d' Hd. unfold stmt_enqueue. by intros [= _ <-].
Qed.

Ltac obey_with known :=
  repeat first
    [ known
    | apply obeys_outside; intros; repeat case_match; reflexivity
    | apply obeys_update; reflexivity | apply obeys_enqueue | apply obeys_scan, obeys_query
    | by apply triple_ret | by apply triple_throw | case_match
    | apply (triple_bind _ _ _ (fun _ => as_ordered)); [| intros ?] ].

Lemma obeys_loop ctx backoffs remaining : forall p next, obeys (attempt_loop ctx backoffs remaining p next).
Proof.
  induction remaining as [| remaining IH]; intros p next; simpl;
    unfold complete_payment, fail_payment, publishCompleted, publishFailed, clock_Now, Charge, randomJitter, Sleep;
    obey_with ltac:(apply IH).
Qed.

Lemma obeys_create command now : order (requested command) -> obeys (CreatePending command now).
Proof.
  intros Ho. eapply triple_bind.
  - apply (triple_attempt _ _ (fun _ => as_ordered) as_ordered), obeys_scan, obeys_exec.
    intros d a d' Hd. unfold stmt_insert_attempt. case_match; [done |]. case_match; intros [= _ <-]; [done |].
    intros q row. simpl. intros [[_ <-] | [_ Hq]]%lookup_insert_Some; [exact Ho | by eapply Hd].
  - unfold GetByPaymentID. intros [a | e]; obey_with fail.
Qed.

Lemma obeys_execute ctx backoffs command : order (requested command) -> obeys (HandleExecute ctx backoffs command).
Proof.
  intros Ho. unfold HandleExecute, dispatch, processPending, publishCompleted, publishFailed, clock_Now.
  eapply triple_bind; [by apply (triple_lift _ _ (fun _ => as_ordered)) |]. intros [].
  obey_with ltac:(first [by apply obeys_create | apply obeys_loop]).
Qed.
End Orders.

(** A command that was written as JSON is read as it was. *)
Lemma execute_read_back x c : PaymentExecute.of_json (Some (PaymentExecute.to_json x)) = Ok c -> c = x.
Proof.
  destruct (decide (int64 x.(PaymentExecute.AmountCents))) as [Ha | Ha]; [rewrite execute_of_to_json by done; by intros [= ->] |].
  unfold PaymentExecute.of_json, PaymentExecute.to_json. cbn [json_object res_bind]. set (fields := cons _ _).
  destruct (execute_fields fields _ _ _ _ _ _ _ _ _ _ _ eq_refl) as (E1 & E2 & E3 & E4 & E5 & E6 & E7 & E8 & E9 & E10 & E11).
  unfold get_string, get_int64, get_int, get_time. rewrite E1, E2, E3, E4, E5, E6, E7.
  destruct ((- 2 ^ 63 <=? _) && _) eqn:Hb; [| done]. destruct Ha. unfold int64. lia.
Qed.

(** ** What the ledger confirms *)

Section Upkeep.
Context {W : Type} `{HR : Remote W} `{!RemoteContract W} `{!ConfirmsAsked W} `{Clock} `{Postgres} `{Uuid}.
Implicit Types w : world W.
(** The payments the processor has completed. *)
Variable completed : string -> Prop.

Definition completion (e : PaymentCompleted.t) : Prop :=
  completed e.(PaymentCompleted.PaymentID) /\
  e.(PaymentCompleted.EventID) = "payment.completed:" ++ e.(PaymentCompleted.PaymentID).
Definition failure (e : PaymentFailed.t) : Prop :=
  e.(PaymentFailed.EventID) = "payment.failed:" ++ e.(PaymentFailed.PaymentID).
Definition result (j : json) : Prop :=
  (exists c, j = PaymentCompleted.to_json c /\ completion c) \/ (exists f, j = PaymentFailed.to_json f /\ failure f).

(** A saga that says its payment is settled is right, and it has put off real results. *)
Definition honest (s : Saga.t) : Prop :=
  (settled_state s.(Saga.State) -> completed s.(Saga.PaymentID)) /\
  (forall j, s.(Saga.DeferredPaymentJSON) = Some j -> result j).

Definition confirms_completed (r : W) : Prop :=
  remote_ok r /\ forall p, confirmed p r -> exists p', same_payment p p' /\ completed p'.

Lemma completed_prefix p : HasPrefix ("payment.completed:" ++ p) (TopicPaymentCompleted ++ ":") = true.
Proof. by destruct p. Qed.
Lemma failed_prefix p : HasPrefix ("payment.failed:" ++ p) (TopicPaymentCompleted ++ ":") = false.
Proof. done. Qed.

Lemma completed_id e : deferredEventID (Some (PaymentCompleted.to_json e)) = e.(PaymentCompleted.EventID).
Proof. reflexivity. Qed.
Lemma failed_id e : deferredEventID (Some (PaymentFailed.to_json e)) = e.(PaymentFailed.EventID).
Proof. reflexivity. Qed.

#[local] Instance settlement_upkeep : Upkeep W.
Proof.
  refine {|
    fit := honest; fine _ _ _ := True; far := confirms_completed; may_start _ := True;
    may_complete := completion; may_fail := failure; paid := completed; deferrable _ := result
  |}; try done.
  - intros e He. split; [by apply He |]. left. by exists e.
  - intros e He. right. by exists e.
  - intros p j c trace [(c' & -> & Hc) | (f & -> & Hf)] Hpre.
    + rewrite PaymentCompleted_of_to_json. by intros [= ->].
    + by rewrite failed_id, Hf, failed_prefix in Hpre.
  - intros p j f trace [(c & -> & Hp & Hc) | (f' & -> & Hf)] Hpre _.
    + by rewrite completed_id, Hc, completed_prefix in Hpre.
    + rewrite PaymentFailed_of_to_json. by intros [= ->].
  - intros req now _. split; [by intros [? | ?] | done].
  - intros s j [_ Hd] Hj. by apply Hd.
  - intros s s' [Hst Hd] (Hp & _) Hst' Hd'. split.
    + rewrite Hp. intros Hs. destruct (Hst' Hs); auto.
    + intros j Hj. destruct (Hd' j Hj); auto.
  - intros s row w [Hst Hd] _ Hp. split; [| exact Hd]. simpl. by rewrite Hp.
  - intros q r a r' [Hok Hc] Hs. split; [by eapply contract_debit | intros p Hp; eapply Hc, asked_debit; eauto].
  - intros q r a r' [Hok Hc] Hs. split; [by eapply contract_reserve | intros p Hp; eapply Hc, asked_reserve; eauto].
  - intros q r a r' Hpaid [Hok Hc] Hs. split; [by eapply contract_confirm |]. intros p Hp.
    destruct (asked_confirm q r a r' p Hok Hs Hp); eauto.
  - intros q r a r' [Hok Hc] Hs. split; [by eapply contract_cancel | intros p Hp; eapply Hc, asked_cancel; eauto].
  - intros q r a r' [Hok Hc] Hs. split; [by eapply contract_compensate | intros p Hp; eapply Hc, asked_compensate; eauto].
Defined.

Definition honest_world w : Prop :=
  keyed w /\ (forall p row, sagas w !! p = Some row -> honest (scanSaga row)) /\ confirms_completed (remote w).

(** The inputs that results become. *)
Definition honest_input (i : input) : Prop :=
  match i with InCompleted e => completion e | InFailed e => failure e | _ => True end.

Lemma honest_handle ctx i w sch :
  honest_input i -> honest_world w -> honest_world (committed (snd (handle ctx i (Conn w None sch)))).
Proof.
  intros Hi (Hk & Hrows & Hfar).
  assert (kept w) as Hw by (split; [done |]; split; [done |]; split; [by apply Forall_true | done]).
  apply (handle_kept ctx i w sch) in Hw as (? & ? & _ & ?); [done | by destruct i].
Qed.
End Upkeep.

Lemma honest_mono {W : Type} `{HR : Remote W} `{!RemoteContract W} `{!ConfirmsAsked W} `{Uuid} (c c' : string -> Prop) (w : world W) :
  (forall p, c p -> c' p) -> honest_world c w -> honest_world c' w.
Proof.
  intros Hc (Hk & Hrows & Hok & Hfar). split; [done |]. split.
  - intros p row Hp. destruct (Hrows p row Hp) as [Hst Hd]. split; [auto |]. intros j Hj.
    destruct (Hd j Hj) as [(e & ? & ? & ?) | ?]; [left; exists e; split; [done |]; split; auto | by right].
  - split; [done |]. intros p Hp. destruct (Hfar p Hp) as (p' & ? & ?). eauto.
Qed.

(** ** The two services *)

Record system (W R : Type) := System { orchestrator : world W; processor : desk R }.
Arguments System {W R} _ _.
Arguments orchestrator {W R} _.
Arguments processor {W R} _.

(** The input that a result becomes ([HandleRecord] of the orchestrator's consumer). *)
Definition result_input (e : OutboxEvent.t) : option input :=
  if e.(OutboxEvent.Topic) =s TopicPaymentCompleted then
    match PaymentCompleted.of_json (Some e.(OutboxEvent.Payload)) with Ok c => Some (InCompleted c) | Err _ => None end
  else
    match PaymentFailed.of_json (Some e.(OutboxEvent.Payload)) with Ok f => Some (InFailed f) | Err _ => None end.

(** What reaches the orchestrator otherwise. *)
Definition other_input (i : input) : Prop :=
  match i with InCompleted _ | InFailed _ => False | _ => True end.

Section System.
Context {W : Type} `{HR : Remote W} `{!RemoteContract W} `{!ConfirmsAsked W}.
Context {R : Type} `{Outside R} `{!OutsideOk R} `{Clock} `{Postgres} `{Uuid}.
Implicit Types (w : world W) (d : desk R) (s : system W R).

Inductive operates s0 : system W R -> Prop :=
| operates_start : operates s0 s0
| operates_input ctx i sch w d : operates s0 (System w d) -> other_input i ->
    operates s0 (System (committed (snd (handle ctx i (Conn w None sch)))) d)
| operates_command ctx backoffs e c sch w d : operates s0 (System w d) ->
    e ∈ events w -> is_command e -> PaymentExecute.of_json (Some e.(OutboxEvent.Payload)) = Ok c ->
    operates s0 (System w (committed (snd (HandleExecute ctx backoffs c (Conn d None sch)))))
| operates_result ctx e i sch w d : operates s0 (System w d) ->
    e ∈ results d -> result_input e = Some i ->
    operates s0 (System (committed (snd (handle ctx i (Conn w None sch)))) d)
| operates_remote r' w d : operates s0 (System w d) -> remote_env (remote w) r' ->
    operates s0 (System (with_remote r' w) d)
| operates_time n w d : operates s0 (System w d) -> operates s0 (System (with_db_now n w) d).

(** Nothing has been ordered yet. *)
Definition unused s : Prop :=
  sagas (orchestrator s) = ∅ /\ events (orchestrator s) = [] /\ remote_ok (remote (orchestrator s)) /\
  (forall p, ~ compensated p (remote (orchestrator s))) /\ (forall p, ~ confirmed p (remote (orchestrator s))) /\
  attempts (processor s) = ∅ /\ results (processor s) = [] /\ charges (processor s) = [].

(** The request is for what the saga of its payment ordered. *)
Definition ordered_by w (q : RailChargeRequest.t) (row : SagaRow.t) : Prop :=
  sagas w !! q.(RailChargeRequest.PaymentID) = Some row /\
  q.(RailChargeRequest.AmountCents) = row.(SagaRow.amount_cents) /\ q.(RailChargeRequest.Currency) = row.(SagaRow.currency).

Definition completed_at d (p : string) : Prop :=
  exists row, attempts d !! p = Some row /\ row.(AttemptRow.status) = StatusCompleted.

Record consistent s : Prop := {
  consistent_safe : safe (orchestrator s);
  consistent_desk : desk_ok (processor s);
  consistent_orders : as_ordered (fun q => exists row, ordered_by (orchestrator s) q row) (processor s);
  consistent_honest : honest_world (completed_at (processor s)) (orchestrator s)
}.

Lemma unused_consistent s : unused s -> consistent s.
Proof.
  destruct s as [w d]. intros (Hs & He & Hok & Hcomp & Hconf & Ha & Hr & Hc). simpl in *.
  assert (forall p row, sagas w !! p = Some row -> False) as Hno by (intros p row; by rewrite Hs, lookup_empty).
  split; simpl.
  - split; [by intros p row ?%Hno | done | by intros p ?%Hcomp | by intros p row ?%Hno | |].
    + intros p. unfold state_of, commands. by rewrite Hs, He, lookup_empty.
    + intros e. rewrite He. by intros ?%not_elem_of_nil.
  - split; [intros p row; by rewrite Ha, lookup_empty | intros e; rewrite Hr | intros q x; rewrite Hc];
      by intros ?%not_elem_of_nil.
  - intros p row. by rewrite Ha, lookup_empty.
  - split; [by intros p row ?%Hno |]. split; [by intros p row ?%Hno |]. split; [done |]. by intros p ?%Hconf.
Qed.

Lemma ordered_by_evolves w w' q : evolves w w' -> (exists row, ordered_by w q row) -> exists row, ordered_by w' q row.
Proof.
  intros Hev (row & Hrow & Ha & Hc). destruct (Hev _ _ Hrow) as (row' & Hrow' & _ & Ho). exists row'.
  unfold ordered_by, same_order in *. intuition congruence.
Qed.

(** An input that is no made-up result. *)
Lemma handle_consistent ctx i sch w d :
  honest_input (completed_at d) i -> consistent (System w d) ->
  consistent (System (committed (snd (handle ctx i (Conn w None sch)))) d).
Proof.
  intros Hi [Hsafe Hdesk Hord Hhon]. simpl in *. set (w' := committed _).
  assert (sound w w') as [Hsafe' Hev] by (apply runs_sound; [done | apply runs_handle, runs_start]).
  split; simpl; [done | done | | by apply honest_handle].
  intros p row Hp. eapply ordered_by_evolves; [exact Hev | by eapply Hord].
Qed.

(** A result of the processor is none. *)
Lemma result_is_honest e i d : desk_ok d -> e ∈ results d -> result_input e = Some i -> honest_input (completed_at d) i.
Proof.
  intros Hok He Hi. destruct (ok_results d Hok e He) as (row & Hrow & _ & Hrep). unfold result_input in Hi.
  destruct (ok_rows d Hok _ _ Hrow) as (Hid & _).
  destruct Hrep as [(Hst & Ht & c & Hpay & Hp & Hev & _) | (_ & Ht & f & Hpay & Hp & Hev & _)]; rewrite Ht, Hpay in Hi.
  - rewrite PaymentCompleted_of_to_json in Hi. injection Hi as <-. split; [| by rewrite Hev, Hp].
    exists row. by rewrite Hp, Hid.
  - change (TopicPaymentFailed =s TopicPaymentCompleted) with false in Hi. rewrite PaymentFailed_of_to_json in Hi. injection Hi as <-. simpl. unfold failure. by rewrite Hev, Hp.
Qed.

Lemma command_consistent ctx backoffs e c sch w d :
  e ∈ events w -> is_command e -> PaymentExecute.of_json (Some e.(OutboxEvent.Payload)) = Ok c ->
  consistent (System w d) -> consistent (System w (committed (snd (HandleExecute ctx backoffs c (Conn d None sch))))).
Proof.
  intros He Hcmd Hc [Hsafe Hdesk Hord Hhon]. simpl in *. set (d' := committed _).
  destruct (execute_sound backoffs ctx c sch d Hdesk) as (Hdesk' & Hgo & _). fold d' in Hdesk', Hgo.
  split; simpl; [done | done | |].
  - destruct (safe_orders w Hsafe e He Hcmd) as (row & x & Hrow & Hpay & Hp & _ & _ & Ha & Hcur).
    rewrite Hpay in Hc. apply execute_read_back in Hc as ->.
    assert (exists row, ordered_by w (requested x) row) as Ho.
    { exists row. unfold ordered_by. simpl. rewrite Hp, (safe_key w Hsafe _ _ Hrow). done. }
    pose proof (wp_elim _ _ _ (obeys_execute (fun q => exists row, ordered_by w q row) ctx backoffs x Ho d sch Hord)) as [_ Hx].
    unfold d'. by destruct (fst _).
  - eapply honest_mono; [| exact Hhon]. intros p (row & Hrow & Hst).
    destruct (Hgo p row Hrow) as (row' & Hrow' & _ & Hkeep). destruct Hkeep as [-> _]; [by left |]. by exists row.
Qed.

Lemma operates_consistent s0 s : consistent s0 -> operates s0 s -> consistent s.
Proof.
  intros Hs0. induction 1 as [| ctx i sch w d _ IH Hi | ctx backoffs e c sch w d _ IH He Hcmd Hc | ctx e i sch w d _ IH He Hi
    | r' w d _ IH Henv | n w d _ IH]; [done | | by eapply command_consistent | | |].
  - apply handle_consistent; [by destruct i | done].
  - apply handle_consistent; [eapply result_is_honest; [apply IH | done | done] | done].
  - destruct IH as [Hsafe Hdesk Hord (Hk & Hrows & Hok & Hfar)]. simpl in *. split; simpl; [| done | done |].
    + apply (runs_sound w); [done | apply runs_remote; [apply runs_start | done]].
    + split; [done |]. split; [done |]. split; [by eapply contract_env |]. intros p Hp. eapply Hfar, asked_env; eauto.
  - destruct IH as [Hsafe Hdesk Hord Hhon]. split; [| done..]. by apply (runs_sound w); [| apply runs_time, runs_start].
Qed.

(** The rail has completed a charge of what the saga of [p] ordered. *)
Definition charged_as_ordered s (p : string) : Prop :=
  exists q answer row, (q, Ok answer) ∈ charges (processor s) /\ q.(RailChargeRequest.PaymentID) = p /\
    ordered_by (orchestrator s) q row.

Lemma completed_charged s p : consistent s -> completed_at (processor s) p -> charged_as_ordered s p.
Proof.
  intros [_ Hdesk Hord _] (row & Hrow & Hst). destruct (ok_rows _ Hdesk _ _ Hrow) as (Hid & _ & _ & Hans & _).
  destruct (Hans Hst) as (answer & Hin & _). destruct (Hord _ _ Hrow) as [srow Ho]. by exists (command_of row), answer, srow.
Qed.

(** C3: nobody is paid without the rail.  In every run of the two services, whatever
    order, repetition and loss the commands, the results, the flags, the decisions, the
    recoveries and the round trips suffer, a payment whose saga says LEDGER_CONFIRMED or
    COMPLETED, and every payment the ledger has confirmed, is one for which the rail
    completed a charge of the amount and the currency its saga ordered; and the rail is
    never asked to charge anything but what the saga of that payment ordered. *)
Theorem settled_payments_were_charged s0 s :
  unused s0 -> operates s0 s ->
  (forall p row, sagas (orchestrator s) !! p = Some row -> settled_state row.(SagaRow.state) -> charged_as_ordered s p) /\
  (forall p, confirmed p (remote (orchestrator s)) -> exists p', same_payment p p' /\ charged_as_ordered s p') /\
  (forall q answer, (q, answer) ∈ charges (processor s) -> exists row, ordered_by (orchestrator s) q row).
Proof.
  intros Hs0 Hrun. pose proof (operates_consistent s0 s (unused_consistent s0 Hs0) Hrun) as Hc.
  pose proof Hc as [Hsafe Hdesk Hord (Hk & Hrows & _ & Hfar)]. split; [| split].
  - intros p row Hp Hst. apply completed_charged; [done |]. destruct (Hrows p row Hp) as [Hpaid _].
    simpl in Hpaid. rewrite (Hk _ _ Hp) in Hpaid. by apply Hpaid.
  - intros p Hp. destruct (Hfar p Hp) as (p' & Hsame & Hpaid). exists p'. split; [done | by apply completed_charged].
  - intros q answer Hq. destruct (ok_charges _ Hdesk q answer Hq) as [(row & Hrow & <-) _]. by eapply Hord.
Qed.
End System.
