(* ===== verification/FraudEvents.v ===== *)
(** * FraudEvents: what the orchestrator tells the fraud agent and the notifications.

    [internal/event/fraud.go] gives every fraud event a [Validate].  The orchestrator
    only calls it on what it receives; here it is shown to hold of what it publishes: in
    every run whose orders are complete, each [fraud.score.requested] and each
    [tx.paused] in the outbox is valid and keyed by its payment, whatever is lost. *)

From stdpp Require Import sorting.
From S2P Require Import Prelude GoStrings Domain GoTime Json Database Outbox.
From S2P Require Import LedgerReads SagaServer Gateway.
From S2P Require Import SagaTypes SagaStore Orchestrator FraudReview SagaSafety SagaRuns SagaFlow SagaKeeping.

#[local] Open Scope string_scope.
#[local] Open Scope Z_scope.

(** Every field of the order is there. *)
Definition complete (s : Saga.t) : Prop :=
  s.(Saga.PaymentID) <> "" /\ s.(Saga.UserID) <> "" /\ s.(Saga.FromWalletID) <> "" /\ s.(Saga.ToWalletID) <> "" /\
  0 < s.(Saga.AmountCents) /\ s.(Saga.Currency) <> "" /\ s.(Saga.TraceID) <> "".

Definition complete_order (req : StartRequest.t) : Prop :=
  req.(StartRequest.PaymentID) <> "" /\ req.(StartRequest.UserID) <> "" /\
  req.(StartRequest.FromWalletID) <> "" /\ req.(StartRequest.ToWalletID) <> "" /\
  0 < req.(StartRequest.AmountCents) /\ req.(StartRequest.Currency) <> "" /\ req.(StartRequest.TraceID) <> "".

(** An event on one of the two topics is one its reader accepts. *)
Definition valid_event (topic key : string) (payload : json) : Prop :=
  (topic = FraudScoreRequestedTopic -> exists x,
     payload = FraudScoreRequested.to_json x /\ FraudScoreRequested.Validate x = Ok tt /\ key = x.(FraudScoreRequested.PaymentID)) /\
  (topic = TxPausedTopic -> exists x,
     payload = TxPaused.to_json x /\ TxPaused.Validate x = Ok tt /\ key = x.(TxPaused.PaymentID)).

Lemma neq_eqb (a b : string) : a <> b -> (a =s b) = false.
Proof. apply String.eqb_neq. Qed.

Lemma fraud_request_valid s now : complete s -> IsZero now = false ->
  valid_event FraudScoreRequestedTopic s.(Saga.PaymentID) (fraud_payload s now).
Proof.
  intros (Hp & Hu & Hf & Ht & Ha & Hc & Htr) Hnow. split; [intros _ | done]. eexists. split; [reflexivity |]. split; [| done].
  unfold FraudScoreRequested.Validate, validUTCTime. simpl. rewrite Hnow, String.eqb_refl, !neq_eqb by done.
  rewrite (proj2 (Z.leb_gt _ _)) by lia. done.
Qed.

Lemma pause_valid s f now : complete s -> FraudFlagged.Validate f = Ok tt -> IsZero now = false ->
  valid_event TxPausedTopic s.(Saga.PaymentID) (TxPaused.to_json (pause_notice s f now)).
Proof.
  intros (Hp & _) Hv Hnow. split; [done | intros _]. eexists. split; [reflexivity |]. split; [| done].
  unfold FraudFlagged.Validate in Hv. case_match eqn:Hb; [done |]. clear Hv. rewrite !orb_false_iff in Hb.
  destruct Hb as (((((((((((_ & _) & _) & _) & Hs) & Ha) & Hr) & Hre) & _) & _) & _) & Htr).
  unfold TxPaused.Validate, validUTCTime, pause_notice, traceID. simpl. rewrite Hnow, String.eqb_refl, Hs, Ha, Hr, Hre, (neq_eqb _ _ Hp).
  rewrite Htr. simpl. by rewrite Htr.
Qed.

(** ** What the handlers keep *)

Section Keeping.
Context {W : Type} `{HR : Remote W} `{Clock} `{Postgres} `{Uuid}.
Implicit Types w : world W.

(** Every stored order is complete and every event of the outbox valid. *)
Definition valid_outbox w : Prop :=
  keyed w /\ (forall p row, sagas w !! p = Some row -> complete (scanSaga row)) /\
  Forall (fun e => valid_event e.(OutboxEvent.Topic) e.(OutboxEvent.PartitionKey) e.(OutboxEvent.Payload)) (events w).

(** The orders that reach the orchestrator are complete; the other inputs are any. *)
Definition ordered_input (i : input) : Prop := match i with InStart req => complete_order req | _ => True end.

(** Runs of the orchestrator on complete orders, with anything happening in the remote
    services in between. *)
Inductive ordered_runs w0 : world W -> Prop :=
| ordered_start : ordered_runs w0 w0
| ordered_handle ctx i w s : ordered_runs w0 w -> ordered_input i -> ordered_runs w0 (committed (snd (handle ctx i (Conn w None s))))
| ordered_remote w r' : ordered_runs w0 w -> ordered_runs w0 (with_remote r' w)
| ordered_time w n : ordered_runs w0 w -> ordered_runs w0 (with_db_now n w).

Hypothesis clock_running : forall n, IsZero (clock_at n) = false.

(** As an invariant of the handlers: the results and the services are any. *)
#[local] Instance complete_upkeep : Upkeep W.
Proof.
  refine {|
    fit := complete; fine := valid_event; far _ := True; may_start := complete_order;
    may_complete _ := True; may_fail _ := True; paid _ := True; deferrable _ _ := True
  |}; try done.
  - intros s s' Hs (Hp & Hu & Hf & Ht & Ha & Hc & Htr) _ _. unfold complete. by rewrite Hp, Hu, Hf, Ht, Ha, Hc, Htr.
  - intros s row w (_ & _ & _ & _ & _ & _ & Ht) (? & ? & ? & ? & ? & ? & _) _. by repeat split.
  - intros s n Hs. by apply fraud_request_valid.
  - intros s f n Hs Hv. by apply pause_valid.
  - intros topic key payload [-> | ->]; by split.
Defined.

End Keeping.

(** ** The orders of the gateway *)

Lemma upper_nonempty s : s <> "" -> ToUpper s <> "".
Proof.
  destruct s as [| c s]; [done |]. intros _. unfold ToUpper, bytes_of. simpl. repeat case_match; done.
Qed.

Section Orders.
Context `{Uuid} `{!UuidText}.
Hypothesis empty_is_no_uuid : uuid_Parse "" = None.

Lemma uuid_text_nonempty s : invalid_uuid_text s = false -> s <> "".
Proof. unfold invalid_uuid_text. intros Hs ->. by rewrite empty_is_no_uuid in Hs. Qed.

(** What the gateway orders for a user is complete, so the theorem applies to it. *)
Lemma gateway_orders_are_complete r userID req :
  userID <> "" -> payment_order r userID = inr req -> complete_order req.
Proof.
  intros Hu Hreq. unfold payment_order in Hreq. destruct (rejectNonJSONContentType r); [done |].
  destruct (TransferRequest.of_json _) as [b |]; [| done]. cbv zeta in Hreq.
  destruct (invalid_uuid_text (if TransferRequest.PaymentID b =s "" then _ else _)) eqn:Hp; [done |].
  destruct (invalid_uuid_text (TransferRequest.FromWallet b)) eqn:Hf; [done |].
  destruct (invalid_uuid_text (TransferRequest.ToWallet b)) eqn:Ht; [done |].
  destruct (_ || _ || _) eqn:Hb; [done |]. rewrite !orb_false_iff, Z.leb_gt, String.eqb_neq in Hb.
  destruct Hb as [[Ha Hc] _]. injection Hreq as <-. unfold complete_order. simpl.
  split_and!; try by apply uuid_text_nonempty.
  - done.
  - done.
  - by apply upper_nonempty.
  - unfold requestTraceID. destruct (String.eqb_spec (TrimSpace (Request.Header r "X-Trace-Id")) ""); [apply uuid_nonempty | done].
Qed.
End Orders.
