(* ===== verification/SagaAudit.v ===== *)
(** * SagaAudit: the audit trail of the saga.

    The rows of [saga_fraud_audit_records] through every run: an event is recorded
    at most once, and the sweeper ([retention.go]) removes exactly the old rows of
    payments that have ended. *)

From stdpp Require Import sorting.
From S2P Require Import Prelude GoStrings Domain GoTime Json Database Outbox.
From S2P Require Import SagaTypes SagaStore Orchestrator FraudReview SagaSafety SagaRuns SagaFlow.

#[local] Open Scope string_scope.
#[local] Open Scope Z_scope.

(** ** Properties of the trail alone

    [I] says something of the audit rows only, and recording and sweeping keep it;
    then so does every handler. *)

Section Stable.
Context {W : Type} `{HR : Remote W} `{Clock} `{Postgres} `{Uuid}.
Implicit Types w : world W.
Variable I : list AuditRow.t -> Prop.
Hypothesis I_insert : forall audit w, I (audits w) -> I (audits (put_audit audit w)).
Hypothesis I_delete : forall before limit w n w',
  I (audits w) -> stmt_delete_audits before limit w = Ok (n, w') -> I (audits w').

Abbreviation inv := (fun w : world W => I (audits w)).
Abbreviation stable p := (triple (E := saga_error) inv p (fun _ => inv) inv).

Lemma st_bind {A B} (p : sdb W A) (k : A -> sdb W B) : stable p -> (forall a, stable (k a)) -> stable (bind p k).
Proof. intros Hp Hk. by eapply triple_bind. Qed.
Lemma st_ret {A} (a : A) : stable (ret a).
Proof. by apply triple_ret. Qed.
Lemma st_throw {A} e : stable (throw (A := A) e).
Proof. by apply triple_throw. Qed.
Lemma st_lift {A} (r : res saga_error A) : stable (lift r).
Proof. by apply triple_lift. Qed.
Lemma st_guard b e : stable (guard b e).
Proof. by apply triple_guard. Qed.
Lemma st_attempt {A} (p : sdb W A) : stable p -> stable (attempt p).
Proof.
  intros Hp. eapply triple_conseq; [apply (triple_attempt _ _ _ _ inv Hp) | done | by intros [] | done].
Qed.
Lemma st_now : stable (Now (W := W)).
Proof. by apply triple_now. Qed.

(** An atomic operation whose contract keeps the trail. *)
Lemma st_atomic {A} (p : sdb W A) spec :
  refines anywhere p spec -> (forall w a w', I (audits w) -> spec w = Ok (a, w') -> I (audits w')) -> stable p.
Proof.
  intros Hr Hk. eapply triple_refines; [exact Hr |]. intros w Hw. split; [done |]. split; [done |].
  intros a w' Hs. split; by eapply Hk.
Qed.

Lemma st_query {A} (q : world W -> res saga_error A) : stable (query q).
Proof.
  eapply st_atomic; [apply refines_query |]. intros w a w' Hw Hq. cbv beta in Hq. destruct (q w); [| done]. by injection Hq as _ <-.
Qed.
Lemma st_call {A} (f : W -> res saga_error (A * W)) : stable (call f).
Proof.
  eapply st_atomic; [apply refines_exec |]. intros w a w' Hw Hq.
  cbv beta in Hq. destruct (f (remote w)) as [[b r] |]; [| done]. by injection Hq as _ <-.
Qed.
Lemma st_get p : stable (GetByPaymentID p).
Proof. eapply st_atomic; [apply get_refines |]. intros w a w' Hw. unfold get_spec. by case_match; intros [= _ <-]. Qed.

Lemma update_spec_audits s w u w' : update_spec s w = Ok (u, w') -> audits w' = audits w.
Proof. unfold update_spec. by case_match; intros [= _ <-]. Qed.
Lemma put_events_audits ctx records w : audits (put_events ctx records w) = audits w.
Proof. revert w. induction records as [|r rest IH]; intros w; [done |]. simpl. by rewrite IH. Qed.

Lemma st_update s : stable (Update s).
Proof. eapply st_atomic; [apply update_refines |]. intros w u w' Hw Hs. by rewrite (update_spec_audits _ _ _ _ Hs). Qed.
Lemma st_update_audit s audit : stable (UpdateWithAudit s audit).
Proof.
  eapply st_atomic; [apply update_audit_refines |]. intros w u w' Hw Hs. unfold update_audit_spec in Hs.
  destruct (update_spec s w) as [[u1 w1] |] eqn:Hu; [| done]. injection Hs as _ <-. apply I_insert.
  by rewrite (update_spec_audits _ _ _ _ Hu).
Qed.
Lemma st_update_outbox ctx s records audit : stable (UpdateWithOutboxAndAudit ctx s records audit).
Proof.
  eapply st_atomic; [apply update_outbox_refines |]. intros w u w' Hw Hs. unfold update_outbox_spec in Hs.
  rewrite (update_spec_audits _ _ _ _ Hs). apply I_insert. by rewrite put_events_audits.
Qed.
Lemma st_audit audit : stable (RecordFraudAudit audit).
Proof. eapply st_atomic; [apply audit_refines |]. intros w [] w' Hw [= <-]. by apply I_insert. Qed.
Lemma st_event ctx topic key payload : stable (EnqueueEvent ctx topic key payload).
Proof. eapply st_atomic; [apply event_refines |]. by intros w [] w' Hw [= <-]. Qed.
Lemma st_create s : stable (Create s).
Proof.
  eapply st_atomic; [apply create_refines |]. intros w u w' Hw Hs. unfold create_spec in Hs.
  destruct (stmt_insert_saga s w) as [[row w1] |] eqn:Hi.
  - injection Hs as _ <-. unfold stmt_insert_saga in Hi. repeat case_match; try done. by simplify_eq.
  - repeat case_match; try done; by simplify_eq.
Qed.
Lemma st_delete before limit : stable (DeleteFraudAuditBefore before limit).
Proof. eapply st_atomic; [apply refines_exec |]. intros w n w' Hw Hs. by eapply I_delete. Qed.

(** [keep_with] walks through a handler, closing with [known] the programs that it calls. *)
Ltac keep_with known :=
  repeat first
    [ known | apply st_ret | apply st_throw | apply st_lift | apply st_guard
    | apply st_now | apply st_query | apply st_call | apply st_get | apply st_update | apply st_update_audit
    | apply st_update_outbox | apply st_audit | apply st_event | apply st_create | apply st_delete
    | apply st_attempt | apply st_bind; [| intros ?] | case_match ].
Ltac keep := keep_with fail.

Section Handlers.
Variable ctx : context.

Lemma st_advance s : stable (advance ctx s).
Proof.
  unfold advance, in_state, check_verification, failUnverified, debit_wallet, reserve_ledger, execute_payment,
    updateWithOutbox, UpdateWithOutbox. keep.
Qed.
Lemma st_completed e : stable (HandlePaymentCompleted ctx e).
Proof. unfold HandlePaymentCompleted, deferPaymentCompleted, publishTxCompleted, recordFraudAudit, updateWithAudit. keep. Qed.
Lemma st_failed e : stable (HandlePaymentFailed ctx e).
Proof. unfold HandlePaymentFailed, deferPaymentFailed, publishTxFailed, recordFraudAudit, updateWithAudit. keep. Qed.
Lemma st_flagged f : stable (HandleFraudFlagged ctx f).
Proof. unfold HandleFraudFlagged, recordFraudAudit, updateWithAudit, updateWithOutboxAndAudit. cbv zeta. keep. Qed.
Lemma st_compensation s b : stable (resumeCompensation ctx s b).
Proof. unfold resumeCompensation, refund_and_fail, publishTxFailed. keep. Qed.
Lemma st_resume_one s : stable (resumeOne ctx s).
Proof.
  unfold resumeOne, publishTxCompleted. keep_with ltac:(first [apply st_advance | apply st_compensation]).
Qed.
Lemma st_resume_all l : stable (resume_all ctx l).
Proof. induction l; simpl; keep_with ltac:(first [apply st_resume_one | apply IHl]). Qed.
Lemma st_deferred payload trace : stable (applyDeferredResult ctx payload trace).
Proof. unfold applyDeferredResult, decoded. keep_with ltac:(first [apply st_completed | apply st_failed]). Qed.
Lemma st_reject d : stable (RejectFraudReview ctx d).
Proof. unfold RejectFraudReview, updateWithAudit. cbv zeta. keep_with ltac:(apply st_compensation). Qed.
Lemma st_expire_all ttl deadline l : stable (expire_all ctx ttl deadline l).
Proof.
  induction l as [|s l IH]; simpl; [apply st_ret |]. case_match; [exact IH |].
  apply st_bind; [apply st_attempt, st_reject |]. intros r. apply st_bind; [exact IH |]. intros [n l']. keep.
Qed.
Lemma st_sweep fuel retention batch : stable (Sweep fuel retention batch).
Proof.
  unfold Sweep. case_match; [apply st_ret |]. apply st_bind; [apply st_now |]. intros now. generalize 0 as deleted.
  induction fuel as [|fuel IH]; intros deleted; simpl; keep_with ltac:(apply IH).
Qed.

(** Every input keeps it. *)
Lemma handle_stable i : stable (handle ctx i).
Proof.
  destruct i; simpl; unfold StartPaymentSaga, ResumeFraudReview, updateWithAudit, ResumeNonTerminal, ExpireFraudReviews,
    ListNonTerminal, listSagas; cbv zeta;
    keep_with ltac:(first [apply st_advance | apply st_completed | apply st_failed | apply st_flagged | apply st_reject
      | apply st_deferred | apply st_resume_all | apply st_expire_all | apply st_sweep]).
Qed.
End Handlers.

Lemma runs_stable `{!RemoteContract W} w0 w : I (audits w0) -> runs w0 w -> I (audits w).
Proof.
  intros Hw0. induction 1 as [| ctx i w s Hr IH | |]; try done.
  pose proof (wp_elim _ _ _ (handle_stable ctx i w s IH)) as [_ Hi]. by destruct (fst _).
Qed.
End Stable.

(** ** An event is recorded once *)

Definition event_id (a : AuditRow.t) : string := a.(AuditRow.record).(FraudAuditRecord.EventID).

Section Trail.
Context {W : Type} `{HR : Remote W} `{!RemoteContract W} `{Clock} `{Postgres} `{Uuid}.
Implicit Types w : world W.

Lemma insert_unique audit w :
  NoDup (event_id <$> audits w) -> NoDup (event_id <$> audits (put_audit audit w)).
Proof.
  intros Hnd. unfold put_audit. case_match; [done |]. unfold stmt_insert_audit.
  destruct (existsb _ (audits w)) eqn:He; simpl; [done |]. apply NoDup_fmap_snoc; [done |]. simpl.
  intros Hin. apply list_elem_of_fmap in Hin as (a & Ha & Hel). apply Bool.not_true_iff_false in He. apply He.
  apply existsb_exists. exists a. split; [by apply list_elem_of_In |]. unfold audit_is. apply String.eqb_eq. done.
Qed.

Lemma delete_unique before limit w n w' :
  NoDup (event_id <$> audits w) -> stmt_delete_audits before limit w = Ok (n, w') -> NoDup (event_id <$> audits w').
Proof.
  intros Hnd. unfold stmt_delete_audits. case_match; [done |]. intros [= _ <-]. simpl.
  eapply sublist_NoDup; [exact Hnd |]. apply fmap_sublist, sublist_filter.
Qed.

(** The audit trail records an event at most once: in every run, under any
    redelivery and any loss of round trips, no two rows carry the same event id. *)
Theorem audit_trail_has_no_duplicates w0 w :
  NoDup (event_id <$> audits w0) -> runs w0 w -> NoDup (event_id <$> audits w).
Proof. apply (runs_stable (fun l => NoDup (event_id <$> l))); [apply insert_unique | apply delete_unique]. Qed.

(** ** The sweeper *)

Lemma taken_elem {A} n (l : list A) x : x ∈ take n l -> x ∈ l.
Proof. intros Hx. rewrite <- (take_drop n l). apply elem_of_app. by left. Qed.

Lemma by_id (l : list AuditRow.t) a b :
  NoDup (AuditRow.id <$> l) -> a ∈ l -> b ∈ l -> a.(AuditRow.id) = b.(AuditRow.id) -> a = b.
Proof.
  intros Hnd [i Hi]%list_elem_of_lookup [j Hj]%list_elem_of_lookup Hid.
  assert (i = j) as ->; [| congruence].
  eapply (NoDup_lookup (AuditRow.id <$> l)); [done | |]; rewrite list_lookup_fmap.
  - by rewrite Hi.
  - rewrite Hj. simpl. by rewrite Hid.
Qed.

Lemma doomed_expired before limit w a :
  NoDup (AuditRow.id <$> audits w) -> a ∈ audits w -> a.(AuditRow.id) ∈ doomed before limit w ->
  expired_audit before w a.
Proof.
  intros Hnd Ha Hd. unfold doomed in Hd. apply list_elem_of_fmap in Hd as (b & Hid & Hb).
  assert (b ∈ merge_sort created_before (filter (expired_audit before w) (audits w))) as Hb'.
  { by eapply taken_elem. }
  rewrite merge_sort_Permutation in Hb'. apply list_elem_of_filter in Hb' as [Hexp Hin].
  by rewrite (by_id (audits w) a b).
Qed.

(** What a batch keeps. *)
Definition kept before limit w : list AuditRow.t :=
  filter (fun a => a.(AuditRow.id) ∉ doomed before limit w) (audits w).

Lemma partition_length {A} (P : A -> Prop) `{!forall x, Decision (P x)} (l : list A) :
  length l = (length (filter P l) + length (filter (fun x => ~ P x) l))%nat.
Proof.
  induction l as [|x l IH]; [done |]. destruct (decide (P x)) as [Hp | Hp].
  - rewrite (filter_cons_True P) by done. rewrite (filter_cons_False (fun x => ~ P x)) by tauto. simpl. lia.
  - rewrite (filter_cons_False P) by done. rewrite (filter_cons_True (fun x => ~ P x)) by done. simpl. lia.
Qed.

(** How many rows a batch removes. *)
Lemma batch_count before limit w :
  NoDup (AuditRow.id <$> audits w) -> 0 <= limit ->
  (length (kept before limit w) + Nat.min (Z.to_nat limit) (length (filter (expired_audit before w) (audits w)))
   = length (audits w))%nat.
Proof.
  intros Hnd Hl. set (E := filter (expired_audit before w) (audits w)).
  set (D := take (Z.to_nat limit) (merge_sort created_before E)).
  assert (length D = Nat.min (Z.to_nat limit) (length E)) as HD.
  { unfold D. rewrite length_take. f_equal. apply Permutation_length, merge_sort_Permutation. }
  assert (NoDup (AuditRow.id <$> E)) as HndE.
  { eapply sublist_NoDup; [exact Hnd |]. apply fmap_sublist, sublist_filter. }
  assert (NoDup (AuditRow.id <$> D)) as HndD.
  { apply (sublist_NoDup (AuditRow.id <$> D) (AuditRow.id <$> merge_sort created_before E)).
    - by rewrite merge_sort_Permutation.
    - apply fmap_sublist, sublist_take. }
  assert (filter (fun a => a.(AuditRow.id) ∈ doomed before limit w) (audits w) ≡ₚ D) as HP.
  { apply NoDup_Permutation.
    - apply (NoDup_fmap_1 AuditRow.id). eapply sublist_NoDup; [exact Hnd |]. apply fmap_sublist, sublist_filter.
    - by apply (NoDup_fmap_1 AuditRow.id).
    - intros a. rewrite list_elem_of_filter. unfold doomed. fold E D. rewrite list_elem_of_fmap. split.
      + intros [(b & Hid & Hb) Ha].
        assert (b ∈ audits w) as Hbw.
        { assert (b ∈ E) as HbE; [| by apply list_elem_of_filter in HbE as [_ ?]].
          rewrite <- (merge_sort_Permutation created_before E). by eapply taken_elem. }
        by rewrite (by_id (audits w) a b).
      + intros Ha. split; [by exists a |].
        assert (a ∈ E) as HaE; [| by apply list_elem_of_filter in HaE as [_ ?]].
        rewrite <- (merge_sort_Permutation created_before E). by eapply taken_elem. }
  rewrite <- HD, <- HP, Nat.add_comm. symmetry. unfold kept.
  apply (partition_length (fun a => a.(AuditRow.id) ∈ doomed before limit w)).
Qed.

Lemma filter_ext_in {A} (P Q : A -> Prop) `{!forall x, Decision (P x)} `{!forall x, Decision (Q x)} (l : list A) :
  (forall x, x ∈ l -> P x <-> Q x) -> filter P l = filter Q l.
Proof.
  induction l as [|x l IH]; [done |]. intros Hl.
  assert (P x <-> Q x) as Hx by (apply Hl; set_solver).
  destruct (decide (P x)) as [Hp | Hp].
  - rewrite (filter_cons_True P), (filter_cons_True Q) by tauto. f_equal. apply IH. set_solver.
  - rewrite (filter_cons_False P), (filter_cons_False Q) by tauto. apply IH. set_solver.
Qed.

(** The rows a sweep leaves. *)
Definition unexpired before w : list AuditRow.t := filter (fun a => ~ expired_audit before w a) (audits w).

Lemma kept_unexpired before limit w :
  NoDup (AuditRow.id <$> audits w) -> unexpired before (with_audits (kept before limit w) w) = unexpired before w.
Proof.
  intros Hnd. unfold unexpired, kept. simpl. rewrite list_filter_filter. apply filter_ext_in. intros a Ha.
  split; [by intros [? _] |]. intros Hn. split; [done |]. intros Hd. by apply Hn, (doomed_expired before limit).
Qed.

Lemma kept_last before limit w :
  NoDup (AuditRow.id <$> audits w) ->
  (length (filter (expired_audit before w) (audits w)) <= Z.to_nat limit)%nat ->
  kept before limit w = unexpired before w.
Proof.
  intros Hnd Hlen. apply filter_ext_in. intros a Ha. split.
  - intros Hn Hexp. apply Hn. unfold doomed. apply list_elem_of_fmap. exists a. split; [done |].
    rewrite take_ge by (rewrite (Permutation_length (merge_sort_Permutation created_before _)); exact Hlen).
    rewrite merge_sort_Permutation. by apply list_elem_of_filter.
  - intros Hn Hd. by apply Hn, (doomed_expired before limit).
Qed.

Lemma sweep_loop before batch fuel : forall w deleted,
  NoDup (AuditRow.id <$> audits w) -> 0 < batch ->
  (length (filter (expired_audit before w) (audits w)) < fuel)%nat ->
  0 <= deleted -> deleted + Z.of_nat (length (filter (expired_audit before w) (audits w))) < 2 ^ 63 ->
  yields (sweep_batches fuel before batch deleted) w
    (Ok (Some (deleted + Z.of_nat (length (filter (expired_audit before w) (audits w))))))
    (with_audits (unexpired before w) w).
Proof.
  induction fuel as [|fuel IH]; intros w deleted Hnd Hb Hf Hd Hmax; [lia |]. simpl.
  pose proof (batch_count before batch w Hnd ltac:(lia)) as Hcount.
  pose proof (partition_length (expired_audit before w) (audits w)) as Hpart.
  set (n := length (filter (expired_audit before w) (audits w))) in *.
  eapply (yields_bind _ _ _ (Z.of_nat (Nat.min (Z.to_nat batch) n)) (with_audits (kept before batch w) w)).
  { unfold yields, DeleteFraudAuditBefore, stmt_delete_audits. run_conn.
    rewrite (proj2 (Z.ltb_ge _ _)) by lia. fold (kept before batch w). do 2 f_equal. lia. }
  cbv zeta. rewrite wrap64_id by (unfold int64; lia).
  destruct (Z.ltb_spec (Z.of_nat (Nat.min (Z.to_nat batch) n)) batch) as [Hlt | Hge].
  - rewrite (kept_last before batch w Hnd) by lia. rewrite Nat.min_r by lia. apply yields_ret.
  - set (w1 := with_audits (kept before batch w) w).
    assert (unexpired before w1 = unexpired before w) as Hun by (by apply kept_unexpired).
    assert (length (filter (expired_audit before w1) (audits w1)) = (n - Z.to_nat batch)%nat) as Hn1.
    { pose proof (partition_length (expired_audit before w1) (audits w1)) as Hpart1.
      change (filter (fun x => ~ expired_audit before w1 x) (audits w1)) with (unexpired before w1) in Hpart1.
      rewrite Hun in Hpart1.
      change (length (audits w1)) with (length (kept before batch w)) in Hpart1.
      unfold unexpired in Hpart1. lia. }
    replace (with_audits (unexpired before w) w) with (with_audits (unexpired before w1) w1)
      by (by rewrite Hun).
    replace (deleted + Z.of_nat n) with (deleted + Z.of_nat (Nat.min (Z.to_nat batch) n) +
      Z.of_nat (length (filter (expired_audit before w1) (audits w1)))) by lia.
    apply IH; [| done | lia | lia | lia].
    eapply sublist_NoDup; [exact Hnd |]. apply fmap_sublist, sublist_filter.
Qed.

(** C19: a sweep ends and removes exactly what may go: with a positive retention and
    batch size, the loop of [Sweep] stops, the rows it leaves are those that are
    younger than the cutoff or belong to a payment still in flight, in their order,
    and its count is the number of rows it removed. *)
Theorem sweep_removes_exactly_expired w retention batch fuel :
  let cutoff := time_Add (clock_at (clock_reads w)) (- retention) in
  let expired := filter (expired_audit cutoff w) (audits w) in
  NoDup (AuditRow.id <$> audits w) -> 0 < retention -> 0 < batch ->
  (length (audits w) < fuel)%nat -> Z.of_nat (length (audits w)) < 2 ^ 63 ->
  yields (Sweep fuel retention batch) w (Ok (Some (Z.of_nat (length expired))))
    (with_audits (unexpired cutoff w) (tick w)).
Proof.
  intros cutoff expired Hnd Hr Hb Hf Hmax. unfold Sweep. rewrite (proj2 (Z.leb_gt _ _)) by lia.
  eapply yields_bind; [apply y_now |]. fold cutoff.
  pose proof (partition_length (expired_audit cutoff w) (audits w)).
  replace (Z.of_nat (length expired)) with (0 + Z.of_nat (length expired)) by lia.
  pose proof (sweep_loop cutoff batch fuel (tick w) 0 Hnd Hb) as Hloop.
  change (filter (expired_audit cutoff (tick w)) (audits (tick w))) with expired in Hloop.
  unfold expired in *. apply Hloop; lia.
Qed.

(** The trail a sweep leaves, under the fault schedule [s]. *)
Definition trail_after_sweep (fuel : nat) (retention batch : Z) (w : world W) (s : list fault) : list AuditRow.t :=
  audits (committed (snd (Sweep fuel retention batch (Conn w None s)))).

(** The sweeper never touches the trail of a payment in flight: whatever round
    trips are lost, a row whose saga has not ended is still there after a sweep. *)
Theorem sweep_spares_open_payments w s fuel retention batch a row :
  NoDup (AuditRow.id <$> audits w) -> a ∈ audits w ->
  sagas w !! a.(AuditRow.record).(FraudAuditRecord.PaymentID) = Some row -> terminal row.(SagaRow.state) = false ->
  a ∈ trail_after_sweep fuel retention batch w s.
Proof.
  intros Hnd Ha Hrow Hst.
  set (P := fun w' : world W => NoDup (AuditRow.id <$> audits w') /\ a ∈ audits w' /\ sagas w' = sagas w).
  assert (forall before limit, triple P (DeleteFraudAuditBefore before limit) (fun _ => P) P) as Hdel.
  { intros before limit. eapply triple_refines; [apply (refines_exec _ anywhere) |].
    intros w1 (Hnd1 & Ha1 & Hs1). split; [done |]. split; [done |]. intros n w2 Hd. unfold stmt_delete_audits in Hd.
    case_match; [done |]. injection Hd as _ <-. enough (P (with_audits (kept before limit w1) w1)) by done.
    split; [eapply sublist_NoDup; [exact Hnd1 |]; apply fmap_sublist, sublist_filter |]. split; [| done].
    apply list_elem_of_filter. split; [| done]. intros Hd%doomed_expired; [| done | done].
    destruct Hd as [_ Hd]. rewrite Hs1, Hrow in Hd. congruence. }
  enough (triple P (Sweep fuel retention batch) (fun _ => P) P) as Hsweep.
  { destruct (wp_elim _ _ _ (Hsweep w s (conj Hnd (conj Ha eq_refl)))) as [_ Hp]. destruct (fst _); apply Hp. }
  unfold Sweep. case_match; [by apply triple_ret |]. eapply triple_bind; [by apply (triple_now P) |]. intros now.
  generalize 0 as deleted. induction fuel as [|fuel IH]; intros deleted; simpl; [by apply triple_ret |].
  eapply triple_bind; [apply Hdel |]. intros count. case_match; [by apply triple_ret | apply IH].
Qed.
End Trail.
