(* ===== verification/Platform.v ===== *)
(** * Platform: the orchestrator's gRPC clients and the services behind them.

    [internal/saga/grpc_clients.go] over [WalletServer], [LedgerServer] and
    [VerificationServer].  The wallet and the ledger work on one database
    ([Database.tables]), the verification service on its own.  A client call is a
    request to the server; its effect is the server's contract, which the server's
    refinement theorem establishes, and losing the round trip is the fault of the
    call itself.  The contract the saga is proved against is discharged here. *)

From S2P Require Import Prelude GoStrings Domain GoTime Json Database Outbox Fixtures.
From S2P Require Import WalletRepo LedgerRepo LedgerPages WalletService Accounts Verification.
From S2P Require Import Grpc WalletServer LedgerServer VerificationServer.
From S2P Require Import SagaTypes SagaStore Orchestrator FraudReview SagaSafety SagaRuns.

#[local] Open Scope string_scope.
#[local] Open Scope Z_scope.

Record platform := Platform { accounts : tables; identities : Verification.vtables }.

Definition with_accounts (t : tables) (r : platform) : platform := Platform t (identities r).

Section Clients.
Context `{Postgres} `{Uuid}.

(** A call that writes: its answer read from the response, its error wrapped. *)
Definition answer {A B} (f : A -> B) (r : platform) (o : res status (A * tables)) : res saga_error (B * platform) :=
  match o with
  | Ok (a, t) => Ok (f a, with_accounts t r)
  | Err st => Err (ErrRemote st)
  end.

Definition VerificationGRPCClient_GetStatus (req : VerificationRequest.t) (r : platform) : res saga_error string :=
  match VerificationServer.status_spec req.(VerificationRequest.UserID) (identities r) with
  | Ok (resp, _) => Ok resp.(VerificationServer.GetStatusResponse.Status)
  | Err st => if bool_decide (Code st = NotFound) then Err ErrVerificationNotFound else Err (ErrRemote st)
  end.

Definition debit_message (req : WalletDebitRequest.t) : WalletServer.DebitForSagaRequest.t :=
  WalletServer.DebitForSagaRequest.mk req.(WalletDebitRequest.PaymentID) req.(WalletDebitRequest.IdempotencyKey)
    req.(WalletDebitRequest.TraceID) req.(WalletDebitRequest.FromWalletID)
    req.(WalletDebitRequest.AmountCents) req.(WalletDebitRequest.Currency).

Definition WalletGRPCClient_DebitForSaga (req : WalletDebitRequest.t) (r : platform) : res saga_error (string * platform) :=
  answer WalletServer.DebitForSagaResponse.WalletDebitId r
    (WalletServer.debit_rpc_spec (debit_message req) (accounts r)).

Definition compensate_message (req : WalletCompensateRequest.t) : WalletServer.CompensateDebitRequest.t :=
  WalletServer.CompensateDebitRequest.mk req.(WalletCompensateRequest.PaymentID)
    req.(WalletCompensateRequest.IdempotencyKey) req.(WalletCompensateRequest.TraceID)
    req.(WalletCompensateRequest.FromWalletID) req.(WalletCompensateRequest.WalletDebitID)
    req.(WalletCompensateRequest.AmountCents) req.(WalletCompensateRequest.Currency)
    req.(WalletCompensateRequest.Reason).

Definition WalletGRPCClient_CompensateDebit (req : WalletCompensateRequest.t) (r : platform)
    : res saga_error (unit * platform) :=
  answer (fun _ => tt) r (WalletServer.compensate_rpc_spec (compensate_message req) (accounts r)).

Definition reserve_message (req : LedgerReserveRequest.t) : LedgerServer.ReserveTransferRequest.t :=
  LedgerServer.ReserveTransferRequest.mk req.(LedgerReserveRequest.PaymentID)
    req.(LedgerReserveRequest.IdempotencyKey) req.(LedgerReserveRequest.TraceID)
    req.(LedgerReserveRequest.FromWalletID) req.(LedgerReserveRequest.ToWalletID)
    req.(LedgerReserveRequest.AmountCents) req.(LedgerReserveRequest.Currency).

Definition LedgerGRPCClient_ReserveTransfer (req : LedgerReserveRequest.t) (r : platform)
    : res saga_error (string * platform) :=
  answer LedgerServer.ReservationResponse.LedgerReservationId r
    (LedgerServer.reserve_rpc_spec (reserve_message req) (accounts r)).

Definition confirm_message (req : LedgerConfirmRequest.t) : LedgerServer.ConfirmTransferRequest.t :=
  LedgerServer.ConfirmTransferRequest.mk req.(LedgerConfirmRequest.PaymentID)
    req.(LedgerConfirmRequest.IdempotencyKey) req.(LedgerConfirmRequest.TraceID)
    req.(LedgerConfirmRequest.LedgerReservationID) req.(LedgerConfirmRequest.WalletDebitID).

Definition LedgerGRPCClient_ConfirmTransfer (req : LedgerConfirmRequest.t) (r : platform)
    : res saga_error (LedgerConfirmResult.t * platform) :=
  answer (fun resp => LedgerConfirmResult.mk resp.(LedgerServer.ConfirmTransferResponse.TransferId)
                        resp.(LedgerServer.ConfirmTransferResponse.CompletedAt)) r
    (LedgerServer.confirm_rpc_spec (confirm_message req) (accounts r)).

Definition cancel_message (req : LedgerCancelRequest.t) : LedgerServer.CancelReservationRequest.t :=
  LedgerServer.CancelReservationRequest.mk req.(LedgerCancelRequest.PaymentID)
    req.(LedgerCancelRequest.IdempotencyKey) req.(LedgerCancelRequest.TraceID)
    req.(LedgerCancelRequest.LedgerReservationID) req.(LedgerCancelRequest.Reason).

Definition LedgerGRPCClient_CancelReservation (req : LedgerCancelRequest.t) (r : platform)
    : res saga_error (unit * platform) :=
  answer (fun _ => tt) r (LedgerServer.cancel_rpc_spec (cancel_message req) (accounts r)).

#[export] Instance platform_remote : Remote platform := {
  remote_GetStatus := VerificationGRPCClient_GetStatus;
  remote_DebitForSaga := WalletGRPCClient_DebitForSaga;
  remote_CompensateDebit := WalletGRPCClient_CompensateDebit;
  remote_ReserveTransfer := LedgerGRPCClient_ReserveTransfer;
  remote_ConfirmTransfer := LedgerGRPCClient_ConfirmTransfer;
  remote_CancelReservation := LedgerGRPCClient_CancelReservation
}.

(** ** What the platform says of a payment *)

Definition reservation_is (st p : string) (r : platform) : Prop :=
  exists u row, uuid_Parse p = Some u /\ reservations (accounts r) !! u = Some row /\
    row.(ReservationRow.status) = st.

Definition refunded (p : string) (r : platform) : Prop :=
  exists u o, uuid_Parse p = Some u /\
    find_operation u SagaWalletOperationCompensation (accounts r) = Some o.

(** A step of the accounts that refunds nobody. *)
Definition quiet_step (t t' : tables) : Prop :=
  wf t' /\ rows_step t t' /\
  forall u o, find_operation u SagaWalletOperationCompensation t' = Some o ->
    exists o', find_operation u SagaWalletOperationCompensation t = Some o'.

(** Between two calls of the saga others open wallets, transfer money, settle
    transfers in the ledger and submit identities, and time passes. *)
Inductive others (r : platform) : platform -> Prop :=
| others_wallet w t' : w.(Wallet.ID) = fresh (accounts r) -> w.(Wallet.Balance) = 0 ->
    t' = used (with_wallets (<[fresh (accounts r) := w]> (wallets (accounts r))) (accounts r)) ->
    others r (with_accounts t' r)
| others_transfer topic ctx u f g a x t' :
    transfer_spec topic ctx u f g a (accounts r) = Ok (x, t') -> others r (with_accounts t' r)
| others_append x t' : append_spec x (accounts r) = Ok (tt, t') -> others r (with_accounts t' r)
| others_identity v : others r (Platform (accounts r) v)
| others_time n : others r (with_accounts (with_now n (accounts r)) r).
End Clients.

Section Contract.
Context `{Postgres} `{!PostgresOk} `{Uuid}.

Lemma rows_step_keeps st t t' u row :
  st <> LedgerReservationReserved -> rows_step t t' -> reservations t !! u = Some row ->
  row.(ReservationRow.status) = st ->
  exists row', reservations t' !! u = Some row' /\ row'.(ReservationRow.status) = st.
Proof.
  intros Hst Hs Hu Hrow. destruct (Hs u row Hu) as (row' & Hu' & Hstep). exists row'. split; [done |].
  destruct Hstep as [| x d at_ Hr | reason at_ Hr]; [done | congruence..].
Qed.

Lemma quiet_step_keeps r t' :
  quiet_step (accounts r) t' ->
  wf t' /\ (forall p, reservation_is LedgerReservationCanceled p r -> reservation_is LedgerReservationCanceled p (with_accounts t' r)) /\
  (forall p, reservation_is LedgerReservationConfirmed p r -> reservation_is LedgerReservationConfirmed p (with_accounts t' r)) /\
  (forall p, refunded p (with_accounts t' r) -> refunded p r).
Proof.
  intros (Hwf & Hrows & Hcomp). split; [done |]. repeat split.
  - intros p (u & row & Hp & Hu & Hst). destruct (rows_step_keeps LedgerReservationCanceled (accounts r) t' u row)
      as (row' & ? & ?); [done.. |]. by exists u, row'.
  - intros p (u & row & Hp & Hu & Hst). destruct (rows_step_keeps LedgerReservationConfirmed (accounts r) t' u row)
      as (row' & ? & ?); [done.. |]. by exists u, row'.
  - intros p (u & o & Hp & Ho). apply Hcomp in Ho as [o' Ho]. by exists u, o'.
Qed.

(** A granted request other than a compensation is such a step. *)
Lemma quiet_frame t t' :
  wf t -> granted t t' ->
  (forall u, find_operation u SagaWalletOperationCompensation t' = find_operation u SagaWalletOperationCompensation t) ->
  quiet_step t t'.
Proof.
  intros Hwf Hg Hop. split; [by eapply granted_wf |]. split; [by eapply granted_rows |].
  intros u o Ho. exists o. by rewrite <- Hop.
Qed.

Lemma find_operation_frame t t' u :
  saga_wallet_operations t' = saga_wallet_operations t ->
  find_operation u SagaWalletOperationCompensation t' = find_operation u SagaWalletOperationCompensation t.
Proof. unfold find_operation. by intros ->. Qed.

Lemma debit_quiet cmd t o t' : wf t -> debit_spec cmd t = Ok (o, t') -> quiet_step t t'.
Proof.
  intros Hwf Hs. apply quiet_frame; [done | by eapply granted_debit |]. intros u. destruct cmd.
  apply debit_spec_inv in Hs as [[_ ->] | (w & _ & _ & _ & _ & -> & ->)]; [done |].
  rewrite find_operation_add. autorewrite with tables. case_match; [done |].
  unfold operation_is. simpl. by rewrite andb_false_r.
Qed.

Lemma reserve_quiet cmd t a t' : wf t -> reserve_spec cmd t = Ok (a, t') -> quiet_step t t'.
Proof.
  intros Hwf Hs. apply quiet_frame; [done | by eapply granted_reserve |]. intros u. apply find_operation_frame.
  by apply reserve_spec_inv in Hs as (? & _ & _ & [-> | (_ & -> & _)]).
Qed.

Lemma confirm_quiet cmd t a t' :
  wf t -> confirm_spec cmd t = Ok (a, t') ->
  quiet_step t t' /\ exists row, reservations t' !! cmd.(LedgerConfirmCommand.PaymentID) = Some row /\
    row.(ReservationRow.status) = LedgerReservationConfirmed.
Proof.
  intros Hwf Hs. split.
  - apply quiet_frame; [done | by eapply granted_confirm |]. intros u. apply find_operation_frame.
    by apply confirm_spec_inv in Hs as (? & _ & _ & _ & [-> | (? & ? & ? & _ & _ & _ & -> & ->)]).
  - apply confirm_spec_inv in Hs as (row & ? & ? & _); [by exists row | done].
Qed.

Lemma cancel_quiet cmd t a t' :
  wf t -> cancel_spec cmd t = Ok (a, t') ->
  quiet_step t t' /\ exists row, reservations t' !! cmd.(LedgerCancelCommand.PaymentID) = Some row /\
    row.(ReservationRow.status) = LedgerReservationCanceled.
Proof.
  intros Hwf Hs. split.
  - apply quiet_frame; [done | by eapply granted_cancel |]. intros u. apply find_operation_frame.
    by apply cancel_spec_inv in Hs as (? & _ & _ & _ & [-> | (? & _ & _ & -> & ->)]).
  - apply cancel_spec_inv in Hs as (row & ? & ? & _); [by exists row | done].
Qed.

Lemma answer_inv {A B} (f : A -> B) r (o : res status (A * tables)) b r' :
  answer f r o = Ok (b, r') -> exists a t', o = Ok (a, t') /\ r' = with_accounts t' r.
Proof. unfold answer. destruct o as [[a t'] |]; [| done]. intros [= <- <-]. eauto. Qed.

Lemma debit_call q r a r' :
  wf (accounts r) -> remote_DebitForSaga q r = Ok (a, r') ->
  exists t', r' = with_accounts t' r /\ quiet_step (accounts r) t'.
Proof.
  intros Hwf (resp & t' & Hs & ->)%answer_inv. exists t'. split; [done |].
  apply WalletServer.debit_rpc_inv in Hs as ([p w c cur key] & o & _ & Hs & _).
  apply Service.debit_service_spec_inv in Hs as [Hs _]. by eapply debit_quiet.
Qed.

Lemma reserve_call q r a r' :
  wf (accounts r) -> remote_ReserveTransfer q r = Ok (a, r') ->
  exists t', r' = with_accounts t' r /\ quiet_step (accounts r) t'.
Proof.
  intros Hwf (resp & t' & Hs & ->)%answer_inv. exists t'. split; [done |].
  apply LedgerServer.reserve_rpc_inv in Hs as (cmd & o & _ & Hs & _). by eapply reserve_quiet.
Qed.

Lemma confirm_remote_call q r a r' :
  wf (accounts r) -> remote_ConfirmTransfer q r = Ok (a, r') ->
  exists t', r' = with_accounts t' r /\ quiet_step (accounts r) t' /\
    reservation_is LedgerReservationConfirmed q.(LedgerConfirmRequest.PaymentID) r'.
Proof.
  intros Hwf (resp & t' & Hs & ->)%answer_inv. exists t'. split; [done |].
  apply LedgerServer.confirm_rpc_inv in Hs as (cmd & o & Hp & Hs & _).
  apply confirm_quiet in Hs as (Hq & row & Hu & Hst); [| done]. split; [done |].
  by exists cmd.(LedgerConfirmCommand.PaymentID), row.
Qed.

Lemma cancel_remote_call q r a r' :
  wf (accounts r) -> remote_CancelReservation q r = Ok (a, r') ->
  exists t', r' = with_accounts t' r /\ quiet_step (accounts r) t' /\
    reservation_is LedgerReservationCanceled q.(LedgerCancelRequest.PaymentID) r'.
Proof.
  intros Hwf (resp & t' & Hs & ->)%answer_inv. exists t'. split; [done |].
  apply LedgerServer.cancel_rpc_inv in Hs as (cmd & o & Hp & Hs & _).
  apply cancel_quiet in Hs as (Hq & row & Hu & Hst); [| done]. split; [done |].
  by exists cmd.(LedgerCancelCommand.PaymentID), row.
Qed.

(** A compensation refunds the payment it names and no other. *)
Lemma compensate_remote_call q r a r' :
  wf (accounts r) -> remote_CompensateDebit q r = Ok (a, r') ->
  exists t', r' = with_accounts t' r /\ wf t' /\ rows_step (accounts r) t' /\
    forall p, refunded p r' ->
      refunded p r \/ uuid_Parse p = uuid_Parse q.(WalletCompensateRequest.PaymentID).
Proof.
  intros Hwf (resp & t' & Hs & ->)%answer_inv. exists t'. split; [done |].
  apply WalletServer.compensate_rpc_inv in Hs as (cmd & o & Hp & Hs & _).
  apply Service.compensate_service_spec_inv in Hs as [cur Hs].
  assert (granted (accounts r) t') as Hg by by eapply granted_compensate.
  split; [by eapply granted_wf |]. split; [by eapply granted_rows |].
  simpl in Hp. intros p (u & op & Hu & Hop). destruct cmd as [cp cw cd ca cc ck cr]. simpl in Hp.
  apply compensate_spec_inv in Hs as [[_ ->] | (d & w & Hn & _ & _ & _ & _ & -> & ->)]; [left; by exists u, op |].
  simpl in Hop. rewrite find_operation_add in Hop. autorewrite with tables in Hop.
  destruct (find_operation u _ (accounts r)) as [op'|] eqn:Hold; [left; by exists u, op' |]. right.
  destruct (operation_is u _ _) eqn:Hb; [| done]. apply operation_is_true in Hb as [Hb _]. simpl in Hb. congruence.
Qed.

Lemma others_quiet r r' :
  wf (accounts r) -> others r r' -> quiet_step (accounts r) (accounts r').
Proof.
  intros Hwf [w t' Hid Hb -> | topic ctx u f g a x t' Hs | x t' Hs | v | n]; simpl.
  - apply quiet_frame; [done | by eapply granted_wallet | done].
  - apply quiet_frame; [done | by eapply granted_transfer |]. intros u'.
    apply transfer_spec_inv in Hs as (from & to & e & x0 & -> & _).
    apply find_operation_frame. simpl. by autorewrite with tables.
  - apply quiet_frame; [done | by eapply granted_append |]. intros u'. apply find_operation_frame.
    by apply append_spec_inv in Hs as [-> | (? & ? & -> & _)].
  - split; [done |]. split; [by apply rows_step_frame |]. eauto.
  - split; [by apply wf_with_now |]. split; [by apply rows_step_frame |]. intros u o Ho. by exists o.
Qed.

#[export] Instance platform_contract : RemoteContract platform.
Proof.
  refine {|
    remote_ok r := wf (accounts r);
    canceled := reservation_is LedgerReservationCanceled;
    confirmed := reservation_is LedgerReservationConfirmed;
    compensated := refunded;
    remote_env := others
  |}.
  - intros p r _ (u & row & Hp & Hu & Hst) (u' & row' & Hp' & Hu' & Hst'). simplify_eq. by rewrite Hst in Hst'.
  - intros q r a r' Hwf Hs. apply debit_call in Hs as (t' & -> & Hq); [| done]. by apply quiet_step_keeps.
  - intros q r a r' Hwf Hs. apply reserve_call in Hs as (t' & -> & Hq); [| done]. by apply quiet_step_keeps.
  - intros q r a r' Hwf Hs. apply confirm_remote_call in Hs as (t' & -> & Hq & Hc); [| done].
    apply quiet_step_keeps in Hq as (? & ? & ? & ?). auto.
  - intros q r a r' Hwf Hs. apply cancel_remote_call in Hs as (t' & -> & Hq & Hc); [| done].
    apply quiet_step_keeps in Hq as (? & ? & ? & ?). auto.
  - intros r r' Hwf Hs. pose proof (others_quiet _ _ Hwf Hs) as Hq.
    apply quiet_step_keeps in Hq as (Hwf' & Hcan & Hcon & Hcomp). done.
  - intros q r a r' Hwf Hs. apply compensate_remote_call in Hs as (t' & -> & Hwf' & Hrows & Hcomp); [| done].
    split; [done |]. split; [| split].
    + intros p (u & row & Hp & Hu & Hst). destruct (rows_step_keeps LedgerReservationCanceled (accounts r) t' u row)
        as (row' & ? & ?); [done.. |]. by exists u, row'.
    + intros p (u & row & Hp & Hu & Hst). destruct (rows_step_keeps LedgerReservationConfirmed (accounts r) t' u row)
        as (row' & ? & ?); [done.. |]. by exists u, row'.
    + intros p Hp. apply Hcomp in Hp as [? | Heq]; [by left | right].
      intros (u & row & Hq & Hu & Hst). exists u, row. by rewrite Heq.
Defined.

(** ** The ledger confirms what it is asked to confirm *)

(** Every payment confirmed in [t'] was confirmed in [t], or is [named]. *)
Definition confirms_only (named : uuid -> Prop) (t t' : tables) : Prop :=
  forall u row', reservations t' !! u = Some row' -> row'.(ReservationRow.status) = LedgerReservationConfirmed ->
    (exists row, reservations t !! u = Some row /\ row.(ReservationRow.status) = LedgerReservationConfirmed) \/ named u.

Lemma confirms_same t t' : reservations t' = reservations t -> confirms_only (fun _ => False) t t'.
Proof. intros Heq u row' Hu Hst. left. exists row'. by rewrite <- Heq. Qed.

Ltac confirm_nothing := apply confirms_same; simpl; by autorewrite with tables.

Lemma confirms_set named t t0 p row :
  reservations t0 = reservations t -> (row.(ReservationRow.status) = LedgerReservationConfirmed -> named p) ->
  confirms_only named t (set_reservation p row t0).
Proof.
  intros Heq Hrow u row' Hu Hst. unfold set_reservation in Hu. simpl in Hu. rewrite Heq in Hu.
  apply lookup_insert_Some in Hu as [[<- <-] | [_ Hu]]; [right; by apply Hrow | left; by exists row'].
Qed.

Lemma confirms_asked named r t' p :
  confirms_only named (accounts r) t' -> reservation_is LedgerReservationConfirmed p (with_accounts t' r) ->
  reservation_is LedgerReservationConfirmed p r \/ exists u, uuid_Parse p = Some u /\ named u.
Proof.
  intros Hc (u & row & Hp & Hu & Hst). destruct (Hc u row Hu Hst) as [(row' & ? & ?) | ?]; [left; by exists u, row' | right; by exists u].
Qed.

Lemma confirms_nothing r t' p :
  confirms_only (fun _ => False) (accounts r) t' -> reservation_is LedgerReservationConfirmed p (with_accounts t' r) ->
  reservation_is LedgerReservationConfirmed p r.
Proof. intros Hc Hp. by destruct (confirms_asked _ r t' p Hc Hp) as [? | (? & _ & [])]. Qed.

#[export] Instance platform_confirms : ConfirmsAsked platform.
Proof.
  refine {| same_payment p q := uuid_Parse p = uuid_Parse q |}; simpl.
  - intros q r a r' p Hwf (resp & t' & Hs & ->)%answer_inv. apply confirms_nothing.
    apply WalletServer.debit_rpc_inv in Hs as ([pid w c cur key] & o & _ & Hs & _).
    apply Service.debit_service_spec_inv in Hs as [Hs _].
    apply debit_spec_inv in Hs as [[_ ->] | (wal & _ & _ & _ & _ & -> & ->)]; confirm_nothing.
  - intros q r a r' p Hwf (resp & t' & Hs & ->)%answer_inv. apply confirms_nothing.
    apply LedgerServer.reserve_rpc_inv in Hs as (cmd & o & _ & Hs & _).
    apply reserve_spec_inv in Hs as (row & _ & _ & [-> | (_ & -> & _ & _ & _ & Hst & _)]); [confirm_nothing |].
    apply (confirms_set _ (accounts r) (accounts r)); [done |]. by rewrite Hst.
  - intros q r a r' p Hwf (resp & t' & Hs & ->)%answer_inv. apply confirms_nothing.
    apply LedgerServer.cancel_rpc_inv in Hs as (cmd & o & _ & Hs & _).
    apply cancel_spec_inv in Hs as (row & _ & Hst & _ & [-> | (_ & _ & _ & _ & ->)]); [confirm_nothing | | done].
    apply confirms_set; [done |]. by rewrite Hst.
  - intros q r a r' p Hwf (resp & t' & Hs & ->)%answer_inv. apply confirms_nothing.
    apply WalletServer.compensate_rpc_inv in Hs as ([cp cw cd ca cc ck cr] & o & _ & Hs & _).
    apply Service.compensate_service_spec_inv in Hs as [cur Hs].
    apply compensate_spec_inv in Hs as [[_ ->] | (d & w & _ & _ & _ & _ & _ & -> & ->)]; confirm_nothing.
  - intros r r' p Hwf Hs Hp. destruct Hs as [w t' Hid Hb -> | topic ctx u f g a x t' Hs | x t' Hs | v | n]; [| | | done | done].
    + eapply confirms_nothing; [| exact Hp]. confirm_nothing.
    + eapply confirms_nothing; [| exact Hp]. apply transfer_spec_inv in Hs as (? & ? & ? & ? & -> & _). confirm_nothing.
    + eapply confirms_nothing; [| exact Hp]. apply append_spec_inv in Hs as [-> | (? & ? & -> & _)]; confirm_nothing.
  - intros q r a r' p Hwf (resp & t' & Hs & ->)%answer_inv Hp.
    apply LedgerServer.confirm_rpc_inv in Hs as (cmd & o & Hid & Hs & _).
    apply confirm_spec_inv in Hs as (row & _ & _ & _ & Ht'); [| done].
    assert (confirms_only (fun u => u = cmd.(LedgerConfirmCommand.PaymentID)) (accounts r) t') as Hc.
    { destruct Ht' as [-> | (r0 & from & to & _ & _ & _ & -> & ->)]; [| apply confirms_set; [by autorewrite with tables | done]].
      intros u row' Hu Hst. left. by exists row'. }
    destruct (confirms_asked _ _ _ _ Hc Hp) as [? | (u & Hu & ->)]; [by left | right]. simpl in Hid. by rewrite Hu, Hid.
Defined.
End Contract.
