(* ===== verification/Notification.v ===== *)
(** * Notification: telling users what became of their payments.

    [internal/notification]: rendering an event into a message, sending it by email
    and then by text message, and the record handler around it.  What the adapters
    accepted is the list of messages with their channels; an adapter is the error it
    answers a message with, if any, and a call to it can be lost like any other. *)

From Stdlib Require Import Ascii.
From stdpp Require Import pretty.
From S2P Require Import Prelude GoStrings Domain GoTime Decimal Json Database Outbox Kafka DeadLetter Consumer.
From S2P Require Import SagaTypes.
From S2P Require Import Verification.

#[local] Open Scope string_scope.
#[local] Open Scope Z_scope.

Definition TopicTxPaused : string := "tx.paused".
Definition TopicUserVerified : string := "user.verified".
Definition TopicUserRejected : string := "user.rejected".

Definition IsSupportedTopic (topic : string) : bool :=
  (topic =s TopicTxCompleted) || (topic =s TopicTxFailed) || (topic =s TopicTxPaused)
  || (topic =s TopicUserVerified) || (topic =s TopicUserRejected).

Module Event.
Record t := mk { Topic : string; Payload : string }.
End Event.

Module Message.
Record t := mk {
  ID : string;
  AggregateID : string;
  TraceID : string;
  Subject : string;
  Body : string
}.
End Message.

#[export] Instance Message_eq_dec : EqDecision Message.t.
Proof. solve_decision. Defined.

(** ** Payloads *)

Module txCompletedPayload.
Record t := mk { PaymentID : string; TraceID : string; AmountCents : Z; Currency : string }.
Definition of_json (document : option json) : res json_error t :=
  let? fields := json_object document in
  let? payment_id := get_string "payment_id" fields in
  let? trace_id := get_string "trace_id" fields in
  let? amount_cents := get_int64 "amount_cents" fields in
  let? currency := get_string "currency" fields in
  Ok (mk payment_id trace_id amount_cents currency).
End txCompletedPayload.

Module txFailedPayload.
Record t := mk {
  PaymentID : string;
  TraceID : string;
  AmountCents : Z;
  Currency : string;
  FailureCode : string;
  FailureMessage : string
}.
Definition of_json (document : option json) : res json_error t :=
  let? fields := json_object document in
  let? payment_id := get_string "payment_id" fields in
  let? trace_id := get_string "trace_id" fields in
  let? amount_cents := get_int64 "amount_cents" fields in
  let? currency := get_string "currency" fields in
  let? failure_code := get_string "failure_code" fields in
  let? failure_message := get_string "failure_message" fields in
  Ok (mk payment_id trace_id amount_cents currency failure_code failure_message).
End txFailedPayload.

Module txPausedPayload.
Record t := mk {
  PaymentID : string;
  TraceID : string;
  Action : string;
  RiskScore : float64;
  Reason : string
}.
Definition of_json (document : option json) : res json_error t :=
  let? fields := json_object document in
  let? payment_id := get_string "payment_id" fields in
  let? trace_id := get_string "trace_id" fields in
  let? action := get_string "action" fields in
  let? risk_score := get_float "risk_score" fields in
  let? reason := get_string "reason" fields in
  Ok (mk payment_id trace_id action risk_score reason).
End txPausedPayload.

Module userVerifiedPayload.
Record t := mk { UserID : string; VerificationID : string; TraceID : string }.
Definition of_json (document : option json) : res json_error t :=
  let? fields := json_object document in
  let? user_id := get_string "user_id" fields in
  let? verification_id := get_string "verification_id" fields in
  let? trace_id := get_string "trace_id" fields in
  Ok (mk user_id verification_id trace_id).
End userVerifiedPayload.

Module userRejectedPayload.
Record t := mk { UserID : string; VerificationID : string; TraceID : string; Reason : string }.
Definition of_json (document : option json) : res json_error t :=
  let? fields := json_object document in
  let? user_id := get_string "user_id" fields in
  let? verification_id := get_string "verification_id" fields in
  let? trace_id := get_string "trace_id" fields in
  let? reason := get_string "reason" fields in
  Ok (mk user_id verification_id trace_id reason).
End userRejectedPayload.

(** ** Text *)

(** The verb [%02d]: a sign counts to the width. *)
Definition two_digits (z : Z) : string := if z <? 0 then "-" ++ pad 1 (- z) else pad 2 z.

(** Go's division truncates, and the negation of the least [int64] is itself. *)
Definition formatMoney (amountCents : Z) (currency : string) : string :=
  let currency := if currency =s "" then "USD" else currency in
  let '(sign, amountCents) := if amountCents <? 0 then ("-", wrap64 (- amountCents)) else ("", amountCents) in
  sign ++ pretty (Z.quot amountCents 100) ++ "." ++ two_digits (Z.rem amountCents 100) ++ " " ++ currency.

(** [html.EscapeString], byte by byte. *)
Definition escape_byte (b : N) : list N :=
  if (b =? 38)%N then bytes_of "&amp;"
  else if (b =? 39)%N then bytes_of "&#39;"
  else if (b =? 60)%N then bytes_of "&lt;"
  else if (b =? 62)%N then bytes_of "&gt;"
  else if (b =? 34)%N then bytes_of "&#34;"
  else [b].

Definition EscapeString (l : list N) : list N := concat (map escape_byte l).

(** [strings.Fields]: the runs of bytes between white-space runes; [word] is the run
    read so far, backwards. *)
Definition close_word (word : list N) (words : list (list N)) : list (list N) :=
  match word with [] => words | _ => rev word :: words end.

Fixpoint Fields (word : list N) (l : list N) : list (list N) :=
  match l with
  | [] => close_word word []
  | b1 :: l1 =>
      if ascii_space b1 then close_word word (Fields [] l1) else
      match l1 with
      | [] => Fields (b1 :: word) l1
      | b2 :: l2 =>
          if space2 b1 b2 then close_word word (Fields [] l2) else
          match l2 with
          | [] => Fields (b1 :: word) l1
          | b3 :: l3 => if space3 b1 b2 b3 then close_word word (Fields [] l3) else Fields (b1 :: word) l1
          end
      end
  end.

(** [strings.Join(words, sep)] for words with a space between them. *)
Fixpoint Join (words : list (list N)) : list N :=
  match words with
  | [] => []
  | [w] => w
  | w :: rest => w ++ 32%N :: Join rest
  end.

Definition sanitizeReason (reason : string) : string :=
  let reason := TrimSpace reason in
  if reason =s "" then ""
  else of_bytes (Join (Fields [] (EscapeString (bytes_of reason)))).

(** ** Rendering *)

(** Why an event cannot be rendered; the last one prints the topic quoted. *)
Inductive render_error :=
| RenderJSON (e : json_error)
| RenderMissing (field : string)
| RenderTopic (topic : string).

Section Render.
Context `{JsonText}.

Definition unmarshal {A} (of_json : option json -> res json_error A) (payload : string) : res render_error A :=
  match of_json (json_Unmarshal payload) with Ok a => Ok a | Err e => Err (RenderJSON e) end.

Definition or_else (s fallback : string) : string := if s =s "" then fallback else s.

Definition render (event : Event.t) : res render_error Message.t :=
  let topic := event.(Event.Topic) in
  if topic =s TopicTxCompleted then
    let? payload := unmarshal txCompletedPayload.of_json event.(Event.Payload) in
    let id := payload.(txCompletedPayload.PaymentID) in
    if id =s "" then Err (RenderMissing "payment_id")
    else Ok (Message.mk (TopicTxCompleted ++ ":" ++ id) id payload.(txCompletedPayload.TraceID)
      "Payment completed"
      ("Your payment " ++ id ++ " for "
       ++ formatMoney payload.(txCompletedPayload.AmountCents) payload.(txCompletedPayload.Currency)
       ++ " completed successfully."))
  else if topic =s TopicTxFailed then
    let? payload := unmarshal txFailedPayload.of_json event.(Event.Payload) in
    let id := payload.(txFailedPayload.PaymentID) in
    if id =s "" then Err (RenderMissing "payment_id")
    else
      let reason := payload.(txFailedPayload.FailureMessage) in
      let reason := or_else reason payload.(txFailedPayload.FailureCode) in
      let reason := or_else reason "payment processing failed" in
      Ok (Message.mk (TopicTxFailed ++ ":" ++ id) id payload.(txFailedPayload.TraceID)
        "Payment failed"
        ("Your payment " ++ id ++ " for "
         ++ formatMoney payload.(txFailedPayload.AmountCents) payload.(txFailedPayload.Currency)
         ++ " failed: " ++ reason ++ "."))
  else if topic =s TopicTxPaused then
    let? payload := unmarshal txPausedPayload.of_json event.(Event.Payload) in
    let id := payload.(txPausedPayload.PaymentID) in
    if id =s "" then Err (RenderMissing "payment_id")
    else
      let reason := or_else payload.(txPausedPayload.Reason) "additional review is required" in
      let reason := sanitizeReason reason in
      Ok (Message.mk (TopicTxPaused ++ ":" ++ id) id payload.(txPausedPayload.TraceID)
        "Payment paused for review"
        ("Your payment " ++ id ++ " was paused for fraud review with action "
         ++ payload.(txPausedPayload.Action) ++ ": " ++ reason ++ "."))
  else if topic =s TopicUserVerified then
    let? payload := unmarshal userVerifiedPayload.of_json event.(Event.Payload) in
    let id := payload.(userVerifiedPayload.UserID) in
    if id =s "" then Err (RenderMissing "user_id")
    else Ok (Message.mk (TopicUserVerified ++ ":" ++ id) id payload.(userVerifiedPayload.TraceID)
      "Verification approved"
      ("Verification " ++ payload.(userVerifiedPayload.VerificationID) ++ " was approved for user " ++ id ++ "."))
  else if topic =s TopicUserRejected then
    let? payload := unmarshal userRejectedPayload.of_json event.(Event.Payload) in
    let id := payload.(userRejectedPayload.UserID) in
    if id =s "" then Err (RenderMissing "user_id")
    else
      let reason := or_else payload.(userRejectedPayload.Reason) "the submitted verification did not pass review" in
      Ok (Message.mk (TopicUserRejected ++ ":" ++ id) id payload.(userRejectedPayload.TraceID)
        "Verification rejected"
        ("Verification " ++ payload.(userRejectedPayload.VerificationID) ++ " was rejected for user " ++ id
         ++ ": " ++ reason ++ "."))
  else Err (RenderTopic topic).
End Render.

(** ** Dispatching *)

Inductive notification_error :=
| ErrInvalidEvent (cause : render_error)
| ErrSend (e : string)
| ErrBroker (e : error).

#[export] Instance notification_error_infra : Infra notification_error := ErrBroker PgUnavailable.

(** The messages the adapters accepted, each with its channel. *)
Abbreviation mailbox := (list (string * Message.t)).

(** [Adapter]: the error it answers a message with. *)
Definition Adapter : Type := Message.t -> option string.

(** [StubAdapter.Send] *)
Definition StubAdapter : Adapter := fun _ => None.

Module Dispatcher.
Record t := mk { email : option Adapter; sms : option Adapter }.
End Dispatcher.

Section Dispatch.
Context `{JsonText}.

Definition Send (channel : string) (adapter : Adapter) (message : Message.t) : prog mailbox notification_error unit :=
  exec (fun m => match adapter message with
                 | Some e => Err (ErrSend e)
                 | None => Ok (tt, (m ++ [(channel, message)])%list)
                 end).

Definition send_if (channel : string) (adapter : option Adapter) (message : Message.t)
    : prog mailbox notification_error unit :=
  match adapter with Some a => Send channel a message | None => ret tt end.

Definition Dispatch (dispatcher : Dispatcher.t) (event : Event.t) : prog mailbox notification_error unit :=
  match render event with
  | Err cause => throw (ErrInvalidEvent cause)
  | Ok message =>
      send_if "email" dispatcher.(Dispatcher.email) message ;!
      send_if "sms" dispatcher.(Dispatcher.sms) message
  end.
End Dispatch.

Section Handler.
Context `{Broker} `{JsonText}.
(** [strconv.Quote] *)
Variable Quote : string -> string.

(** The text of [fmt.Errorf] around an [ErrInvalidEvent] and its cause. *)
Definition invalid_text (cause : render_error) : string :=
  "invalid notification event: " ++
  match cause with
  | RenderJSON e => json_Error e
  | RenderMissing field => field ++ " is required"
  | RenderTopic topic => "unsupported notification topic " ++ Quote topic
  end.

Definition HandleRecord (dispatcher : Dispatcher.t) (now : time) (record : KafkaRecord.t)
    : prog (reader mailbox) notification_error unit :=
  if negb (IsSupportedTopic record.(KafkaRecord.Topic)) then CommitRecord record
  else
    let! r := attempt (run_app (Dispatch dispatcher (Event.mk record.(KafkaRecord.Topic) record.(KafkaRecord.Value)))) in
    match r with
    | Err (ErrInvalidEvent cause) => deadLetter ErrBroker now record (invalid_text cause)
    | Err e => throw e
    | Ok _ => CommitRecord record
    end.
End Handler.

(** ** Amounts *)

(** An amount without its sign, and the currency. *)
Definition read_amount (sign : Z) (s : string) : option (Z * string) :=
  let '(whole, s) := span_digits s in
  match s with
  | String "."%char s' =>
      let '(cents, s) := span_digits s' in
      match cents, s with
      | [_; _], String " "%char currency => Some (sign * (Z.of_N (value whole) * 100 + Z.of_N (value cents)), currency)
      | _, _ => None
      end
  | _ => None
  end.

(** The amount and the currency a text of [formatMoney] shows. *)
Definition read_money (s : string) : option (Z * string) :=
  match s with
  | String c s' => if Ascii.eqb c "-"%char then read_amount (-1) s' else read_amount 1 s
  | EmptyString => None
  end.

Lemma pretty_nonneg z : 0 <= z -> pretty z = pretty (Z.to_N z).
Proof. intros Hz. destruct z; [done | done | lia]. Qed.

Lemma read_digits sign n currency : 0 <= n ->
  read_amount sign (pretty (Z.quot n 100) ++ "." ++ two_digits (Z.rem n 100) ++ " " ++ currency) = Some (sign * n, currency).
Proof.
  intros Hn. pose proof (Z.quot_rem' n 100) as Hqr. pose proof (Z.rem_bound_pos n 100 Hn ltac:(lia)) as Hr.
  assert (0 <= Z.quot n 100) as Hq by (apply Z.quot_pos; lia). rewrite pretty_nonneg by done.
  destruct (pretty_digits (Z.to_N (Z.quot n 100))) as (whole & -> & Hwhole & Hv & _).
  unfold two_digits. rewrite (proj2 (Z.ltb_ge _ _)) by lia.
  destruct (pad_digits 2 (Z.rem n 100) ltac:(lia) ltac:(simpl; lia)) as (cents & -> & Hcents & Hc & Hlen).
  unfold read_amount. rewrite span_text, append_cons, append_nil, span_text by done.
  destruct cents as [|c1 [|c2 [|]]]; try done. rewrite append_cons, append_nil, Hc, Hv. repeat f_equal. lia.
Qed.

Lemma pretty_starts (n : N) rest : exists c s, pretty n ++ rest = String c s /\ Ascii.eqb c "-"%char = false.
Proof.
  destruct (pretty_digits n) as ([|d ds] & -> & Hds & _ & Hne & _); [done |].
  do 2 eexists. split; [reflexivity |]. apply Ascii.eqb_neq. intros Hc. apply (f_equal digit_of) in Hc.
  inversion Hds. by rewrite digit_of_char in Hc.
Qed.

(** The amount in a message is the amount of the payment: what [formatMoney]
    prints for an amount of cents, negative or not, reads back as this amount and its
    currency, or US dollars when the event has none; only the least [int64], which
    has no negation, is excluded. *)
Theorem money_reads_back amount currency :
  - 2 ^ 63 < amount < 2 ^ 63 ->
  read_money (formatMoney amount currency) = Some (amount, if currency =s "" then "USD" else currency).
Proof.
  intros Ha. unfold formatMoney. destruct (amount <? 0) eqn:Hneg.
  - apply Z.ltb_lt in Hneg. rewrite wrap64_id by (unfold int64; lia).
    rewrite append_cons, append_nil. unfold read_money. simpl. rewrite read_digits by lia. repeat f_equal. lia.
  - apply Z.ltb_ge in Hneg. rewrite append_nil. pose proof (read_digits 1 amount) as Hread.
    rewrite pretty_nonneg in Hread |- * by (apply Z.quot_pos; lia). rewrite Z.mul_1_l in Hread.
    destruct (pretty_starts (Z.to_N (Z.quot amount 100)) ("." ++ two_digits (Z.rem amount 100) ++ " "
      ++ (if currency =s "" then "USD" else currency))) as (c & s & Hs & Hc).
    rewrite <- Hread, Hs by done. unfold read_money. by rewrite Hc.
Qed.

Lemma money_reads_back_witness : read_money (formatMoney (-1205)%Z "EUR") = Some ((-1205)%Z, "EUR").
Proof. apply (money_reads_back (-1205) "EUR"). lia. Defined.

(** The least [int64] is printed with three signs. *)
Example money_least : formatMoney (- 2 ^ 63) "" = "--92233720368547758.-8 USD".
Proof. vm_compute. reflexivity. Qed.

(** ** Reasons *)

(** A byte that stays as it is in HTML text and ends no line. *)
Definition plain (b : N) : Prop := (b ∉ [34; 39; 60; 62]%N) /\ ascii_space b = false.

Lemma escape_safe l : Forall (fun b => b ∉ [34; 39; 60; 62]%N) (EscapeString l).
Proof.
  unfold EscapeString. induction l as [|b l IH]; simpl; [constructor |]. apply list.Forall_app. split; [| exact IH].
  unfold escape_byte. repeat (case_match; [vm_compute; repeat constructor; set_solver |]).
  repeat constructor. rewrite !not_elem_of_cons. apply N.eqb_neq in H0, H1, H2, H3. repeat split; auto using not_elem_of_nil.
Qed.

Lemma close_word_spec (P : list N -> Prop) word words :
  (word <> [] -> P (rev word)) -> Forall P words -> Forall P (close_word word words).
Proof. intros Hw Hs. destruct word; [done |]. constructor; [by apply Hw | done]. Qed.

Definition plain_word (w : list N) : Prop := w <> [] /\ Forall plain w.

Lemma fields_plain n : forall l word, (length l <= n)%nat ->
  Forall (fun b => b ∉ [34; 39; 60; 62]%N) l -> Forall plain word -> Forall plain_word (Fields word l).
Proof.
  assert (forall word, Forall plain word -> word <> [] -> plain_word (rev word)) as Hrev.
  { intros word Hw Hne. split; [| by apply List.Forall_rev]. intros Hnil. by apply (f_equal (@rev N)) in Hnil; rewrite rev_involutive in Hnil. }
  induction n as [|n IH]; intros l word Hn Hl Hw.
  { destruct l; [| simpl in Hn; lia]. simpl. apply close_word_spec; [by apply Hrev | constructor]. }
  destruct l as [|b1 l1]; simpl; [apply close_word_spec; [by apply Hrev | constructor] |].
  apply list.Forall_cons in Hl as [Hb1 Hl1]. simpl in Hn.
  destruct (ascii_space b1) eqn:Hs; [apply close_word_spec; [by apply Hrev |]; apply IH; [lia | done | constructor] |].
  assert (Forall plain_word (Fields (b1 :: word) l1)) as Hgo by (apply IH; [lia | done | by constructor]).
  destruct l1 as [|b2 l2]; [exact Hgo |]. apply list.Forall_cons in Hl1 as [_ Hl2]. simpl in Hn.
  case_match; [apply close_word_spec; [by apply Hrev |]; apply IH; [lia | done | constructor] |].
  destruct l2 as [|b3 l3]; [exact Hgo |]. apply list.Forall_cons in Hl2 as [_ Hl3]. simpl in Hn.
  case_match; [apply close_word_spec; [by apply Hrev |]; apply IH; [lia | done | constructor] | exact Hgo].
Qed.

(** A reason cannot smuggle markup or line breaks into a message: whatever a
    fraud event gives as its reason, what the message shows of it is words separated
    by single spaces, none of them empty and none with a quote, an angle bracket or
    white space in it. *)
Theorem reason_is_plain reason : exists words,
  sanitizeReason reason = of_bytes (Join words) /\
  Forall (fun w => w <> [] /\ Forall plain w) words.
Proof.
  unfold sanitizeReason. destruct (TrimSpace reason =s ""); [by exists [] |].
  eexists. split; [reflexivity |]. eapply (fields_plain _ _ _ (le_n _)); [apply escape_safe | constructor].
Qed.

Example reason_escaped :
  sanitizeReason "  velocity <b>spike</b>   on card " = "velocity &lt;b&gt;spike&lt;/b&gt; on card".
Proof. vm_compute. reflexivity. Qed.

(** ** What an acknowledged record leaves *)

Section Soundness.
Context `{Broker} `{JsonText}.
Variable Quote : string -> string.
Variable dispatcher : Dispatcher.t.

Definition channels : list string :=
  (match dispatcher.(Dispatcher.email) with Some _ => ["email"] | None => [] end ++
   match dispatcher.(Dispatcher.sms) with Some _ => ["sms"] | None => [] end)%list.

Definition event_of (r : KafkaRecord.t) : Event.t := Event.mk r.(KafkaRecord.Topic) r.(KafkaRecord.Value).

(** A record is handled when its message was accepted on every channel, or it is
    parked with its bytes and the reason, or its topic is no topic of notifications. *)
Definition handled (r : KafkaRecord.t) (m : mailbox) (l : log) : Prop :=
  IsSupportedTopic r.(KafkaRecord.Topic) = true ->
  match render (event_of r) with
  | Ok message => forall c, c ∈ channels -> (c, message) ∈ m
  | Err cause => exists parked at_, parked ∈ l /\
      parked.(KafkaRecord.Topic) = TopicFor r.(KafkaRecord.Topic) /\
      parked.(KafkaRecord.Key) = r.(KafkaRecord.Key) /\
      parked.(KafkaRecord.Value) = Encode (FromKafka r (invalid_text Quote cause)) at_
  end.

(** Nothing is texted that was not mailed before. *)
Definition mailed_first (m : mailbox) : Prop :=
  is_Some dispatcher.(Dispatcher.email) -> forall message, ("sms", message) ∈ m -> ("email", message) ∈ m.

Lemma notice_handled_log r m l l' : handled r m l -> l `prefix_of` l' -> handled r m l'.
Proof.
  unfold handled. intros Hh [k ->] Hs. specialize (Hh Hs). destruct (render _); [done |].
  destruct Hh as (parked & at_ & Hin & Hrest). exists parked, at_. split; [set_solver | done].
Qed.

Lemma notice_handled_mail r m m' l : handled r m l -> m `prefix_of` m' -> handled r m' l.
Proof. unfold handled. intros Hh [k ->] Hs. specialize (Hh Hs). destruct (render _); [set_solver | done]. Qed.

(** What sending to one channel does to the mailbox. *)
Lemma send_if_spec channel adapter message m s (Q : res notification_error unit -> conn mailbox -> Prop) :
  (forall r m' s', m' = m \/ m' = (m ++ [(channel, message)])%list /\ is_Some adapter ->
     (r = Ok tt -> is_Some adapter -> (channel, message) ∈ m') ->
     (forall cause, r <> Err (ErrInvalidEvent cause)) -> Q r (Conn m' None s')) ->
  wp (send_if channel adapter message) Q (Conn m None s).
Proof.
  intros HQ. destruct adapter as [a |]; simpl.
  - unfold Send. wp_step; [apply HQ; [by left | done | done] |].
    destruct (a message) as [e |]; [apply HQ; [by left | done | done] |].
    split; [| intros _]; (apply HQ; [right; split; [done | by eexists] | set_solver | done]).
  - wp_step. apply HQ; [by left | by intros _ [? ?] | done].
Qed.

Lemma dispatch_spec r m s (Q : res notification_error unit -> conn mailbox -> Prop) :
  mailed_first m ->
  (forall a m' s', m `prefix_of` m' -> mailed_first m' ->
     match a, render (event_of r) with
     | Ok _, Ok message => forall c, c ∈ channels -> (c, message) ∈ m'
     | Ok _, Err _ => False
     | Err (ErrInvalidEvent cause), answer => answer = Err cause /\ m' = m
     | Err _, _ => True
     end -> Q a (Conn m' None s')) ->
  wp (Dispatch dispatcher (event_of r)) Q (Conn m None s).
Proof.
  intros Hm HQ. unfold Dispatch. destruct (render (event_of r)) as [message | cause]; [| wp_step; by apply HQ].
  wp_step. apply send_if_spec. intros a m1 s1 Hm1 Hin1 Hinv1.
  assert (m `prefix_of` m1 /\ mailed_first m1) as [Hp1 Hf1].
  { destruct Hm1 as [-> | [-> _]]; [done |]. split; [by eexists |]. intros He x [Hx | Hx]%elem_of_app; [set_solver |].
    apply list_elem_of_singleton in Hx. done. }
  destruct a as [[] | e]; [| apply HQ; [done | done | by destruct e; [edestruct Hinv1 | |]]].
  apply send_if_spec. intros a m2 s2 Hm2 Hin2 Hinv2.
  assert (m1 `prefix_of` m2) as Hp2 by (destruct Hm2 as [-> | [-> _]]; [done | by eexists]).
  apply HQ; [by etransitivity | |].
  - destruct Hm2 as [-> | [-> _]]; [done |]. intros He x [Hx | Hx]%elem_of_app; [apply elem_of_app; left; by apply Hf1 |].
    apply list_elem_of_singleton in Hx. injection Hx as ->. apply elem_of_app. left. by apply Hin1.
  - destruct a as [[] | e]; [| by destruct e; [edestruct Hinv2 | |]]. destruct Hp2 as [k ->]. intros c.
    unfold channels. destruct (Dispatcher.email dispatcher) as [a1 |], (Dispatcher.sms dispatcher) as [a2 |]; simpl; intros Hc;
      repeat (apply elem_of_cons in Hc as [-> | Hc]); try (by apply not_elem_of_nil in Hc);
      first [by apply Hin2; eauto | apply elem_of_app; left; by apply Hin1; eauto].
Qed.

Lemma notice_sound now : sound_handler mailed_first handled (HandleRecord Quote dispatcher now).
Proof.
  intros record w s Hi. unfold HandleRecord. destruct (IsSupportedTopic _) eqn:Htopic; cbn [negb].
  2: { apply commit_sound; [done | done | done |]. unfold handled. by rewrite Htopic. }
  wp_step. wp_step. apply wp_run_app. apply dispatch_spec; [exact Hi |]. intros a m' s' Hp Hf Ha.
  cbn [committed schedule]. set (w1 := Reader m' _ _).
  assert (onward handled w w1) as Ho by (split; [intros r Hr; by eapply notice_handled_mail | done]).
  destruct a as [[] | []]; [| | wp_step; by apply sound_error | wp_step; by apply sound_error].
  - apply commit_sound; [done | done | done |]. intros _. simpl. by destruct (render (event_of record)).
  - destruct Ha as [Hr ->]. subst w1. replace (Reader (app w) (topics w) (offsets w)) with w by by destruct w.
    apply dead_letter_sound; [by apply notice_handled_log | done |]. intros l r Ht Hk Hv Hin _. rewrite Hr. by exists r, now.
Qed.

End Soundness.

(** ** The way of the news *)

Section News.
Context `{Broker} `{JsonText}.

Lemma get_int64_ok name fields z :
  json_field name fields = Some (JInt z) -> int64 z -> get_int64 name fields = Ok z.
Proof.
  unfold int64, get_int64, get_int. intros -> Hz. by rewrite (proj2 (Z.leb_le _ _)), (proj2 (Z.ltb_lt _ _)) by lia.
Qed.

(** The fields of an event that a message is made of. *)
Lemma completed_reads x : int64 x.(TxCompleted.AmountCents) ->
  txCompletedPayload.of_json (Some (TxCompleted.to_json x)) =
    Ok (txCompletedPayload.mk x.(TxCompleted.PaymentID) x.(TxCompleted.TraceID) x.(TxCompleted.AmountCents)
          x.(TxCompleted.Currency)).
Proof.
  intros Ha. destruct x as [? ? ? ? ? amount]. unfold txCompletedPayload.of_json, TxCompleted.to_json. cbn [json_object res_bind].
  by rewrite (get_int64_ok "amount_cents" _ amount) by done.
Qed.

Lemma failed_reads x : int64 x.(TxFailed.AmountCents) ->
  txFailedPayload.of_json (Some (TxFailed.to_json x)) =
    Ok (txFailedPayload.mk x.(TxFailed.PaymentID) x.(TxFailed.TraceID) x.(TxFailed.AmountCents)
          x.(TxFailed.Currency) x.(TxFailed.FailureCode) x.(TxFailed.FailureMessage)).
Proof.
  intros Ha. destruct x as [? ? ? ? ? amount]. unfold txFailedPayload.of_json, TxFailed.to_json. cbn [json_object res_bind].
  by rewrite (get_int64_ok "amount_cents" _ amount) by done.
Qed.

Lemma paused_reads x :
  txPausedPayload.of_json (Some (TxPaused.to_json x)) =
    Ok (txPausedPayload.mk x.(TxPaused.PaymentID) x.(TxPaused.TraceID) x.(TxPaused.Action) x.(TxPaused.RiskScore)
          x.(TxPaused.Reason)).
Proof. by destruct x. Qed.

Lemma decision_reads record eventID :
  let document := snd (Verification.announcement record eventID) in
  userVerifiedPayload.of_json (Some document) =
    Ok (userVerifiedPayload.mk record.(Verification.Record_.UserID)
          record.(Verification.Record_.VerificationID) record.(Verification.Record_.TraceID)) /\
  userRejectedPayload.of_json (Some document) =
    Ok (userRejectedPayload.mk record.(Verification.Record_.UserID)
          record.(Verification.Record_.VerificationID) record.(Verification.Record_.TraceID)
          (if record.(Verification.Record_.Status) =s Verification.StatusRejected
           then record.(Verification.Record_.Reason) else "")).
Proof.
  intros document. subst document. unfold Verification.announcement. destruct record. simpl.
  by destruct (Status =s _).
Qed.

(** What a user should be told of a document on a topic: whom it is about, the trace
    it belongs to and the text. *)
Inductive news : string -> json -> string -> string -> string -> Prop :=
| news_completed x : int64 x.(TxCompleted.AmountCents) ->
    news TopicTxCompleted (TxCompleted.to_json x) x.(TxCompleted.PaymentID) x.(TxCompleted.TraceID)
      ("Your payment " ++ x.(TxCompleted.PaymentID) ++ " for "
       ++ formatMoney x.(TxCompleted.AmountCents) x.(TxCompleted.Currency) ++ " completed successfully.")
| news_failed x : int64 x.(TxFailed.AmountCents) -> x.(TxFailed.FailureMessage) <> "" ->
    news TopicTxFailed (TxFailed.to_json x) x.(TxFailed.PaymentID) x.(TxFailed.TraceID)
      ("Your payment " ++ x.(TxFailed.PaymentID) ++ " for "
       ++ formatMoney x.(TxFailed.AmountCents) x.(TxFailed.Currency) ++ " failed: " ++ x.(TxFailed.FailureMessage) ++ ".")
| news_paused x : x.(TxPaused.Reason) <> "" ->
    news TxPausedTopic (TxPaused.to_json x) x.(TxPaused.PaymentID) x.(TxPaused.TraceID)
      ("Your payment " ++ x.(TxPaused.PaymentID) ++ " was paused for fraud review with action "
       ++ x.(TxPaused.Action) ++ ": " ++ sanitizeReason x.(TxPaused.Reason) ++ ".")
| news_decided record eventID topic document :
    Verification.announcement record eventID = (topic, document) ->
    record.(Verification.Record_.Status) = Verification.StatusVerified ->
    news topic document record.(Verification.Record_.UserID)
      record.(Verification.Record_.TraceID)
      ("Verification " ++ record.(Verification.Record_.VerificationID) ++ " was approved for user "
       ++ record.(Verification.Record_.UserID) ++ ".")
| news_rejected record eventID topic document :
    Verification.announcement record eventID = (topic, document) ->
    record.(Verification.Record_.Status) = Verification.StatusRejected ->
    record.(Verification.Record_.Reason) <> "" ->
    news topic document record.(Verification.Record_.UserID)
      record.(Verification.Record_.TraceID)
      ("Verification " ++ record.(Verification.Record_.VerificationID) ++ " was rejected for user "
       ++ record.(Verification.Record_.UserID) ++ ": "
       ++ record.(Verification.Record_.Reason) ++ ".").

Lemma or_else_some s fallback : s <> "" -> or_else s fallback = s.
Proof. unfold or_else. by intros ->%String.eqb_neq. Qed.

Lemma news_rendered topic document who trace body payload :
  news topic document who trace body -> who <> "" -> json_Unmarshal payload = Some document ->
  exists subject, IsSupportedTopic topic = true /\
    render (Event.mk topic payload) = Ok (Message.mk (topic ++ ":" ++ who) who trace subject body).
Proof.
  intros Hnews Hwho%String.eqb_neq Hdoc.
  destruct Hnews as [x Ha | x Ha Hr | x Hr | record eventID topic document Han Hst | record eventID topic document Han Hst Hr].
  - eexists. split; [done |]. unfold render, unmarshal. simpl. rewrite Hdoc, completed_reads by done. simpl. by rewrite Hwho.
  - eexists. split; [done |]. unfold render, unmarshal. simpl. rewrite Hdoc, failed_reads by done. simpl. rewrite Hwho.
    by rewrite !or_else_some by (rewrite ?or_else_some by done; done).
  - eexists. split; [done |]. unfold render, unmarshal. simpl. rewrite Hdoc, paused_reads. simpl. rewrite Hwho.
    by rewrite or_else_some by done.
  - destruct (decision_reads record eventID) as [Hv _]. rewrite Han in Hv. simpl in Hv.
    unfold Verification.announcement in Han. rewrite Hst in Han. injection Han as <- _.
    eexists. split; [done |]. unfold render, unmarshal. simpl. rewrite Hdoc, Hv. simpl. by rewrite Hwho.
  - destruct (decision_reads record eventID) as [_ Hv]. rewrite Han in Hv. simpl in Hv.
    unfold Verification.announcement in Han. rewrite Hst in Han, Hv. injection Han as <- _.
    eexists. split; [done |]. unfold render, unmarshal. simpl. rewrite Hdoc, Hv. simpl. rewrite Hwho.
    by rewrite or_else_some by done.
Qed.

(** Users hear what happened: a record whose text is the document that the
    orchestrator announces of a payment that completed, failed or was paused, or that
    the verification service announces of its decision, becomes one message about
    this payment or user with the trace, the amount, the currency and the reason of
    the announcement, which the stub adapters accept first by email and then by text
    message, and the record is committed. *)
Theorem news_is_told Quote now r topic document who trace body m l o :
  news topic document who trace body -> who <> "" ->
  r.(KafkaRecord.Topic) = topic -> json_Unmarshal r.(KafkaRecord.Value) = Some document ->
  exists message,
    message.(Message.ID) = topic ++ ":" ++ who /\ message.(Message.AggregateID) = who /\
    message.(Message.TraceID) = trace /\ message.(Message.Body) = body /\
    yields (HandleRecord Quote (Dispatcher.mk (Some StubAdapter) (Some StubAdapter)) now r) (Reader m l o) (Ok tt)
      (Reader (m ++ [("email", message); ("sms", message)])%list l (committed_record r (Reader m l o))).
Proof.
  intros Hnews Hwho Ht Hdoc. destruct (news_rendered _ _ _ _ _ _ Hnews Hwho Hdoc) as (subject & Hs & Hrender).
  eexists (Message.mk _ _ _ _ _). do 4 (split; [reflexivity |]).
  unfold yields, HandleRecord. rewrite Ht, Hs. unfold Dispatch. rewrite Hrender. cbn. by rewrite <- app_assoc.
Qed.
End News.
