(* ===== verification/Subscriptions.v ===== *)
(** * Subscriptions: who reads which topic.

    The four Kafka consumers ([NewKafkaConsumer] and [Run] of [internal/ledgerconsumer],
    [internal/sagaconsumer], [internal/paymentprocessor] and [internal/notification]) and
    the topic contracts of [internal/event/fraud.go] with the event nobody under
    [services] writes, [FraudError]. *)

From S2P Require Import Prelude GoStrings Domain GoTime Json Database Outbox Kafka DeadLetter Consumer.
From S2P Require Import WalletRepo LedgerConsumer Verification SagaTypes SagaStore Orchestrator SagaConsumer.
From S2P Require Import Processor ProcessorConsumer Notification.

#[local] Open Scope string_scope.
#[local] Open Scope Z_scope.

Definition or_default (value fallback : string) : string := if value =s "" then fallback else value.

(** ** The consumers *)

Module LedgerKafka.
Definition defaultGroupID : string := "ledger-service".

Definition NewKafkaConsumer (brokers : list string) (topic groupID : string) : Subscription.t :=
  Subscription.mk brokers (or_default groupID defaultGroupID) [or_default topic TransactionInitiatedTopic].

Definition Run `{Postgres} `{Uuid} `{Broker} `{JsonText} (now : time) (polls : list poll) :=
  Consumer.Run (LedgerConsumer.HandleRecord now) polls.
End LedgerKafka.

Module SagaKafka.
Definition DefaultGroupID : string := "saga-orchestrator".

Definition NewKafkaConsumer (brokers : list string) (groupID : string) : Subscription.t :=
  Subscription.mk brokers (or_default groupID DefaultGroupID) [TopicPaymentCompleted; TopicPaymentFailed; FraudFlaggedTopic].

Definition Run {W} `{Remote W} `{Clock} `{Postgres} `{Uuid} `{Broker} `{JsonText} `{Tracing}
    (now : time) (ctx : context) (polls : list poll) :=
  Consumer.Run (SagaConsumer.HandleRecord (W := W) now ctx) polls.
End SagaKafka.

Module ProcessorKafka.
Definition NewKafkaConsumer (brokers : list string) (groupID : string) : Subscription.t :=
  Subscription.mk brokers (or_default groupID "payment-processor") [PaymentExecuteTopic].

Definition Run {R} `{Outside R} `{Clock} `{Postgres} `{Uuid} `{Broker} `{JsonText} `{Tracing}
    (backoffs : list Z) (ctx : context) (polls : list poll) :=
  Consumer.Run (HandleCommand (R := R) backoffs ctx) polls.
End ProcessorKafka.

Module NotificationKafka.
Definition NewKafkaConsumer (brokers : list string) (groupID : string) : Subscription.t :=
  Subscription.mk brokers (or_default groupID "notification-service")
    [TopicTxCompleted; TopicTxFailed; Notification.TopicTxPaused;
     Notification.TopicUserVerified; Notification.TopicUserRejected].

Definition Run `{Broker} `{JsonText} (Quote : string -> string) (dispatcher : Dispatcher.t) (now : time) (polls : list poll) :=
  Consumer.Run (Notification.HandleRecord Quote dispatcher now) polls.
End NotificationKafka.

(** ** The contracts of the fraud topics *)

Definition FraudErrorTopic : string := "fraud.error".
Definition SagaOrchestratorProducer : string := "saga-orchestrator".
Definition FraudWorkerProducer : string := "fraud-worker".
Definition FraudAgentConsumerGroup : string := "fraud-agent".
Definition SagaOrchestratorConsumerGroup : string := "saga-orchestrator".
Definition NotificationConsumerGroup : string := "notification-service".
Definition ObservabilityConsumer : string := "observability-admin".
Definition PaymentIDPartitionKey : string := "payment_id".
Definition DuplicateDeduplicateByEventID : string := "deduplicate_by_event_id".
Definition DuplicateStableRepublish : string := "stable_event_id_republishable".

Module FraudTopicContract.
Record t := mk {
  Producer : string;
  Consumers : list string;
  PartitionKey : string;
  DuplicateBehavior : string;
  RequiredHeaders : list string;
  OptionalHeaders : list string
}.
End FraudTopicContract.

Definition FraudTopicContracts : list (string * FraudTopicContract.t) :=
  [(FraudScoreRequestedTopic,
    FraudTopicContract.mk SagaOrchestratorProducer [FraudAgentConsumerGroup] PaymentIDPartitionKey
      DuplicateDeduplicateByEventID [TraceparentHeader] [TracestateHeader]);
   (FraudFlaggedTopic,
    FraudTopicContract.mk FraudWorkerProducer [SagaOrchestratorConsumerGroup; NotificationConsumerGroup] PaymentIDPartitionKey
      DuplicateStableRepublish [TraceparentHeader] [TracestateHeader]);
   (FraudErrorTopic,
    FraudTopicContract.mk FraudWorkerProducer [ObservabilityConsumer] PaymentIDPartitionKey
      DuplicateStableRepublish [TraceparentHeader] [TracestateHeader]);
   (TxPausedTopic,
    FraudTopicContract.mk SagaOrchestratorProducer [NotificationConsumerGroup] PaymentIDPartitionKey
      DuplicateStableRepublish [TraceparentHeader] [TracestateHeader])].

Definition fraud_reasons : list string :=
  ["enrichment_failed"; "prompt_rejected"; "model_failed"; "validation_failed"; "audit_failed"; "publish_failed"].

Definition validFraudReason (reason : string) : bool := existsb (String.eqb reason) fraud_reasons.

Definition FraudErrorEventID (sourceEventID reasonCode : string) : string :=
  FraudErrorTopic ++ ":" ++ sourceEventID ++ ":" ++ reasonCode.

Module FraudError.
Record t := mk {
  SchemaVersion : Z;
  EventID : string;
  SourceEventID : string;
  PaymentID : string;
  SessionID : string;
  ReasonCode : string;
  OccurredAt : time;
  TraceID : string
}.
Definition Validate (e : t) : res saga_error unit :=
  if negb (SchemaVersion e =? 1)
     || negb (EventID e =s FraudErrorEventID (SourceEventID e) (ReasonCode e))
     || (SourceEventID e =s "") || (PaymentID e =s "")
     || negb (validFraudReason (ReasonCode e)) || negb (validUTCTime (OccurredAt e))
     || (TraceID e =s "")
  then Err ErrInvalidFraudEvent
  else Ok tt.
End FraudError.

(** ** What is written is read *)

(** The groups the four consumers form, with the settings left at their defaults. *)
Definition subscriptions (brokers : list string) : list Subscription.t :=
  [LedgerKafka.NewKafkaConsumer brokers "" ""; SagaKafka.NewKafkaConsumer brokers "";
   ProcessorKafka.NewKafkaConsumer brokers ""; NotificationKafka.NewKafkaConsumer brokers ""].

(** The topics the services write to their outboxes. *)
Definition written_topics : list string :=
  [TransactionInitiatedTopic; TopicPaymentExecute; FraudScoreRequestedTopic; TopicTxCompleted; TopicTxFailed;
   TxPausedTopic; TopicPaymentCompleted; TopicPaymentFailed; Notification.TopicUserVerified; Notification.TopicUserRejected].

Definition readers (brokers : list string) (topic : string) : list string :=
  Subscription.Group <$> filter (fun s => topic ∈ s.(Subscription.Topics)) (subscriptions brokers).

(** Every topic that is written has exactly one group of the services that reads it,
    but for the requests to the fraud agent, which is another program. *)
Lemma written_topics_are_read brokers topic : topic ∈ written_topics ->
  length (readers brokers topic) = if topic =s FraudScoreRequestedTopic then 0%nat else 1%nat.
Proof. unfold written_topics. rewrite !elem_of_cons, elem_of_nil. intros Ht. destruct_or?; subst; by vm_compute. Qed.

(** The notification service is named as a reader of the verdicts, and does not read them. *)
Lemma flagged_is_not_notified brokers :
  (exists c, (FraudFlaggedTopic, c) ∈ FraudTopicContracts /\ NotificationConsumerGroup ∈ c.(FraudTopicContract.Consumers)) /\
  readers brokers FraudFlaggedTopic = [SagaOrchestratorConsumerGroup] /\ IsSupportedTopic FraudFlaggedTopic = false.
Proof.
  split; [| by vm_compute]. eexists. split; [apply list_elem_of_further, list_elem_of_here |].
  apply list_elem_of_further, list_elem_of_here.
Qed.
