(* ===== verification/Process.v ===== *)
(** * Process: a command from its start to its exit.

    What the [run] functions under [cmd] have in common: they open what they need one
    after the other and [defer] its closing, start goroutines that capture some of it,
    wait for a signal or for a server to fail, and return.  A run is a program over the
    answers of its surroundings that keeps a trace of its steps and the stack of deferred
    closings; [main] ends it, closes what is deferred and chooses the exit code. *)

From S2P Require Import Prelude GoStrings Json Config Mtls Consumer SagaTypes RateLimiter Gateway.

#[local] Open Scope string_scope.
#[local] Open Scope Z_scope.

Section Process.
Context `{Tls}.

(** What is opened and closed again.  [Signals] is the context of [signal.NotifyContext]
    with its [stop], [Tracing] the shutdown that [telemetry.Init] returns, which does
    nothing when the initialisation failed. *)
Inductive resource :=
| Signals
| Tracing (service : string)
| Pool (url : string) (conns : Z)
| Upstream (addr : string) (creds : transport)
| Producer (brokers : list string)
| KafkaClient (s : Subscription.t)
| Listener (addr : string).

(** The handlers behind a server. *)
Inductive rpc_service := WalletRpc (outboxTopic : string) | LedgerRpc | SagaRpc | VerificationRpc (mode : string).
Inductive web_handler :=
| HealthPages (service : string)
| HealthPagesNoStore (service : string)
| GatewayPages (verifier : Verifier.t) (limiter : RateLimiter.t)
| ApiPages (verifier : Verifier.t)
| StubRailPages (timeoutSleep : Z).

(** Goroutines. *)
Inductive worker :=
| Publishing (interval batch : Z)
| Reaping (interval ttl : Z)
| Sweeping (retention interval batch : Z)
| Consuming (s : Subscription.t)
| ServingRpc (addr : string) (creds : transport) (service : rpc_service)
| ServingWeb (addr : string) (handler : web_handler).

(** The steps of a run; [uses] is what the closure of a goroutine captures. *)
Inductive step :=
| Opened (r : resource)
| Closed (r : resource)
| Migrated
| Recovered
| Started (w : worker) (uses : list resource)
| Cancelled
| GracefulStop
| Shutdown.

(** [err] of a server that came back. *)
Inductive serve_error := ErrServerStopped | ErrServerClosed | ServeFailed (text : string).

(** What the [select] at the end of a run sees first. *)
Inductive ending := Signalled | Served (e : serve_error).

Inductive failure :=
| BadSettings (text : string)
| BadVerifier
| BadCredentials (text : string)
| CannotOpen (r : resource) (text : string)
| CannotPing (text : string)
| CannotMigrate (text : string)
| CannotRecover (e : saga_error)
| ServerFailed (e : serve_error)
| ShutdownFailed (text : string).

(** The answers of the surroundings, errors as their texts. *)
Record environment := Environment {
  LookupEnv : string -> option string;
  ReadFile : string -> res string string;
  client_disks : disks;
  server_disks : disks;
  opens : resource -> option string;
  pings : option string;
  migrates : option string;
  sees : ending;
  shuts_down : option string
}.

Record process := { trace : list step; deferred : list resource }.

(** [S] is a state of the service's own that a run may work on. *)
Definition boot (S A : Type) : Type := environment -> process -> S -> res failure A * process * S.

#[global] Instance boot_ret S : MRet (boot S) := fun A a _ p s => (Ok a, p, s).
#[global] Instance boot_bind S : MBind (boot S) := fun A B k m env p s =>
  match m env p s with
  | (Ok a, p, s) => k a env p s
  | (Err e, p, s) => (Err e, p, s)
  end.

Section Steps.
Context {S : Type}.

Definition fail {A} (e : failure) : boot S A := fun _ p s => (Err e, p, s).

Definition note (e : step) : boot S unit := fun _ p s =>
  (Ok tt, {| trace := trace p ++ [e]; deferred := deferred p |}, s).

(** What the surroundings answer to a question. *)
Definition ask {A} (q : environment -> A) : boot S A := fun env p s => (Ok (q env), p, s).

(** An error as the code returns it. *)
Definition require {A} (of_text : string -> failure) (r : res string A) : boot S A :=
  match r with Ok a => mret a | Err text => fail (of_text text) end.

(** [defer r.Close()] *)
Definition defer (r : resource) : boot S unit := fun _ p s =>
  (Ok tt, {| trace := trace p; deferred := r :: deferred p |}, s).

(** [x := ...; defer x.Close()] of something that always opens. *)
Definition hold (r : resource) : boot S resource := _ ← note (Opened r); _ ← defer r; mret r.

(** [x, err := ...; if err != nil { return err }; defer x.Close()] *)
Definition acquire (r : resource) : boot S resource :=
  answer ← ask (fun env => opens env r);
  match answer with
  | Some text => fail (CannotOpen r text)
  | None => hold r
  end.

(** [repo.Connect], which closes the pool itself when the database does not answer, with
    the [defer db.Close()] after it. *)
Definition Connect (url : string) (conns : Z) : boot S resource :=
  let db := Pool url conns in
  answer ← ask (fun env => opens env db);
  match answer with
  | Some text => fail (CannotOpen db text)
  | None =>
      _ ← note (Opened db);
      pinged ← ask pings;
      match pinged with
      | Some text => _ ← note (Closed db); fail (CannotPing text)
      | None => _ ← defer db; mret db
      end
  end.

Definition RunMigrations : boot S unit :=
  answer ← ask migrates;
  match answer with
  | Some text => fail (CannotMigrate text)
  | None => note Migrated
  end.

(** [go ...] *)
Definition spawn (w : worker) (uses : list resource) : boot S unit := note (Started w uses).

(** The [select] of a run: [rpc] when there is a gRPC server beside the HTTP server. *)
Definition await (rpc : bool) : boot S unit :=
  seen ← ask sees;
  match seen with
  | Signalled =>
      _ ← note Cancelled;
      _ ← (if rpc then note GracefulStop else mret tt);
      _ ← note Shutdown;
      answer ← ask shuts_down;
      match answer with Some text => fail (ShutdownFailed text) | None => mret tt end
  | Served ErrServerClosed => mret tt
  | Served ErrServerStopped => if rpc then mret tt else fail (ServerFailed ErrServerStopped)
  | Served e => fail (ServerFailed e)
  end.

(** [main]: the deferred calls run in the reverse of their order, then the exit code. *)
Definition main_of (run : boot S unit) (env : environment) (s : S) : Z * list step * S :=
  let '(r, p, s) := run env {| trace := []; deferred := [] |} s in
  (if is_Ok r then 0 else 1, (trace p ++ (Closed <$> deferred p))%list, s).
End Steps.

(** ** Orderly traces *)

(** [orderly held l]: from a process that holds [held], what is closed is what was opened
    last, goroutines are started with what is open, and at the end nothing is. *)
Inductive orderly : list resource -> list step -> Prop :=
| orderly_end : orderly [] []
| orderly_open r held l : orderly (r :: held) l -> orderly held (Opened r :: l)
| orderly_close r held l : orderly held l -> orderly (r :: held) (Closed r :: l)
| orderly_start w uses held l : uses ⊆ held -> orderly held l -> orderly held (Started w uses :: l)
| orderly_migrate held l : orderly held l -> orderly held (Migrated :: l)
| orderly_recover held l : orderly held l -> orderly held (Recovered :: l)
| orderly_cancel held l : orderly held l -> orderly held (Cancelled :: l)
| orderly_graceful held l : orderly held l -> orderly held (GracefulStop :: l)
| orderly_shutdown held l : orderly held l -> orderly held (Shutdown :: l).

(** [started_after needed l]: nothing is started before all of [needed] has happened. *)
Definition milestone (e : step) : option nat :=
  match e with Migrated => Some 0%nat | Recovered => Some 1%nat | _ => None end.

Fixpoint started_after (needed : list nat) (l : list step) : bool :=
  match l with
  | [] => true
  | Started _ _ :: l => bool_decide (needed = []) && started_after needed l
  | e :: l => started_after (match milestone e with Some n => filter (fun m => m <> n) needed | None => needed end) l
  end.

(** The interval of the ticker a goroutine makes, for which [time.NewTicker] panics
    unless it is positive. *)
Definition ticker (w : worker) : option Z :=
  match w with
  | Publishing interval _ | Reaping interval _ | Sweeping _ interval _ => Some interval
  | _ => None
  end.

Definition no_panic (l : list step) : Prop :=
  forall w uses, Started w uses ∈ l -> forall interval, ticker w = Some interval -> 0 < interval.

(** The transports of the servers and of the connections to other services. *)
Definition transports (l : list step) : list transport :=
  concat ((fun e => match e with
                    | Opened (Upstream _ creds) => [creds]
                    | Started (ServingRpc _ creds _) _ => [creds]
                    | _ => []
                    end) <$> l).

(** A goroutine that lives as long as the context. *)
Definition lives_with_context (w : worker) : bool :=
  match w with ServingRpc _ _ _ | ServingWeb _ _ => false | _ => true end.

(** [Cancelled] comes before anything is closed. *)
Fixpoint cancelled_before_closing (l : list step) : bool :=
  match l with
  | [] => true
  | Cancelled :: _ => true
  | Closed _ :: _ => false
  | _ :: l => cancelled_before_closing l
  end.
End Process.
