(* ===== verification/Commands.v ===== *)
(** * Commands: the [run] functions of the services.

    One module per command under [cmd]: its [run] as a program over its surroundings
    ([Process]), the helpers its file repeats, and the pages of its health server.  The
    values it builds from its settings (workers, servers, connections) are those of the
    components' own models. *)

From S2P Require Import Prelude GoStrings Domain GoTime Json Duration Mux Config Mtls Database Outbox Kafka DeadLetter Consumer Publisher.
From S2P Require Import WalletRepo Grpc WalletServer SagaTypes SagaStore Orchestrator FraudReview RateLimiter SagaServer Gateway.
From S2P Require Import WalletApi Subscriptions Process.

#[local] Open Scope string_scope.
#[local] Open Scope Z_scope.

(** [splitCSV] and [brokersFromConfig], which five commands repeat. *)
Definition split_csv (value : string) : list string :=
  List.filter (fun part => negb (part =s "")) (TrimSpace <$> split_commas value).

(** [outbox.NewPublisher]'s defaults, with those of [Publisher]. *)
Definition defaultPollInterval : Z := 100000000.
Definition NewPublisher `{Tls} (interval batch : Z) : worker :=
  Publishing (if interval <=? 0 then defaultPollInterval else interval) (publisher_batch batch).

Definition defaultFraudAuditSweepInterval : Z := Hour.
Definition NewFraudAuditSweeper `{Tls} (retention interval batch : Z) : worker :=
  Sweeping retention (if interval <=? 0 then defaultFraudAuditSweepInterval else interval) (sweeper_batch batch).

(** ** Health servers *)

(** [http.NewServeMux] with the two checks and the metrics that [InstrumentHTTP] adds. *)
Inductive check := Alive | ReadyCheck | Counters.
Definition health_mux : mux check := [("/healthz", Alive); ("/readyz", ReadyCheck); ("/metrics", Counters)].

(** A request to a health server; [ready] is what is behind [/readyz]. *)
Definition health_server (ready : Request.t -> db Response.t) (r : Request.t) : db Api.reply :=
  match find_handler r.(Request.Path) health_mux with
  | Handler Alive => Api.answered (ret (Api.Health r))
  | Handler ReadyCheck => Api.answered (ready r)
  | Handler Counters => ret Api.Exposition
  | RedirectTo path => ret (Api.Redirected path)
  | NoRoute => ret Api.PageNotFound
  end.

(** The service is ready when its database answers, and the checks change nothing. *)
Lemma health_reports r t s : let '(a, c') := health_server Api.Ready r (Conn t None s) in
  committed c' = t /\
  (r.(Request.Path) = "/readyz" -> r.(Request.Method) = "GET" -> exists resp, a = Ok (Api.Answered resp) /\
    (resp.(Response.Status) = 200 \/ resp.(Response.Status) = 503) /\
    (resp.(Response.Status) = 200 <-> is_Ok (fst (Api.Ping (Conn t None s))) = true)).
Proof.
  unfold health_server. destruct (find_handler r.(Request.Path) health_mux) as [[] | path |] eqn:Hroute.
  2: { unfold Api.answered, Api.Ready, bind, attempt, ret.
       destruct (String.eqb_spec r.(Request.Method) "GET") as [Hm | Hm]; simpl; [| split; [done | by intros _ ?]].
       unfold Api.Ping, Prelude.query, exec. simpl. destruct (next_fault s) as [[] s']; simpl; (split; [done |]); intros _ _;
         eexists; (split; [reflexivity |]); simpl; intuition congruence. }
  all: split; [done |]; intros Hp; rewrite Hp in Hroute; vm_compute in Hroute; done.
Qed.

(** ** The commands *)

(** The steps every command begins with: the context of the signals, then tracing. *)
Definition with_tracing `{Tls} {S} (service : string) : boot S unit :=
  _ ← hold Signals; _ ← hold (Tracing service); mret tt.

(** [config.Load...()] *)
Definition settings `{Tls} {S} (load : (string -> res string string) -> (string -> option string) -> res string Config.t)
    : boot S Config.t :=
  loaded ← ask (fun env => load (ReadFile env) (LookupEnv env));
  require BadSettings loaded.

Definition server_credentials `{Tls} {S} (cfg : Config.t) : boot S transport :=
  creds ← ask (fun env => ServerCredentials (MTLS cfg) (server_disks env));
  require BadCredentials creds.

Definition client_credentials `{Tls} {S} (cfg : Config.t) : boot S transport :=
  creds ← ask (fun env => ClientCredentials (MTLS cfg) (client_disks env));
  require BadCredentials creds.

(** [db.SetOutboxTopic] on what [repo.Connect] leaves. *)
Definition SetOutboxTopic (topic : string) : string := if topic =s "" then TransactionInitiatedTopic else topic.

Module WalletCommand.
Definition LoadWallet (_ : string -> res string string) := LoadWalletFromLookup.
Definition splitCSV : string -> list string := split_csv.
Definition healthServer : Request.t -> db Api.reply := health_server Api.Ready.

Definition run `{Tls} {S} : boot S unit :=
  cfg ← settings LoadWallet;
  _ ← with_tracing "wallet";
  db ← Connect cfg.(Config.DatabaseURL) cfg.(Config.DBMaxConns);
  _ ← RunMigrations;
  producer ← acquire (Producer (splitCSV cfg.(Config.KafkaBrokers)));
  _ ← spawn (NewPublisher cfg.(Config.WalletOutboxPollInterval) cfg.(Config.WalletOutboxBatchSize)) [db; producer];
  listener ← acquire (Listener cfg.(Config.GRPCAddr));
  serverCreds ← server_credentials cfg;
  _ ← spawn (ServingRpc cfg.(Config.GRPCAddr) serverCreds (WalletRpc (SetOutboxTopic cfg.(Config.WalletOutboxTopic)))) [listener; db];
  _ ← spawn (ServingWeb cfg.(Config.HTTPAddr) (HealthPages "wallet")) [db];
  await true.
End WalletCommand.

Module LedgerCommand.
Definition LoadLedger (_ : string -> res string string) := LoadLedgerFromLookup.
Definition brokersFromConfig : string -> list string := split_csv.
Definition healthServer : Request.t -> db Api.reply := health_server Api.Ready.

Definition run `{Tls} {S} : boot S unit :=
  cfg ← settings LoadLedger;
  _ ← with_tracing "ledger";
  db ← Connect cfg.(Config.DatabaseURL) cfg.(Config.DBMaxConns);
  _ ← RunMigrations;
  let subscription := LedgerKafka.NewKafkaConsumer (brokersFromConfig cfg.(Config.KafkaBrokers))
                        cfg.(Config.LedgerConsumerTopic) cfg.(Config.LedgerConsumerGroupID) in
  consumer ← (if cfg.(Config.LedgerConsumerEnabled)
              then client ← acquire (KafkaClient subscription); mret (Some client) else mret None);
  listener ← acquire (Listener cfg.(Config.GRPCAddr));
  serverCreds ← server_credentials cfg;
  _ ← spawn (ServingRpc cfg.(Config.GRPCAddr) serverCreds LedgerRpc) [listener; db];
  _ ← spawn (ServingWeb cfg.(Config.HTTPAddr) (HealthPages "ledger")) [db];
  _ ← (match consumer with Some client => spawn (Consuming subscription) [client; db] | None => mret tt end);
  await true.
End LedgerCommand.

Module VerificationCommand.
Definition LoadVerification (_ : string -> res string string) := LoadVerificationFromLookup.
Definition splitCSV : string -> list string := split_csv.
Definition healthServer : Request.t -> db Api.reply := health_server Api.Ready.

Definition run `{Tls} {S} : boot S unit :=
  cfg ← settings LoadVerification;
  _ ← with_tracing "verification";
  db ← Connect cfg.(Config.DatabaseURL) cfg.(Config.DBMaxConns);
  _ ← RunMigrations;
  producer ← acquire (Producer (splitCSV cfg.(Config.KafkaBrokers)));
  _ ← spawn (NewPublisher cfg.(Config.WalletOutboxPollInterval) cfg.(Config.WalletOutboxBatchSize)) [db; producer];
  listener ← acquire (Listener cfg.(Config.GRPCAddr));
  serverCreds ← server_credentials cfg;
  _ ← spawn (ServingRpc cfg.(Config.GRPCAddr) serverCreds (VerificationRpc cfg.(Config.VerificationMode))) [listener; db];
  _ ← spawn (ServingWeb cfg.(Config.HTTPAddr) (HealthPages "verification")) [db];
  await true.
End VerificationCommand.

Module ProcessorCommand.
Definition LoadPaymentProcessor (_ : string -> res string string) := LoadPaymentProcessorFromLookup.
Definition splitCSV : string -> list string := split_csv.
Definition healthServer : Request.t -> db Api.reply := health_server Api.Ready.

Definition run `{Tls} {S} : boot S unit :=
  cfg ← settings LoadPaymentProcessor;
  _ ← with_tracing "payment-processor";
  db ← Connect cfg.(Config.DatabaseURL) cfg.(Config.DBMaxConns);
  _ ← RunMigrations;
  producer ← acquire (Producer (splitCSV cfg.(Config.KafkaBrokers)));
  _ ← spawn (NewPublisher cfg.(Config.WalletOutboxPollInterval) cfg.(Config.WalletOutboxBatchSize)) [db; producer];
  let subscription := ProcessorKafka.NewKafkaConsumer (splitCSV cfg.(Config.KafkaBrokers)) cfg.(Config.PaymentProcessorGroupID) in
  client ← acquire (KafkaClient subscription);
  _ ← spawn (ServingWeb cfg.(Config.HTTPAddr) (HealthPages "payment-processor")) [db];
  _ ← spawn (Consuming subscription) [client; db];
  await false.
End ProcessorCommand.

Module NotificationCommand.
Definition LoadNotification (_ : string -> res string string) := LoadNotificationFromLookup.
Definition splitCSV : string -> list string := split_csv.
(** No store: both checks are the same. *)
Definition healthServer : Request.t -> db Api.reply := health_server (fun r => ret (Api.Health r)).

Definition run `{Tls} {S} : boot S unit :=
  cfg ← settings LoadNotification;
  _ ← with_tracing "notification";
  let subscription := NotificationKafka.NewKafkaConsumer (splitCSV cfg.(Config.KafkaBrokers)) cfg.(Config.NotificationConsumerGroupID) in
  client ← acquire (KafkaClient subscription);
  _ ← spawn (ServingWeb cfg.(Config.HTTPAddr) (HealthPagesNoStore "notification")) [];
  _ ← spawn (Consuming subscription) [client];
  await false.
End NotificationCommand.

Module SagaCommand.
Definition LoadSaga (_ : string -> res string string) := LoadSagaFromLookup.
Definition splitCSV : string -> list string := split_csv.
Definition healthServer : Request.t -> db Api.reply := health_server Api.Ready.

Section Run.
Context `{Tls} {W : Type} `{Remote W} `{Clock} `{Postgres} `{Uuid}.

(** [orchestrator.ResumeNonTerminal(ctx)] on the state of the orchestrator. *)
Definition recover (ctx : context) : boot (conn (world W)) unit := fun env p c =>
  match ResumeNonTerminal ctx c with
  | (Ok _, c') => note Recovered env p c'
  | (Err e, c') => fail (CannotRecover e) env p c'
  end.

Definition run (ctx : context) : boot (conn (world W)) unit :=
  cfg ← settings LoadSaga;
  _ ← with_tracing "saga-orchestrator";
  db ← Connect cfg.(Config.DatabaseURL) cfg.(Config.DBMaxConns);
  _ ← RunMigrations;
  clientCreds ← client_credentials cfg;
  walletConn ← acquire (Upstream cfg.(Config.WalletGRPCAddr) clientCreds);
  ledgerConn ← acquire (Upstream cfg.(Config.LedgerGRPCAddr) clientCreds);
  verificationConn ← acquire (Upstream cfg.(Config.VerificationGRPCAddr) clientCreds);
  producer ← acquire (Producer (splitCSV cfg.(Config.KafkaBrokers)));
  let orchestrator := [db; verificationConn; walletConn; ledgerConn] in
  _ ← recover ctx;
  _ ← spawn (NewPublisher cfg.(Config.WalletOutboxPollInterval) cfg.(Config.WalletOutboxBatchSize)) [db; producer];
  _ ← (if 0 <? cfg.(Config.FraudReviewTTL)
       then spawn (Reaping cfg.(Config.FraudReviewReaperInterval) cfg.(Config.FraudReviewTTL)) orchestrator else mret tt);
  _ ← (if 0 <? cfg.(Config.SagaFraudAuditRetention)
       then spawn (NewFraudAuditSweeper cfg.(Config.SagaFraudAuditRetention) 0 0) [db] else mret tt);
  let subscription := SagaKafka.NewKafkaConsumer (splitCSV cfg.(Config.KafkaBrokers)) cfg.(Config.SagaConsumerGroupID) in
  consumer ← (if cfg.(Config.SagaConsumerEnabled)
              then client ← acquire (KafkaClient subscription); mret (Some client) else mret None);
  listener ← acquire (Listener cfg.(Config.GRPCAddr));
  serverCreds ← server_credentials cfg;
  _ ← spawn (ServingRpc cfg.(Config.GRPCAddr) serverCreds SagaRpc) (listener :: orchestrator);
  _ ← spawn (ServingWeb cfg.(Config.HTTPAddr) (HealthPages "saga-orchestrator")) [db];
  _ ← (match consumer with Some client => spawn (Consuming subscription) (client :: orchestrator) | None => mret tt end);
  await true.
End Run.
End SagaCommand.

(** [auth.NewVerifier] of the settings. *)
Definition verifier_of `{Tls} `{Jwt} {S} (cfg : Config.t) : boot S Verifier.t :=
  match NewVerifier cfg.(Config.JWTAlgorithm) cfg.(Config.JWTSecret) cfg.(Config.JWTPublicKeyPEM) with
  | Some verifier => mret verifier
  | None => fail BadVerifier
  end.

Module GatewayCommand.
Definition run `{Tls} `{Jwt} {S} : boot S unit :=
  cfg ← settings LoadGatewayFromLookup;
  verifier ← verifier_of cfg;
  _ ← with_tracing "gateway";
  clientCreds ← client_credentials cfg;
  walletConn ← acquire (Upstream cfg.(Config.WalletGRPCAddr) clientCreds);
  ledgerConn ← acquire (Upstream cfg.(Config.LedgerGRPCAddr) clientCreds);
  sagaConn ← acquire (Upstream cfg.(Config.SagaGRPCAddr) clientCreds);
  verificationConn ← acquire (Upstream cfg.(Config.VerificationGRPCAddr) clientCreds);
  let limiter := NewRateLimiter cfg.(Config.RateLimitBurst) cfg.(Config.RateLimitRefillEvery) in
  _ ← spawn (ServingWeb cfg.(Config.HTTPAddr) (GatewayPages verifier limiter))
        [walletConn; ledgerConn; sagaConn; verificationConn];
  await false.
End GatewayCommand.

Module ApiCommand.
Definition run `{Tls} `{Jwt} {S} : boot S unit :=
  cfg ← settings LoadFromLookup;
  verifier ← verifier_of cfg;
  _ ← hold Signals;
  db ← Connect cfg.(Config.DatabaseURL) cfg.(Config.DBMaxConns);
  _ ← spawn (ServingWeb cfg.(Config.HTTPAddr) (ApiPages verifier)) [db];
  await false.
End ApiCommand.

Module StubRailCommand.
Definition valueOrDefault (getenv : string -> string) (key fallback : string) : string :=
  let value := getenv key in if value =s "" then fallback else value.

(** [os.Getenv]: a variable that is not set is empty. *)
Definition Getenv (lookup : string -> option string) (key : string) : string := default "" (lookup key).

Definition timeout_sleep (getenv : string -> string) : res string Z :=
  let raw := getenv "STUB_RAIL_TIMEOUT_SLEEP" in
  if raw =s "" then Ok (3 * Second)
  else match ParseDuration raw with
       | Some value => if value <=? 0 then Err "STUB_RAIL_TIMEOUT_SLEEP must be a positive duration" else Ok value
       | None => Err "STUB_RAIL_TIMEOUT_SLEEP must be a positive duration"
       end.

Definition run `{Tls} {S} : boot S unit :=
  getenv ← ask (fun env => Getenv (LookupEnv env));
  let addr := valueOrDefault getenv "HTTP_ADDR" ":18090" in
  timeoutSleep ← require BadSettings (timeout_sleep getenv);
  _ ← hold Signals;
  _ ← spawn (ServingWeb addr (StubRailPages timeoutSleep)) [];
  await false.
End StubRailCommand.
