(* ===== verification/Startup.v ===== *)
(** * Startup: every command starts, runs and stops in order.

    The rules for the steps of a run and the proof that each command, whatever its
    surroundings answer, opens and closes like a stack, hands its goroutines only what is
    open, starts none before the schema is migrated and the open payments are recovered,
    gives every ticker an interval, and keeps to mutual TLS when it is switched on. *)

From S2P Require Import Prelude GoStrings Domain GoTime Json Duration Mux Config Mtls Database Outbox Kafka DeadLetter Consumer Publisher.
From S2P Require Import WalletRepo Grpc WalletServer SagaTypes SagaStore Orchestrator FraudReview RateLimiter SagaServer Gateway.
From S2P Require Import WalletApi Subscriptions Process Commands.

#[local] Open Scope string_scope.
#[local] Open Scope Z_scope.

Section Rules.
Context `{Tls} {S : Type}.

Definition bwp {A} (m : boot S A) (Q : res failure A -> process -> S -> Prop) (env : environment) (p : process) (s : S) : Prop :=
  let '(r, p', s') := m env p s in Q r p' s'.

Definition not_started (e : step) : Prop := forall w uses, e <> Started w uses.

(** With mutual TLS on, a transport is never the insecure one. *)
Definition mutual (t : transport) : Prop := exists r, t = RotatingTransport r.

(** What holds of the steps a run has taken, however it goes on. *)
Record exiting (mtls : bool) (needed : list nat) (p : process) : Prop := {
  exit_orderly rest : orderly (deferred p) rest -> orderly [] (trace p ++ rest);
  exit_started rest : Forall not_started rest -> started_after needed (trace p ++ rest) = true;
  exit_ticks : no_panic (trace p);
  exit_mutual : mtls = true -> Forall mutual (transports (trace p))
}.

(** The same while it is starting: [left] is what must still happen before a goroutine
    is started, [web] whether the HTTP server is, and nothing has been closed. *)
Definition is_web (e : step) : bool := match e with Started (ServingWeb _ _) _ => true | _ => false end.

Record starting (mtls : bool) (needed left : list nat) (web : bool) (p : process) : Prop := {
  start_orderly rest : orderly (deferred p) rest -> orderly [] (trace p ++ rest);
  start_started rest : started_after left rest = true -> started_after needed (trace p ++ rest) = true;
  start_ticks : no_panic (trace p);
  start_mutual : mtls = true -> Forall mutual (transports (trace p));
  start_open rest : cancelled_before_closing rest = true -> cancelled_before_closing (trace p ++ rest) = true;
  start_web : existsb is_web (trace p) = web
}.

Definition settled_worker (w : worker) : Prop := forall interval, ticker w = Some interval -> 0 < interval.

(** The transport of a step is mutual when it has to be. *)
Definition kept_mutual (mtls : bool) (e : step) : Prop := mtls = true -> Forall mutual (transports [e]).

Lemma nothing_started left l : Forall not_started l -> started_after left l = true.
Proof.
  intros Hl. revert left. induction Hl as [|e l He Hl IH]; intros left; [done |].
  destruct e; simpl; try apply IH. exfalso. by apply (He w uses).
Qed.

Lemma closings_not_started (rs : list resource) : Forall not_started (Closed <$> rs).
Proof. apply Forall_fmap, list.Forall_forall. intros r _ w uses. done. Qed.

Lemma closings_web (rs : list resource) : existsb is_web (Closed <$> rs) = false.
Proof. by induction rs. Qed.

Lemma closings_transports (rs : list resource) : transports (Closed <$> rs) = [].
Proof. by induction rs. Qed.

Lemma orderly_closings rs : orderly rs (Closed <$> rs).
Proof. induction rs; simpl; by constructor. Qed.

Lemma transports_app l1 l2 : transports (l1 ++ l2) = (transports l1 ++ transports l2)%list.
Proof. unfold transports. by rewrite fmap_app, concat_app. Qed.

Lemma no_panic_snoc l e : no_panic l -> (forall w uses, e = Started w uses -> settled_worker w) -> no_panic (l ++ [e]).
Proof.
  intros Hl He w uses [Hin | Hin%list_elem_of_singleton]%elem_of_app; [by eapply Hl | by eapply He].
Qed.

Lemma starting_exits mtls needed left web p : starting mtls needed left web p -> exiting mtls needed p.
Proof. intros []. constructor; try done. intros rest Hrest. by apply start_started0, nothing_started. Qed.

Lemma starting_begins mtls needed : starting mtls needed needed false {| trace := []; deferred := [] |}.
Proof. constructor; simpl; try done. by intros w uses Hin%not_elem_of_nil. Qed.

Lemma kept_none mtls e : transports [e] = [] -> kept_mutual mtls e.
Proof. intros He _. by rewrite He. Qed.

(** One step more. *)
Lemma starting_step mtls needed left left' web p p' e :
  starting mtls needed left web p -> trace p' = (trace p ++ [e])%list ->
  (forall rest, orderly (deferred p') rest -> orderly (deferred p) (e :: rest)) ->
  (forall rest, started_after left' rest = true -> started_after left (e :: rest) = true) ->
  (forall rest, cancelled_before_closing rest = true -> cancelled_before_closing (e :: rest) = true) ->
  (forall w uses, e = Started w uses -> settled_worker w) -> kept_mutual mtls e ->
  starting mtls needed left' (web || is_web e) p'.
Proof.
  intros [] Ht Ho Hs Hc Hw Hm. constructor; rewrite ?Ht.
  - intros rest Hrest. rewrite <- app_assoc. simpl. by apply start_orderly0, Ho.
  - intros rest Hrest. rewrite <- app_assoc. simpl. by apply start_started0, Hs.
  - by apply no_panic_snoc.
  - intros Hon. rewrite transports_app. apply Forall_app. auto.
  - intros rest Hrest. rewrite <- app_assoc. simpl. by apply start_open0, Hc.
  - rewrite existsb_app, start_web0. simpl. by rewrite orb_false_r.
Qed.

(** One step more that is not the start of the HTTP server. *)
Lemma starting_other mtls needed left left' web p p' e :
  starting mtls needed left web p -> trace p' = (trace p ++ [e])%list ->
  (forall rest, orderly (deferred p') rest -> orderly (deferred p) (e :: rest)) ->
  (forall rest, started_after left' rest = true -> started_after left (e :: rest) = true) ->
  (forall rest, cancelled_before_closing rest = true -> cancelled_before_closing (e :: rest) = true) ->
  (forall w uses, e = Started w uses -> settled_worker w) -> kept_mutual mtls e -> is_web e = false ->
  starting mtls needed left' web p'.
Proof. intros Hp Ht Ho Hs Hc Hw Hm He. rewrite <- (orb_false_r web), <- He. by eapply starting_step. Qed.

(** *** The rules *)

Section Steps.
Variables (mtls : bool) (needed : list nat).


Lemma bwp_bind {A B} (m : boot S A) (k : A -> boot S B) Q env p s :
  bwp m (fun r p s => match r with Ok a => bwp (k a) Q env p s | Err e => Q (Err e) p s end) env p s -> bwp (m ≫= k) Q env p s.
Proof. unfold bwp, mbind, boot_bind. destruct (m env p s) as [[[a | e] p'] s']; done. Qed.

Lemma bwp_ask {A} (q : environment -> A) Q env p s : Q (Ok (q env)) p s -> bwp (ask q) Q env p s.
Proof. done. Qed.
Lemma bwp_ret {A} (a : A) Q env p s : Q (Ok a) p s -> bwp (mret a) Q env p s.
Proof. done. Qed.
Lemma bwp_fail {A} e Q env p s : Q (Err e : res failure A) p s -> bwp (fail e) Q env p s.
Proof. done. Qed.
Lemma bwp_require {A} of_text (r : res string A) Q env p s :
  (forall a, r = Ok a -> Q (Ok a) p s) -> (forall e, Q (Err e) p s) -> bwp (require of_text r) Q env p s.
Proof. intros Hok Herr. destruct r; [by apply Hok | apply Herr]. Qed.

Lemma bwp_hold left web r Q env p s :
  starting mtls needed left web p -> kept_mutual mtls (Opened r) ->
  (forall p', starting mtls needed left web p' -> deferred p' = r :: deferred p -> Q (Ok r) p' s) -> bwp (hold r) Q env p s.
Proof.
  intros Hp Hm HQ. apply HQ; [| done]. eapply starting_other; [exact Hp | done | | done | done | done | done | done].
  intros rest Hrest. by constructor.
Qed.

Lemma bwp_acquire left web r Q env p s :
  starting mtls needed left web p -> kept_mutual mtls (Opened r) ->
  (forall p', starting mtls needed left web p' -> deferred p' = r :: deferred p -> Q (Ok r) p' s) ->
  (forall e, Q (Err e) p s) -> bwp (acquire r) Q env p s.
Proof.
  intros Hp Hm HQ Herr. unfold acquire. apply bwp_bind, bwp_ask. destruct (opens env r); [apply bwp_fail, Herr |].
  by eapply bwp_hold.
Qed.

Lemma bwp_connect left web url conns Q env p s :
  starting mtls needed left web p ->
  (forall p', starting mtls needed left web p' -> deferred p' = Pool url conns :: deferred p -> Q (Ok (Pool url conns)) p' s) ->
  (forall e p', exiting mtls needed p' -> existsb is_web (trace p') = web -> Q (Err e) p' s) -> bwp (Connect url conns) Q env p s.
Proof.
  intros Hp HQ Herr. unfold Connect. apply bwp_bind, bwp_ask.
  destruct (opens env _); [apply bwp_fail, Herr; [by eapply starting_exits | apply Hp] |].
  apply bwp_bind. unfold note. cbn [bwp]. apply bwp_bind, bwp_ask. destruct (pings env).
  - apply bwp_bind. unfold note. cbn [bwp]. apply bwp_fail, Herr;
      [| cbn [trace]; by rewrite !existsb_app, (start_web _ _ _ _ _ Hp), !orb_false_r].
    destruct Hp. constructor; cbn [trace deferred].
    + intros rest Hrest. rewrite <- !app_assoc. simpl. apply start_orderly0. by repeat constructor.
    + intros rest Hrest. rewrite <- !app_assoc. simpl. apply start_started0. simpl. by apply nothing_started.
    + by repeat apply no_panic_snoc.
    + intros Hon. rewrite !transports_app. repeat (apply Forall_app; split); try done. by apply start_mutual0.
  - apply bwp_bind. unfold defer. cbn [bwp]. apply HQ; [| done].
    eapply starting_other; [exact Hp | done | | done | done | done | by apply kept_none | done]. intros rest Hrest. by constructor.
Qed.

Lemma bwp_migrations left web Q env p s :
  starting mtls needed left web p ->
  (forall p', starting mtls needed (filter (fun n => n <> 0%nat) left) web p' -> deferred p' = deferred p -> Q (Ok tt) p' s) ->
  (forall e, Q (Err e) p s) -> bwp RunMigrations Q env p s.
Proof.
  intros Hp HQ Herr. unfold RunMigrations. apply bwp_bind, bwp_ask. destruct (migrates env); [apply bwp_fail, Herr |].
  apply HQ; [| done]. eapply starting_other; [exact Hp | done | | done | done | done | by apply kept_none | done].
  intros rest Hrest. by constructor.
Qed.

Lemma bwp_spawn web w uses Q env p s :
  starting mtls needed [] web p -> uses ⊆ deferred p -> settled_worker w -> kept_mutual mtls (Started w uses) ->
  (forall p', starting mtls needed [] (web || is_web (Started w uses)) p' -> deferred p' = deferred p -> Q (Ok tt) p' s) ->
  bwp (spawn w uses) Q env p s.
Proof.
  intros Hp Hu Hw Hm HQ. apply HQ; [| done].
  eapply starting_step; [exact Hp | done | | done | done | | done].
  - intros rest Hrest. by constructor.
  - by intros ? ? [= <- <-].
Qed.

(** The end of a run that has served: a signal cancels the context before anything is
    closed, and the code says whether the end was clean. *)
Definition clean (rpc : bool) (env : environment) : bool :=
  match sees env with
  | Signalled => match shuts_down env with None => true | Some _ => false end
  | Served ErrServerClosed => true
  | Served ErrServerStopped => rpc
  | Served (ServeFailed _) => false
  end.

Definition finished (rpc : bool) (env : environment) (r : res failure unit) (p : process) (_ : S) : Prop :=
  exiting mtls needed p /\
  (is_Ok r = true -> existsb is_web (trace p) = true) /\
  (existsb is_web (trace p) = true -> is_Ok r = clean rpc env /\
     (sees env = Signalled -> forall rest, cancelled_before_closing (trace p ++ rest) = true)).

Lemma finished_early rpc env e left p s : starting mtls needed left false p -> finished rpc env (Err e) p s.
Proof. intros Hp. split; [by eapply starting_exits |]. split; [done |]. rewrite (start_web _ _ _ _ _ Hp). done. Qed.

Lemma finished_gone rpc env e p s : exiting mtls needed p -> existsb is_web (trace p) = false -> finished rpc env (Err e) p s.
Proof. intros Hp Hweb. split; [done |]. split; [done |]. by rewrite Hweb. Qed.

(** A step after the end of the start. *)
Lemma exiting_step p e : exiting mtls needed p ->
  (forall rest, orderly (deferred p) rest -> orderly (deferred p) (e :: rest)) -> not_started e -> transports [e] = [] ->
  exiting mtls needed {| trace := trace p ++ [e]; deferred := deferred p |}.
Proof.
  intros [] Ho Hn Ht. constructor; simpl.
  - intros rest Hrest. rewrite <- app_assoc. by apply exit_orderly0, Ho.
  - intros rest Hrest. rewrite <- app_assoc. apply exit_started0. by constructor.
  - apply no_panic_snoc; [done |]. intros w uses ->. by destruct (Hn w uses eq_refl).
  - intros Hon. rewrite transports_app, Ht, app_nil_r. auto.
Qed.

Lemma bwp_await rpc env p s : starting mtls needed [] true p -> bwp (await rpc) (finished rpc env) env p s.
Proof.
  intros Hp. pose proof (starting_exits _ _ _ _ _ Hp) as Hexit. pose proof (start_web _ _ _ _ _ Hp) as Hweb.
  unfold await. apply bwp_bind, bwp_ask. unfold bwp, finished, clean. destruct (sees env) as [| []] eqn:Hsees.
  - assert (forall rest, cancelled_before_closing (trace p ++ Cancelled :: rest) = true) as Hcancel
      by (intros; by apply (start_open _ _ _ _ _ Hp)).
    assert (exiting mtls needed {| trace := trace p ++ [Cancelled]; deferred := deferred p |}) as Hc
      by (apply exiting_step; [done | by constructor | done | done]).
    destruct (shuts_down env) eqn:Hsd, rpc; cbv [mbind boot_bind note ask fail mret boot_ret]; rewrite Hsd; cbn [trace deferred].
    all: split; [by apply (exiting_step {| trace := _; deferred := _ |} Shutdown);
                    [first [exact Hc | apply (exiting_step {| trace := _; deferred := _ |} GracefulStop Hc); [by constructor | done | done]]
                    | by constructor | done | done] |].
    all: split; [by rewrite !existsb_app, Hweb |]; intros _; split; [done |]; intros _ rest; rewrite <- !app_assoc; apply Hcancel.
  - destruct rpc; (split; [done |]); by split.
  - split; [done |]. by split.
  - split; [done |]. by split.
Qed.
End Steps.
End Rules.

(** ** The commands *)

Section Commands.
Context `{Tls} `{Jwt} {W : Type} `{Remote W} `{Clock} `{Postgres} `{Uuid}.

Inductive command :=
| Wallet | Ledger | VerificationService | PaymentProcessor | NotificationService | SagaOrchestrator
| GatewayService | ApiService | StubRail.

Definition run_of (c : command) (ctx : context) : boot (conn (world W)) unit :=
  match c with
  | Wallet => WalletCommand.run
  | Ledger => LedgerCommand.run
  | VerificationService => VerificationCommand.run
  | PaymentProcessor => ProcessorCommand.run
  | NotificationService => NotificationCommand.run
  | SagaOrchestrator => SagaCommand.run ctx
  | GatewayService => GatewayCommand.run
  | ApiService => ApiCommand.run
  | StubRail => StubRailCommand.run
  end.

(** The settings a command loads; the stub of the rail has none. *)
Definition settings_of (c : command) (env : environment) : res string Config.t :=
  match c with
  | Wallet => LoadWalletFromLookup (LookupEnv env)
  | Ledger => LoadLedgerFromLookup (LookupEnv env)
  | VerificationService => LoadVerificationFromLookup (LookupEnv env)
  | PaymentProcessor => LoadPaymentProcessorFromLookup (LookupEnv env)
  | NotificationService => LoadNotificationFromLookup (LookupEnv env)
  | SagaOrchestrator => LoadSagaFromLookup (LookupEnv env)
  | GatewayService => LoadGatewayFromLookup (ReadFile env) (LookupEnv env)
  | ApiService => LoadFromLookup (ReadFile env) (LookupEnv env)
  | StubRail => Err ""
  end.

Definition mutual_tls (c : command) (env : environment) : bool :=
  match settings_of c env with Ok cfg => cfg.(Config.MTLSEnabled) | Err _ => false end.

Lemma mutual_on c env cfg : settings_of c env = Ok cfg -> mutual_tls c env = cfg.(Config.MTLSEnabled).
Proof. unfold mutual_tls. by intros ->. Qed.

(** What must have happened before a goroutine is started: the migrations (0) and, for
    the orchestrator, the recovery of the open payments (1). *)
Definition milestones (c : command) : list nat :=
  match c with
  | Wallet | Ledger | VerificationService | PaymentProcessor => [0%nat]
  | SagaOrchestrator => [0%nat; 1%nat]
  | _ => []
  end.

(** The commands with a gRPC server. *)
Definition has_rpc (c : command) : bool :=
  match c with Wallet | Ledger | VerificationService | SagaOrchestrator => true | _ => false end.

Abbreviation S := (conn (world W)).

Lemma bwp_settings load Q env p (s : S) :
  (forall cfg, load (ReadFile env) (LookupEnv env) = Ok cfg -> Q (Ok cfg) p s) -> (forall e, Q (Err e) p s) ->
  bwp (settings load) Q env p s.
Proof. intros Hok Herr. apply bwp_bind, bwp_ask. by apply bwp_require. Qed.

Lemma bwp_server cfg Q env p (s : S) :
  (forall t, (cfg.(Config.MTLSEnabled) = true -> mutual t) -> Q (Ok t) p s) -> (forall e, Q (Err e) p s) ->
  bwp (server_credentials cfg) Q env p s.
Proof.
  intros Hok Herr. apply bwp_bind, bwp_ask, bwp_require; [| done]. intros t Ht. apply Hok. intros Hon.
  unfold ServerCredentials, MTLS in Ht. simpl in Ht. rewrite Hon in Ht. simpl in Ht.
  destruct (newRotating _ _ _) as [r |]; [| done]. injection Ht as <-. by exists r.
Qed.

Lemma bwp_client cfg Q env p (s : S) :
  (forall t, (cfg.(Config.MTLSEnabled) = true -> mutual t) -> Q (Ok t) p s) -> (forall e, Q (Err e) p s) ->
  bwp (client_credentials cfg) Q env p s.
Proof.
  intros Hok Herr. apply bwp_bind, bwp_ask, bwp_require; [| done]. intros t Ht. apply Hok. intros Hon.
  unfold ClientCredentials, MTLS in Ht. simpl in Ht. rewrite Hon in Ht. simpl in Ht.
  destruct (newRotating _ _ _) as [r |]; [| done]. injection Ht as <-. by exists r.
Qed.

Lemma bwp_recover mtls needed left web ctx Q env p (s : S) :
  starting mtls needed left web p ->
  (forall p' s', starting mtls needed (filter (fun n => n <> 1%nat) left) web p' -> deferred p' = deferred p ->
     ResumeNonTerminal ctx s = (Ok tt, s') -> Q (Ok tt) p' s') ->
  (forall e s', Q (Err e) p s') -> bwp (SagaCommand.recover ctx) Q env p s.
Proof.
  intros Hp HQ Herr. unfold bwp, SagaCommand.recover. destruct (ResumeNonTerminal ctx s) as [[[] | e] s'] eqn:Hr; [| apply Herr].
  apply HQ; [| done | done]. eapply starting_other; [exact Hp | done | | done | done | done | by apply kept_none | done].
  intros rest Hrest. by constructor.
Qed.

Lemma mutual_step mtls cfg_on e creds : transports [e] = [creds] -> (cfg_on = true -> mutual creds) -> mtls = cfg_on -> kept_mutual mtls e.
Proof. intros He Hm -> Hon. rewrite He. repeat constructor. auto. Qed.

Lemma publisher_settled interval batch : settled_worker (NewPublisher interval batch).
Proof. intros i [= <-]. unfold defaultPollInterval. case_match; lia. Qed.
Lemma sweeper_settled retention interval batch : settled_worker (NewFraudAuditSweeper retention interval batch).
Proof. intros i [= <-]. unfold defaultFraudAuditSweepInterval, Hour, Minute, Second. case_match; lia. Qed.

Lemma reaper_settled env cfg ttl : SagaCommand.LoadSaga (ReadFile env) (LookupEnv env) = Ok cfg ->
  settled_worker (Reaping cfg.(Config.FraudReviewReaperInterval) ttl).
Proof.
  intros Hcfg i [= <-]. destruct (saga_settings _ _ Hcfg) as (_ & _ & _ & _ & _ & _ & _ & Hc & _). unfold counts in Hc. lia.
Qed.

(** [boot] walks through a run: [Hp] is what holds of the process, [Hd] what it holds. *)
Ltac boot_side :=
  first [ by apply kept_none | by eapply mutual_step; [reflexivity | eassumption | eassumption]
        | apply publisher_settled | eapply reaper_settled; eassumption | apply sweeper_settled | by intros ? ? ].
Ltac boot_next Hp Hd :=
  let p' := fresh "p" in let Hp' := fresh "Hp" in let Hd' := fresh "Hd" in
  intros p' Hp' Hd'; rewrite Hd in Hd'; clear Hp Hd; rename Hp' into Hp; rename Hd' into Hd; cbn [orb is_web NewPublisher NewFraudAuditSweeper] in Hp; cbv beta iota.
Ltac boot_held Hd := rewrite Hd; intros ?; rewrite ?elem_of_cons; tauto.
Ltac boot Hp Hd :=
  lazymatch goal with
  | |- bwp (mbind _ _) _ _ _ _ => apply bwp_bind
  | |- bwp (with_tracing _) _ _ _ _ => unfold with_tracing
  | |- bwp (mret _) _ _ _ _ => apply bwp_ret
  | |- bwp (hold _) _ _ _ _ => eapply bwp_hold; [exact Hp | boot_side | boot_next Hp Hd]
  | |- bwp (acquire _) _ _ _ _ => eapply bwp_acquire; [exact Hp | boot_side | boot_next Hp Hd | intros e; by eapply finished_early]
  | |- bwp (Connect _ _) _ _ _ _ => eapply bwp_connect; [exact Hp | boot_next Hp Hd | intros; by apply finished_gone]
  | |- bwp (server_credentials _) _ _ _ _ => apply bwp_server; [intros ? ?; cbv beta iota | intros e; by eapply finished_early]
  | |- bwp (client_credentials _) _ _ _ _ => apply bwp_client; [intros ? ?; cbv beta iota | intros e; by eapply finished_early]
  | |- bwp (SagaCommand.recover _) _ _ _ _ =>
      eapply bwp_recover; [exact Hp | intros p' s' Hp' Hd' _; revert p' Hp' Hd'; boot_next Hp Hd | intros e s'; by eapply finished_early]
  | |- bwp (if ?b then _ else _) _ _ _ _ => destruct b eqn:?
  | |- bwp (match ?o with Some _ => _ | None => _ end) _ _ _ _ => destruct o; cbv beta iota
  | |- bwp RunMigrations _ _ _ _ => eapply bwp_migrations; [exact Hp | boot_next Hp Hd | intros e; by eapply finished_early]
  | |- bwp (spawn _ _) _ _ _ _ => eapply bwp_spawn; [exact Hp | boot_held Hd | boot_side | boot_side | boot_next Hp Hd]
  | |- bwp (await _) _ _ _ _ => apply bwp_await; exact Hp
  end.

Ltac begin c env :=
  pose proof (starting_begins (mutual_tls c env) (milestones c)) as Hp;
  set (p0 := {| trace := []; deferred := [] |}) in *; assert (deferred p0 = []) as Hd by done; clearbody p0.
Ltac load c env :=
  apply bwp_bind, bwp_settings; [| intros e; by eapply finished_early];
  intros cfg Hcfg; cbv beta iota; pose proof (mutual_on c env cfg Hcfg) as Hon.

Abbreviation finishes c m := (forall env (s : S), bwp m (finished (mutual_tls c env) (milestones c) (has_rpc c) env) env
  {| trace := []; deferred := [] |} s).

Lemma wallet_finishes : finishes Wallet WalletCommand.run.
Proof. intros env s. begin Wallet env. unfold WalletCommand.run. load Wallet env. repeat boot Hp Hd. Qed.

Lemma ledger_finishes : finishes Ledger LedgerCommand.run.
Proof. intros env s. begin Ledger env. unfold LedgerCommand.run. load Ledger env. repeat boot Hp Hd. Qed.

Lemma verification_finishes : finishes VerificationService VerificationCommand.run.
Proof. intros env s. begin VerificationService env. unfold VerificationCommand.run. load VerificationService env. repeat boot Hp Hd. Qed.

Lemma processor_finishes : finishes PaymentProcessor ProcessorCommand.run.
Proof. intros env s. begin PaymentProcessor env. unfold ProcessorCommand.run. load PaymentProcessor env. repeat boot Hp Hd. Qed.

Lemma notification_finishes : finishes NotificationService NotificationCommand.run.
Proof. intros env s. begin NotificationService env. unfold NotificationCommand.run. load NotificationService env. repeat boot Hp Hd. Qed.

Lemma saga_finishes ctx : finishes SagaOrchestrator (SagaCommand.run ctx).
Proof. intros env s. begin SagaOrchestrator env. unfold SagaCommand.run. load SagaOrchestrator env. repeat boot Hp Hd. Qed.

Lemma gateway_finishes : finishes GatewayService GatewayCommand.run.
Proof.
  intros env s. begin GatewayService env. unfold GatewayCommand.run. load GatewayService env. apply bwp_bind. unfold verifier_of.
  destruct (NewVerifier _ _ _); [apply bwp_ret | apply bwp_fail; by eapply finished_early]. repeat boot Hp Hd.
Qed.

Lemma api_finishes : finishes ApiService ApiCommand.run.
Proof.
  intros env s. begin ApiService env. unfold ApiCommand.run. load ApiService env. apply bwp_bind. unfold verifier_of.
  destruct (NewVerifier _ _ _); [apply bwp_ret | apply bwp_fail; by eapply finished_early]. repeat boot Hp Hd.
Qed.

Lemma stub_finishes : finishes StubRail StubRailCommand.run.
Proof.
  intros env s. begin StubRail env. unfold StubRailCommand.run. apply bwp_bind, bwp_ask, bwp_bind, bwp_require; [| intros e; by eapply finished_early].
  intros sleep _. cbv beta iota. repeat boot Hp Hd.
Qed.

(** C37: every command runs in order.  Whatever the surroundings answer, what a command
    closes is what it opened last and nothing is left open at its exit; a goroutine is
    started only with what is open, and only after the migrations and, in the
    orchestrator, the recovery of the open payments; no ticker panics; and with mutual
    TLS on every connection and every gRPC server has it.  The exit code is 0 only for a
    command that has served, and then exactly when it was stopped cleanly; a signal
    cancels the goroutines before anything they use is closed. *)
Theorem commands_run_in_order c ctx env (s : S) :
  let '(code, steps, _) := main_of (run_of c ctx) env s in
  orderly [] steps /\ started_after (milestones c) steps = true /\ no_panic steps /\
  (mutual_tls c env = true -> Forall mutual (transports steps)) /\
  (code = 0 -> existsb is_web steps = true) /\
  (existsb is_web steps = true ->
     code = (if clean (has_rpc c) env then 0 else 1) /\
     (sees env = Signalled -> cancelled_before_closing steps = true)).
Proof.
  assert (finishes c (run_of c ctx)) as Hrun.
  { destruct c; [apply wallet_finishes | apply ledger_finishes | apply verification_finishes | apply processor_finishes
      | apply notification_finishes | apply saga_finishes | apply gateway_finishes | apply api_finishes | apply stub_finishes]. }
  specialize (Hrun env s). unfold bwp in Hrun. unfold main_of. destruct (run_of c ctx env _ s) as [[r p] s'].
  destruct Hrun as ([] & Hok & Hweb). pose proof (closings_not_started (deferred p)) as Hclosing.
  assert (existsb is_web (trace p ++ (Closed <$> deferred p)) = existsb is_web (trace p)) as Hsame.
  { by rewrite existsb_app, closings_web, orb_false_r. }
  rewrite Hsame. split_and!.
  - apply exit_orderly0, orderly_closings.
  - by apply exit_started0.
  - intros w uses [Hin | Hin]%elem_of_app; [by eapply exit_ticks0 |]. by apply list_elem_of_fmap in Hin as (? & ? & _).
  - intros Hon. rewrite transports_app, closings_transports, app_nil_r. by apply exit_mutual0.
  - intros Hcode. apply Hok. by destruct r.
  - intros Hw. destruct (Hweb Hw) as [Hc Hcancel]. split; [by rewrite Hc | auto].
Qed.
End Commands.

(** ** Evaluated *)

Section Evaluated.
Context `{Tls} {S : Type} (s : S).

Definition no_disk : disk := fun path => Err ("open " ++ path).
Definition demo_settings (key : string) : option string :=
  if key =s "DATABASE_URL" then Some "postgres://db" else if key =s "KAFKA_BROKERS" then Some "a:1, b:2," else None.
Definition demo_environment (refused : resource -> option string) (seen : ending) : environment :=
  Environment demo_settings no_disk (no_disk, no_disk, no_disk) (no_disk, no_disk, no_disk) refused None None seen None.

(** A wallet service that starts, serves and is stopped by a signal. *)
Example wallet_served :
  let db := Pool "postgres://db" 10 in let producer := Producer ["a:1"; "b:2"] in let listener := Listener ":9090" in
  fst (main_of WalletCommand.run (demo_environment (fun _ => None) Signalled) s) =
  (0, [Opened Signals; Opened (Tracing "wallet"); Opened db; Migrated; Opened producer;
       Started (Publishing 100000000 100) [db; producer]; Opened listener;
       Started (ServingRpc ":9090" InsecureTransport (WalletRpc "tx.initiated")) [listener; db];
       Started (ServingWeb ":8080" (HealthPages "wallet")) [db]; Cancelled; GracefulStop; Shutdown;
       Closed listener; Closed producer; Closed db; Closed (Tracing "wallet"); Closed Signals]).
Proof. vm_compute. reflexivity. Qed.

(** When the port is taken the publisher has been started and its context is not
    cancelled: [stop] is deferred first and runs last, so the broker's client and the
    pool are closed under a publisher that is still running. *)
Lemma workers_outlive_resources :
  let db := Pool "postgres://db" 10 in let producer := Producer ["a:1"; "b:2"] in
  let refused r := match r with Listener _ => Some "address already in use" | _ => None end in
  exists steps, fst (main_of WalletCommand.run (demo_environment refused Signalled) s) = (1, steps) /\
    steps = [Opened Signals; Opened (Tracing "wallet"); Opened db; Migrated; Opened producer;
             Started (Publishing 100000000 100) [db; producer]; Closed producer; Closed db; Closed (Tracing "wallet"); Closed Signals] /\
    cancelled_before_closing steps = false.
Proof. eexists. split; [vm_compute; reflexivity |]. split; [vm_compute; reflexivity | vm_compute; reflexivity]. Qed.
End Evaluated.
