(* ===== verification/Migrations.v ===== *)
(** * Migrations: several services migrate one schema.

    [Database.RunMigrations] of [internal/repo/wallets.go], which every service with a
    store calls when it starts.  The services share a server that keeps the advisory
    lock; a statement runs on whichever connection of the service's pool the pool
    chooses, so the connection is part of each event.  Executing a file is an event of
    its own; its SQL is not looked into.  A pool keeps its connections, and with them a
    lock they hold, until the service exits, which it does after [RunMigrations] has
    returned. *)

From stdpp Require Import sorting.
From S2P Require Import Prelude GoStrings.

#[local] Open Scope string_scope.

(** [sort.Strings] *)
Definition before (a b : string) : Prop := String.leb a b = true.
#[export] Instance before_dec : RelDecision before := fun a b => decide (String.leb a b = true).

Definition sort_Strings (names : list string) : list string := merge_sort before names.

(** Where a service is in [RunMigrations]: waiting for the lock, with the files it has
    still to execute, at the deferred unlock with its result, or through. *)
Inductive progress :=
| Locking
| Applying (rest : list string)
| Unlocking (result : option string)
| Done (result : option string)
| Exited.

(** A connection: its service and its number in the pool. *)
Definition session : Type := nat * nat.

Record server := Server {
  services : list progress;
  lock : option session;
  (** the files executed so far, with the service that did *)
  executed : list (nat * string)
}.

Inductive event :=
| Lock (i conn : nat)
| LockFails (i : nat) (error : string)
| ResolveFails (i : nat) (error : string)
| Execute (i : nat)
| ExecuteFails (i : nat) (error : string)
| Finish (i : nat)
| Unlock (i conn : nat)
| Exit (i : nat).

Section Run.
(** The files [filepath.Glob] finds. *)
Variable glob : list string.

Definition moved (i : nat) (p : progress) (s : server) : server := Server (<[i := p]> (services s)) (lock s) (executed s).

(** One event; [None] when it cannot happen now.  The lock is granted when it is free
    or the connection has it already; an unlock by another connection changes nothing.
    [ResolveFails] is an error before the first file, from [runtime.Caller] or
    [filepath.Glob]; [ExecuteFails] one of reading or executing a file. *)
Definition step (e : event) (s : server) : option server :=
  match e with
  | Lock i conn =>
      match services s !! i with
      | Some Locking =>
          if bool_decide (lock s = None \/ lock s = Some (i, conn))
          then Some (moved i (Applying (sort_Strings glob)) (Server (services s) (Some (i, conn)) (executed s)))
          else None
      | _ => None
      end
  | LockFails i error =>
      match services s !! i with Some Locking => Some (moved i (Done (Some error)) s) | _ => None end
  | ResolveFails i error =>
      match services s !! i with
      | Some (Applying rest) => if bool_decide (rest = sort_Strings glob) then Some (moved i (Unlocking (Some error)) s) else None
      | _ => None
      end
  | Execute i =>
      match services s !! i with
      | Some (Applying (file :: rest)) =>
          Some (moved i (Applying rest) (Server (services s) (lock s) (executed s ++ [(i, file)])))
      | _ => None
      end
  | ExecuteFails i error =>
      match services s !! i with
      | Some (Applying (_ :: _)) => Some (moved i (Unlocking (Some error)) s)
      | _ => None
      end
  | Finish i =>
      match services s !! i with Some (Applying []) => Some (moved i (Unlocking None) s) | _ => None end
  | Unlock i conn =>
      match services s !! i with
      | Some (Unlocking result) =>
          Some (moved i (Done result) (Server (services s) (if bool_decide (lock s = Some (i, conn)) then None else lock s) (executed s)))
      | _ => None
      end
  | Exit i =>
      match services s !! i with
      | Some (Done _) =>
          Some (moved i Exited (Server (services s) (match lock s with Some (j, _) => if Nat.eqb i j then None else lock s | None => None end) (executed s)))
      | _ => None
      end
  end.

Definition start (n : nat) : server := Server (replicate n Locking) None [].

Inductive runs (n : nat) : server -> Prop :=
| runs_start : runs n (start n)
| runs_step e s s' : runs n s -> step e s = Some s' -> runs n s'.

(** ** One at a time *)

Definition inside (p : progress) : bool := match p with Applying _ | Unlocking _ => true | _ => false end.

(** A service that is inside has the lock. *)
Definition guarded (s : server) : Prop :=
  forall i p, services s !! i = Some p -> inside p = true -> exists conn, lock s = Some (i, conn).

(** The executed files as blocks, one service after the other. *)
Definition log_of (blocks : list (nat * list string)) : list (nat * string) :=
  concat (map (fun b => map (pair b.1) b.2) blocks).

(** A service that is inside owns the last block; one that is through without an error
    has a whole one. *)
Record good (s : server) (blocks : list (nat * list string)) : Prop := {
  good_guard : guarded s;
  good_log : executed s = log_of blocks;
  good_nodup : NoDup blocks.*1;
  good_prefix : Forall (fun b => b.2 `prefix_of` sort_Strings glob) blocks;
  good_waiting i : services s !! i = Some Locking -> i ∉ blocks.*1;
  good_applying i rest : services s !! i = Some (Applying rest) ->
    exists front files, blocks = (front ++ [(i, files)])%list /\ (files ++ rest)%list = sort_Strings glob;
  good_through i p : services s !! i = Some p -> p = Unlocking None \/ p = Done None -> (i, sort_Strings glob) ∈ blocks
}.

Lemma one_inside s i j p q : guarded s -> services s !! i = Some p -> services s !! j = Some q ->
  inside p = true -> inside q = true -> i = j.
Proof.
  intros Hg Hi Hj Hp Hq. destruct (Hg i p Hi Hp) as [c1 H1]. destruct (Hg j q Hj Hq) as [c2 H2]. congruence.
Qed.

(** The services after one of them has moved. *)
Lemma service_moved i p s j q : services (moved i p s) !! j = Some q ->
  (i = j /\ q = p) \/ (i <> j /\ services s !! j = Some q).
Proof.
  simpl. intros Hj. destruct (decide (i = j)) as [<- | Hne].
  - apply list_lookup_insert_Some in Hj as [(_ & -> & _) | (? & _)]; [by left | done].
  - rewrite list_lookup_insert_ne in Hj by done. by right.
Qed.

(** A service that leaves the lock and the log alone. *)
Lemma good_move s blocks i p q : good s blocks -> services s !! i = Some p ->
  (inside q = true -> inside p = true) -> (forall rest, q = Applying rest -> False) -> q <> Locking ->
  (q = Unlocking None \/ q = Done None -> (i, sort_Strings glob) ∈ blocks) ->
  good (moved i q s) blocks.
Proof.
  intros [] Hi Hin Happ Hlock Hthrough. constructor; simpl; try done.
  - intros j r [[<- ->] | [Hne Hj]]%service_moved Hr; [by apply (good_guard0 i p); auto | by eapply good_guard0].
  - intros j [[<- Heq] | [Hne Hj]]%service_moved; [by destruct Hlock | by apply good_waiting0].
  - intros j rest [[<- Heq] | [Hne Hj]]%service_moved; [by destruct (Happ rest) | by apply good_applying0].
  - intros j r [[<- ->] | [Hne Hj]]%service_moved Hr; [by apply Hthrough | by eapply good_through0].
Qed.

(** The lock and the log may change under services that are not inside. *)
Lemma good_lock_free s blocks l : good s blocks ->
  (forall i p, services s !! i = Some p -> inside p = true -> exists conn, l = Some (i, conn)) ->
  good (Server (services s) l (executed s)) blocks.
Proof. intros [] Hl. by constructor. Qed.

Lemma lock_good s blocks i conn : good s blocks -> services s !! i = Some Locking ->
  lock s = None \/ lock s = Some (i, conn) ->
  good (moved i (Applying (sort_Strings glob)) (Server (services s) (Some (i, conn)) (executed s))) (blocks ++ [(i, [])]).
Proof.
  intros [] Hi Hlock.
  assert (forall j p, services s !! j = Some p -> inside p = true -> False) as Hnone.
  { intros j p Hj Hp. destruct (good_guard0 j p Hj Hp) as [c Hc]. destruct Hlock as [Hl | Hl]; [congruence |].
    assert (j = i) as -> by congruence. rewrite Hi in Hj. by injection Hj as <-. }
  constructor; simpl.
  - intros j p [[<- ->] | [Hne Hj]]%service_moved Hp; [by eexists |]. by destruct (Hnone j p).
  - rewrite good_log0. unfold log_of. by rewrite map_app, concat_app, app_nil_r.
  - rewrite fmap_app. apply list.NoDup_app. split; [done |]. split; [| apply NoDup_singleton].
    intros j Hj ->%list_elem_of_singleton. by apply (good_waiting0 i).
  - apply Forall_app. split; [done |]. repeat constructor. apply prefix_nil.
  - intros j [[<- ?] | [Hne Hj]]%service_moved; [done |]. rewrite fmap_app, elem_of_app. intros [Hin | Hin].
    + by apply (good_waiting0 j).
    + by apply list_elem_of_singleton in Hin.
  - intros j rest [[<- [= ->]] | [Hne Hj]]%service_moved; [by exists blocks, [] |]. by destruct (Hnone j (Applying rest)).
  - intros j p [[<- ->] | [Hne Hj]]%service_moved Hp; [by destruct Hp |]. apply elem_of_app. left. by eapply good_through0.
Qed.

Lemma file_good s blocks i file rest : good s blocks -> services s !! i = Some (Applying (file :: rest)) ->
  exists blocks', good (moved i (Applying rest) (Server (services s) (lock s) (executed s ++ [(i, file)]))) blocks'.
Proof.
  intros [] Hi. destruct (good_applying0 i _ Hi) as (front & files & -> & Hfiles).
  exists (front ++ [(i, files ++ [file])])%list.
  assert (forall j p, i <> j -> services s !! j = Some p -> inside p = true -> False) as Hother.
  { intros j p Hne Hj Hp. by apply Hne, (one_inside s i j (Applying (file :: rest)) p). }
  constructor; simpl.
  - intros j p [[<- ->] | [Hne Hj]]%service_moved Hp; [by eapply good_guard0 | by destruct (Hother j p)].
  - rewrite good_log0. unfold log_of. rewrite !map_app, !concat_app. simpl. by rewrite !app_nil_r, map_app, app_assoc.
  - rewrite fmap_app in *. exact good_nodup0.
  - apply Forall_app in good_prefix0 as [Hfront _]. apply Forall_app. split; [done |]. repeat constructor. simpl.
    rewrite <- Hfiles. exists rest. by rewrite <- app_assoc.
  - intros j [[<- ?] | [Hne Hj]]%service_moved; [done |]. specialize (good_waiting0 j Hj). by rewrite fmap_app in *.
  - intros j rest' [[<- [= ->]] | [Hne Hj]]%service_moved; [| by destruct (Hother j (Applying rest'))].
    exists front, (files ++ [file])%list. split; [done |]. by rewrite <- app_assoc.
  - intros j p [[<- ->] | [Hne Hj]]%service_moved Hp; [by destruct Hp |].
    specialize (good_through0 j p Hj Hp). apply elem_of_app in good_through0 as [Hin | Hin]; apply elem_of_app; [by left |].
    apply list_elem_of_singleton in Hin as [= -> _]. done.
Qed.

Lemma step_good e s s' blocks : good s blocks -> step e s = Some s' -> exists blocks', good s' blocks'.
Proof.
  intros Hg Hstep. destruct e as [i conn | i err | i err | i | i err | i | i conn | i]; simpl in Hstep;
    destruct (services s !! i) as [[| [| file rest] | result | result |] |] eqn:Hi; try done.
  - case_bool_decide as Hl; [| done]. injection Hstep as <-. eexists. by apply lock_good.
  - injection Hstep as <-. exists blocks. by eapply good_move; [| exact Hi | | | |]; try done; intros [].
  - case_bool_decide; [| done]. injection Hstep as <-. exists blocks. by eapply good_move; [| exact Hi | | | |]; try done; intros [].
  - case_bool_decide; [| done]. injection Hstep as <-. exists blocks. by eapply good_move; [| exact Hi | | | |]; try done; intros [].
  - injection Hstep as <-. by eapply file_good.
  - injection Hstep as <-. exists blocks. by eapply good_move; [| exact Hi | | | |]; try done; intros [].
  - injection Hstep as <-. exists blocks. eapply good_move; [done | exact Hi | done | done | done |]. intros _.
    destruct (good_applying _ _ Hg i [] Hi) as (front & files & -> & <-). rewrite app_nil_r. apply elem_of_app. right. by apply list_elem_of_singleton.
  - injection Hstep as <-. exists blocks.
    assert (good (moved i (Done result) s) blocks) as Hm.
    { eapply good_move; [done | exact Hi | done | done | done |]. intros [| [= ->]]; [done |]. eapply good_through; [done | exact Hi | by left]. }
    apply (good_lock_free _ _ (if bool_decide (lock s = Some (i, conn)) then None else lock s) Hm).
    intros j p Hj Hp. destruct (good_guard _ _ Hm j p Hj Hp) as [c Hc]. simpl in Hc. exists c. case_bool_decide as Hl; [| done].
    apply service_moved in Hj as [[<- ->] | [Hne Hj]]; [done |]. congruence.
  - injection Hstep as <-. exists blocks.
    assert (good (moved i Exited s) blocks) as Hm by (eapply good_move; [done | exact Hi | done | done | done | by intros []]).
    apply (good_lock_free _ _ _ Hm). intros j p Hj Hp. destruct (good_guard _ _ Hm j p Hj Hp) as [c Hc]. simpl in Hc. exists c. rewrite Hc.
    apply service_moved in Hj as [[<- ->] | [Hne Hj]]; [done |]. by destruct (Nat.eqb_spec i j).
Qed.

Lemma runs_good n s : runs n s -> exists blocks, good s blocks.
Proof.
  induction 1 as [| e s s' _ [blocks IH] Hstep]; [| by eapply step_good]. exists []. constructor; simpl; try done.
  - intros i p Hi Hp. apply lookup_replicate in Hi as [-> _]. done.
  - constructor.
  - by intros i Hi Hin%not_elem_of_nil.
  - intros i rest Hi. by apply lookup_replicate in Hi as [? _].
  - intros i p Hi Hp. apply lookup_replicate in Hi as [-> _]. by destruct Hp.
Qed.

(** C38: services that start together migrate one after the other: whatever connections their
    pools choose, at most one is executing files, the files of each are executed in the
    order of their names with nobody's in between, and a service that goes on without an
    error has executed all of them. *)
Theorem migrations_are_serial n s : runs n s ->
  (forall i j p q, services s !! i = Some p -> services s !! j = Some q -> inside p = true -> inside q = true -> i = j) /\
  exists blocks, executed s = log_of blocks /\ NoDup blocks.*1 /\
    Forall (fun b => b.2 `prefix_of` sort_Strings glob) blocks /\
    (forall i, services s !! i = Some (Done None) -> (i, sort_Strings glob) ∈ blocks).
Proof.
  intros (blocks & Hg)%runs_good. split; [intros i j p q; apply one_inside, Hg |]. exists blocks. destruct Hg. split_and!; try done.
  intros i Hi. eapply good_through0; [exact Hi | by right].
Qed.

(** The lock is given back when the pool unlocks on the connection that locked. *)
Lemma unlocked_by_owner i conn s s' : lock s = Some (i, conn) -> step (Unlock i conn) s = Some s' -> lock s' = None.
Proof.
  intros Hl. simpl. destruct (services s !! i) as [[] |]; try done. intros [= <-]. simpl. by rewrite bool_decide_eq_true_2.
Qed.
End Run.

(** Every file that is found is executed, and no other. *)
Lemma sorted_files glob : sort_Strings glob ≡ₚ glob.
Proof. apply merge_sort_Permutation. Qed.

(** The events of a list, one after the other. *)
Fixpoint play (glob : list string) (l : list event) (s : server) : option server :=
  match l with
  | [] => Some s
  | e :: l => match step glob e s with Some s => play glob l s | None => None end
  end.

Lemma play_runs glob n l s s' : runs glob n s -> play glob l s = Some s' -> runs glob n s'.
Proof.
  revert s. induction l as [| e l IH]; simpl; intros s Hs Hl; [by injection Hl as <- |].
  destruct (step glob e s) eqn:He; [| done]. eapply IH; [by eapply runs_step | done].
Qed.

(** Two services: the first stops at its second file, the second then runs both. *)
Definition demo_files : list string := ["000002.up.sql"; "000001.up.sql"].
Definition demo_server : server :=
  Server [Done (Some "syntax error"); Done None] None
    [(0%nat, "000001.up.sql"); (1%nat, "000001.up.sql"); (1%nat, "000002.up.sql")].

Lemma demo_runs : runs demo_files 2 demo_server.
Proof.
  apply (play_runs _ _ [Lock 0 3; Execute 0; ExecuteFails 0 "syntax error"; Unlock 0 3;
                        Lock 1 0; Execute 1; Execute 1; Finish 1; Unlock 1 0] (start 2)); [constructor | by vm_compute].
Qed.

Lemma migrations_are_serial_witness : exists blocks, executed demo_server = log_of blocks /\ (1%nat, sort_Strings demo_files) ∈ blocks.
Proof.
  destruct (migrations_are_serial demo_files 2 demo_server demo_runs) as (_ & blocks & Hlog & _ & _ & Hdone).
  exists blocks. split; [exact Hlog | apply Hdone; reflexivity].
Defined.

(** When the pool unlocks on another connection, the service goes on with the lock still
    held, and no other service can take it as long as the first one runs. *)
Lemma lock_may_stay :
  exists s, play ["000001.up.sql"] [Lock 0 0; Execute 0; Finish 0; Unlock 0 1] (start 2) = Some s /\
    services s = [Done None; Locking] /\ lock s = Some (0%nat, 0%nat) /\ (forall conn, step ["000001.up.sql"] (Lock 1 conn) s = None) /\
    (exists s', play ["000001.up.sql"] [Exit 0; Lock 1 0] s = Some s').
Proof. eexists. split; [vm_compute; reflexivity |]. split; [done |]. split; [done |]. split; [intros conn; by vm_compute | by eexists]. Qed.
