(* ===== verification/KafkaExamples.v ===== *)
(** * KafkaExamples: events on their way, evaluated.

    A broker, a trace library and identifiers with concrete behaviour, the theorems
    on the publisher, the consumers and the redrive tool at concrete inputs, and the
    run in which a consumer loses a record. *)

From S2P Require Import Prelude GoStrings Domain Base64 GoTime Json Database Outbox Fixtures JsonExamples.
From S2P Require Import Kafka DeadLetter Consumer Redrive Publisher.
From S2P Require Import WalletRepo LedgerRepo LedgerConsumer WalletService Accounts Delivery.

#[local] Open Scope string_scope.
#[local] Open Scope Z_scope.

#[export] Instance demo_broker : Broker := {
  partition_of _ _ := 0;
  broker_refuses _ := None
}.

#[export] Instance demo_tracing : Tracing := {
  trace_Extract _ get := Context (get TraceparentHeader) (get TracestateHeader);
  trace_Start ctx := ctx
}.

(** A server that returns the rows last first. *)
#[local] Instance demo_returning : Returning := {
  returning := @rev OutboxEvent.t;
  returning_perm l := Permutation_sym (Permutation_rev l)
}.

(** Identifiers whose text is read back for every value. *)
#[local] Instance text_uuid : Uuid := {
  uuid_String u := bits_of (N.succ_pos u);
  uuid_Parse s := Pos.pred_N <$> of_bits s
}.

#[local] Instance text_uuid_ok : UuidOk.
Proof. split. intros u. simpl. rewrite of_bits_of. simpl. by rewrite N.pos_pred_succ. Qed.

(** Three transfers of Alice's, the second one after a lost commit. *)
Definition pay (amount : Z) : request := RCreateTransfer "" background alice 1%N 2%N amount.

Definition after (w : station tables) (q : request) (s : list fault) : station tables :=
  Station (committed (snd (serve q (Conn (store w) None s)))) (broker w).

Definition paid : station tables :=
  after (after (after (Station two_wallets []) (pay 100) []) (pay 200) (repeat NoFault 6 ++ [FailBefore])%list) (pay 300) [].

Lemma start_ready : events_issued two_wallets /\ delivered (Station two_wallets []).
Proof.
  split; [split; [apply NoDup_nil_2 | set_solver] |]. split; [apply NoDup_nil_2 | set_solver].
Qed.

Lemma paid_joint : joint (Station two_wallets []) paid.
Proof. unfold paid, after. repeat first [apply joint_start | apply joint_serve]. Qed.

(** A batch that loses the broker's answer to the second record, and one without
    faults: the second event is delivered twice. *)
Definition published : station tables :=
  run_batches background 10 [repeat NoFault 3 ++ [FailAfter]; []]%list paid.

Lemma published_joint : joint (Station two_wallets []) published.
Proof. exact (joint_batches _ _ _ _ _ paid_joint). Qed.

Lemma wallet_events_are_delivered_witness :
  length (broker published) = 3%nat /\ delivered published /\ progress (Station two_wallets []) published.
Proof.
  split; [vm_compute; reflexivity |].
  destruct start_ready as [He Hd].
  exact (proj2 (wallet_events_are_delivered (Station two_wallets []) published two_wallets_wf He Hd published_joint)).
Defined.

Lemma publisher_drains_witness :
  length (filter unpublished (outbox_events (store paid))) = 2%nat /\
  (forall e, e ∈ outbox_rows (store (run_batches background 1 (replicate 2 []) paid)) -> ~ unpublished e).
Proof.
  split; [vm_compute; reflexivity |].
  refine (proj1 (publisher_drains background 1 2 paid _ _ _ _)).
  - apply (bool_decide_unpack _). vm_compute. exact I.
  - lia.
  - intros e _ l. reflexivity.
  - vm_compute. lia.
Defined.

(** ** Consuming *)

(** The broker's log behind the ledger's consumer, with a record that is no event. *)
Definition poison : KafkaRecord.t := KafkaRecord.mk TransactionInitiatedTopic 0 3 "wallet-1" "not an event" [].

Definition ledger_side : reader tables :=
  Reader (store published) (broker published ++ [poison])%list ∅.

Lemma ledger_side_ok : wf (app ledger_side) /\ ledger_ok (app ledger_side).
Proof.
  destruct start_ready as [He _].
  destruct (joint_publishing (Station two_wallets []) published two_wallets_wf He published_joint) as (_ & Hwf & _).
  split; [exact Hwf |]. apply (ledger_ok_frame two_wallets); [vm_compute; reflexivity.. | apply two_wallets_ledger_ok].
Qed.

(** The second append loses its connection. *)
Definition bad_moment : list fault := (repeat NoFault 7 ++ [FailBefore])%list.

(** Two polls, of which the second is cut short after one record. *)
Definition ledger_polls : list poll :=
  [Poll (take 2 (topics ledger_side)) None; Poll (drop 2 (topics ledger_side)) (Some 1%nat)].

Lemma acknowledged_records_are_kept_witness :
  let run := Run (HandleRecord 77) ledger_polls (Conn ledger_side None bad_moment) in
  fst run = Ok [Ok tt; Err PgUnavailable; Ok tt] /\ ledger_ok (app (committed (snd run))).
Proof.
  split; [vm_compute; reflexivity |]. destruct ledger_side_ok as [Hwf Hok].
  exact (proj1 (acknowledged_records_are_kept 77 ledger_polls ledger_side bad_moment Hwf Hok)).
Defined.

(** Alice's wallet holds dollars and her transfer is announced and recorded. *)
Definition granted_transfer : res error Transfer.t * conn tables :=
  CreateTransfer "" background alice 1%N 2%N 100 (Conn two_wallets None []).

Lemma transfer_reaches_ledger_witness :
  exists x e, fst granted_transfer = Ok x /\ outbox_events (committed (snd granted_transfer)) = [e] /\
    forall r, carries r e ->
      entry_pair 1%N 2%N 100 (entries_of x.(Transfer.ID)
        (app (committed (snd (HandleRecord 77 r (Conn (Reader (committed (snd granted_transfer)) [] ∅) None [])))))).
Proof.
  destruct granted_transfer as [[x | err] c'] eqn:Hrun; [| by vm_compute in Hrun].
  destruct (transfer_reaches_ledger "" background alice 1%N 2%N 100 two_wallets [] x c') as (e & He & Hall).
  - exact two_wallets_wf.
  - exact two_wallets_ledger_ok.
  - by vm_compute.
  - intros w Hw. vm_compute in Hw. injection Hw as <-. reflexivity.
  - exact Hrun.
  - exists x, e. split; [reflexivity |]. split; [exact He |]. intros r Hr.
    apply (Hall r 77 [] ∅ []); [exact Hr | | apply list.Forall_nil; exact I].
    assert (outbox_events (committed c') = outbox_events (committed (snd granted_transfer))) as Heq by (by rewrite Hrun).
    rewrite He in Heq. vm_compute in Heq. injection Heq as ->. vm_compute. reflexivity.
Defined.

Lemma redrive_restores_record_witness :
  let parked := KafkaRecord.mk (TopicFor TransactionInitiatedTopic) 0 0 "wallet-1"
                  (Encode (FromKafka poison "decode json: syntax") 77) [] in
  exists w' r,
    yields (decide_record actionRedrive parked None) (Reader tt [parked] ∅) (Ok tt) w' /\
    topics w' = [parked; r] /\ r.(KafkaRecord.Value) = "not an event".
Proof.
  intros parked.
  destruct (redrive_restores_record poison "decode json: syntax" 77 parked (Reader tt [parked] ∅))
    as (w' & r & Hrun & Hl & _ & _ & Hv & _).
  - done.
  - vm_compute. done.
  - vm_compute. done.
  - vm_compute. reflexivity.
  - reflexivity.
  - reflexivity.
  - exists w', r. split; [exact Hrun |]. split; [exact Hl | exact Hv].
Defined.

Lemma redrive_restores_topic_witness :
  let parked := KafkaRecord.mk (TopicFor TransactionInitiatedTopic) 0 0 "wallet-1"
                  (Encode (FromKafka poison "decode json: syntax") 77) [] in
  let polls := [Fetches.mk false [] [parked]] in
  fst (run_redrive actionRedrive None 0 0 polls (Conn (Reader tt [parked] ∅) None [])) = Ok 1 /\
  done_so_far [(parked, poison)] (Reader tt [parked] ∅)
    (committed (snd (run_redrive actionRedrive None 0 0 polls (Conn (Reader tt [parked] ∅) None [])))) true.
Proof.
  intros parked polls.
  assert (Forall (fun p => parks p.1 p.2) [(parked, poison)]) as Hparks.
  { constructor; [| constructor]. exists "decode json: syntax", 77. split; [reflexivity |]. split; [done |].
    split; [vm_compute; done |]. split; [vm_compute; done | vm_compute; reflexivity]. }
  assert (polled polls [parked]) as Hpolled.
  { exists [[parked]]. split; [| reflexivity]. constructor; [by split | constructor]. }
  pose proof (redrive_restores_topic [(parked, poison)] polls (Reader tt [parked] ∅) [] Hparks Hpolled) as Hrun.
  destruct (run_redrive _ _ _ _ _ _) as [r c']. destruct Hrun as (Hdone & _ & Hok).
  assert (r = Ok 1) as -> by (apply Hok; [constructor | constructor; [by intros | constructor]]).
  split; [reflexivity | exact Hdone].
Defined.

(** ** A record that is lost

    The ledger's database is unreachable while the first of two transfers is
    handled.  The consumer logs the error and goes on: handling the second one
    commits the offset behind both, so a restart reads nothing more.  The first
    transfer has moved the money and never gets its ledger entries. *)
Definition drained : station tables := run_batches background 10 [[]] paid.

Definition first_run : res error (list (res error unit)) * conn (reader tables) :=
  restarted (HandleRecord 77) TransactionInitiatedTopic 0
    (Conn (Reader (store drained) (broker drained) ∅) None [FailBefore]).

Definition second_run : res error (list (res error unit)) * conn (reader tables) :=
  restarted (HandleRecord 78) TransactionInitiatedTopic 0 (Conn (committed (snd first_run)) None []).

Definition transfers_without_entries (t : tables) : list uuid :=
  filter (fun tid => entries_of tid t = []) (Transfer.ID <$> transfers t).

Theorem failed_record_is_skipped :
  length (broker drained) = 2%nat /\
  fst first_run = Ok [Err PgUnavailable; Ok tt] /\
  fst second_run = Ok [] /\
  length (transfers_without_entries (app (committed (snd second_run)))) = 1%nat /\
  balance_of 1%N (app (committed (snd second_run))) = Some 600.
Proof. vm_compute. done. Qed.
