(* ===== verification/SagaExamples.v ===== *)
(** * SagaExamples: the saga over the platform's services, run on small inputs.

    A platform with two wallets and one verified user, the payment order of the
    examples, and the states its handlers pass through.  The first part exercises
    the theorems of [SagaRuns] and [SagaFlow]; the second shows runs in which the
    orchestrator behaves otherwise than its comments or its design say. *)

From S2P Require Import Prelude GoStrings Domain GoTime Json Database Outbox Fixtures.
From S2P Require Import WalletRepo LedgerRepo LedgerPages WalletService Accounts Verification.
From S2P Require Import Grpc WalletServer LedgerServer VerificationServer.
From S2P Require Import Kafka DeadLetter Consumer JsonExamples KafkaExamples.
From S2P Require Import SagaTypes SagaStore Orchestrator FraudReview SagaSafety SagaRuns SagaConsumer SagaFlow Workers FraudEvents SagaAudit Platform.

#[local] Open Scope string_scope.
#[local] Open Scope Z_scope.

(** Readings of the clock one millisecond apart. *)
#[export] Instance demo_clock : Clock := fun n => (Z.of_nat n + 1) * 1000000.

Definition demo_platform : platform :=
  Platform two_wallets
    (Verification.VTables
       {[ "32" := Verification.Row.mk "ver_1" "32" "k" "" "" Verification.StatusVerified "" (Some 1000) 1000 1000 ]}
       [] 0 5).

Definition demo_world : world platform := World ∅ [] [] 0 7000 0 demo_platform.

Definition demo_order : StartRequest.t := StartRequest.mk "50" "key-50" "trace-50" "32" "1" "2" 300 "USD".
Definition demo_completed : PaymentCompleted.t :=
  PaymentCompleted.mk "payment.completed:50" "50" "50:execute-payment" "trace-50" "rail-9" "completed" 9000000 9000000.
Definition demo_failed : PaymentFailed.t :=
  PaymentFailed.mk "payment.failed:50" "50" "50:execute-payment" "trace-50" "DECLINED" "card declined" 9000000 9000000.
Definition demo_flag : FraudFlagged.t :=
  FraudFlagged.mk 1 "fraud.flagged:s-1" "s-1" "50" "session-1" FraudActionFlag float_one "velocity" "provider" "model" 8000000 "trace-50".
Definition demo_decision : FraudReviewDecision.t := FraudReviewDecision.mk "50" "operator-1" " looks fine " "trace-op".

(** The world after an input whose round trips have the given fates. *)
Definition after (i : input) (s : list fault) (w : world platform) : world platform :=
  committed (snd (handle background i (Conn w None s))).

Definition w_processing : world platform := after (InStart demo_order) [] demo_world.
Definition w_completed : world platform := after (InCompleted demo_completed) [] w_processing.
Definition w_failed : world platform := after (InFailed demo_failed) [] w_processing.
Definition w_review : world platform := after (InFlagged demo_flag) [] w_processing.

Definition state_in (w : world platform) : option string := state_of "50" w.
Definition topics (w : world platform) : list string := OutboxEvent.Topic <$> events w.

Example the_saga_runs :
  state_in <$> [w_processing; w_completed; w_failed; w_review] =
    [Some StatePaymentProcessing; Some StateCompleted; Some StateFailed; Some StateFraudReview] /\
  topics w_completed = [TopicPaymentExecute; FraudScoreRequestedTopic; TopicTxCompleted] /\
  topics w_failed = [TopicPaymentExecute; FraudScoreRequestedTopic; TopicTxFailed] /\
  balance_of 1%N (accounts (remote w_completed)) = Some 700 /\
  balance_of 1%N (accounts (remote w_failed)) = Some 1000.
Proof. by vm_compute. Qed.

Lemma demo_world_safe : safe demo_world.
Proof.
  split.
  - intros p row Hp. simpl in Hp. by rewrite lookup_empty in Hp.
  - apply two_wallets_wf.
  - intros p (u & o & _ & Ho). discriminate Ho.
  - intros p row Hp. simpl in Hp. by rewrite lookup_empty in Hp.
  - intros p. unfold state_of. simpl. by rewrite lookup_empty.
  - intros e He. by apply not_elem_of_nil in He.
Qed.

Lemma processing_runs : runs demo_world w_processing.
Proof. apply runs_handle, runs_start. Qed.
Lemma completed_runs : runs demo_world w_completed.
Proof. apply runs_handle, processing_runs. Qed.
Lemma failed_runs : runs demo_world w_failed.
Proof. apply runs_handle, processing_runs. Qed.

(** The stored row of the example in a world. *)
Definition has_row (w : world platform) : bool := if sagas w !! "50" is Some _ then true else false.

Lemma stored_row w : has_row w = true -> exists row, sagas w !! "50" = Some row.
Proof. unfold has_row. destruct (sagas w !! "50") as [row|]; [by exists row | done]. Qed.

(** ** The theorems on the example *)

Lemma never_refunded_and_settled_witness :
  find_operation 50%N SagaWalletOperationCompensation (accounts (remote w_failed)) <> None /\
  ~ (compensated "50" (remote w_failed) /\ confirmed "50" (remote w_failed)).
Proof.
  split; [by vm_compute |]. exact (never_refunded_and_settled demo_world w_failed "50" demo_world_safe failed_runs).
Defined.

Lemma completed_means_settled_witness :
  state_in w_completed = Some StateCompleted /\
  confirmed "50" (remote w_completed) /\ ~ compensated "50" (remote w_completed).
Proof.
  split; [by vm_compute |]. destruct (stored_row w_completed) as [row Hrow]; [by vm_compute |].
  apply (completed_means_settled demo_world w_completed "50" row demo_world_safe completed_runs Hrow).
  left. vm_compute in Hrow. injection Hrow as <-. reflexivity.
Defined.

Lemma processing_safe : safe w_processing.
Proof. apply (runs_sound demo_world), processing_runs. apply demo_world_safe. Qed.
Lemma completed_safe : safe w_completed.
Proof. apply (runs_sound demo_world), completed_runs. apply demo_world_safe. Qed.


(** A contradicting failure after the completion, then a recovery that loses a call. *)
Definition w_late : world platform :=
  after InRecover [FailBefore] (after (InFailed demo_failed) [] w_completed).

Lemma ended_saga_stays_ended_witness :
  exists row row', sagas w_completed !! "50" = Some row /\ terminal row.(SagaRow.state) = true /\
    sagas w_late !! "50" = Some row' /\ row'.(SagaRow.state) = row.(SagaRow.state).
Proof.
  destruct (stored_row w_completed) as [row Hrow]; [by vm_compute |].
  assert (terminal row.(SagaRow.state) = true) as Ht by (vm_compute in Hrow; injection Hrow as <-; reflexivity).
  destruct (ended_saga_stays_ended w_completed w_late "50" row completed_safe) as (row' & Hrow' & Hst).
  - do 2 apply runs_handle. apply runs_start.
  - exact Hrow.
  - exact Ht.
  - exists row, row'. exact (conj Hrow (conj Ht (conj Hrow' Hst))).
Defined.

(** The start is retried after its last commit was lost. *)
Definition w_retried : world platform :=
  after (InStart demo_order) [] (after (InStart demo_order)
    [NoFault; NoFault; NoFault; NoFault; NoFault; NoFault; NoFault; NoFault; NoFault; NoFault; NoFault; FailAfter] demo_world).


(** Row facts of a concrete world, by evaluating it. *)
Ltac eval_row Hrow := vm_compute in Hrow; injection Hrow as <-; vm_compute; done.


Lemma completion_settles_witness :
  exists w' row', yields (HandlePaymentCompleted background demo_completed) w_processing (Ok tt) w' /\
    sagas w' !! "50" = Some row' /\ row'.(SagaRow.state) = StateCompleted.
Proof.
  destruct (stored_row w_processing) as [row Hrow]; [by vm_compute |].
  destruct (remote_ConfirmTransfer (confirm_request (scanSaga row)
      (traceID (PaymentCompleted.TraceID demo_completed) row.(SagaRow.trace_id))) (remote w_processing))
    as [[result r']|] eqn:Hc; [| vm_compute in Hrow; injection Hrow as <-; by vm_compute in Hc].
  destruct (completion_settles background demo_completed w_processing row result r')
    as (w' & row' & _ & _ & Hy & [Hs _] & Hst & _).
  - exact Hrow.
  - clear Hc. eval_row Hrow.
  - clear Hc. vm_compute in Hrow. injection Hrow as <-. repeat split; discriminate.
  - exact Hc.
  - exists w', row'. split; [exact Hy |]. split; [| exact Hst]. rewrite Hs. apply lookup_insert_eq.
Defined.

Lemma failure_compensates_witness :
  exists w' row', yields (HandlePaymentFailed background demo_failed) w_processing (Ok tt) w' /\
    sagas w' !! "50" = Some row' /\ row'.(SagaRow.state) = StateFailed /\
    row'.(SagaRow.failure_code) = "DECLINED".
Proof.
  destruct (stored_row w_processing) as [row Hrow]; [by vm_compute |].
  destruct (remote_CancelReservation (cancel_request (scanSaga row)
      (traceID (PaymentFailed.TraceID demo_failed) row.(SagaRow.trace_id)) "card declined") (remote w_processing))
    as [[[] r1]|] eqn:Hc; [| vm_compute in Hrow; injection Hrow as <-; by vm_compute in Hc].
  destruct (remote_CompensateDebit (compensate_request (scanSaga row)
      (traceID (PaymentFailed.TraceID demo_failed) row.(SagaRow.trace_id)) "card declined") r1)
    as [[[] r2]|] eqn:Hd;
    [| vm_compute in Hrow; injection Hrow as <-; vm_compute in Hc; injection Hc as <-; by vm_compute in Hd].
  destruct (failure_compensates background demo_failed w_processing row r1 r2)
    as (w' & row' & _ & _ & Hy & [Hs _] & Hst & Hcode & _).
  - exact Hrow.
  - clear Hc Hd. eval_row Hrow.
  - clear Hc Hd. vm_compute in Hrow. injection Hrow as <-. repeat split; discriminate.
  - exact Hc.
  - exact Hd.
  - exists w', row'. split; [exact Hy |]. rewrite Hs. split; [apply lookup_insert_eq | exact (conj Hst Hcode)].
Defined.

Lemma flag_pauses_payment_witness :
  exists w' row', yields (HandleFraudFlagged background demo_flag) w_processing (Ok tt) w' /\
    sagas w' !! "50" = Some row' /\ row'.(SagaRow.state) = StateFraudReview.
Proof.
  destruct (stored_row w_processing) as [row Hrow]; [by vm_compute |].
  destruct (flag_pauses_payment background demo_flag w_processing row) as (w' & row' & Hy & [Hs _] & Hst & _).
  - vm_compute. reflexivity.
  - exact Hrow.
  - eval_row Hrow.
  - eval_row Hrow.
  - exists w', row'. split; [exact Hy |]. split; [| exact Hst]. rewrite Hs. apply lookup_insert_eq.
Defined.

Lemma deferred_completion_is_applied_witness :
  exists w1 w2 row2, yields (HandlePaymentCompleted background demo_completed) w_review (Ok tt) w1 /\
    yields (ResumeFraudReview background demo_decision) w1 (Ok (scanSaga row2)) w2 /\
    row2.(SagaRow.state) = StateCompleted.
Proof.
  destruct (stored_row w_review) as [row Hrow]; [by vm_compute |].
  destruct (remote_ConfirmTransfer (confirm_request (scanSaga row)
      (traceID (traceID (PaymentCompleted.TraceID demo_completed) (FraudReviewDecision.TraceID demo_decision))
         row.(SagaRow.trace_id))) (remote w_review))
    as [[result r']|] eqn:Hc; [| vm_compute in Hrow; injection Hrow as <-; by vm_compute in Hc].
  destruct (deferred_completion_is_applied background demo_completed demo_decision w_review row result r')
    as (w1 & w2 & row2 & _ & _ & Hy1 & _ & _ & Hy2 & _ & Hst & _).
  - reflexivity.
  - reflexivity.
  - exact Hrow.
  - clear Hc. eval_row Hrow.
  - clear Hc. eval_row Hrow.
  - clear Hc. eval_row Hrow.
  - exact Hc.
  - exists w1, w2, row2. exact (conj Hy1 (conj Hy2 Hst)).
Defined.

Lemma rejection_compensates_witness :
  exists w' row', yields (RejectFraudReview background demo_decision) w_review (Ok (scanSaga row')) w' /\
    row'.(SagaRow.state) = StateFailed /\ row'.(SagaRow.last_error) = "looks fine".
Proof.
  destruct (stored_row w_review) as [row Hrow]; [by vm_compute |].
  destruct (remote_CancelReservation (cancel_request (scanSaga row) row.(SagaRow.trace_id) "looks fine") (remote w_review))
    as [[[] r1]|] eqn:Hc; [| vm_compute in Hrow; injection Hrow as <-; by vm_compute in Hc].
  destruct (remote_CompensateDebit (compensate_request (scanSaga row) row.(SagaRow.trace_id) "looks fine") r1)
    as [[[] r2]|] eqn:Hd;
    [| vm_compute in Hrow; injection Hrow as <-; vm_compute in Hc; injection Hc as <-; by vm_compute in Hd].
  destruct (rejection_compensates background demo_decision w_review row r1 r2)
    as (w' & row' & _ & _ & Hy & _ & Hst & _ & Hreason & _).
  - exact Hrow.
  - clear Hc Hd. eval_row Hrow.
  - clear Hc Hd. eval_row Hrow.
  - exact Hc.
  - exact Hd.
  - exists w', row'. exact (conj Hy (conj Hst Hreason)).
Defined.

Lemma review_safe : safe w_review.
Proof. apply (runs_sound demo_world); [apply demo_world_safe | apply runs_handle, processing_runs]. Qed.

(** The review nine readings of the clock later. *)
Definition w_overdue : world platform := Nat.iter 9 tick w_review.
Lemma overdue_keyed : keyed w_overdue.
Proof.
  assert (forall n (w : world platform), keyed w -> keyed (Nat.iter n tick w)) as Hticks by (intros n w Hw; by induction n).
  apply Hticks. exact (safe_key _ review_safe).
Qed.

Lemma overdue_reviews_are_rejected_witness :
  length (to_expire 1 w_overdue) = 1%nat /\
  exists w' row', yields (ExpireFraudReviews background 1) w_overdue (Ok (1, [])) w' /\
    sagas w' !! "50" = Some row' /\ row'.(SagaRow.state) = StateFailed.
Proof.
  assert (length (to_expire 1 w_overdue) = 1%nat) as Hlen by by vm_compute. split; [exact Hlen |].
  destruct (granted (expiry_reason 1) (to_expire 1 w_overdue) (remote w_overdue)) as [r' |] eqn:Hg; [| by vm_compute in Hg].
  destruct (overdue_reviews_are_rejected background 1 w_overdue r') as (w' & es & Hy & _ & _ & _ & _ & Hrows).
  - reflexivity.
  - exact overdue_keyed.
  - exact Hg.
  - rewrite Hlen in Hy. destruct (stored_row w_overdue) as [row Hrow]; [by vm_compute |]. specialize (Hrows _ _ Hrow).
    clear Hg. match type of Hrows with if ?late then _ else _ => assert (late = true) as Hlate end.
    { clear Hrows. eval_row Hrow. }
    rewrite Hlate in Hrows.
    destruct Hrows as (row' & Hrow' & _ & Hst & _). exists w', row'. exact (conj Hy (conj Hrow' Hst)).
Defined.

Lemma demo_clock_running n : IsZero (clock_at n) = false.
Proof. unfold IsZero, zero_time, clock_at, demo_clock. apply Z.eqb_neq. lia. Qed.


(** The trail of a payment that was flagged, resumed and completed. *)
Definition w_cleared : world platform :=
  after (InCompleted demo_completed) [] (after (InResume demo_decision) [] w_review).

Lemma audit_trail_has_no_duplicates_witness :
  length (audits w_cleared) = 2%nat /\ NoDup (event_id <$> audits w_cleared).
Proof.
  split; [by vm_compute |]. apply (audit_trail_has_no_duplicates demo_world w_cleared); [constructor |].
  do 4 apply runs_handle. apply runs_start.
Defined.

Lemma sweep_removes_exactly_expired_witness :
  exists w', yields (Sweep 3 1 1) w_cleared (Ok (Some 2)) w' /\ audits w' = [].
Proof.
  set (cutoff := time_Add (clock_at (clock_reads w_cleared)) (- 1)).
  assert (Z.of_nat (length (filter (expired_audit cutoff w_cleared) (audits w_cleared))) = 2) as Hn by by vm_compute.
  exists (with_audits (unexpired cutoff w_cleared) (tick w_cleared)). split; [rewrite <- Hn | by vm_compute].
  apply (sweep_removes_exactly_expired w_cleared 1 1 3).
  - apply (bool_decide_unpack _). vm_compute. exact I.
  - reflexivity.
  - reflexivity.
  - vm_compute. repeat constructor.
  - vm_compute. reflexivity.
Defined.

Lemma sweep_spares_open_payments_witness :
  exists a, a ∈ audits w_review /\
    a ∈ trail_after_sweep 5 1 1 w_review [].
Proof.
  destruct (audits w_review) as [|a rest] eqn:Ha; [by vm_compute in Ha |].
  assert (a ∈ audits w_review) as Hin by (rewrite Ha; apply list_elem_of_here).
  destruct (stored_row w_review) as [row Hrow]; [by vm_compute |].
  exists a. rewrite <- Ha. split; [exact Hin |].
  apply (sweep_spares_open_payments w_review [] 5 1 1 a row).
  - apply (bool_decide_unpack _). vm_compute. exact I.
  - exact Hin.
  - vm_compute in Ha. injection Ha as <- _. exact Hrow.
  - vm_compute in Hrow. injection Hrow as <-. reflexivity.
Defined.

(** The topic [payment.completed] with a record that is no event, the completion and a
    second copy of it; the connection is lost while the first copy is handled. *)
Definition completions : log :=
  [KafkaRecord.mk TopicPaymentCompleted 0 0 "50" "{" [];
   KafkaRecord.mk TopicPaymentCompleted 0 1 "50" (json_Marshal (PaymentCompleted.to_json demo_completed)) [];
   KafkaRecord.mk TopicPaymentCompleted 0 2 "50" (json_Marshal (PaymentCompleted.to_json demo_completed)) []].

Definition listening : reader (world platform) := Reader w_processing completions ∅.
Definition one_loss : list fault := [NoFault; NoFault; NoFault; FailBefore].

Lemma listening_safe : safe (app listening).
Proof. unfold listening. cbn [app]. exact (proj1 (runs_sound _ _ demo_world_safe processing_runs)). Qed.


(** ** Runs that surprise *)

Definition lost_at (n : nat) : list fault := repeat NoFault n ++ [FailBefore].

(** A completed payment takes the money from the sender and gives it to nobody: the
    ledger records a credit of 300 to the recipient, whose wallet stays empty. *)
Theorem recipient_is_not_credited :
  state_in w_completed = Some StateCompleted /\
  balance_of 1%N (accounts (remote w_completed)) = Some 700 /\
  balance_of 2%N (accounts (remote w_completed)) = Some 0 /\
  (fun e => (e.(LedgerEntry.WalletID), e.(LedgerEntry.Direction), e.(LedgerEntry.Amount)))
    <$> ledger_entries (accounts (remote w_completed)) = [(1%N, "debit", 300); (2%N, "credit", 300)].
Proof. by vm_compute. Qed.

(** A reservation the ledger refuses leaves the debit in place: the saga stays in
    WALLET_DEBITED, no compensation is commanded, and every recovery fails again. *)
Definition unknown_recipient : StartRequest.t := StartRequest.mk "50" "key-50" "trace-50" "32" "1" "9" 300 "USD".
Definition w_stuck : world platform := after (InStart unknown_recipient) [] demo_world.

Theorem refused_reservation_keeps_the_debit :
  fst (StartPaymentSaga background unknown_recipient (Conn demo_world None [])) =
    Err (ErrRemote (Status NotFound "wallet not found")) /\
  state_in w_stuck = Some StateWalletDebited /\
  balance_of 1%N (accounts (remote w_stuck)) = Some 700 /\
  state_in (after InRecover [] w_stuck) = Some StateWalletDebited /\
  balance_of 1%N (accounts (remote (after InRecover [] w_stuck))) = Some 700 /\
  topics (after InRecover [] w_stuck) = [].
Proof. by vm_compute. Qed.

(** A saga that cannot be resumed keeps the recovery from reaching the others. *)
Definition second_order : StartRequest.t := StartRequest.mk "51" "key-51" "trace-51" "32" "1" "2" 100 "USD".
Definition second_failed : PaymentFailed.t :=
  PaymentFailed.mk "payment.failed:51" "51" "51:execute-payment" "trace-51" "DECLINED" "card declined" 9000000 9000000.
Definition w_two : world platform :=
  after (InFailed second_failed) (lost_at 2) (after (InStart second_order) [] w_stuck).

Theorem poisoned_recovery_stops :
  state_of "51" w_two = Some StateCompensatingLedger /\
  fst (handle background InRecover (Conn w_two None [])) = Err (ErrRemote (Status NotFound "wallet not found")) /\
  state_of "51" (after InRecover [] w_two) = Some StateCompensatingLedger /\
  state_of "51" (after InRecover [] (with_sagas (delete "50" (sagas w_two)) w_two)) = Some StateFailed.
Proof. by vm_compute. Qed.

(** A verified user spends from a wallet of somebody else. *)
Definition bobs_platform : platform :=
  Platform two_wallets
    (Verification.VTables
       {[ "33" := Verification.Row.mk "ver_2" "33" "k" "" "" Verification.StatusVerified "" (Some 1000) 1000 1000 ]}
       [] 0 5).
Definition bobs_order : StartRequest.t := StartRequest.mk "50" "key-50" "trace-50" "33" "1" "2" 300 "USD".

Theorem saga_spends_from_a_foreign_wallet :
  let w := after (InStart bobs_order) [] (World ∅ [] [] 0 7000 0 bobs_platform) in
  (Wallet.UserID <$> wallets (accounts (remote w)) !! 1%N) = Some alice /\
  state_in w = Some StatePaymentProcessing /\ balance_of 1%N (accounts (remote w)) = Some 700.
Proof. by vm_compute. Qed.

(** Resuming forgets the deferred result before it is applied: when the ledger cannot
    be reached at that moment, the payment waits in PAYMENT_PROCESSING for a result
    that will not come again, and the recovery does not look at it. *)
Definition w_deferred : world platform := after (InCompleted demo_completed) [] w_review.
Definition w_forgotten : world platform := after (InResume demo_decision) (lost_at 6) w_deferred.
Definition deferred_in (w : world platform) : option document :=
  SagaRow.deferred_payment_json <$> sagas w !! "50".

Theorem failed_resume_forgets_the_result :
  deferred_in w_deferred = Some (Some (PaymentCompleted.to_json demo_completed)) /\
  state_in w_forgotten = Some StatePaymentProcessing /\ deferred_in w_forgotten = Some None /\
  state_in (after InRecover [] w_forgotten) = Some StatePaymentProcessing /\
  fst (handle background (InResume demo_decision) (Conn w_forgotten None [])) = Err ErrNotUnderReview.
Proof. by vm_compute. Qed.

(** The announcement of a failure is lost with its round trip: the saga is FAILED,
    and neither the redelivered event nor the recovery announces it. *)
Definition w_unannounced : world platform := after (InFailed demo_failed) (lost_at 6) w_processing.

Theorem failure_may_stay_unannounced :
  state_in w_unannounced = Some StateFailed /\
  topics (after InRecover [] (after (InFailed demo_failed) [] w_unannounced)) =
    [TopicPaymentExecute; FraudScoreRequestedTopic].
Proof. by vm_compute. Qed.

(** A fraud flag delivered twice undoes an operator's resumption, without a trace in
    the audit: the event is on record already. *)
Definition w_resumed : world platform := after (InResume demo_decision) [] w_review.
Definition w_reflagged : world platform := after (InFlagged demo_flag) [] w_resumed.

Theorem redelivered_flag_reopens_review :
  state_in w_resumed = Some StatePaymentProcessing /\
  state_in w_reflagged = Some StateFraudReview /\
  length (audits w_reflagged) = length (audits w_resumed).
Proof. by vm_compute. Qed.

(** A rejected payment is completed: when the cancellation does not reach the ledger,
    the saga waits in COMPENSATING_LEDGER, where a completion is still applied. *)
Definition w_half_rejected : world platform := after (InReject demo_decision) (lost_at 5) w_review.

Theorem rejected_payment_may_complete :
  state_in w_half_rejected = Some StateCompensatingLedger /\
  state_in (after (InCompleted demo_completed) [] w_half_rejected) = Some StateCompleted.
Proof. by vm_compute. Qed.
