(* ===== verification/ProcessorExamples.v ===== *)
(** * ProcessorExamples: payments against the stub rail, evaluated.

    The processor with its default pauses over the HTTP rail and the stub of the
    development environment, the theorems of [Processor], [Rail] and
    [ProcessorConsumer] at concrete commands, and a payment that the rail took and
    the processor fails. *)

From S2P Require Import Prelude GoStrings Domain GoTime Json Database Outbox Fixtures JsonExamples.
From S2P Require Import Kafka DeadLetter Consumer Publisher KafkaExamples.
From S2P Require Import WalletRepo LedgerRepo WalletService Verification WalletServer LedgerServer VerificationServer.
From S2P Require Import SagaTypes SagaStore Orchestrator SagaConsumer Platform Processor ProcessorConsumer Rail.

#[local] Open Scope string_scope.
#[local] Open Scope Z_scope.

#[local] Instance desk_clock : Clock := fun n => (Z.of_nat n + 1) * 1000000.
#[local] Instance lab_outside : Outside lab := http_outside "http://rail".

#[local] Instance lab_outside_ok : OutsideOk lab.
Proof. split. simpl. lia. Qed.

Definition desk_start : desk lab :=
  Desk ∅ [] 0 7000 0 (Lab (NewStubRailHandler 0 500) (2 * Second)) [] [].

Lemma desk_start_ok : desk_ok desk_start.
Proof. split; simpl; [intros p row; by rewrite lookup_empty | set_solver..]. Qed.

Definition order (id : string) (amount : Z) : PaymentExecute.t :=
  PaymentExecute.mk ("payment.execute:" ++ id) id (id ++ ":execute-payment") "trace" "1" "2" amount "USD" "r-1" "d-1" 900.

Definition pauses_default : list Z := processor_backoffs None.

Definition run_order (id : string) (amount : Z) (s : list fault) (w : desk lab) : desk lab :=
  committed (snd (HandleExecute background pauses_default (order id amount) (Conn w None s))).

(** Status, charges and time slept of a payment run on its own. *)
Definition summary (p : string) (w : desk lab) : option string * nat * Z :=
  (AttemptRow.status <$> attempts w !! p, length (charges w), sumZ id (waits w)).

Example stub_cases :
  (fun c => summary c.1 (run_order c.1 c.2 [] desk_start)) <$>
    [("p-1", 300); ("terminal-1", 300); ("retry-1", 300); ("timeout-1", 300)] =
  [(Some StatusCompleted, 1%nat, 0); (Some StatusFailed, 1%nat, 0);
   (Some StatusCompleted, 2%nat, Second / 2); (Some StatusFailed, 4%nat, 13 * Second / 2)].
Proof. vm_compute. reflexivity. Qed.

(** The completion is written and its answer is lost; the command is delivered again. *)
Definition w_written : desk lab := run_order "p-1" 300 (repeat NoFault 2 ++ [FailAfter]) desk_start.
Definition w_again : desk lab := run_order "p-1" 300 [] w_written.

Lemma written_executes : executes pauses_default desk_start w_written.
Proof. apply executes_command, executes_start. Qed.
Lemma again_executes : executes pauses_default w_written w_again.
Proof. apply executes_command, executes_start. Qed.
Lemma written_ok : desk_ok w_written.
Proof. exact (proj1 (executes_sound _ _ _ desk_start_ok written_executes)). Qed.

Lemma settled_row w p : bool_decide (AttemptRow.status <$> attempts w !! p = Some StatusCompleted) = true ->
  exists row : AttemptRow.t, attempts (R := lab) w !! p = Some row /\ row.(AttemptRow.status) = StatusCompleted.
Proof.
  intros Hb. apply bool_decide_eq_true in Hb. destruct (attempts w !! p) as [row |] eqn:Hp; [| done].
  exists row. split; [done |]. by injection Hb.
Qed.

Lemma payment_has_one_result_witness :
  (length (results w_written), length (results w_again), length (charges w_again)) = (0%nat, 1%nat, 1%nat) /\
  exists row, attempts w_written !! "p-1" = Some row /\ attempts w_again !! "p-1" = Some row /\
    charges_of "p-1" w_again = charges_of "p-1" w_written.
Proof.
  split; [vm_compute; reflexivity |].
  destruct (settled_row w_written "p-1") as (row & Hp & Hs); [vm_compute; reflexivity |].
  exists row. split; [exact Hp |].
  exact (proj1 (payment_has_one_result pauses_default w_written w_again written_ok again_executes)
           "p-1" row Hp (or_introl Hs)).
Defined.

Definition w_slow : desk lab := run_order "timeout-1" 300 [] desk_start.

Lemma retries_are_bounded_witness :
  (S (length pauses_default) = 4%nat /\ sumZ (Z.max 0) pauses_default = 13 * Second) /\
  (length (charges w_slow) <= length (charges desk_start) + S (length pauses_default))%nat /\
  sumZ id (waits w_slow) <= sumZ id (waits desk_start) + sumZ (Z.max 0) pauses_default.
Proof.
  split; [vm_compute; by split |]. unfold w_slow, run_order.
  exact (retries_are_bounded pauses_default background (order "timeout-1" 300) [] desk_start desk_start_ok).
Defined.

Lemma execute_reports_result_witness :
  exists w' e row,
    yields (HandleExecute background pauses_default (order "retry-1" 300)) desk_start (Ok tt) w' /\
    results w' = [e] /\ attempts w' !! "retry-1" = Some row /\ settled row /\ reports e row.
Proof.
  destruct (execute_reports_result pauses_default background (order "retry-1" 300) desk_start desk_start_ok)
    as (w' & e & row & Hy & Hr & Hp & Hs & Hrep & _).
  - vm_compute. reflexivity.
  - intros d r. by exists r.
  - exists w', e, row. split; [exact Hy |]. split; [exact Hr |]. split; [exact Hp |]. split; [exact Hs | exact Hrep].
Defined.

Lemma results_are_accounted_for_witness :
  exists row, attempts w_written !! "p-1" = Some row /\ row.(AttemptRow.processor_payment_id) <> "".
Proof.
  destruct (settled_row w_written "p-1") as (row & Hp & Hs); [vm_compute; reflexivity |].
  exists row. split; [exact Hp |].
  exact (proj1 (proj1 (results_are_accounted_for "http://rail" pauses_default desk_start w_written "p-1" row
    desk_start_ok written_executes Hp) Hs)).
Defined.

(** ** The way of a payment *)

Definition demo_saga : Saga.t :=
  Saga.mk "7" "50" "key-50" "32" "1" "2" 300 "USD" StateLedgerReserved "" "trace-50" "d-50" "r-50" "" ""
    "" "" float_zero "" zero_time None 900 900.

Definition command_record : KafkaRecord.t :=
  KafkaRecord.mk TopicPaymentExecute 0 4 "50" (json_Marshal (payment_payload demo_saga 900)) [].

Lemma command_is_answered_witness :
  exists w' e row,
    yields (HandleCommand pauses_default background command_record) (Reader desk_start [] ∅) (Ok tt)
      (Reader w' [] {[ (TopicPaymentExecute, 0) := 5 ]}) /\
    results w' = [e] /\ attempts w' !! "50" = Some row /\ row.(AttemptRow.amount_cents) = 300.
Proof.
  destruct (command_is_answered (W := platform) pauses_default background demo_saga 900 command_record desk_start [] ∅ desk_start_ok)
    as (w' & e & row & Hy & Hr & Hp & _ & Ha & _).
  - vm_compute. reflexivity.
  - intros d r. by exists r.
  - done.
  - simpl. lia.
  - done.
  - reflexivity.
  - reflexivity.
  - vm_compute. reflexivity.
  - exists w', e, row. split; [exact Hy |]. split; [exact Hr |]. split; [exact Hp | exact Ha].
Defined.

(** ** A charge the processor does not know of

    The rail takes the payment each time but answers after the client's timeout.  The
    attempts are used up and the payment is announced as failed, on which the saga
    gives the debit back. *)
Theorem late_answers_fail_a_taken_payment :
  AttemptRow.status <$> attempts w_slow !! "timeout-1" = Some StatusFailed /\
  OutboxEvent.Topic <$> results w_slow = [TopicPaymentFailed] /\
  (stub (outside w_slow)).(Stub.callsByID) !! "timeout-1" = Some 4.
Proof. vm_compute. done. Qed.
