(* ===== verification/SettlementExamples.v ===== *)
(** * SettlementExamples: a payment through the orchestrator and the processor, evaluated.

    The order of [SagaExamples] against the stub rail of [ProcessorExamples]: the command
    is delivered twice because the first answer is lost, and so is the result. *)

From S2P Require Import Prelude GoStrings Domain GoTime Json Database Outbox Fixtures JsonExamples KafkaExamples.
From S2P Require Import WalletRepo LedgerRepo LedgerPages WalletService Accounts Verification.
From S2P Require Import WalletServer LedgerServer VerificationServer.
From S2P Require Import SagaTypes SagaStore Orchestrator FraudReview SagaSafety SagaRuns SagaKeeping Processor ProcessorConsumer.
From S2P Require Import Settlement Rail Platform SagaExamples ProcessorExamples.

#[local] Open Scope string_scope.
#[local] Open Scope Z_scope.

#[local] Existing Instance lab_outside.
#[local] Existing Instance lab_outside_ok.

Definition command_read (e : OutboxEvent.t) : option PaymentExecute.t :=
  match PaymentExecute.of_json (Some e.(OutboxEvent.Payload)) with Ok c => Some c | Err _ => None end.

(** The first command in the outbox, delivered; the first result, delivered. *)
Definition deliver_command (s : list fault) (x : system platform lab) : system platform lab :=
  match events (orchestrator x) with
  | e :: _ =>
      match command_read e with
      | Some c => System (orchestrator x) (committed (snd (HandleExecute background pauses_default c (Conn (processor x) None s))))
      | None => x
      end
  | [] => x
  end.

Definition deliver_result (s : list fault) (x : system platform lab) : system platform lab :=
  match results (processor x) with
  | e :: _ =>
      match result_input e with
      | Some i => System (committed (snd (handle background i (Conn (orchestrator x) None s)))) (processor x)
      | None => x
      end
  | [] => x
  end.

Lemma deliver_command_operates s0 s x :
  (forall e l, events (orchestrator x) = e :: l -> is_command e) -> operates s0 x -> operates s0 (deliver_command s x).
Proof.
  destruct x as [w d]. unfold deliver_command. simpl. intros Hc Hx. destruct (events w) as [| e l] eqn:He; [done |].
  unfold command_read. destruct (PaymentExecute.of_json _) as [c |] eqn:Hj; [| done].
  apply (operates_command s0 background pauses_default e c s); [done | rewrite He; apply list_elem_of_here | by eapply Hc | exact Hj].
Qed.

Lemma deliver_result_operates s0 s x : operates s0 x -> operates s0 (deliver_result s x).
Proof.
  destruct x as [w d]. unfold deliver_result. simpl. intros Hx. destruct (results d) as [| e l] eqn:He; [done |].
  destruct (result_input e) as [i |] eqn:Hi; [| done].
  apply (operates_result s0 background e i s); [done | rewrite He; apply list_elem_of_here | exact Hi].
Qed.

Definition both_start : system platform lab := System demo_world desk_start.
Definition ordered_both : system platform lab := System w_processing desk_start.

(** The rail has completed the charge when the answer of the database is lost; the
    command comes again, the result comes twice and the second time finds the saga ended. *)
Definition lost_once : system platform lab := deliver_command (repeat NoFault 2 ++ [FailAfter]) ordered_both.
Definition paid_both : system platform lab := deliver_result [] (deliver_result [] (deliver_command [] lost_once)).

Lemma both_unused : unused both_start.
Proof.
  unfold unused. simpl. split_and!; try done.
  - apply two_wallets_wf.
  - intros p (u & o & _ & Ho). discriminate Ho.
  - intros p (u & row & _ & Hu & _). vm_compute in Hu. by destruct u.
Qed.

Lemma w_processing_commands e l : events w_processing = e :: l -> is_command e.
Proof. vm_compute. by intros [= <- _]. Qed.

Lemma ordered_operates : operates both_start ordered_both.
Proof. apply (operates_input both_start background (InStart demo_order) []); [apply operates_start | done]. Qed.

Lemma deliver_command_orchestrator s x : orchestrator (deliver_command s x) = orchestrator x.
Proof. unfold deliver_command. by repeat case_match. Qed.

Lemma paid_operates : operates both_start paid_both.
Proof.
  unfold paid_both, lost_once. do 2 apply deliver_result_operates.
  do 2 (apply deliver_command_operates; [rewrite ?deliver_command_orchestrator; exact w_processing_commands |]).
  exact ordered_operates.
Qed.

Lemma settled_payments_were_charged_witness :
  (state_in (orchestrator lost_once), state_in (orchestrator paid_both)) =
    (Some StatePaymentProcessing, Some StateCompleted) /\
  (length (charges (processor lost_once)), length (charges (processor paid_both))) = (1%nat, 1%nat) /\
  charged_as_ordered paid_both "50".
Proof.
  split; [vm_compute; reflexivity |]. split; [vm_compute; reflexivity |].
  destruct (stored_row (orchestrator paid_both)) as [row Hrow]; [by vm_compute |].
  apply (proj1 (settled_payments_were_charged both_start paid_both both_unused paid_operates) "50" row Hrow).
  vm_compute in Hrow. injection Hrow as <-. right. reflexivity.
Defined.
