(* ===== verification/GatewayExamples.v ===== *)
(** * GatewayExamples: requests to the gateway, evaluated.

    A token format with concrete behaviour, the theorems of [Gateway] on requests
    about the payment of [SagaExamples], and what the gateway tells its callers about
    payments of others and about conflicting orders. *)

From S2P Require Import Prelude GoStrings Mime Domain GoTime Json Database Outbox Fixtures Grpc.
From S2P Require Import WalletRepo LedgerRepo WalletService Verification WalletServer LedgerServer VerificationServer.
From S2P Require Import SagaTypes SagaStore Orchestrator FraudReview SagaSafety SagaRuns FraudEvents Platform SagaExamples.
From S2P Require Import RateLimiter SagaServer Gateway.

#[local] Open Scope string_scope.
#[local] Open Scope Z_scope.

(** Tokens of the form [alg.secret.user.role], signed by showing the secret. *)
Definition demo_token (token : string) : option (string * string * claims) :=
  '(alg, t1) ← Cut token ".";
  '(secret, t2) ← Cut t1 ".";
  '(user, role) ← Cut t2 ".";
  Some (alg, secret, [("user_id", JString user); ("role", JString role)]).

#[local] Instance demo_jwt : Jwt := {
  jwt_public_key _ := true;
  jwt_ParseWithClaims token kf methods :=
    match demo_token token with
    | Some (alg, secret, c) =>
        match kf alg with
        | Some (HMACKey k) => if bool_decide (alg ∈ methods) && (k =s secret) then Some c else None
        | _ => None
        end
    | None => None
    end;
  jwt_verifies alg k token c := exists secret, demo_token token = Some (alg, secret, c) /\ k = HMACKey secret
}.

#[local] Instance demo_jwt_ok : JwtOk.
Proof.
  split. intros token kf methods c. simpl. destruct (demo_token token) as [[[alg secret] c'] |] eqn:Ht; [| done].
  destruct (kf alg) as [[k | k] |] eqn:Hk; [| done | done]. destruct (bool_decide _ && _) eqn:Hb; [| done].
  apply andb_true_iff in Hb as [Hin Hs]. apply bool_decide_eq_true in Hin. apply str_eqb_true in Hs as ->.
  intros [= ->]. exists alg, (HMACKey secret). split; [done |]. split; [done |]. by exists secret.
Qed.

Definition demo_verifier : Verifier.t := HMACVerifier "s3cret".

Definition header (token : string) (name : string) : string :=
  if name =s "Authorization" then "Bearer " ++ token
  else if name =s "Content-Type" then "application/json" else "".

Definition request (method path token : string) (body : option document) : Request.t :=
  Request.mk method path (header token) body 0 60%N 61%N.

Definition admin_token : string := "HS256.s3cret.40.admin".
Definition user_token : string := "HS256.s3cret.33.user".
Definition owner_token : string := "HS256.s3cret.32.user".

Definition serve_request (r : Request.t) (w : world platform) : option (Response.t * RateLimiter.t * conn (world platform)) :=
  protected demo_verifier (NewRateLimiter 60 Second) 0 (NewPayments background) r (Conn w None []).

Definition answer_of (r : Request.t) (w : world platform) : option (Z * json) :=
  (fun x => (x.1.1.(Response.Status), x.1.1.(Response.Body))) <$> serve_request r w.

Definition status_of (r : Request.t) (w : world platform) : option Z := fst <$> answer_of r w.

Definition order_body (amount : Z) : option document :=
  Some (Some (JObject [("payment_id", JString "50"); ("from_wallet_id", JString "1"); ("to_wallet_id", JString "2");
                       ("amount_cents", JInt amount); ("currency", JString "usd")])).

Definition resume_path : string := "/v1/payments/50/fraud-review/resume".

Example routes :
  (fun x => status_of x.1 x.2) <$>
    [(request "POST" "/v1/transfers" owner_token (order_body 300), demo_world);
     (request "POST" "/v1/transfers" "HS256.wrong.32.user" (order_body 300), demo_world);
     (request "POST" "/v1/transfers" "none.s3cret.32.user" (order_body 300), demo_world);
     (request "POST" resume_path user_token None, w_review);
     (request "POST" resume_path admin_token None, w_review);
     (request "POST" resume_path admin_token None, w_processing)]
  = [Some 202; Some 401; Some 401; Some 403; Some 200; Some 422].
Proof. vm_compute. reflexivity. Qed.

Definition resume_request : Request.t := request "POST" resume_path admin_token None.

Lemma requests_need_authority_witness :
  exists resp limiter c', serve_request resume_request w_review = Some (resp, limiter, c') /\
    state_in (committed c') = Some StatePaymentProcessing /\
    exists principal i s', vouched demo_verifier (header admin_token "Authorization") principal /\
      authorised principal i /\ committed c' = committed (snd (handle background i (Conn w_review None s'))).
Proof.
  destruct (serve_request resume_request w_review) as [[[resp limiter] c'] |] eqn:Hrun.
  - exists resp, limiter, c'. split; [reflexivity |].
    assert (state_in (committed c') = Some StatePaymentProcessing) as Hstate.
    { assert ((fun x => state_in (committed x.2)) <$> serve_request resume_request w_review
              = Some (Some StatePaymentProcessing)) as Hs by (vm_compute; reflexivity).
      rewrite Hrun in Hs. by injection Hs. }
    split; [exact Hstate |].
    destruct (requests_need_authority background demo_verifier (NewRateLimiter 60 Second) 0 (NewPayments background)
      resume_request w_review [] resp limiter c' (or_introl eq_refl) Hrun) as [Hsame | Hex]; [| exact Hex].
    exfalso. assert (state_in w_review = Some StateFraudReview) as Hr by (vm_compute; reflexivity).
    rewrite Hsame, Hr in Hstate. discriminate Hstate.
  - exfalso. assert (is_Some (serve_request resume_request w_review)) as [x Hx] by (vm_compute; eexists; reflexivity).
    rewrite Hrun in Hx. discriminate Hx.
Defined.

Lemma operators_see_every_review_witness :
  exists rows resp, yields (NewFraudReviews (Principal.mk 40%N RoleAdmin) (request "GET" fraudReviewsPath admin_token None))
      w_review (Ok resp) w_review /\ resp.(Response.Status) = 200 /\
    rows ≡ₚ filter (fun row => row.(SagaRow.state) = StateFraudReview) (saga_rows w_review).
Proof.
  destruct (operators_see_every_review (Principal.mk 40%N RoleAdmin) (request "GET" fraudReviewsPath admin_token None) w_review)
    as (rows & resp & Hy & Hs & _ & Hp & _); [reflexivity.. |].
  exists rows, resp. split; [exact Hy |]. split; [exact Hs | exact Hp].
Defined.

(** ** Answers that tell too much or the wrong thing *)

(** Any user reads any payment: the route compares the payment with nobody. *)
Theorem anyone_reads_a_payment :
  SagaRow.user_id <$> sagas w_processing !! "50" = Some "32" /\
  answer_of (request "GET" "/v1/payments/50" user_token None) w_processing =
    answer_of (request "GET" "/v1/payments/50" owner_token None) w_processing /\
  status_of (request "GET" "/v1/payments/50" user_token None) w_processing = Some 200.
Proof. vm_compute. done. Qed.

(** An order that conflicts with an earlier one under the same key is answered as a
    fault of the server, and a payment that does not exist as a missing wallet. *)
Theorem conflict_is_an_internal_error :
  status_of (request "POST" "/v1/transfers" owner_token (order_body 301)) w_processing = Some 500 /\
  answer_of (request "GET" "/v1/payments/51" owner_token None) w_processing =
    Some (404, JObject [("error", JObject [("code", JString "wallet_not_found"); ("message", JString "wallet not found")])]).
Proof. vm_compute. done. Qed.

(** The gRPC server asks for every field of an order but its trace: the request for a
    score that such an order leads to fails the [Validate] of its own schema. *)
Theorem untraced_order_is_published_invalid :
  let req := StartPaymentSagaRequest.mk "50" "key-50" "" "32" "1" "2" 300 "USD" in
  let w := committed (snd (SagaServer.StartPaymentSaga background (Some req) (Conn demo_world None []))) in
  exists e x, e ∈ events w /\ e.(OutboxEvent.Topic) = FraudScoreRequestedTopic /\
    e.(OutboxEvent.Payload) = FraudScoreRequested.to_json x /\ FraudScoreRequested.Validate x = Err ErrInvalidFraudEvent.
Proof.
  intros req w. assert (exists e1 e2, events w = [e1; e2]) as (e1 & e2 & He) by (eexists; eexists; vm_compute; reflexivity).
  exists e2. vm_compute in He. injection He as _ <-.
  exists (FraudScoreRequested.mk 1 "fraud.score.requested:50" "50" "32" "1" "2" 300 "USD" 5000000 "").
  split; [| by vm_compute]. vm_compute. apply list_elem_of_further, list_elem_of_here.
Qed.
