(* ===== verification/GatewayWalletExamples.v ===== *)
(** * GatewayWalletExamples: statements, wallets and transfers over HTTP, evaluated. *)

From S2P Require Import Prelude GoStrings Domain GoTime Decimal Rfc3339 Json Database Outbox Fixtures JsonExamples.
From S2P Require Import WalletRepo LedgerRepo LedgerPages WalletService Grpc LedgerReads Gateway GatewayWallet.
From S2P Require Import Config Verification SagaTypes SagaStore Orchestrator FraudReview SagaRuns Platform SagaExamples RateLimiter.
From S2P Require Import Mux WalletApi ApiAgreement GatewayRouter GatewayExamples.

#[local] Open Scope string_scope.
#[local] Open Scope Z_scope.

(** Identifiers with texts as the wire needs them: read back, plain and not empty. *)
#[local] Instance wire_uuid : Uuid := {
  uuid_String u := String one_bit (bits_of (N.succ_pos u));
  uuid_Parse s := match s with String _ s' => Pos.pred_N <$> of_bits s' | EmptyString => None end
}.

#[local] Instance wire_uuid_ok : UuidOk.
Proof. split. intros u. simpl. rewrite of_bits_of. simpl. by rewrite N.pos_pred_succ. Qed.

Definition bit (b : N) : Prop := b = 48%N \/ b = 49%N.

Lemma bits_bytes p : Forall bit (bytes_of (bits_of p)).
Proof. unfold bytes_of. induction p as [p IH | p IH |]; simpl; constructor; first [done | by right | by left]. Qed.

Lemma bits_utf8 l : Forall bit l -> utf8_bytes l = true.
Proof. induction 1 as [|b l [-> | ->] _ IH]; done. Qed.

Lemma bits_no_time l : Forall bit l -> l !! 4%nat <> Some 45%N.
Proof. intros Hl Hb. eapply list.Forall_lookup_1 in Hl; [| exact Hb]. by destruct Hl. Qed.

#[local] Instance wire_uuid_text : UuidText.
Proof.
  split; [| done]. intros u. unfold json_ok.
  assert (Forall bit (bytes_of (uuid_String u))) as Hb by (constructor; [by right | apply bits_bytes]).
  unfold utf8_valid. rewrite bits_utf8 by done. unfold time_shaped. rewrite bool_decide_eq_false_2; [done |].
  intros [H4 _]. by apply (bits_no_time _ Hb).
Qed.

Definition as_alice : Principal.t := Principal.mk alice "user".

Lemma busy_dated : dated 1%N busy.
Proof. apply (bool_decide_unpack _). vm_compute. exact I. Qed.

Lemma alice_wallet : exists w, wallets busy !! 1%N = Some w /\ w.(Wallet.UserID) = alice.
Proof. eexists. split; vm_compute; reflexivity. Qed.

(** Alice reads her two entries, one per page. *)
Lemma statement_is_complete_witness :
  fst (read_statement (S (length (ledger_entries busy))) as_alice 1%N "1" "" (Conn busy None [])) =
    Ok (Some (entryResponse <$> sorted_entries 1%N busy)) /\
  LedgerEntry.Amount <$> sorted_entries 1%N busy = [50; 400].
Proof.
  split; [| vm_compute; reflexivity]. destruct alice_wallet as (w & Hw & Hu).
  exact (proj1 (statement_is_complete as_alice 1%N "1" 1 w busy [] busy_wf busy_dated Hw Hu ltac:(vm_compute; reflexivity) ltac:(by constructor))).
Defined.

Definition balance_request : Request.t :=
  Request.mk "GET" ("/v1/wallets/" ++ uuid_String 1%N ++ "/balance") (fun _ => "") None 0 uuid_Nil uuid_Nil.

(** Alice is shown the balance of her wallet, and Bob is not. *)
Lemma wallets_are_private_witness :
  let run p := NewWallets p balance_request (Conn busy None []) in
  (exists resp, fst (run as_alice) = Ok resp /\
     exists w, wallets busy !! w.(Wallet.ID) = Some w /\ w.(Wallet.UserID) = alice /\ shows w resp) /\
  fst (run (Principal.mk 33%N "user")) = Ok (error_response 404 "wallet_not_found" "wallet not found").
Proof.
  intros run. split; [| vm_compute; reflexivity].
  destruct (wallets_are_private as_alice balance_request busy [] busy_wf) as [_ (resp & Hr & Hs)].
  exists resp. split; [exact Hr |]. apply Hs.
  assert (fst (run as_alice) = Ok (ok_response 200 (JObject [("wallet_id", JString (uuid_String 1%N)); ("balance", JInt (default 0 (balance_of 1%N busy))); ("currency", JString "USD")]))) as Hv by (vm_compute; reflexivity).
  unfold run in Hv. rewrite Hr in Hv. injection Hv as ->. reflexivity.
Defined.

#[local] Existing Instance demo_jwt.
#[local] Existing Instance demo_jwt_ok.

Definition alice_token : string := "HS256.s3cret." ++ uuid_String alice ++ ".user".

Definition transfer_of (from to amount : N) : Request.t :=
  request "POST" "/v1/transfers" alice_token
    (Some (Some (JObject [("from_wallet_id", JString (uuid_String from)); ("to_wallet_id", JString (uuid_String to));
                          ("amount", JInt (Z.of_N amount))]))).

Definition api (r : Request.t) : res error Api.reply * conn tables :=
  Api.NewRouter demo_verifier "" background r (fun _ => "") (Conn busy None []).

Definition status_of (r : res error Api.reply) : option Z :=
  match r with Ok (Api.Answered resp) => Some resp.(Response.Status) | _ => None end.

(** Alice moves money out of her wallet and not out of Bob's; the route of a statement
    without its slash is redirected, and what the API does not serve is not found. *)
Lemma api_acts_for_its_user_witness :
  (committed (snd (api (transfer_of 1 2 100))) <> busy /\
   exists principal, vouched demo_verifier ("Bearer " ++ alice_token) principal /\
     own_change "" background principal.(Principal.UserID) busy (committed (snd (api (transfer_of 1 2 100))))) /\
  status_of (fst (api (transfer_of 1 2 100))) = Some 201 /\
  status_of (fst (api (transfer_of 2 1 100))) = Some 404 /\ committed (snd (api (transfer_of 2 1 100))) = busy /\
  fst (api (request "GET" "/v1/ledger" alice_token None)) = Ok (Api.Redirected "/v1/ledger/") /\
  fst (api (request "GET" "/metrics" "" None)) = Ok Api.Exposition /\
  fst (api (request "GET" "/" alice_token None)) = Ok Api.PageNotFound.
Proof.
  assert (committed (snd (api (transfer_of 1 2 100))) <> busy) as Hne.
  { intros Heq. apply (f_equal (fun t => length (outbox_events t))) in Heq. revert Heq. vm_compute. discriminate. }
  split; [| vm_compute; repeat split; reflexivity]. split; [exact Hne |].
  destruct (api_acts_for_its_user demo_verifier "" background (transfer_of 1 2 100) (fun _ => "") busy [] busy_wf)
    as [[Hsame | (principal & Hv & Hc)] _]; [by destruct Hne |]. exists principal. split; [exact Hv | exact Hc].
Defined.

Lemma busy_all_dated walletID : dated walletID busy.
Proof.
  assert (Forall (fun e => 0 <= e.(LedgerEntry.CreatedAt) < 3652059 * (24 * Hour)) (ledger_entries busy)) as Hd
    by (apply (bool_decide_unpack _); vm_compute; exact I).
  unfold dated, of_wallet. rewrite list.Forall_forall in Hd |- *. intros e He. apply list_elem_of_filter in He as [_ He]. auto.
Qed.

(** The balance of Alice's wallet when the first of two reads is lost, and a
    transfer she makes: the same documents but for the time of the transfer. *)
Lemma apis_agree_witness :
  let s := [FailBefore] in
  (exists s', (s' = s \/ s' = tail s) /\
     alike (Api.NewWallets as_alice balance_request) (NewWallets as_alice balance_request) busy s s') /\
  alike (Api.NewTransfers "" background as_alice (transfer_of 1 2 100)) (NewTransfers "" background as_alice (transfer_of 1 2 100)) busy [] [] /\
  (exists resp, fst (Api.NewWallets as_alice balance_request (Conn busy None s)) = Ok resp /\
     resp.(Response.Status) = 200 /\ fst (NewWallets as_alice balance_request (Conn busy None [])) = Ok resp) /\
  fst (NewWallets as_alice balance_request (Conn busy None s)) = Ok (error_response 500 "internal_error" "internal server error").
Proof.
  assert (forall c, Api.decodeLedgerCursor "" = Some c -> legible c) as Hc by (intros c [= <-]; by left).
  intros s. split; [| split].
  - exact (proj1 (apis_agree "" background as_alice balance_request (fun _ => "") busy s busy_wf busy_all_dated Hc)).
  - exact (proj1 (proj2 (apis_agree "" background as_alice (transfer_of 1 2 100) (fun _ => "") busy [] busy_wf busy_all_dated Hc))).
  - split; [eexists; split; [vm_compute; reflexivity |]; split; vm_compute; reflexivity | vm_compute; reflexivity].
Defined.

(** The time of a transfer does not come back over gRPC: the gateway's answer says the
    year 1, the API's says when. *)
Lemma gateway_transfer_undated :
  let created r := match r with Ok resp => match resp.(Response.Body) with JObject fields => json_field "created_at" fields | _ => None end | Err _ => None end in
  created (fst (NewTransfers "" background as_alice (transfer_of 1 2 100) (Conn busy None []))) = Some (JTime zero_time) /\
  match fst (Api.NewTransfers "" background as_alice (transfer_of 1 2 100) (Conn busy None [])) with
  | Ok resp => match resp.(Response.Body) with JObject fields => json_field "created_at" fields | _ => None end
  | Err _ => None
  end = Some (JTime (now busy)).
Proof. vm_compute. split; reflexivity. Qed.

(** ** The gateway *)

Definition gateway_env : string -> option string := environment [("JWT_SECRET", "s3cret")].
Definition demo_around : surroundings := Surroundings 0 "manual" 0 "aa" "bb" true.
Definition no_identities : Verification.vtables := Verification.VTables ∅ [] 0 0.

Definition through_gateway (r : Request.t) : option (Api.reply * RateLimiter.t * backends platform) :=
  gateway_serve background demo_verifier demo_around r (fun _ => "") (NewRateLimiter 60 Second)
    (Backends (Conn demo_world None []) (Conn busy None []) (Conn no_identities None [])).

Definition open_wallet (token : string) : Request.t :=
  request "POST" "/v1/wallets" token (Some (Some (JObject [("currency", JString "USD")]))).

Definition gateway_status (r : Request.t) : option Z :=
  match through_gateway r with Some (Api.Answered resp, _, _) => Some resp.(Response.Status) | _ => None end.

Definition demo_settings : Config.t :=
  Eval vm_compute in match LoadGatewayFromLookup no_files gateway_env with Ok settings => settings | Err _ => Config.zero end.

Lemma demo_loaded : LoadGatewayFromLookup no_files gateway_env = Ok demo_settings.
Proof. vm_compute. reflexivity. Qed.

Lemma demo_verified :
  NewVerifier demo_settings.(Config.JWTAlgorithm) demo_settings.(Config.JWTSecret) demo_settings.(Config.JWTPublicKeyPEM) = Some demo_verifier.
Proof. vm_compute. reflexivity. Qed.

Definition wallets_after (x : option (Api.reply * RateLimiter.t * backends platform)) : option nat :=
  option_map (fun x => size (wallets (in_money (contents x.2)))) x.

Lemma unchanged_wallets x w t v : contents x.2 = Stored w t v -> wallets_after (Some x) = Some (size (wallets t)).
Proof. intros Heq. unfold wallets_after. cbn [option_map]. by rewrite Heq. Qed.

Lemma one_wallet_more : wallets_after (through_gateway (open_wallet alice_token)) = Some (S (size (wallets busy))).
Proof. vm_compute. reflexivity. Qed.

Lemma opens_a_wallet x : through_gateway (open_wallet alice_token) = Some x -> contents x.2 <> Stored demo_world busy no_identities.
Proof.
  intros Hrun Heq%unchanged_wallets. rewrite <- Hrun, one_wallet_more in Heq. revert Heq.
  generalize (size (wallets busy)). intros n [= Hn]. lia.
Qed.

