(* ===== verification/SmokeExamples.v ===== *)
(** * SmokeExamples: the smoke tests of the repository, run on the modelled stack.

    The local stack with the stub rail, its databases empty, evaluated: the tests that the
    model passes, and those that no stack passes any more. *)

From S2P Require Import Prelude GoStrings Domain GoTime Duration Flag Mux Json Database Outbox Grpc Fixtures JsonExamples.
From S2P Require Import WalletRepo LedgerRepo LedgerPages WalletService WalletServer LedgerServer VerificationServer Verification.
From S2P Require Import SagaTypes SagaStore Orchestrator FraudReview SagaSafety SagaRuns Platform Processor Rail.
From S2P Require Import RateLimiter SagaServer Gateway GatewayWallet WalletApi GatewayRouter DevToken Smoke.
From S2P Require Import SagaExamples ProcessorExamples GatewayExamples GatewayWalletExamples.

#[local] Open Scope string_scope.
#[local] Open Scope Z_scope.

#[local] Existing Instance lab_outside.
#[local] Existing Instance wire_uuid.
#[local] Existing Instance demo_jwt.

(** Tokens as [GatewayExamples] reads them. *)
#[local] Instance demo_sign : JwtSign := {
  jwt_SignedString alg k c :=
    match k with
    | HMACKey secret => Ok (alg ++ "." ++ secret ++ "." ++ default "" (claim_text "user_id" c) ++ "." ++ default "" (claim_text "role" c))
    | _ => Err "key is invalid"
    end;
  jwt_now := 0
}.

Definition stack_start : stack lab :=
  Stack (World ∅ [] [] 0 7000 0 (Platform (empty_tables 10) (Verification.VTables ∅ [] 0 5)))
    desk_start 0 0 (NewRateLimiter 60 Second) (63000000000 * Second) 0.

Definition local_uuid (n : nat) : uuid := (1000 + N.of_nat n)%N.
Definition no_env (key : string) : string := "".

Definition local_secret : Verifier.t := HMACVerifier defaultJWTSecret.
Definition connects (url : string) : res string unit := Ok tt.

Definition phase3 (verification : string) (args : list string) : res smoke_error unit :=
  fst (phase3_smoke background pauses_default local_secret verification local_uuid defaultGatewayURL connects no_env args stack_start).
Definition probe (args : list string) : res smoke_error unit :=
  fst (drillprobe background pauses_default local_secret "auto" local_uuid defaultGatewayURL connects no_env args stack_start).
Definition phase2 (flags : Phase2Flags.t) : res smoke_error unit :=
  fst (phase2_smoke background pauses_default local_secret "auto" local_uuid defaultGatewayURL connects flags stack_start).

(** The test of phase 3 passes on the modelled stack: the unverified user is refused, the
    payment settles, the one the rail declines is refunded and the one it first puts off
    is retried; in the database the reservation, the announcement and the number of
    attempts are as the test wants them.  It needs a stack that verifies by itself. *)
Theorem phase3_smoke_passes :
  phase3 "auto" [] = Ok tt /\
  phase3 "manual" [] = Err (Boundary "verification boundary" (NotVerified "pending")) /\
  phase3 "auto" ["-jwt-secret"; "another"] = Err (Boundary "create source wallet" (UnexpectedStatus "POST" "/v1/wallets" 401 201)) /\
  phase3 "auto" ["-gateway-url=http://localhost:9"; "-timeout"; "1s"] = Err (TimedOut "gateway readiness").
Proof. vm_compute. repeat split; reflexivity. Qed.

(** The probe of the drills: the transfers of a healthy stack settle within the window and
    none stays in processing. *)
Theorem drillprobe_on_a_healthy_stack :
  probe ["-want"; "COMPLETED"; "-within"; "30s"; "-count"; "10"] = Ok tt /\
  (exists id, probe ["-want"; "PAYMENT_PROCESSING"; "-after"; "15s"] = Err (WrongState id "COMPLETED" "PAYMENT_PROCESSING")) /\
  probe [] = Err ModeUnclear /\ probe ["-after"; "1s"; "-within"; "1s"] = Err ModeUnclear /\
  probe ["-within"; "1s"; "-count"; "0"] = Err CountNotPositive.
Proof. vm_compute. repeat split; try reflexivity. by eexists. Qed.

Definition phase2_flags : Phase2Flags.t :=
  Phase2Flags.mk defaultGatewayURL defaultDatabaseURL defaultJWTSecret (45 * Second) "" false "" "".

(** The test of phase 2 reaches its first transfer and fails there. *)
Lemma phase2_smoke_cannot_pass_witness :
  phase2 phase2_flags = Err (Boundary "insufficient funds check" (UnexpectedStatus "POST" "/v1/transfers" 400 422)) /\
  phase2 phase2_flags <> Ok tt.
Proof.
  split; [vm_compute; reflexivity |].
  exact (phase2_smoke_cannot_pass background pauses_default local_secret "auto" local_uuid defaultGatewayURL connects
           phase2_flags stack_start eq_refl eq_refl eq_refl).
Defined.

(** The load generator seeds its users, each with a funded wallet and an empty one. *)
Definition seeds (users : Z) : res smoke_error (list (Client.t * uuid * uuid)) * stack lab :=
  seedAccounts background pauses_default local_secret "auto" local_uuid "http://gateway:8080" connects no_env
    (wall_clock stack_start + Hour) users stack_start.

Theorem users_are_seeded :
  let '(r, s) := seeds 3 in
  exists accounts, r = Ok accounts /\ length accounts = 3%nat /\
    Forall (fun a => q_balance a.1.2 s = Some seedBalanceCents /\ q_balance a.2 s = Some 0) accounts.
Proof.
  destruct (seeds 3) as [r s] eqn:Hs. vm_compute in Hs. injection Hs as <- <-. eexists. split; [reflexivity |]. split; [reflexivity |].
  repeat constructor; vm_compute; reflexivity.
Qed.

(** The payment of phase 4 is accepted and asks for a score. *)
Definition phase4 (args : list string) : res smoke_error string * stack lab :=
  let deadline := wall_clock stack_start + 3 * Minute in
  next (parseConfig (fun key => if key =s "GRAFANA_ADMIN_PASSWORD" then "g" else "") args)
    (scoreOnePayment background pauses_default local_secret "auto" local_uuid defaultGatewayURL connects deadline) stack_start.

Theorem phase4_payment_is_scored :
  exists id s, phase4 [] = (Ok id, s) /\
    OutboxEvent.Topic <$> events (orchestrator s) = [TopicPaymentExecute; FraudScoreRequestedTopic] /\
    OutboxEvent.PartitionKey <$> events (orchestrator s) = [id; id].
Proof.
  destruct (phase4 []) as [r s] eqn:Hp. vm_compute in Hp. injection Hp as <- <-. do 2 eexists. split; [reflexivity |].
  vm_compute. split; reflexivity.
Qed.

(** The search for leaked identifiers finds one between quotes and misses one that is
    joined to a word by a dash, or to hexadecimal characters. *)
Definition leaked : string := "3f2504e0-4f89-11d3-9a0c-0305e82c3301".

Theorem joined_identifiers_are_missed :
  uuidsIn ("wallet=" ++ leaked ++ ",") = true /\ uuidsIn ("wallet-" ++ leaked) = false /\ uuidsIn ("id:a" ++ leaked) = false.
Proof. vm_compute. repeat split; reflexivity. Qed.
