(* ===== verification/NotificationExamples.v ===== *)
(** * NotificationExamples: messages, evaluated. *)

From S2P Require Import Prelude GoStrings Domain GoTime Json Database Outbox JsonExamples Kafka DeadLetter Consumer.
From S2P Require Import SagaTypes Notification KafkaExamples.

#[local] Open Scope string_scope.
#[local] Open Scope Z_scope.

Definition stubs : Dispatcher.t := Dispatcher.mk (Some StubAdapter) (Some StubAdapter).
Definition quoted (s : string) : string := "'" ++ s ++ "'".

Definition settled : TxCompleted.t :=
  TxCompleted.mk "tx.completed:p1" "p1" "trace" "w1" "w2" 1205 "EUR" "t1" 5 6.

Definition news_record (offset : Z) (value : string) : KafkaRecord.t :=
  KafkaRecord.mk TopicTxCompleted 0 offset "w1" value [].

Definition told : KafkaRecord.t := news_record 0 (json_Marshal (TxCompleted.to_json settled)).

(** A completion, bytes that are no JSON, and the completion again. *)
Definition news_topic : reader mailbox :=
  Reader [] [told; news_record 1 "?"; news_record 2 (json_Marshal (TxCompleted.to_json settled))] ∅.

Definition settled_message : Message.t :=
  Message.mk "tx.completed:p1" "p1" "trace" "Payment completed" "Your payment p1 for 12.05 EUR completed successfully.".


Lemma news_is_told_witness : exists message,
  message.(Message.Body) = "Your payment p1 for 12.05 EUR completed successfully." /\
  yields (HandleRecord quoted stubs 9 told) news_topic (Ok tt)
    (Reader [("email", message); ("sms", message)] (topics news_topic) (committed_record told news_topic)).
Proof.
  destruct (news_is_told quoted 9 told TopicTxCompleted (TxCompleted.to_json settled) "p1" "trace"
    "Your payment p1 for 12.05 EUR completed successfully." [] (topics news_topic) ∅) as (message & _ & _ & _ & Hb & Hy).
  - apply (news_completed settled). unfold int64. simpl. lia.
  - done.
  - done.
  - vm_compute. reflexivity.
  - exists message. split; [exact Hb | exact Hy].
Defined.
