(* ===== verification/VerificationMemory.v ===== *)
(** * VerificationMemory: the store in memory against the store in Postgres.

    [memoryStore] of [internal/verification/service.go], which the service's tests
    run on, and how far it answers as [PostgresStore] does. *)

From S2P Require Import Prelude GoStrings Domain GoTime Json Database Outbox Fixtures Verification.

#[local] Open Scope string_scope.
#[local] Open Scope Z_scope.

Import Verification.

Record memoryStore := MemoryStore {
  records : gmap string Record_.t;
  keys : gmap string string
}.

Definition newMemoryStore : memoryStore := MemoryStore ∅ ∅.

(** The part of [Submit] and [Decide] that writes a record. *)
Definition written (record : Record_.t) (decision : Decision.t) (traceID : string) (now decidedAt : time) : Record_.t :=
  Record_.mk record.(Record_.VerificationID) record.(Record_.UserID) decision.(Decision.Status)
    decision.(Decision.Reason) traceID record.(Record_.CreatedAt) now decidedAt.

Definition memory_Submit (cmd : SubmitCommand.t) (decision : Decision.t) (now : time) (randomHex : string)
    (store : memoryStore) : res verification_error (SubmitResult.t * memoryStore) :=
  let keyOwner := keys store !! cmd.(SubmitCommand.IdempotencyKey) in
  let existing := records store !! cmd.(SubmitCommand.UserID) in
  let keyExists := match keyOwner with Some _ => true | None => false end in
  if match keyOwner with Some owner => negb (owner =s cmd.(SubmitCommand.UserID)) | None => false end
  then Err ErrIdempotencyKeyConflict
  else
    let write (record : Record_.t) :=
      let from := if record.(Record_.Status) =s "" then StatusUnverified else record.(Record_.Status) in
      let decidedAt := if isTerminalEventStatus decision.(Decision.Status) then now else record.(Record_.DecidedAt) in
      let record := written record decision cmd.(SubmitCommand.TraceID) now decidedAt in
      Ok (SubmitResult.mk record (negb (from =s record.(Record_.Status))) from,
          MemoryStore (<[cmd.(SubmitCommand.UserID) := record]> (records store))
            (<[cmd.(SubmitCommand.IdempotencyKey) := cmd.(SubmitCommand.UserID)]> (keys store))) in
    match existing with
    | Some record =>
        if keyExists || isTerminalEventStatus record.(Record_.Status)
        then Ok (SubmitResult.mk record false "", store)
        else write record
    | None =>
        let verificationID := TrimSpace cmd.(SubmitCommand.VerificationID) in
        let verificationID := if verificationID =s "" then newVerificationID randomHex else verificationID in
        write (Record_.mk verificationID cmd.(SubmitCommand.UserID) "" "" "" now zero_time zero_time)
    end.

Definition memory_GetStatus (userID : string) (store : memoryStore) : res verification_error Record_.t :=
  match records store !! userID with Some record => Ok record | None => Err ErrNotFound end.

Definition memory_Decide (cmd : DecisionCommand.t) (decision : Decision.t) (now : time) (store : memoryStore)
    : res verification_error (SubmitResult.t * memoryStore) :=
  match records store !! cmd.(DecisionCommand.UserID) with
  | None => Err ErrNotFound
  | Some record =>
      if isTerminalEventStatus record.(Record_.Status) then Ok (SubmitResult.mk record false "", store)
      else
        let from := record.(Record_.Status) in
        let record := written record decision cmd.(DecisionCommand.TraceID) now now in
        Ok (SubmitResult.mk record (negb (from =s record.(Record_.Status))) from,
            MemoryStore (<[cmd.(DecisionCommand.UserID) := record]> (records store)) (keys store))
  end.

(** ** The two stores side by side

    Postgres keeps microseconds, and of each user the key of the last submission that
    wrote; the memory keeps every key. *)

Definition rounded (r : Record_.t) : Record_.t :=
  Record_.mk r.(Record_.VerificationID) r.(Record_.UserID) r.(Record_.Status) r.(Record_.Reason) r.(Record_.TraceID)
    (pg_timestamp r.(Record_.CreatedAt)) (pg_timestamp r.(Record_.UpdatedAt)) (pg_timestamp r.(Record_.DecidedAt)).

Definition rounded_result (x : SubmitResult.t) : SubmitResult.t :=
  SubmitResult.mk (rounded x.(SubmitResult.Record_)) x.(SubmitResult.Transitioned) x.(SubmitResult.TransitionedFrom).

Definition known_status (st : string) : Prop := st ∈ [StatusPending; StatusVerified; StatusRejected].

Record mirrors (m : memoryStore) (t : vtables) : Prop := {
  mirrors_wf : vwf t;
  mirrors_records u : rounded <$> records m !! u = scan_record <$> verifications t !! u;
  mirrors_status u r : verifications t !! u = Some r -> known_status r.(Row.status);
  mirrors_keys u r : verifications t !! u = Some r -> keys m !! r.(Row.idempotency_key) = Some u;
  mirrors_owner k u : keys m !! k = Some u -> is_Some (verifications t !! u)
}.

(** A key that a user replaced by another one while the verification was pending. *)
Definition replaced (k : string) (m : memoryStore) (t : vtables) : Prop :=
  exists u r, keys m !! k = Some u /\ verifications t !! u = Some r /\ r.(Row.idempotency_key) <> k.

Inductive call :=
| CallSubmit (cmd : SubmitCommand.t) (decision : Decision.t) (now : time) (randomHex : string)
| CallDecide (cmd : DecisionCommand.t) (decision : Decision.t) (now : time)
| CallStatus (userID : string).

Inductive answer :=
| AnswerResult (r : res verification_error SubmitResult.t)
| AnswerRecord (r : res verification_error Record_.t).

Definition rounded_answer (a : answer) : answer :=
  match a with
  | AnswerResult (Ok x) => AnswerResult (Ok (rounded_result x))
  | AnswerRecord (Ok x) => AnswerRecord (Ok (rounded x))
  | a => a
  end.

Definition settle {A} (m : memoryStore) (r : res verification_error (A * memoryStore)) : res verification_error A * memoryStore :=
  match r with Ok (a, m') => (Ok a, m') | Err e => (Err e, m) end.

Definition memory_call (c : call) (m : memoryStore) : answer * memoryStore :=
  match c with
  | CallSubmit cmd decision now hex =>
      let '(r, m') := settle m (memory_Submit cmd decision now hex m) in (AnswerResult r, m')
  | CallDecide cmd decision now =>
      let '(r, m') := settle m (memory_Decide cmd decision now m) in (AnswerResult r, m')
  | CallStatus userID => (AnswerRecord (memory_GetStatus userID m), m)
  end.

(** The same call on the tables, with no round trip lost. *)
Definition postgres_call (c : call) (t : vtables) : answer * vtables :=
  match c with
  | CallSubmit cmd decision now hex =>
      let '(r, c') := store_Submit cmd decision now hex (Conn t None []) in (AnswerResult r, committed c')
  | CallDecide cmd decision now =>
      let '(r, c') := store_Decide cmd decision now (Conn t None []) in (AnswerResult r, committed c')
  | CallStatus userID =>
      let '(r, c') := store_GetStatus userID (Conn t None []) in (AnswerRecord r, committed c')
  end.

(** The calls on which the stores agree: decisions are those of the service, a key
    that was replaced does not come back, and a new user's identifier is trimmed and
    not another user's. *)
Definition ordinary (c : call) (m : memoryStore) (t : vtables) : Prop :=
  match c with
  | CallSubmit cmd decision now hex =>
      known_status decision.(Decision.Status) /\ ~ replaced cmd.(SubmitCommand.IdempotencyKey) m t /\
      TrimSpace cmd.(SubmitCommand.VerificationID) = cmd.(SubmitCommand.VerificationID) /\
      (verifications t !! cmd.(SubmitCommand.UserID) = None ->
       taken_id (inserted_row cmd decision now hex).(Row.verification_id) t = false)
  | CallDecide _ decision _ => known_status decision.(Decision.Status)
  | CallStatus _ => True
  end.

Fixpoint both (l : list call) (m : memoryStore) (t : vtables) : list (answer * answer) :=
  match l with
  | [] => []
  | c :: rest =>
      let '(a, m') := memory_call c m in
      let '(b, t') := postgres_call c t in
      (a, b) :: both rest m' t'
  end.

Fixpoint all_ordinary (l : list call) (m : memoryStore) (t : vtables) : Prop :=
  match l with
  | [] => True
  | c :: rest => ordinary c m t /\ all_ordinary rest (snd (memory_call c m)) (snd (postgres_call c t))
  end.

#[local] Arguments pg_timestamp : simpl never.

Section Agreement.
Context `{Postgres}.

Lemma pg_timestamp_idemp x : pg_timestamp (pg_timestamp x) = pg_timestamp x.
Proof. unfold pg_timestamp. by rewrite Z.div_mul. Qed.

Lemma mirrors_start n : mirrors newMemoryStore (new_service n).
Proof.
  split; [apply new_service_wf | done |..]; simpl; intros ? ? Hl; rewrite lookup_empty in Hl; done.
Qed.

(** A key that was not replaced has the same owner in both stores. *)
Lemma key_owner m t k : mirrors m t -> ~ replaced k m t -> keys m !! k = Row.user_id <$> key_row k t.
Proof.
  intros Hm Hr. destruct (keys m !! k) as [u |] eqn:Hk.
  - destruct (mirrors_owner _ _ Hm _ _ Hk) as [r Hu].
    assert (r.(Row.idempotency_key) = k) as <-
      by (destruct (decide (r.(Row.idempotency_key) = k)) as [| Hne]; [done | destruct Hr; by exists u, r]).
    rewrite (key_row_own t u r) by (done || apply Hm). simpl. f_equal. symmetry. by eapply vwf_user; [apply Hm |].
  - destruct (key_row k t) as [r |] eqn:Hrow; [| done]. apply key_row_Some in Hrow as (u & Hu & <-).
    by rewrite (mirrors_keys _ _ Hm _ _ Hu) in Hk.
Qed.

(** Writing a row and its record. *)
Lemma mirrors_write m t u rec row :
  mirrors m t -> vwf (with_verifications (<[u := row]> (verifications t)) t) ->
  rounded rec = scan_record row -> known_status row.(Row.status) ->
  mirrors (MemoryStore (<[u := rec]> (records m)) (<[row.(Row.idempotency_key) := u]> (keys m)))
    (with_verifications (<[u := row]> (verifications t)) t).
Proof.
  intros Hm Hwf Heq Hst. split; [done | ..]; simpl.
  - intros u'. rewrite !lookup_insert. case_decide; [simpl; by rewrite Heq | apply Hm].
  - intros u' r'. rewrite lookup_insert. case_decide; [by intros [= <-] | apply Hm].
  - intros u' r' Hu'. rewrite lookup_insert. case_decide as Hk.
    + f_equal. eapply (vwf_key _ Hwf u u' row r'); [apply lookup_insert_eq | done | done].
    + revert Hu'. simpl. rewrite lookup_insert. case_decide; [congruence |]. apply Hm.
  - intros k u' [[_ <-] | [_ Hk]]%lookup_insert_Some; rewrite lookup_insert; case_decide;
      first [done | by eexists | by apply (mirrors_owner _ _ Hm k)].
Qed.

Lemma mirrors_record m t u r :
  mirrors m t -> verifications t !! u = Some r ->
  exists rec, records m !! u = Some rec /\ rounded rec = scan_record r.
Proof.
  intros Hm Hu. pose proof (mirrors_records _ _ Hm u) as Heq. rewrite Hu in Heq.
  destruct (records m !! u) as [rec |]; [| done]. exists rec. split; [done |]. exact (Some_inj _ _ Heq).
Qed.

Lemma mirrors_none m t u : mirrors m t -> verifications t !! u = None -> records m !! u = None.
Proof.
  intros Hm Hu. pose proof (mirrors_records _ _ Hm u) as Heq. rewrite Hu in Heq. by destruct (records m !! u).
Qed.

(** What the two records of a user share. *)
Lemma rounded_scan rec r : rounded rec = scan_record r ->
  rec.(Record_.VerificationID) = r.(Row.verification_id) /\ rec.(Record_.UserID) = r.(Row.user_id) /\
  rec.(Record_.Status) = r.(Row.status) /\ pg_timestamp rec.(Record_.CreatedAt) = r.(Row.created_at) /\
  pg_timestamp rec.(Record_.DecidedAt) = default zero_time r.(Row.decided_at).
Proof. intros Heq. by injection Heq. Qed.

Lemma known_nonempty st : known_status st -> (st =s "") = false /\ (StatusUnverified =s st) = false.
Proof. unfold known_status. rewrite !elem_of_cons, elem_of_nil. intros [-> | [-> | [-> | []]]]; done. Qed.

Definition agree (m : memoryStore) (r : res verification_error (SubmitResult.t * memoryStore))
    (s : res verification_error (SubmitResult.t * vtables)) : Prop :=
  match r, s with
  | Ok (x, m'), Ok (y, t') => rounded_result x = y /\ mirrors m' t'
  | Err e, Err e' => e = e'
  | _, _ => False
  end.

Section Submission.
Variables (m : memoryStore) (t : vtables) (cmd : SubmitCommand.t) (decision : Decision.t) (now : time) (hex : string).
Hypothesis Hm : mirrors m t.
Hypothesis Hordinary : ordinary (CallSubmit cmd decision now hex) m t.
#[local] Abbreviation user := cmd.(SubmitCommand.UserID).
#[local] Abbreviation key := cmd.(SubmitCommand.IdempotencyKey).

Lemma submission_wf r row :
  submit_spec cmd decision now hex t = Ok (r, with_verifications (<[user := row]> (verifications t)) t) ->
  vwf (with_verifications (<[user := row]> (verifications t)) t).
Proof.
  intros Hs. apply submit_wrote in Hs as [[-> _] | (row' & _ & _ & _ & -> & Hwf & _)]; [apply Hm | done | apply Hm].
Qed.

(** A submission under the key of the user's row. *)
Lemma repeat_agrees o :
  key_row key t = Some o -> agree m (memory_Submit cmd decision now hex m) (submit_spec cmd decision now hex t).
Proof.
  intros Hkey. destruct Hordinary as (_ & Hrep & _). unfold memory_Submit, submit_spec.
  rewrite (key_owner m t), Hkey by done. simpl. destruct (negb _) eqn:Ho; [done |].
  apply negb_false_iff, String.eqb_eq in Ho. apply key_row_Some in Hkey as (u & Hu & Hk).
  assert (u = user) as -> by (rewrite <- Ho; symmetry; by eapply vwf_user; [apply Hm |]).
  destruct (mirrors_record m t user o) as (rec & Hrec & Heq); [done | done |].
  rewrite Hrec, Hu, Hk, String.eqb_refl. simpl. split; [by unfold rounded_result; simpl; rewrite Heq | done].
Qed.

(** A submission under a new key, for a user with a row. *)
Lemma resubmit_agrees ex :
  key_row key t = None -> verifications t !! user = Some ex ->
  agree m (memory_Submit cmd decision now hex m) (submit_spec cmd decision now hex t).
Proof.
  intros Hkey Hu. destruct Hordinary as (Hst & Hrep & _). pose proof submission_wf as Hwf.
  unfold memory_Submit. unfold submit_spec in *. rewrite (key_owner m t) by done. rewrite Hkey, Hu in *. simpl in *.
  destruct (mirrors_record m t user ex) as (rec & Hrec & Heq); [done | done |]. rewrite Hrec.
  destruct (rounded_scan _ _ Heq) as (Hvid & Huid & Hs & Hcr & Hde).
  rewrite (proj2 (String.eqb_neq ex.(Row.idempotency_key) key)) in * by by eapply key_row_None. simpl in *. rewrite Hs.
  destruct (isTerminalEventStatus ex.(Row.status)) eqn:Hterm; simpl.
  { split; [by unfold rounded_result; simpl; rewrite Heq | done]. }
  rewrite (proj1 (known_nonempty _ (mirrors_status _ _ Hm _ _ Hu))).
  assert (rounded (written rec decision cmd.(SubmitCommand.TraceID) now
    (if isTerminalEventStatus decision.(Decision.Status) then now else rec.(Record_.DecidedAt)))
    = scan_record (resubmitted ex cmd decision now ex)) as Hrow.
  { unfold rounded, written, scan_record, resubmitted. simpl. rewrite Hvid, Huid, Hcr, Hterm. simpl.
    destruct (isTerminalEventStatus decision.(Decision.Status)); [done |]. by rewrite <- Hde, pg_timestamp_idemp. }
  split; [unfold rounded_result; simpl; by rewrite Hrow |].
  apply (mirrors_write m t user _ (resubmitted ex cmd decision now ex)); [done | by eapply Hwf | done | done].
Qed.

(** The first submission of a user. *)
Lemma insert_agrees :
  key_row key t = None -> verifications t !! user = None ->
  agree m (memory_Submit cmd decision now hex m) (submit_spec cmd decision now hex t).
Proof.
  intros Hkey Hu. destruct Hordinary as (Hst & Hrep & Htrim & Hfresh). pose proof submission_wf as Hwf.
  unfold memory_Submit. unfold submit_spec in *. rewrite (key_owner m t) by done. rewrite Hkey, Hu in *. cbn [fmap option_fmap option_map] in *.
  rewrite (mirrors_none m t user) by done. rewrite Hfresh in * by done. cbn [Record_.Status].
  change ("" =s "") with true. cbv iota. rewrite Htrim.
  set (row := inserted_row cmd decision now hex) in *. set (rec := written _ _ _ _ _).
  assert (rounded rec = scan_record row) as Hrow.
  { unfold rec, rounded, written, scan_record, row, inserted_row, decidedAtForStatus. simpl. f_equal.
    by destruct (isTerminalEventStatus _). }
  change rec.(Record_.Status) with decision.(Decision.Status). rewrite (proj2 (known_nonempty _ Hst)).
  split; [unfold rounded_result; simpl; by rewrite Hrow |].
  apply (mirrors_write m t user rec row); [done | by eapply Hwf | done | done].
Qed.

Lemma submit_agrees : agree m (memory_Submit cmd decision now hex m) (submit_spec cmd decision now hex t).
Proof.
  destruct (key_row key t) as [o |] eqn:Hkey; [by eapply repeat_agrees |].
  destruct (verifications t !! user) eqn:Hu; [by eapply resubmit_agrees | by apply insert_agrees].
Qed.
End Submission.

Lemma decide_agrees m t cmd decision now :
  mirrors m t -> ordinary (CallDecide cmd decision now) m t ->
  agree m (memory_Decide cmd decision now m) (decide_spec cmd decision now t).
Proof.
  intros Hm Hst. simpl in Hst. set (user := cmd.(DecisionCommand.UserID)).
  assert (forall r row, decide_spec cmd decision now t = Ok (r, with_verifications (<[user := row]> (verifications t)) t) ->
    vwf (with_verifications (<[user := row]> (verifications t)) t)) as Hwf.
  { intros r row Hs. apply decide_wrote in Hs as [[-> _] | (row' & _ & _ & _ & -> & Hwf & _)]; [apply Hm | done | apply Hm]. }
  unfold memory_Decide. unfold decide_spec in Hwf |- *. fold user in Hwf |- *.
  destruct (verifications t !! user) as [ex |] eqn:Hu; [| by rewrite (mirrors_none m t user)].
  destruct (mirrors_record m t user ex) as (rec & Hrec & Heq); [done | done |]. rewrite Hrec.
  destruct (rounded_scan _ _ Heq) as (Hvid & Huid & Hs & Hcr & Hde). rewrite Hs.
  destruct (isTerminalEventStatus ex.(Row.status)) eqn:Hterm.
  { split; [by unfold rounded_result; simpl; rewrite Heq | done]. }
  set (rec' := written _ _ _ _ _). set (row := decided cmd decision now ex) in *.
  assert (rounded rec' = scan_record row) as Hrow
    by (unfold rec', rounded, written, scan_record, row, decided; simpl; by rewrite Hvid, Huid, Hcr).
  split; [unfold rounded_result; simpl; by rewrite Hrow |].
  rewrite <- (insert_id (keys m) row.(Row.idempotency_key) user) by exact (mirrors_keys _ _ Hm user ex Hu).
  apply mirrors_write; [done | by eapply Hwf | done | done].
Qed.

Lemma store_status userID t :
  store_GetStatus userID (Conn t None []) =
    (match verifications t !! userID with Some r => Ok (scan_record r) | None => Err ErrNotFound end, Conn t None []).
Proof.
  unfold store_GetStatus, scanVerification, q_row, bind, attempt, query, exec, current, with_schedule. simpl.
  by destruct (verifications t !! userID).
Qed.

Lemma call_agrees c m t :
  mirrors m t -> ordinary c m t ->
  rounded_answer (fst (memory_call c m)) = fst (postgres_call c t) /\
  mirrors (snd (memory_call c m)) (snd (postgres_call c t)).
Proof.
  intros Hm Hc. destruct c as [cmd decision now hex | cmd decision now | userID]; simpl.
  - pose proof (submit_agrees m t cmd decision now hex Hm Hc) as Ha.
    pose proof (wp_elim _ _ _ (refines_total _ _ vwf t [] (submit_refines cmd decision now hex) (mirrors_wf _ _ Hm) (Forall_nil_2 _))) as Hp.
    destruct (store_Submit cmd decision now hex (Conn t None [])) as [r c']. simpl in Hp.
    destruct (memory_Submit cmd decision now hex m) as [[x m'] | e], (submit_spec cmd decision now hex t) as [[y t'] | e'];
      simpl in *; try done; destruct Hp as [-> ->]; [by destruct Ha as [<- ?] | by subst].
  - pose proof (decide_agrees m t cmd decision now Hm Hc) as Ha.
    pose proof (wp_elim _ _ _ (refines_total _ _ vwf t [] (decide_refines cmd decision now) (mirrors_wf _ _ Hm) (Forall_nil_2 _))) as Hp.
    destruct (store_Decide cmd decision now (Conn t None [])) as [r c']. simpl in Hp.
    destruct (memory_Decide cmd decision now m) as [[x m'] | e], (decide_spec cmd decision now t) as [[y t'] | e'];
      simpl in *; try done; destruct Hp as [-> ->]; [by destruct Ha as [<- ?] | by subst].
  - rewrite store_status. unfold memory_GetStatus. pose proof (mirrors_records _ _ Hm userID) as Heq. simpl. split; [| done].
    destruct (verifications t !! userID), (records m !! userID); try done. simpl. by rewrite (Some_inj _ _ Heq).
Qed.

(** The store the service is tested on is the store it runs on, up to the
    microsecond: from an empty store, whatever calls are made, with no round trip
    lost, both stores answer the same, errors included, as long as no key comes back
    that its user replaced by another one while the verification was pending, and new
    identifiers are trimmed and not another user's. *)
Theorem memory_store_agrees n l :
  all_ordinary l newMemoryStore (new_service n) ->
  Forall (fun ab => rounded_answer ab.1 = ab.2) (both l newMemoryStore (new_service n)).
Proof.
  generalize (mirrors_start n). generalize newMemoryStore, (new_service n). induction l as [|c l IH]; intros m t Hm Hl; [constructor |].
  destruct Hl as [Hc Hl]. destruct (call_agrees c m t Hm Hc) as [Ha Hm']. simpl in *.
  destruct (memory_call c m) as [a m'], (postgres_call c t) as [b t']. simpl in *. constructor; [done |]. by apply IH.
Qed.
End Agreement.

(** ** Examples *)

Definition asks (key : string) : SubmitCommand.t := SubmitCommand.mk "p1" key "trace" "alice" "" "" "please".
Definition pending : Decision.t := Decision.mk StatusPending "please".

(** Alice submits, submits again under a second key, repeats that, is approved and
    asks for her status; Bob was never seen. *)
Definition history : list call :=
  [CallSubmit (asks "k1") pending 1234567 "aa"; CallSubmit (asks "k2") pending 2345678 "bb";
   CallSubmit (asks "k2") pending 3456789 "cc";
   CallDecide (DecisionCommand.mk "alice" "trace" DecisionApprove "") (Decision.mk StatusVerified "") 4567890;
   CallStatus "alice"; CallStatus "bob"].

Lemma not_replaced (m : memoryStore) (t : vtables) k :
  match keys m !! k with
  | Some u => bool_decide (Row.idempotency_key <$> verifications t !! u = Some k)
  | None => true
  end = true -> ~ replaced k m t.
Proof.
  intros Hk (u & r & Hu & Hr & Hne). rewrite Hu in Hk. apply bool_decide_eq_true in Hk. rewrite Hr in Hk.
  by injection Hk.
Qed.

Lemma memory_store_agrees_witness :
  Forall (fun ab => rounded_answer ab.1 = ab.2) (both history newMemoryStore (new_service 5)) /\
  length (both history newMemoryStore (new_service 5)) = 6%nat.
Proof.
  split; [| vm_compute; reflexivity]. apply memory_store_agrees. unfold history, all_ordinary.
  repeat first
    [ split; [split; [unfold known_status; set_solver | split; [apply not_replaced; vm_compute; reflexivity | split; [reflexivity | intros _; vm_compute; reflexivity]]] |]
    | split; [unfold ordinary, known_status; set_solver |] | split; [exact I |] | exact I ].
Defined.

(** A submission of Alice's comes late, under a key she replaced: the memory takes it
    for a repetition, Postgres overwrites the later submission. *)
Definition late_history : list call :=
  [CallSubmit (asks "k1") pending 1000 "aa"; CallSubmit (asks "k2") pending 2000 "bb";
   CallSubmit (asks "k1") (Decision.mk StatusVerified "") 3000 "cc"].

Definition status_of (a : answer) : option string :=
  match a with AnswerResult (Ok x) => Some x.(SubmitResult.Record_).(Record_.Status) | _ => None end.

(** The stores disagree on a key that comes back. *)
Theorem replaced_key_is_forgotten :
  (fun ab => (status_of ab.1, status_of ab.2)) <$> both late_history newMemoryStore (new_service 5) =
  [(Some StatusPending, Some StatusPending); (Some StatusPending, Some StatusPending);
   (Some StatusPending, Some StatusVerified)].
Proof. vm_compute. reflexivity. Qed.
