(* ===== verification/Loadgen.v ===== *)
(** * Loadgen: the load generator.

    [internal/loadgen/loadgen.go].  Rates and tokens are [float64], computed by
    [Floats.SpecFloat] with its 53 bits.  A run is a sequence of events: the ticker, the
    answers of the gateway, the polls and their ticker, the settle timeout and the
    cancellation of the run, in any order the scheduler may choose; each transfer is a
    goroutine of its own, and the transfers of an account share its bucket.  A latency is
    counted and its value not kept. *)

From Stdlib Require Import SpecFloat.
From S2P Require Import Prelude GoStrings Domain GoTime Json Duration.

#[local] Open Scope string_scope.
#[local] Open Scope Z_scope.

(** ** [float64] *)

Definition f_add : spec_float -> spec_float -> spec_float := SFadd 53 1024.
Definition f_sub : spec_float -> spec_float -> spec_float := SFsub 53 1024.
Definition f_mul : spec_float -> spec_float -> spec_float := SFmul 53 1024.
Definition f_div : spec_float -> spec_float -> spec_float := SFdiv 53 1024.

(** [min(x, y)]: a NaN wins, and of two zeros the negative one. *)
Definition f_min (x y : spec_float) : spec_float :=
  match x, y with
  | S754_nan, _ | _, S754_nan => S754_nan
  | S754_zero sx, S754_zero sy => S754_zero (sx || sy)
  | _, _ => if SFltb y x then y else x
  end.

(** [d.Seconds()] *)
Definition Seconds (d : Z) : spec_float :=
  f_add (float64_of (Z.quot d Second)) (f_div (float64_of (Z.rem d Second)) (float64_of 1000000000)).

(** [time.Duration(x)]: truncated; what is not an [int64] the language does not define. *)
Definition to_int64 (x : spec_float) : option Z :=
  match x with
  | S754_zero _ => Some 0
  | S754_finite s m e =>
      let z := Z.shiftl (Zpos m) e in
      let z := if s then - z else z in
      if (- 2 ^ 63 <=? z) && (z <? 2 ^ 63) then Some z else None
  | _ => None
  end.

(** ** Configuration *)

Definition stateCompleted : string := "COMPLETED".
Definition stateFailed : string := "FAILED".

Module Config.
Record t := mk {
  Rate : spec_float;
  AmountCents : Z;
  SettleTimeout : Z;
  PollInterval : Z;
  UserBudget : spec_float
}.
End Config.

Definition zero : spec_float := float64_of 0.
Definition one : spec_float := float64_of 1.

Definition Validate (config : Config.t) : res string unit :=
  if SFleb config.(Config.Rate) zero then Err "rate must be positive"
  else if config.(Config.AmountCents) <=? 0 then Err "amount must be positive"
  else if config.(Config.SettleTimeout) <=? 0 then Err "settle timeout must be positive"
  else if config.(Config.PollInterval) <=? 0 then Err "poll interval must be positive"
  else if SFleb config.(Config.UserBudget) zero then Err "user budget must be positive"
  else Ok tt.

(** The text of the error names the numbers; it is not spelt out here. *)
Definition pollAllowance (config : Config.t) (accounts : nat) : res string spec_float :=
  let perAccount := f_div config.(Config.Rate) (float64_of (Z.of_nat accounts)) in
  let remaining := f_sub config.(Config.UserBudget) perAccount in
  if SFleb remaining zero then Err "add accounts" else Ok remaining.

Definition Interval (config : Config.t) : option Z := to_int64 (f_div (float64_of Second) config.(Config.Rate)).

(** ** The bucket of an account's polls *)

Module bucket.
Record t := mk {
  tokens : spec_float;
  burst : spec_float;
  rate : spec_float;
  last : time
}.
End bucket.

Definition newBucket (rate burst : spec_float) (now : time) : bucket.t := bucket.mk burst burst rate now.

Definition take (now : time) (b : bucket.t) : bool * bucket.t :=
  let tokens := f_min b.(bucket.burst)
                  (f_add b.(bucket.tokens) (f_mul (Seconds (now - b.(bucket.last))) b.(bucket.rate))) in
  if SFltb tokens one then (false, bucket.mk tokens b.(bucket.burst) b.(bucket.rate) now)
  else (true, bucket.mk (f_sub tokens one) b.(bucket.burst) b.(bucket.rate) now).

(** ** The runner *)

(** The counters; an absent label has counted nothing. *)
Module Metrics.
Record t := mk {
  requests : gmap string Z;
  latency : Z;
  settle : gmap string Z;
  inflight : Z
}.
Definition eta (m : t) : t := mk m.(requests) m.(latency) m.(settle) m.(inflight).
Definition with_requests : gmap string Z -> t -> t := ltac:(derive_setter eta requests).
Definition with_latency : Z -> t -> t := ltac:(derive_setter eta latency).
Definition with_settle : gmap string Z -> t -> t := ltac:(derive_setter eta settle).
Definition with_inflight : Z -> t -> t := ltac:(derive_setter eta inflight).
End Metrics.

Definition NewMetrics : Metrics.t := Metrics.mk ∅ 0 ∅ 0.

Definition count (label : string) (counters : gmap string Z) : Z := default 0 (counters !! label).
Definition inc (label : string) (counters : gmap string Z) : gmap string Z := <[label := count label counters + 1]> counters.

(** Where the goroutine of a transfer is: waiting for the answer of the gateway, about to
    poll, waiting for the ticker or the timeout, or at its end. *)
Inductive goroutine := Requesting | Polling | Waiting | Finished.

Module Runner.
Record t := mk {
  config : Config.t;
  polls : list bucket.t;
  metrics : Metrics.t;
  next : nat;
  transfers : list (nat * goroutine);
  cancelled : bool;
  stopped : bool
}.
Definition eta (r : t) : t :=
  mk r.(config) r.(polls) r.(metrics) r.(next) r.(transfers) r.(cancelled) r.(stopped).
Definition with_polls : list bucket.t -> t -> t := ltac:(derive_setter eta polls).
Definition with_metrics : Metrics.t -> t -> t := ltac:(derive_setter eta metrics).
Definition with_next : nat -> t -> t := ltac:(derive_setter eta next).
Definition with_transfers : list (nat * goroutine) -> t -> t := ltac:(derive_setter eta transfers).
Definition with_cancelled : bool -> t -> t := ltac:(derive_setter eta cancelled).
Definition with_stopped : bool -> t -> t := ltac:(derive_setter eta stopped).
End Runner.

Definition NewRunner (config : Config.t) (accounts : nat) (now : time) : res string Runner.t :=
  let? valid := Validate config in
  if Nat.eqb accounts 0 then Err "at least one account is required"
  else
    let? allowance := pollAllowance config accounts in
    Ok (Runner.mk config (replicate accounts (newBucket allowance (float64_of 10) now)) NewMetrics 0 [] false false).

Definition classifyRequestError (text : string) : string := if Contains text " status=" then "rejected" else "error".

(** [Stop] is [Run] noticing the cancellation: until then it may take a tick that is
    ready as well. *)
Inductive event :=
| Tick
| Cancel
| Stop
| Answered (i : nat) (error : option string)
| Polled (i : nat) (now : time) (status : option string)
| PollTick (i : nat)
| TimedOut (i : nat).

Definition move (i account : nat) (g : goroutine) (r : Runner.t) : Runner.t :=
  Runner.with_transfers (<[i := (account, g)]> r.(Runner.transfers)) r.

(** The end of a settlement, with the deferred decrement of the gauge. *)
Definition settled (i account : nat) (outcome : string) (r : Runner.t) : Runner.t :=
  let m := r.(Runner.metrics) in
  move i account Finished
    (Runner.with_metrics (Metrics.with_inflight (m.(Metrics.inflight) - 1)
                           (Metrics.with_settle (inc outcome m.(Metrics.settle)) m)) r).

(** The first part of [transfer]: the gateway has answered with a payment or an error. *)
Definition answered (i account : nat) (error : option string) (r : Runner.t) : Runner.t :=
  let m := Metrics.with_latency (r.(Runner.metrics).(Metrics.latency) + 1) r.(Runner.metrics) in
  match error with
  | Some text =>
      if r.(Runner.cancelled) then move i account Finished (Runner.with_metrics m r)
      else move i account Finished
             (Runner.with_metrics (Metrics.with_requests (inc (classifyRequestError text) m.(Metrics.requests)) m) r)
  | None =>
      move i account Polling
        (Runner.with_metrics (Metrics.with_inflight (m.(Metrics.inflight) + 1)
                               (Metrics.with_requests (inc "accepted" m.(Metrics.requests)) m)) r)
  end.

(** One round of [awaitSettlement]: a poll if the bucket grants one; [status] is what the
    gateway says then, [None] for an error.  The answer is part of the same event: what
    other goroutines do between the poll and its answer does not meet it. *)
Definition poll (i account : nat) (now : time) (status : option string) (r : Runner.t) : Runner.t :=
  match r.(Runner.polls) !! account with
  | None => r
  | Some b =>
      let '(granted, b') := take now b in
      let r := Runner.with_polls (<[account := b']> r.(Runner.polls)) r in
      if granted then
        match status with
        | Some status =>
            if status =s stateCompleted then settled i account "completed" r
            else if status =s stateFailed then settled i account "failed" r
            else move i account Waiting r
        | None => move i account Waiting r
        end
      else move i account Waiting r
  end.

(** One event; [None] when it cannot happen now. *)
Definition step (e : event) (r : Runner.t) : option Runner.t :=
  match e with
  | Tick =>
      if r.(Runner.stopped) then None
      else Some (Runner.with_next (S r.(Runner.next))
                  (Runner.with_transfers (r.(Runner.transfers) ++
                     [((r.(Runner.next) mod length r.(Runner.polls))%nat, Requesting)])%list r))
  | Cancel => Some (Runner.with_cancelled true r)
  | Stop => if r.(Runner.cancelled) then Some (Runner.with_stopped true r) else None
  | Answered i error =>
      match r.(Runner.transfers) !! i with
      | Some (account, Requesting) => Some (answered i account error r)
      | _ => None
      end
  | Polled i now status =>
      match r.(Runner.transfers) !! i with
      | Some (account, Polling) => Some (poll i account now status r)
      | _ => None
      end
  | PollTick i =>
      match r.(Runner.transfers) !! i with
      | Some (account, Waiting) => Some (move i account Polling r)
      | _ => None
      end
  | TimedOut i =>
      match r.(Runner.transfers) !! i with
      | Some (account, Waiting) => Some (settled i account "timeout" r)
      | _ => None
      end
  end.

(** [Run] has returned: it saw that it was cancelled and has waited for every goroutine. *)
Definition drained (r : Runner.t) : bool :=
  r.(Runner.stopped) && forallb (fun j => match j.2 with Finished => true | _ => false end) r.(Runner.transfers).

Inductive runs (r0 : Runner.t) : Runner.t -> Prop :=
| runs_start : runs r0 r0
| runs_step e r r' : runs r0 r -> step e r = Some r' -> runs r0 r'.

(** ** What the counters mean *)

Definition awaiting (j : nat * goroutine) : Z := match j.2 with Polling | Waiting => 1 | _ => 0 end.
Definition heard (j : nat * goroutine) : Z := match j.2 with Requesting => 0 | _ => 1 end.

Definition requestOutcomes : list string := ["accepted"; "rejected"; "error"].
Definition settleOutcomes : list string := ["completed"; "failed"; "timeout"].

Definition total (counters : gmap string Z) : Z := map_sum id counters.

Definition labelled (allowed : list string) (counters : gmap string Z) : Prop :=
  forall label n, counters !! label = Some n -> label ∈ allowed /\ 0 < n.

Lemma total_inc label counters : total (inc label counters) = total counters + 1.
Proof.
  unfold total, inc, count. destruct (counters !! label) as [n |] eqn:Hl; simpl.
  - rewrite (map_sum_insert _ _ _ n) by done. unfold id. lia.
  - rewrite map_sum_insert_fresh by done. unfold id. lia.
Qed.

Lemma count_inc label counters : count label (inc label counters) = count label counters + 1.
Proof. unfold count at 1, inc. by rewrite lookup_insert_eq. Qed.

Lemma count_inc_ne label label' counters : label <> label' -> count label (inc label' counters) = count label counters.
Proof. intros Hne. unfold count at 1, inc. by rewrite lookup_insert_ne. Qed.

Lemma labelled_inc allowed label counters : label ∈ allowed -> labelled allowed counters -> labelled allowed (inc label counters).
Proof.
  intros Hin Hc label' n. unfold inc. destruct (decide (label = label')) as [-> | Hne].
  - rewrite lookup_insert_eq. intros [= <-]. split; [done |]. unfold count.
    destruct (counters !! label') as [m |] eqn:Hm; simpl; [destruct (Hc _ _ Hm) |]; lia.
  - rewrite lookup_insert_ne by done. apply Hc.
Qed.

Lemma sumZ_update {A} (f : A -> Z) l i x y : l !! i = Some x -> sumZ f (<[i := y]> l) = sumZ f l - f x + f y.
Proof.
  revert i. induction l as [|a l IH]; intros [|i]; simpl; try done; [intros [= ->]; lia |]. intros Hi. rewrite (IH i Hi). lia.
Qed.

Record sound (accounts : nat) (r : Runner.t) : Prop := Sound {
  sound_polls : length r.(Runner.polls) = accounts;
  sound_next : r.(Runner.next) = length r.(Runner.transfers);
  sound_robin : forall i a g, r.(Runner.transfers) !! i = Some (a, g) -> a = (i mod accounts)%nat;
  sound_latency : r.(Runner.metrics).(Metrics.latency) = sumZ heard r.(Runner.transfers);
  sound_inflight : r.(Runner.metrics).(Metrics.inflight) = sumZ awaiting r.(Runner.transfers);
  sound_accepted : count "accepted" r.(Runner.metrics).(Metrics.requests)
                   = r.(Runner.metrics).(Metrics.inflight) + total r.(Runner.metrics).(Metrics.settle);
  sound_requests : total r.(Runner.metrics).(Metrics.requests) <= r.(Runner.metrics).(Metrics.latency);
  sound_request_labels : labelled requestOutcomes r.(Runner.metrics).(Metrics.requests);
  sound_settle_labels : labelled settleOutcomes r.(Runner.metrics).(Metrics.settle)
}.

Lemma robin_move accounts i a g g' (l : list (nat * goroutine)) : l !! i = Some (a, g) ->
  (forall j b h, l !! j = Some (b, h) -> b = (j mod accounts)%nat) ->
  forall j b h, <[i := (a, g')]> l !! j = Some (b, h) -> b = (j mod accounts)%nat.
Proof.
  intros Hi Hl j b h Hj. destruct (decide (i = j)) as [<- | Hne].
  - rewrite list_lookup_insert_eq in Hj by (by eapply lookup_lt_Some). simplify_eq. by eapply Hl.
  - rewrite list_lookup_insert_ne in Hj by done. by eapply Hl.
Qed.

Lemma classify_bounded text : classifyRequestError text ∈ requestOutcomes /\ "accepted" <> classifyRequestError text.
Proof. unfold classifyRequestError. destruct (Contains _ _); split; (done || set_solver). Qed.

(** A goroutine that moves on without touching a counter. *)
Lemma move_sound accounts i a g g' r : r.(Runner.transfers) !! i = Some (a, g) ->
  awaiting (a, g) = awaiting (a, g') -> heard (a, g) = heard (a, g') ->
  sound accounts r -> sound accounts (move i a g' r).
Proof.
  intros Hi Ha Hh []. constructor; simpl; try done; rewrite ?length_insert; try done; [by eapply robin_move | |];
    rewrite (sumZ_update _ _ _ _ _ Hi); lia.
Qed.

Lemma settled_sound accounts i a g outcome r : r.(Runner.transfers) !! i = Some (a, g) -> awaiting (a, g) = 1 ->
  outcome ∈ settleOutcomes -> sound accounts r -> sound accounts (settled i a outcome r).
Proof.
  intros Hi Ha Ho []. assert (heard (a, g) = 1) by (destruct g; done).
  constructor; simpl; rewrite ?length_insert, ?total_inc, ?(sumZ_update _ _ _ _ _ Hi); try done; try lia.
  - by eapply robin_move.
  - change (heard (a, Finished)) with 1. lia.
  - change (awaiting (a, Finished)) with 0. lia.
  - by apply labelled_inc.
Qed.

Lemma answered_sound accounts i a error r : r.(Runner.transfers) !! i = Some (a, Requesting) ->
  sound accounts r -> sound accounts (answered i a error r).
Proof.
  intros Hi []. unfold answered. destruct error as [text |]; [destruct (classify_bounded text); destruct (Runner.cancelled r) |].
  all: constructor; simpl; rewrite ?length_insert, ?total_inc, ?count_inc, ?count_inc_ne, ?(sumZ_update _ _ _ _ _ Hi); try done; try lia;
    try (by eapply robin_move); try (by apply labelled_inc; [set_solver |]); unfold heard, awaiting in *; simpl; lia.
Qed.

Lemma poll_sound accounts i a now status r : r.(Runner.transfers) !! i = Some (a, Polling) ->
  sound accounts r -> sound accounts (poll i a now status r).
Proof.
  intros Hi Hr. unfold poll. destruct (Runner.polls r !! a) as [b |]; [| done]. destruct (take now b) as [granted b'].
  assert (sound accounts (Runner.with_polls (<[a := b']> r.(Runner.polls)) r)) as Hr'
    by (destruct Hr; constructor; simpl; try done; by rewrite length_insert).
  destruct granted; [destruct status; [repeat case_match |] |]; (eapply move_sound + eapply settled_sound); try done; set_solver.
Qed.

Lemma step_sound accounts e r r' : step e r = Some r' -> sound accounts r -> sound accounts r'.
Proof.
  intros Hstep Hr. destruct e as [| | | i error | i now status | i | i]; simpl in Hstep.
  - destruct (Runner.stopped r); [done |]. injection Hstep as <-. destruct Hr.
    constructor; simpl; rewrite ?length_app, ?sumZ_snoc; simpl; try done; try lia.
    + intros i a g [Hi | [Hle Hi]]%lookup_app_Some; [by eapply sound_robin0 |].
      destruct (i - length (Runner.transfers r))%nat as [| k] eqn:Hk; [| by destruct k]. simpl in Hi. injection Hi as <- <-.
      rewrite sound_polls0, sound_next0. by replace i with (length (Runner.transfers r)) by lia.
    + rewrite sound_latency0. change (heard (_, Requesting)) with 0. lia.
    + rewrite sound_inflight0. change (awaiting (_, Requesting)) with 0. lia.
  - injection Hstep as <-. by destruct Hr.
  - destruct (Runner.cancelled r); [| done]. injection Hstep as <-. by destruct Hr.
  - destruct (_ !! i) as [[a []] |] eqn:Hi; try done. injection Hstep as <-. by apply answered_sound.
  - destruct (_ !! i) as [[a []] |] eqn:Hi; try done. injection Hstep as <-. by apply poll_sound.
  - destruct (_ !! i) as [[a []] |] eqn:Hi; try done. injection Hstep as <-. by eapply move_sound.
  - destruct (_ !! i) as [[a []] |] eqn:Hi; try done. injection Hstep as <-. eapply settled_sound; try done. set_solver.
Qed.

Lemma generator_sound accounts r0 r : runs r0 r -> sound accounts r0 -> sound accounts r.
Proof. induction 1; eauto using step_sound. Qed.

Lemma new_sound config accounts now r0 : NewRunner config accounts now = Ok r0 -> (0 < accounts)%nat /\ sound accounts r0.
Proof.
  unfold NewRunner. destruct (Validate config); [| done]. simpl. destruct (Nat.eqb_spec accounts 0); [done |].
  destruct (pollAllowance config accounts); [| done]. simpl. intros [= <-]. split; [lia |].
  constructor; simpl; try done; by rewrite length_replicate.
Qed.

(** The counters add up in every run, in whatever order the goroutines get on: the
    labels are the documented ones, the gauge is the number of accepted transfers that
    are not settled, no request is counted twice, and the accounts take turns.  When
    [Run] has returned, the gauge is back at zero, every transfer has its latency, and
    each accepted one has been settled or timed out, once. *)
Theorem counters_add_up config accounts now r0 r :
  NewRunner config accounts now = Ok r0 -> runs r0 r ->
  let m := r.(Runner.metrics) in
  labelled requestOutcomes m.(Metrics.requests) /\ labelled settleOutcomes m.(Metrics.settle) /\
  m.(Metrics.inflight) = sumZ awaiting r.(Runner.transfers) /\
  total m.(Metrics.requests) <= Z.of_nat r.(Runner.next) /\
  (forall i a g, r.(Runner.transfers) !! i = Some (a, g) -> a = (i mod accounts)%nat /\ (a < accounts)%nat) /\
  (drained r = true -> m.(Metrics.inflight) = 0 /\ m.(Metrics.latency) = Z.of_nat r.(Runner.next) /\
    count "accepted" m.(Metrics.requests) = total m.(Metrics.settle)).
Proof.
  intros Hnew Hruns. destruct (new_sound _ _ _ _ Hnew) as [Hpos H0]. pose proof (generator_sound _ _ _ Hruns H0) as [].
  assert (sumZ heard r.(Runner.transfers) <= Z.of_nat r.(Runner.next)) as Hheard.
  { rewrite sound_next0. generalize (Runner.transfers r) as l. induction l as [|[a []] l IH]; simpl in *; unfold heard in *; simpl in *; lia. }
  split_and!; try done; try lia.
  - intros i a g Hi. rewrite (sound_robin0 i a g Hi). split; [done | apply Nat.mod_upper_bound; lia].
  - intros [_ Hall]%andb_true_iff.
    assert (sumZ awaiting r.(Runner.transfers) = 0 /\ sumZ heard r.(Runner.transfers) = Z.of_nat (length r.(Runner.transfers))) as [Ha Hh].
    { revert Hall. generalize (Runner.transfers r) as l. induction l as [|[a []] l IH]; simpl; try done.
      intros Hl. destruct (IH Hl). unfold awaiting, heard in *. simpl. lia. }
    split_and!; try lia.
Qed.

(** ** Evaluated *)

Definition demo_config (rate : Z) : Config.t := Config.mk (float64_of rate) 1250 (60 * Second) (250000000) (float64_of 1).

(** The bucket of an account grants its ten tokens at one instant and then none. *)
Fixpoint takes (n : nat) (now : time) (b : bucket.t) : list bool :=
  match n with
  | O => []
  | S n => let '(granted, b) := take now b in granted :: takes n now b
  end.

Example bucket_evaluated :
  match pollAllowance (demo_config 5) 20 with
  | Ok allowance => takes 12 0 (newBucket allowance (float64_of 10) 0) = (replicate 10 true ++ [false; false])%list
                    /\ allowance = f_div (float64_of 3) (float64_of 4)
  | Err _ => False
  end.
Proof. vm_compute. done. Qed.

Example intervals_evaluated :
  Interval (demo_config 5) = Some (200000000) /\ Interval (demo_config 3) = Some 333333333 /\
  Validate (demo_config 5) = Ok tt /\ Validate (demo_config 0) = Err "rate must be positive" /\
  pollAllowance (demo_config 5) 4 = Err "add accounts".
Proof. vm_compute. repeat split. Qed.

(** Validation is there to refuse what the ticker cannot honour, and accepts it: with more
    than a thousand million transfers a second the interval is zero, for which
    [time.NewTicker] panics, and a rate that is not a number has no interval at all. *)
Lemma validate_accepts_no_interval :
  (exists r0, NewRunner (Config.mk (float64_of 2000000000) 1250 (60 * Second) (250000000) (float64_of 2000000001)) 1 0 = Ok r0
              /\ Interval r0.(Runner.config) = Some 0) /\
  (exists r0, NewRunner (Config.mk S754_nan 1250 (60 * Second) (250000000) (float64_of 1)) 1 0 = Ok r0
              /\ Interval r0.(Runner.config) = None).
Proof. split; eexists; (split; [vm_compute; reflexivity | vm_compute; reflexivity]). Qed.
